(** * Price to Hours Converter: a shallow embedding of the extension's core

    The development follows the source files:
    - [scripts/converter.js]      : [calculateHours], [formatHours],
                                    [convertPricesToHours], [getTierColor];
    - [utils/shopping-sites.js]   : [isShoppingSite];
    - [scripts/price-detector.js] : [isTimeValue], [isPriceElement],
                                    [parsePrice], [detectPrices],
                                    [markPriceElements];
    - [content/content-script.js] : the presentation controller.

    JavaScript numbers are IEEE 754 binary64 values: they are embedded as
    Rocq's primitive [float]s, whose operations are the same binary64
    operations.  JavaScript strings are embedded as [string]s holding the
    UTF-8 encoding of the text. *)

From Stdlib Require Import Floats ZArith QArith Qround Bool List String Ascii Lia.
From Stdlib Require DecimalString.

Set Warnings "-inexact-float,-register-all".
Import ListNotations.

Local Open Scope string_scope.
Local Open Scope Z_scope.

(** * Completions

    A piece of JavaScript either returns a value or throws. *)

Module Js.

Inductive completion (A : Type) :=
  | Normal (a : A)
  | Throw (error : string).
Arguments Normal {A} a.
Arguments Throw {A} error.

Definition bind {A B} (c : completion A) (f : A -> completion B)
  : completion B :=
  match c with
  | Normal a => f a
  | Throw e => Throw e
  end.

Definition try_catch {A} (body : completion A) (handler : string -> completion A)
  : completion A :=
  match body with
  | Normal a => Normal a
  | Throw e => handler e
  end.

Definition ret {A} (a : A) : completion A := Normal a.

End Js.

Export Js.

Notation "x <- c ;; k" := (bind c (fun x => k))
  (at level 61, c at next level, right associativity).

(** * Strings

    JavaScript text is held as its UTF-8 encoding.  The operations below are
    those the extension uses; a character class lists the encodings of its
    code points. *)

Module Str.

(** UTF-8 encoding of a code point. *)
Definition byte (n : Z) : ascii := ascii_of_N (Z.to_N (n mod 256)).

Definition utf8 (cp : Z) : string :=
  if cp <? 128 then String (byte cp) ""
  else if cp <? 2048 then
    String (byte (192 + cp / 64)) (String (byte (128 + cp mod 64)) "")
  else if cp <? 65536 then
    String (byte (224 + cp / 4096))
      (String (byte (128 + (cp / 64) mod 64))
         (String (byte (128 + cp mod 64)) ""))
  else
    String (byte (240 + cp / 262144))
      (String (byte (128 + (cp / 4096) mod 64))
         (String (byte (128 + (cp / 64) mod 64))
            (String (byte (128 + cp mod 64)) ""))).

Definition lower_ascii (c : ascii) : ascii :=
  let n := N_of_ascii c in
  if ((65 <=? n) && (n <=? 90))%N then ascii_of_N (n + 32) else c.

(** [toLowerCase], on the ASCII letters. *)
Fixpoint toLowerCase (s : string) : string :=
  match s with
  | EmptyString => EmptyString
  | String c s' => String (lower_ascii c) (toLowerCase s')
  end.

(** [starts_with p s]: [p] is a prefix of [s]; [Some rest] is what follows. *)
Fixpoint strip_prefix (p s : string) : option string :=
  match p, s with
  | EmptyString, _ => Some s
  | String a p', String b s' =>
      if Ascii.eqb a b then strip_prefix p' s' else None
  | String _ _, EmptyString => None
  end.

Definition starts_with (p s : string) : bool :=
  match strip_prefix p s with Some _ => true | None => false end.

(** [s.includes(sub)]. *)
Fixpoint includes (s sub : string) : bool :=
  starts_with sub s ||
  match s with
  | EmptyString => false
  | String _ s' => includes s' sub
  end.

(** White space and line terminators ([\s], [trim]). *)
Definition white_space : list string :=
  map utf8
    [9; 10; 11; 12; 13; 32; 160; 5760;
     8192; 8193; 8194; 8195; 8196; 8197; 8198; 8199; 8200; 8201; 8202;
     8232; 8233; 8239; 8287; 12288; 65279].

Fixpoint strip_any (alts : list string) (s : string) : option string :=
  match alts with
  | [] => None
  | a :: alts' =>
      match strip_prefix a s with
      | Some rest => Some rest
      | None => strip_any alts' s
      end
  end.

Fixpoint trimStart_fuel (fuel : nat) (s : string) : string :=
  match fuel with
  | O => s
  | S fuel' =>
      match strip_any white_space s with
      | Some rest => trimStart_fuel fuel' rest
      | None => s
      end
  end.

Definition trimStart (s : string) : string := trimStart_fuel (String.length s) s.

Definition all_white (s : string) : bool :=
  match trimStart s with EmptyString => true | _ => false end.

Fixpoint trimEnd (s : string) : string :=
  if all_white s then EmptyString
  else match s with
       | EmptyString => EmptyString
       | String c s' => String c (trimEnd s')
       end.

Definition trim (s : string) : string := trimEnd (trimStart s).

(** [s.replace(pat, by)] with a string pattern: the first occurrence only. *)
Fixpoint replace_first (pat by_ s : string) : string :=
  match strip_prefix pat s with
  | Some rest => by_ ++ rest
  | None =>
      match s with
      | EmptyString => EmptyString
      | String c s' => String c (replace_first pat by_ s')
      end
  end.

(** The tokens of a white-space separated list (a [class] attribute). *)
Definition is_ascii_space (c : ascii) : bool :=
  let n := N_of_ascii c in
  ((n =? 9) || (n =? 10) || (n =? 12) || (n =? 13) || (n =? 32))%N.

Fixpoint tokens_aux (cur : string) (s : string) : list string :=
  match s with
  | EmptyString => if String.eqb cur "" then [] else [cur]
  | String c s' =>
      if is_ascii_space c
      then (if String.eqb cur "" then [] else [cur]) ++ tokens_aux "" s'
      else tokens_aux (cur ++ String c "") s'
  end.

Definition tokens (s : string) : list string := tokens_aux "" s.

Definition mem (x : string) (l : list string) : bool :=
  existsb (String.eqb x) l.

End Str.

(** * Numbers *)

Module Num.

(** ** The order of binary64 values

    [SFcompare] compares two decoded floats by class, sign, exponent and
    mantissa.  [key] sends every decoded float that is not NaN to a triple of
    integers on which that comparison is the lexicographic order. *)

Definition key (x : spec_float) : option (Z * Z * Z) :=
  match x with
  | S754_nan => None
  | S754_zero _ => Some (0, 0, 0)
  | S754_infinity s => Some (if s then -2 else 2, 0, 0)
  | S754_finite s m e =>
      Some (if s then (-1, - e, Zneg m) else (1, e, Zpos m))
  end.

Definition lex_lt (a b : Z * Z * Z) : Prop :=
  let '(a1, a2, a3) := a in
  let '(b1, b2, b3) := b in
  a1 < b1 \/ (a1 = b1 /\ (a2 < b2 \/ (a2 = b2 /\ a3 < b3))).

Definition lex_eq (a b : Z * Z * Z) : Prop :=
  let '(a1, a2, a3) := a in
  let '(b1, b2, b3) := b in
  a1 = b1 /\ a2 = b2 /\ a3 = b3.

Definition fkey (x : float) : option (Z * Z * Z) := key (Prim2SF x).

(** [x < y], [x <= y] and [x == y] on floats, as propositions on keys. *)
Definition flt (x y : float) : Prop :=
  match fkey x, fkey y with
  | Some a, Some b => lex_lt a b
  | _, _ => False
  end.

Definition feq (x y : float) : Prop :=
  match fkey x, fkey y with
  | Some a, Some b => lex_eq a b
  | _, _ => False
  end.

Definition fle (x y : float) : Prop := flt x y \/ feq x y.

(** ** [Math.round]

    The integer closest to [x], ties going up; the sign of a zero result is
    the sign of [x].  NaN, the infinities and the zeros are returned as they
    are.  A finite [m * 2^e] with [e >= 0] is an integer already; otherwise
    the result is [floor (x + 1/2)], computed on integers. *)

Definition SFround (x : spec_float) : spec_float :=
  match x with
  | S754_finite s m e =>
      if 0 <=? e then x
      else
        let n := (cond_Zopp s (Zpos m) + 2 ^ (- e - 1)) / 2 ^ (- e) in
        binary_normalize prec emax n 0 s
  | _ => x
  end.

Definition Math_round (x : float) : float := SF2Prim (SFround (Prim2SF x)).

(** [isNaN] on a number. *)
Definition isNaN (x : float) : bool := is_nan x.

(** ** The remainder operator [n % d]

    The remainder of a finite dividend by a finite non-zero divisor is exact;
    it has the sign of the dividend. *)

Definition js_rem (n d : float) : float :=
  match Prim2SF n, Prim2SF d with
  | S754_nan, _ | _, S754_nan => nan
  | S754_infinity _, _ => nan
  | _, S754_zero _ => nan
  | _, S754_infinity _ => n
  | S754_zero _, _ => n
  | S754_finite sn mn en, S754_finite _ md ed =>
      let e := Z.min en ed in
      let a := Zpos mn * 2 ^ (en - e) in
      let b := Zpos md * 2 ^ (ed - e) in
      SF2Prim (binary_normalize prec emax (cond_Zopp sn (a mod b)) e sn)
  end.

(** ** Decimal text of integers *)

Definition string_of_Z (z : Z) : string :=
  DecimalString.NilZero.string_of_int (Z.to_int z).

Fixpoint zeros (n : nat) : string :=
  match n with
  | O => EmptyString
  | S n' => String "0" (zeros n')
  end.

(** ** [Number::toString]

    For a finite non-zero [x], the digits are the shortest decimal [s] (with
    [k] digits) such that [s * 10^(n-k)] reads back as [x], closest to [x]
    among those.  A decimal reads back as [x = m * 2^e] when it lies within
    half a gap of [x], the bounds included when [m] is even. *)

Local Open Scope Q_scope.

Definition Qpow10 (n : Z) : Q := Qpower (10 # 1) n.
Definition Qpow2 (n : Z) : Q := Qpower (2 # 1) n.

(** The decimal position [n] of a positive rational:
    [10^(n-1) <= x < 10^n]. *)
Fixpoint adjust_pos (fuel : nat) (x : Q) (n : Z) : Z :=
  match fuel with
  | O => n
  | S fuel' =>
      if negb (Qle_bool (Qpow10 (n - 1)) x) then adjust_pos fuel' x (n - 1)%Z
      else if Qle_bool (Qpow10 n) x then adjust_pos fuel' x (n + 1)%Z
      else n
  end.

Definition decimal_position (x : Q) : Z :=
  let guess :=
    if Qle_bool 1 x
    then Z.of_nat (String.length (string_of_Z (Qfloor x)))
    else (2 - Z.of_nat (String.length (string_of_Z (Qfloor (/ x)))))%Z in
  adjust_pos 4 x guess.

Definition Qlt_bool (a b : Q) : bool := negb (Qle_bool b a).

Section Shortest.
Variables (m : positive) (e : Z).

Definition exact : Q := inject_Z (Zpos m) * Qpow2 e.
Definition upper : Q := inject_Z (2 * Zpos m + 1) * Qpow2 (e - 1).
Definition lower : Q :=
    if (Pos.eqb m 4503599627370496 && Z.ltb (-1074) e)%bool
    then inject_Z (4 * Zpos m - 1) * Qpow2 (e - 2)
    else inject_Z (2 * Zpos m - 1) * Qpow2 (e - 1).

Definition reads_back (q : Q) : bool :=
    if Z.even (Zpos m)
    then (Qle_bool lower q && Qle_bool q upper)%bool
    else (Qlt_bool lower q && Qlt_bool q upper)%bool.

  (** The candidate with [k] digits, if one reads back: the integer next to
      [x / 10^(n-k)] that is closest (the even one on a tie). *)
Definition candidate (n : Z) (k : Z) : option Z :=
    let scale := Qpow10 (n - k) in
    let lo := Qfloor (exact / scale) in
    let hi := (lo + 1)%Z in
    let ok_lo := reads_back (inject_Z lo * scale) in
    let ok_hi := reads_back (inject_Z hi * scale) in
    let d_lo := exact - inject_Z lo * scale in
    let d_hi := inject_Z hi * scale - exact in
    match ok_lo, ok_hi with
    | true, true =>
        if Qlt_bool d_lo d_hi then Some lo
        else if Qlt_bool d_hi d_lo then Some hi
        else Some (if Z.even lo then lo else hi)
    | true, false => Some lo
    | false, true => Some hi
    | false, false => None
    end.

Fixpoint shortest_from (fuel : nat) (n : Z) (k : Z) : Z * Z * Z :=
    match fuel with
    | O => (Zpos m, 1%Z, 1%Z)
    | S fuel' =>
        match candidate n k with
        | Some s =>
            if (s =? 10 ^ k)%Z then (1%Z, 1%Z, (n + 1)%Z) else (s, k, n)
        | None => shortest_from fuel' n (k + 1)%Z
        end
    end.

  (** [(s, k, n)] of the specification of [Number::toString]. *)
Definition shortest : Z * Z * Z :=
    shortest_from 17 (decimal_position exact) 1.
End Shortest.

Local Close Scope Q_scope.

Definition positive_toString (m : positive) (e : Z) : string :=
  let '(s, k, n) := shortest m e in
  let digits := string_of_Z s in
  if (k <=? n) && (n <=? 21) then
    digits ++ zeros (Z.to_nat (n - k))
  else if (0 <? n) && (n <=? 21) then
    substring 0 (Z.to_nat n) digits ++ "." ++
    substring (Z.to_nat n) (Z.to_nat (k - n)) digits
  else if (-6 <? n) && (n <=? 0) then
    "0." ++ zeros (Z.to_nat (- n)) ++ digits
  else
    let ex := n - 1 in
    let sign := if ex <? 0 then "-" else "+" in
    let mant :=
      if k =? 1 then digits
      else substring 0 1 digits ++ "." ++
           substring 1 (Z.to_nat (k - 1)) digits in
    mant ++ "e" ++ sign ++ string_of_Z (Z.abs ex).

Definition Number_toString (x : float) : string :=
  match Prim2SF x with
  | S754_nan => "NaN"
  | S754_zero _ => "0"
  | S754_infinity s => if s then "-Infinity" else "Infinity"
  | S754_finite s m e =>
      (if s then "-" else "") ++ positive_toString m e
  end.

(** ** [parseFloat]

    The longest prefix that is a decimal literal, after leading white space:
    a sign, then "Infinity" or digits with an optional fraction and an
    optional exponent.  The value is the decimal rounded to the nearest
    binary64 number. *)

Definition digit_value (c : ascii) : option Z :=
  let n := Z.of_N (N_of_ascii c) in
  if (48 <=? n) && (n <=? 57) then Some (n - 48) else None.

(** Reads digits: the number they spell after [acc], how many there were,
    and what follows. *)
Fixpoint read_digits (acc : Z) (count : nat) (s : string) : Z * nat * string :=
  match s with
  | EmptyString => (acc, count, s)
  | String c s' =>
      match digit_value c with
      | Some d => read_digits (10 * acc + d) (S count) s'
      | None => (acc, count, s)
      end
  end.

Definition read_sign (s : string) : bool * string :=
  match s with
  | String "-" s' => (true, s')
  | String "+" s' => (false, s')
  | _ => (false, s)
  end.

(** The exponent part [e[+-]digits], if there is one. *)
Definition read_exponent (s : string) : Z :=
  match s with
  | String c s' =>
      if (Ascii.eqb c "e" || Ascii.eqb c "E")%bool then
        let '(neg, s'') := read_sign s' in
        let '(ex, n, _) := read_digits 0 0 s'' in
        match n with
        | O => 0
        | _ => if neg then - ex else ex
        end
      else 0
  | EmptyString => 0
  end.

(** The binary64 number nearest to [d * 10^k] (ties to even). *)
Definition decimal_to_float (neg : bool) (d : Z) (k : Z) : float :=
  match d with
  | Zpos m =>
      if 0 <=? k
      then SF2Prim (binary_normalize prec emax
                      (cond_Zopp neg (Zpos m * 10 ^ k)) 0 neg)
      else SF2Prim (SFdiv prec emax (S754_finite neg m 0)
                      (S754_finite false (Z.to_pos (10 ^ (- k))) 0))
  | _ => if neg then PrimFloat.neg_zero else PrimFloat.zero
  end.

Definition parseFloat (text : string) : float :=
  let s := Str.trimStart text in
  let '(neg, s1) := read_sign s in
  if String.eqb (substring 0 8 s1) "Infinity"
  then (if neg then neg_infinity else infinity)
  else
    let '(int_part, n_int, s2) := read_digits 0 0 s1 in
    let '(mant, n_frac, s3) :=
      match s2 with
      | String "." s2' => read_digits int_part 0 s2'
      | _ => (int_part, O, s2)
      end in
    match n_int, n_frac with
    | O, O => nan
    | _, _ => decimal_to_float neg mant (read_exponent s3 - Z.of_nat n_frac)
    end.

(** [shl k m] is the mantissa [m] followed by [k] zero bits (used to state
    how rounding undoes a multiplication by a power of two). *)
Fixpoint shl (k : nat) (m : positive) : positive :=
  match k with
  | O => m
  | S k' => xO (shl k' m)
  end.

End Num.

Export Num.

(** * The converter ([scripts/converter.js]) *)

Module Converter.

(** The JavaScript values the converter can be handed. *)
Inductive value :=
  | VUndefined
  | VNull
  | VBool (b : bool)
  | VNum (x : float)
  | VStr (s : string).

(** [calculateHours]: [None] is the [null] sentinel. *)
Definition calculateHours (price hourlyWage : value) : option float :=
  match price, hourlyWage with
  | VNum p, VNum w =>
      if isNaN p || isNaN w || (p <? 0)%float || (w <=? 0)%float
      then None
      else Some (p / w)%float
  | _, _ => None
  end.

(** [formatHours]: the argument is [null] or a number, as [calculateHours]
    produces it.  The template literal is [Number::toString] followed by
    "h". *)
Definition formatHours (hours : option float) : string :=
  match hours with
  | None => "N/A"
  | Some h =>
      if isNaN h || (h <? 0)%float then "N/A"
      else
        let roundedToHalfHour := (Math_round (h * 2) / 2)%float in
        if (roundedToHalfHour <? 0.25)%float then "< 0.5h"
        else if (js_rem roundedToHalfHour 1 =? 0)%float
             then Number_toString roundedToHalfHour ++ "h"
             else Number_toString roundedToHalfHour ++ "h"
  end.

Definition convertPriceToHours (price hourlyWage : value) : string :=
  formatHours (calculateHours price hourlyWage).

Record ConversionResult := {
  cr_price : float;
  cr_hours : option float;
  cr_formatted : string
}.

Definition convertPricesToHours (prices : list float) (hourlyWage : value)
  : list ConversionResult :=
  map (fun price =>
         let hours := calculateHours (VNum price) hourlyWage in
         {| cr_price := price;
            cr_hours := hours;
            cr_formatted := formatHours hours |})
      prices.

(** Tier settings as the settings page stores them. *)
Record TierSettings := {
  tier_type : string;
  green : float;
  yellow : float;
  red : float
}.

(** [getTierColor]: [None] for the settings is a missing (falsy) object. *)
Definition getTierColor (value_ : value) (tierSettings : option TierSettings)
  : string :=
  match tierSettings, value_ with
  | Some ts, VNum v =>
      if isNaN v then "yellow"
      else if (green ts =? 0)%float && (v =? 0)%float then "green"
      else if (v <? green ts)%float then "green"
      else if (green ts <=? v)%float && (v <=? yellow ts)%float then "yellow"
      else if (yellow ts <? v)%float then "red"
      else "yellow"
  | _, _ => "yellow"
  end.

Definition getTierBackgroundColor (tier : string) : string :=
  if String.eqb tier "green" then "#d4edda"
  else if String.eqb tier "yellow" then "#fef3c7"
  else if String.eqb tier "red" then "#f8d7da"
  else "#fef3c7".

(** The invariant of tier settings: [0 <= green <= yellow <= red]. *)
Definition well_formed (ts : TierSettings) : Prop :=
  (0 <=? green ts)%float = true /\
  (green ts <=? yellow ts)%float = true /\
  (yellow ts <=? red ts)%float = true.

End Converter.

(** * Regular expressions

    The patterns of the source are written in this syntax and run by a
    backtracking matcher with the priorities of the JavaScript one: the
    first alternative first, as many repetitions as possible first. *)

Module Regex.

Import Str.

Inductive regex :=
  | Eps
  | Cls (alts : list string)
  | Seq (r1 r2 : regex)
  | Alt (r1 r2 : regex)
  | Star (r : regex)
  | Ahead (r : regex).

Definition Opt (r : regex) : regex := Alt r Eps.
Definition Plus (r : regex) : regex := Seq r (Star r).

Fixpoint Lit (s : string) : regex :=
  match s with
  | EmptyString => Eps
  | String c s' => Seq (Cls [String c ""]) (Lit s')
  end.

Fixpoint Alts (l : list regex) : regex :=
  match l with
  | [] => Cls []
  | [r] => r
  | r :: l' => Alt r (Alts l')
  end.

Fixpoint Seqs (l : list regex) : regex :=
  match l with
  | [] => Eps
  | [r] => r
  | r :: l' => Seq r (Seqs l')
  end.

Fixpoint Times (n : nat) (r : regex) : regex :=
  match n with
  | O => Eps
  | S n' => Seq r (Times n' r)
  end.

(** [r{1,n}], greedy. *)
Fixpoint UpTo (n : nat) (r : regex) : regex :=
  match n with
  | O => Eps
  | S n' => Opt (Seq r (UpTo n' r))
  end.

Definition digit : regex :=
  Cls ["0"; "1"; "2"; "3"; "4"; "5"; "6"; "7"; "8"; "9"].
Definition space : regex := Cls white_space.

(** One character of a class at the head of [s]; with [icase] the letters
    are compared without case. *)
Fixpoint strip_class (icase : bool) (alts : list string) (s : string)
  : option string :=
  match alts with
  | [] => None
  | a :: alts' =>
      let hit :=
        if icase
        then match strip_prefix (toLowerCase a)
                     (toLowerCase (substring 0 (String.length a) s)) with
             | Some _ => Some (substring (String.length a)
                                 (String.length s - String.length a) s)
             | None => None
             end
        else strip_prefix a s in
      match hit with
      | Some rest => Some rest
      | None => strip_class icase alts' s
      end
  end.

(** [run icase r s k]: match [r] at the head of [s], then [k] on the rest;
    the first success in priority order. *)
Fixpoint run (icase : bool) (r : regex) (s : string)
  (k : string -> option string) {struct r} : option string :=
  match r with
  | Eps => k s
  | Cls alts =>
      match strip_class icase alts s with
      | Some rest => k rest
      | None => None
      end
  | Seq r1 r2 => run icase r1 s (fun s' => run icase r2 s' k)
  | Alt r1 r2 =>
      match run icase r1 s k with
      | Some x => Some x
      | None => run icase r2 s k
      end
  | Star r1 =>
      (fix loop (fuel : nat) (s : string) {struct fuel} : option string :=
         match fuel with
         | O => k s
         | S fuel' =>
             match run icase r1 s
                     (fun s' =>
                        if (String.length s' <? String.length s)%nat
                        then loop fuel' s' else None) with
             | Some x => Some x
             | None => k s
             end
         end) (String.length s) s
  | Ahead r1 =>
      match run icase r1 s (fun _ => Some EmptyString) with
      | Some _ => k s
      | None => None
      end
  end.

(** A pattern with its flags: [anchored] is a leading [^]. *)
Record pattern := {
  anchored : bool;
  ignore_case : bool;
  body : regex
}.

Definition re (r : regex) : pattern :=
  {| anchored := false; ignore_case := false; body := r |}.
Definition re_i (r : regex) : pattern :=
  {| anchored := false; ignore_case := true; body := r |}.
Definition re_anchored (r : regex) : pattern :=
  {| anchored := true; ignore_case := false; body := r |}.

(** The match at the head of [s]: what follows it. *)
Definition match_here (p : pattern) (s : string) : option string :=
  run (ignore_case p) (body p) s (fun rest => Some rest).

(** The leftmost match in [s]: the text before it, the match, the text
    after it. *)
Fixpoint search_from (p : pattern) (before s : string)
  : option (string * string * string) :=
  match match_here p s with
  | Some rest =>
      Some (before,
            substring 0 (String.length s - String.length rest) s, rest)
  | None =>
      match s with
      | EmptyString => None
      | String c s' => search_from p (before ++ String c "") s'
      end
  end.

Definition search (p : pattern) (s : string)
  : option (string * string * string) :=
  if anchored p then
    match match_here p s with
    | Some rest =>
        Some (EmptyString,
              substring 0 (String.length s - String.length rest) s, rest)
    | None => None
    end
  else search_from p EmptyString s.

(** [pattern.test(s)]. *)
Definition test (p : pattern) (s : string) : bool :=
  match search p s with Some _ => true | None => false end.

(** [s.match(pattern)] with the [g] flag: every match, left to right. *)
Fixpoint match_all_fuel (fuel : nat) (p : pattern) (s : string) : list string :=
  match fuel with
  | O => []
  | S fuel' =>
      match search_from p EmptyString s with
      | None => []
      | Some (_, m, rest) =>
          m :: (if String.eqb m ""
                then match rest with
                     | EmptyString => []
                     | String _ rest' => match_all_fuel fuel' p rest'
                     end
                else match_all_fuel fuel' p rest)
      end
  end.

Definition match_all (p : pattern) (s : string) : list string :=
  match_all_fuel (S (S (String.length s))) p s.

(** [s.replace(pattern, by)] with the [g] flag. *)
Fixpoint replace_all_fuel (fuel : nat) (p : pattern) (by_ s : string) : string :=
  match fuel with
  | O => s
  | S fuel' =>
      match match_here p s with
      | Some rest =>
          if (String.length rest <? String.length s)%nat
          then by_ ++ replace_all_fuel fuel' p by_ rest
          else
            match s with
            | EmptyString => by_
            | String c s' => by_ ++ String c (replace_all_fuel fuel' p by_ s')
            end
      | None =>
          match s with
          | EmptyString => EmptyString
          | String c s' => String c (replace_all_fuel fuel' p by_ s')
          end
      end
  end.

Definition replace_all (p : pattern) (by_ s : string) : string :=
  replace_all_fuel (S (String.length s)) p by_ s.

End Regex.

(** * The site classifier ([utils/shopping-sites.js]) *)

Module SiteClassifier.

Import Str.

Definition SHOPPING_SITES : list string :=
  ["amazon.com"; "amazon.co.uk"; "amazon.ca"; "amazon.de"; "ebay.com";
   "etsy.com"; "walmart.com"; "target.com"; "bestbuy.com"; "newegg.com";
   "shopify.com"; "shop.com"; "zappos.com"; "overstock.com"; "wayfair.com";
   "homedepot.com"; "lowes.com"; "macys.com"; "nordstrom.com"; "sephora.com";
   "ulta.com"; "asos.com"; "zara.com"; "h&m.com"; "gap.com"; "oldnavy.com";
   "bananarepublic.com"; "athleta.com"; "adidas.com"; "nike.com"; "puma.com";
   "underarmour.com"].

Definition SHOPPING_KEYWORDS : list string :=
  ["shop"; "store"; "buy"; "cart"; "checkout"; "product"; "purchase";
   "merchandise"].

(** The two fields read from a URL object. *)
Record URL := {
  hostname : string;
  pathname : string
}.

Section IsShoppingSite.

(** [new URL(url)] belongs to the platform: it returns a URL object or
    throws a [TypeError]. *)
Variable new_URL : string -> completion URL.

Definition isShoppingSite (url : string) : completion bool :=
  try_catch
    (bind (new_URL url) (fun urlObj =>
       let hostname := toLowerCase (hostname urlObj) in
       let pathname := toLowerCase (pathname urlObj) in
       if existsb (fun site => includes hostname site) SHOPPING_SITES
       then Normal true
       else if existsb (fun keyword =>
                          includes hostname keyword || includes pathname keyword)
                       SHOPPING_KEYWORDS
       then Normal true
       else Normal false))
    (fun error => Normal false).

End IsShoppingSite.

(** ** A parser for absolute addresses

    The part of the platform's URL parser that the examples need: an
    address [scheme://host/path?query#fragment] with an optional user and
    port.  The scheme starts with a letter and runs up to the first colon;
    an address without one has no base to resolve against and is
    rejected. *)

Definition is_alpha (c : ascii) : bool :=
  let n := N_of_ascii (lower_ascii c) in ((97 <=? n) && (n <=? 122))%N.

Definition is_scheme_char (c : ascii) : bool :=
  let n := N_of_ascii c in
  is_alpha c || ((48 <=? n) && (n <=? 57))%N ||
  (n =? 43)%N || (n =? 45)%N || (n =? 46)%N.

(** Splits at the first character satisfying [stop]. *)
Fixpoint split_at (stop : ascii -> bool) (s : string) : string * string :=
  match s with
  | EmptyString => (EmptyString, EmptyString)
  | String c s' =>
      if stop c then (EmptyString, s)
      else let '(a, b) := split_at stop s' in (String c a, b)
  end.

Definition char_is (x : string) (c : ascii) : bool := includes x (String c "").

Fixpoint all_chars (f : ascii -> bool) (s : string) : bool :=
  match s with
  | EmptyString => true
  | String c s' => f c && all_chars f s'
  end.

Fixpoint after_last_at (s : string) : string :=
  match s with
  | EmptyString => EmptyString
  | String c s' =>
      if includes s' "@" then after_last_at s' else
      if Ascii.eqb c "@" then s' else s
  end.

Definition URL_parse (url : string) : completion URL :=
  let input := trim url in
  match input with
  | EmptyString => Throw "TypeError"
  | String c _ =>
      if negb (is_alpha c) then Throw "TypeError"
      else
        let '(scheme, rest) := split_at (char_is ":") input in
        if negb (all_chars is_scheme_char scheme) then Throw "TypeError"
        else
          match strip_prefix "://" rest with
          | None => Throw "TypeError"
          | Some rest' =>
              let '(authority, tail) := split_at (char_is "/?#") rest' in
              let '(host, _) := split_at (char_is ":") (after_last_at authority) in
              let '(path, _) := split_at (char_is "?#") tail in
              if String.eqb host "" then Throw "TypeError"
              else if negb (all_chars (fun c => negb (char_is " <>[]^|%\" c)) host)
              then Throw "TypeError"
              else Normal {| hostname := toLowerCase host;
                             pathname := if String.eqb path "" then "/" else path |}
          end
  end.

End SiteClassifier.

(** * The document

    The document is the tree of its nodes, rooted at the [html] element.
    An element carries its identity [eid]; the code's references to elements
    are these identities, and an element that has been removed from the tree
    is one whose identity is no longer found in it.  Elements are HTML
    elements: [className] and [id] are the strings of the [class] and [id]
    attributes. *)

Module Dom.

Import Str.

Record Element := {
  eid : nat;
  tag : string;
  attrs : list (string * string);
  style : list (string * string)
}.

Inductive node :=
  | Text (data : string)
  | Elem (e : Element) (children : list node).

(** ** Attributes and inline style *)

Fixpoint assoc (k : string) (l : list (string * string)) : option string :=
  match l with
  | [] => None
  | (k', v) :: l' => if String.eqb k k' then Some v else assoc k l'
  end.

Fixpoint assoc_set (k v : string) (l : list (string * string))
  : list (string * string) :=
  match l with
  | [] => [(k, v)]
  | (k', v') :: l' =>
      if String.eqb k k' then (k, v) :: l' else (k', v') :: assoc_set k v l'
  end.

Fixpoint assoc_remove (k : string) (l : list (string * string))
  : list (string * string) :=
  match l with
  | [] => []
  | (k', v') :: l' =>
      if String.eqb k k' then assoc_remove k l' else (k', v') :: assoc_remove k l'
  end.

Definition getAttribute (e : Element) (name : string) : option string :=
  assoc name (attrs e).

Definition hasAttribute (e : Element) (name : string) : bool :=
  match getAttribute e name with Some _ => true | None => false end.

Definition setAttribute (name value : string) (e : Element) : Element :=
  {| eid := eid e; tag := tag e;
     attrs := assoc_set name value (attrs e); style := style e |}.

Definition removeAttribute (name : string) (e : Element) : Element :=
  {| eid := eid e; tag := tag e;
     attrs := assoc_remove name (attrs e); style := style e |}.

Definition attr_or_empty (e : Element) (name : string) : string :=
  match getAttribute e name with Some v => v | None => "" end.

Definition className (e : Element) : string := attr_or_empty e "class".
Definition id_of (e : Element) : string := attr_or_empty e "id".

Definition classList_contains (e : Element) (token : string) : bool :=
  mem token (tokens (className e)).

(** ** The inline style

    [element.style] is a CSS declaration block.  The field [style] holds
    the longhand properties that are set, each with its value in serialised
    form; the properties bear the names by which the scripts reach them
    ([backgroundColor], [paddingLeft]), and priorities are left out.  What a
    text means as the value of a property and how a shorthand is written
    belong to the CSS engine of the browser:
    - [longhands p] are the longhands of the shorthand [p], and none when
      [p] is a longhand;
    - [parse p text] are the declarations that [text] stands for as the
      value of [p], one for each longhand of [p] with its value in
      serialised form, and [None] when [text] is not a value of [p];
    - [serialize p values] is the text of the shorthand [p] whose longhands
      have these values, and empty when there is no such text. *)
Record engine := {
  longhands : string -> list string;
  parse : string -> string -> option (list (string * string));
  serialize : string -> list string -> string
}.

(** The properties of a block that [p] stands for. *)
Definition affected (css : engine) (p : string) : list string :=
  match longhands css p with
  | [] => [p]
  | ls => ls
  end.

(** The values of the properties [ps] in a block, when all of them are
    set. *)
Fixpoint declared (block : list (string * string)) (ps : list string)
  : option (list string) :=
  match ps with
  | [] => Some []
  | p :: ps' =>
      match assoc p block, declared block ps' with
      | Some v, Some vs => Some (v :: vs)
      | _, _ => None
      end
  end.

Definition with_style (block : list (string * string)) (e : Element)
  : Element :=
  {| eid := eid e; tag := tag e; attrs := attrs e; style := block |}.

(** [element.style.prop]: the value of a longhand; the text of a shorthand
    when all its longhands are set; the empty string otherwise. *)
Definition style_get (css : engine) (e : Element) (prop : string) : string :=
  match longhands css prop with
  | [] => match assoc prop (style e) with Some v => v | None => "" end
  | ls =>
      match declared (style e) ls with
      | Some vs => serialize css prop vs
      | None => ""
      end
  end.

(** [element.style.prop = value]: the empty string removes the property,
    that is, its longhands; a text that is not a value of the property
    changes nothing; any other text sets the declarations it stands for. *)
Definition style_set (css : engine) (prop value : string) (e : Element)
  : Element :=
  if String.eqb value "" then
    with_style
      (fold_left (fun block p => assoc_remove p block) (affected css prop)
         (style e))
      e
  else
    match parse css prop value with
    | Some declarations =>
        with_style
          (fold_left (fun block d => assoc_set (fst d) (snd d) block)
             declarations (style e))
          e
    | None => e
    end.

(** A declaration in serialised form: a longhand with a value that the
    engine reads as itself. *)
Definition serialised (css : engine) (d : string * string) : Prop :=
  longhands css (fst d) = [] /\ parse css (fst d) (snd d) = Some [d].

(** What the CSS object model asks of an engine: a value sets the longhands
    of its property, each once; what the engine puts in a block is in
    serialised form; and the text of a shorthand stands for longhands that
    are written as that text. *)
Record lawful (css : engine) : Prop := {
  longhands_distinct : forall p, NoDup (longhands css p);
  parse_affected :
    forall p text ds, parse css p text = Some ds ->
                      map fst ds = affected css p;
  parse_serialised :
    forall p text ds, parse css p text = Some ds ->
                      Forall (serialised css) ds;
  serialize_parse :
    forall p vs,
      longhands css p <> [] ->
      Forall (serialised css) (combine (longhands css p) vs) ->
      List.length vs = List.length (longhands css p) ->
      serialize css p vs <> "" ->
      exists ds, parse css p (serialize css p vs) = Some ds /\
                 serialize css p (map snd ds) = serialize css p vs
}.

(** The properties [props] share no longhand. *)
Definition separate (css : engine) (props : list string) : Prop :=
  forall p q a, In p props -> In q props -> p <> q ->
                In a (affected css p) -> ~ In a (affected css q).

(** ** Text *)

Fixpoint textContent (n : node) : string :=
  match n with
  | Text s => s
  | Elem _ children =>
      (fix all (l : list node) : string :=
         match l with
         | [] => EmptyString
         | c :: l' => textContent c ++ all l'
         end) children
  end.

Definition text_of (children : list node) : string :=
  textContent (Elem {| eid := 0; tag := ""; attrs := []; style := [] |} children).

(** The children that assigning [textContent] leaves. *)
Definition text_children (s : string) : list node :=
  if String.eqb s "" then [] else [Text s].

(** ** Elements in their context

    A [frame] is an element with its children; a [path] is an element
    followed by its ancestors, the nearest first. *)

Definition frame := (Element * list node)%type.
Definition path := list frame.

Fixpoint elements_of (up : path) (n : node) : list path :=
  match n with
  | Text _ => []
  | Elem e children =>
      let here := (e, children) :: up in
      here :: flat_map (elements_of here) children
  end.

(** The text nodes below [n] in document order, each with the path of its
    parent element. *)
Fixpoint texts_of (up : path) (n : node) : list (string * path) :=
  match n with
  | Text s => [(s, up)]
  | Elem e children =>
      flat_map (texts_of ((e, children) :: up)) children
  end.

Definition path_id (p : path) : option nat :=
  match p with
  | (e, _) :: _ => Some (eid e)
  | [] => None
  end.

Definition has_id (x : nat) (p : path) : bool :=
  match p with
  | (e, _) :: _ => Nat.eqb (eid e) x
  | [] => false
  end.

(** The element with identity [x] in the document, with its context. *)
Definition locate (doc : node) (x : nat) : option path :=
  find (has_id x) (elements_of [] doc).

Definition element_at (doc : node) (x : nat) : option Element :=
  match locate doc x with
  | Some ((e, _) :: _) => Some e
  | _ => None
  end.

(** The inline style of the element [x] of the document. *)
Definition style_at (css : engine) (doc : node) (x : nat) (prop : string)
  : string :=
  match element_at doc x with
  | Some e => style_get css e prop
  | None => ""
  end.

(** [document.body]: the first [body] child of the root. *)
Definition is_body (n : node) : bool :=
  match n with
  | Elem e _ => String.eqb (tag e) "body"
  | Text _ => false
  end.

Definition body_of (doc : node) : option path :=
  match doc with
  | Elem e children =>
      match find is_body children with
      | Some (Elem b kids) => Some [(b, kids); (e, children)]
      | _ => None
      end
  | Text _ => None
  end.

(** [a.contains(b)] for the element at path [a]: [b] is [a] or below it. *)
Definition contains (a : path) (x : nat) : bool :=
  match a with
  | (e, children) :: up =>
      existsb (has_id x) (elements_of up (Elem e children))
  | [] => false
  end.

(** ** Selectors *)

Inductive simple :=
  | AttrContains (name value : string)
  | AttrEquals (name value : string)
  | HasAttr (name : string)
  | Class (token : string)
  | Id (value : string)
  | Tag (name : string)
  | Not (s : simple).

(** A compound selector is a conjunction; a complex selector is a chain of
    compounds joined by the descendant combinator, the subject first; a
    selector list is a disjunction. *)
Definition compound := list simple.
Definition complex := list compound.
Definition selector := list complex.

Fixpoint matches_simple (e : Element) (s : simple) : bool :=
  match s with
  | AttrContains name value =>
      match getAttribute e name with
      | Some v => negb (String.eqb value "") && includes v value
      | None => false
      end
  | AttrEquals name value =>
      match getAttribute e name with
      | Some v => String.eqb v value
      | None => false
      end
  | HasAttr name => hasAttribute e name
  | Class token => classList_contains e token
  | Id value => hasAttribute e "id" && String.eqb (id_of e) value
  | Tag name => String.eqb (tag e) name
  | Not s' => negb (matches_simple e s')
  end.

Definition matches_compound (e : Element) (c : compound) : bool :=
  forallb (matches_simple e) c.

(** Some ancestor matches [c], and the rest of the chain matches above
    it. *)
Fixpoint matches_above (up : path) (chain : complex) : bool :=
  match chain with
  | [] => true
  | c :: chain' =>
      (fix scan (l : path) : bool :=
         match l with
         | [] => false
         | (a, _) :: l' =>
             (matches_compound a c && matches_above l' chain') || scan l'
         end) up
  end.

Definition matches_complex (p : path) (chain : complex) : bool :=
  match p, chain with
  | (e, _) :: up, subject :: chain' =>
      matches_compound e subject && matches_above up chain'
  | _, _ => false
  end.

Definition matches (p : path) (sel : selector) : bool :=
  existsb (matches_complex p) sel.

(** [querySelectorAll] from the root, and below an element. *)
Definition querySelectorAll (doc : node) (sel : selector) : list path :=
  filter (fun p => matches p sel) (elements_of [] doc).

Definition querySelector_in (p : path) (sel : selector) : option path :=
  match p with
  | (e, children) :: up =>
      find (fun q => matches q sel)
           (flat_map (elements_of ((e, children) :: up)) children)
  | [] => None
  end.

(** [element.closest(sel)]: the element or its nearest ancestor that
    matches. *)
Fixpoint closest (p : path) (sel : selector) : option path :=
  match p with
  | [] => None
  | f :: up => if matches (f :: up) sel then Some (f :: up) else closest up sel
  end.

Definition is_some {A} (o : option A) : bool :=
  match o with Some _ => true | None => false end.

(** ** Updates *)

(** Applies [f] to the element [x] and its children, wherever it is. *)
Fixpoint update (x : nat) (f : frame -> frame) (n : node) : node :=
  match n with
  | Text s => Text s
  | Elem e children =>
      let children' := map (update x f) children in
      if Nat.eqb (eid e) x
      then let '(e', c') := f (e, children') in Elem e' c'
      else Elem e children'
  end.

Definition update_element (x : nat) (f : Element -> Element) (doc : node) : node :=
  update x (fun fr => (f (fst fr), snd fr)) doc.

Definition set_children (x : nat) (children : list node) (doc : node) : node :=
  update x (fun fr => (fst fr, children)) doc.

Definition is_element (x : nat) (n : node) : bool :=
  match n with
  | Elem e _ => Nat.eqb (eid e) x
  | Text _ => false
  end.

(** Inserts [new] as the next sibling of the element [x]. *)
Fixpoint insert_after (x : nat) (new : node) (n : node) : node :=
  match n with
  | Text s => Text s
  | Elem e children =>
      Elem e
        ((fix go (l : list node) : list node :=
            match l with
            | [] => []
            | c :: l' =>
                if is_element x c
                then insert_after x new c :: new :: go l'
                else insert_after x new c :: go l'
            end) children)
  end.

(** Removes every element satisfying [p], with what is below it. *)
Fixpoint remove_where (p : Element -> bool) (n : node) : node :=
  match n with
  | Text s => Text s
  | Elem e children =>
      Elem e
        ((fix go (l : list node) : list node :=
            match l with
            | [] => []
            | c :: l' =>
                match c with
                | Text s => Text s :: go l'
                | Elem ce _ =>
                    if p ce then go l' else remove_where p c :: go l'
                end
            end) children)
  end.

(** ** Markup

    [innerHTML] is held as the forest it denotes: the children with their
    identities erased.  Assigning it builds that forest again from fresh
    nodes. *)

Fixpoint erase (n : node) : node :=
  match n with
  | Text s => Text s
  | Elem e children =>
      Elem {| eid := 0; tag := tag e; attrs := attrs e; style := style e |}
           (map erase children)
  end.

Definition innerHTML (children : list node) : list node := map erase children.

(** Gives the elements of a forest the identities [next], [next + 1], ... in
    document order; returns the first identity not used. *)
Fixpoint instantiate (next : nat) (n : node) : node * nat :=
  match n with
  | Text s => (Text s, next)
  | Elem e children =>
      let '(children', next') :=
        (fix go (next : nat) (l : list node) {struct l} : list node * nat :=
           match l with
           | [] => ([], next)
           | c :: l' =>
               let '(c', n1) := instantiate next c in
               let '(l'', n2) := go n1 l' in
               (c' :: l'', n2)
           end) (S next) children in
      (Elem {| eid := next; tag := tag e; attrs := attrs e; style := style e |}
            children', next')
  end.

Fixpoint instantiate_all (next : nat) (l : list node) : list node * nat :=
  match l with
  | [] => ([], next)
  | c :: l' =>
      let '(c', n1) := instantiate next c in
      let '(l'', n2) := instantiate_all n1 l' in
      (c' :: l'', n2)
  end.

(** The elements of a tree in document order, and their identities. *)
Fixpoint elems (n : node) : list Element :=
  match n with
  | Text _ => []
  | Elem e children => e :: flat_map elems children
  end.

Definition ids (n : node) : list nat := map eid (elems n).

(** The number of elements of a tree that satisfy [q]. *)
Definition count_where (q : Element -> bool) (n : node) : nat :=
  List.length (filter q (elems n)).

Definition count_in (q : Element -> bool) (l : list node) : nat :=
  list_sum (map (count_where q) l).

Definition has_eid (a : nat) (e : Element) : bool := Nat.eqb (eid e) a.

(** The identities of the elements below the root. *)
Definition inner_ids (n : node) : list nat :=
  match n with
  | Text _ => []
  | Elem _ children => flat_map ids children
  end.

(** The elements of a tree, each with its children, in document order. *)
Fixpoint frames (n : node) : list frame :=
  match n with
  | Text _ => []
  | Elem e children => (e, children) :: flat_map frames children
  end.

(** Every inline style of the tree is in serialised form, as the engine
    holds it. *)
Definition serialised_styles (css : engine) (doc : node) : Prop :=
  forall e, In e (elems doc) -> Forall (serialised css) (style e).

End Dom.

(** * The price extractor ([scripts/price-detector.js]) *)

Module Detector.

Import Str Regex Dom.

Definition PRICE_SELECTORS : list selector :=
  [ [[[AttrContains "class" "price"]]];
    [[[AttrContains "class" "Price"]]];
    [[[AttrContains "id" "price"]]];
    [[[AttrContains "id" "Price"]]];
    [[[HasAttr "data-price"]]];
    [[[AttrContains "data-testid" "price"]]];
    [[[Class "a-price-whole"]]];
    [[[Class "a-offscreen"]; [Class "a-price"]]];
    [[[AttrEquals "data-a-color" "price"]]];
    [[[Class "a-price-symbol"]]];
    [[[Class "a-price-whole"]; [Class "a-price"]]];
    [[[Class "a-price-whole"]; [Class "a-price-range"]]];
    [[[AttrContains "class" "deal";
       Not (AttrContains "class" "time");
       Not (AttrContains "class" "timer");
       Not (AttrContains "class" "countdown")]]];
    [[[Class "notranslate"]]];
    [[[Id "prcIsum"]]];
    [[[Class "currency-value"]]];
    [[[Class "product-price"]]];
    [[[Class "item-price"]]];
    [[[Class "cost"]]];
    [[[Class "amount"]]];
    [[[Class "value"]]] ].

Definition currency : regex := Cls ["$"; "€"; "£"; "¥"].
Definition separator : regex := Cls ["."; ","].

(** [/[\$€£¥]\s*(\d{1,3}(?:[.,]\d{3})*(?:[.,]\d{2})?)/g] *)
Definition PRICE_PATTERN : pattern :=
  re (Seqs [currency; Star space;
            digit; UpTo 2 digit;
            Star (Seq separator (Times 3 digit));
            Opt (Seq separator (Times 2 digit))]).

Definition words (l : list string) : regex := Alts (map Lit l).

Definition TIME_PATTERNS : list pattern :=
  [ re_i (Seqs [Plus digit; Star space;
                words ["h"; "hour"; "hours"; "hr"; "hrs"];
                Star space; Star digit; Star space;
                Opt (words ["m"; "min"; "minute"; "minutes"])]);
    re_i (Seqs [Plus digit; Star space;
                words ["m"; "min"; "minute"; "minutes"];
                Star space;
                Opt (words ["remaining"; "left"; "until"; "to go"])]);
    re_i (Seqs [Plus digit; Star space;
                words ["s"; "sec"; "second"; "seconds"]]);
    re_i (Seqs [Plus digit; Star space; words ["d"; "day"; "days"]]);
    re_i (Alts [Lit "remaining"; Lit "left"; Lit "until";
                Seq (Lit "expire") (Opt (Lit "s"));
                Seq (Lit "end") (Opt (Lit "s"))]) ].

Definition TIME_KEYWORDS : list string :=
  ["remaining"; "left"; "until"; "expires"; "ends"; "deal"; "duration";
   "countdown"; "timer"].

(** [/^\d+\s*[hms]/] and [/[\$€£¥]/] *)
Definition bare_time : pattern :=
  re_anchored (Seqs [Plus digit; Star space; Cls ["h"; "m"; "s"]]).
Definition has_currency : pattern := re currency.

Definition isTimeValue (text : string) : bool :=
  if String.eqb text "" then false
  else
    let lowerText := toLowerCase text in
    if existsb (fun pattern => test pattern text) TIME_PATTERNS then true
    else if existsb (fun keyword => includes lowerText keyword) TIME_KEYWORDS
    then true
    else if test bare_time (trim text) && negb (test has_currency text)
    then true
    else false.

Definition badge_selector : selector := [[[Class "price-hours-badge"]]].

(** ["nav, aside, [role='navigation'], [class*='sidebar'], [class*='nav'],
    [id*='sidebar'], [id*='nav']"] *)
Definition sidebar_selector : selector :=
  [ [[Tag "nav"]]; [[Tag "aside"]];
    [[AttrEquals "role" "navigation"]];
    [[AttrContains "class" "sidebar"]]; [[AttrContains "class" "nav"]];
    [[AttrContains "id" "sidebar"]]; [[AttrContains "id" "nav"]] ].

Definition excludePatterns : list string :=
  ["time"; "timer"; "countdown"; "duration"; "deal"; "remaining"; "expires";
   "ends"].

(** The visually hidden test shared by the filter, the scan and the
    presentation. *)
Definition hidden_class (e : Element) : bool :=
  let className := toLowerCase (className e) in
  includes className "offscreen" ||
  includes className "sr-only" ||
  includes className "visually-hidden" ||
  match getAttribute e "aria-hidden" with
  | Some v => String.eqb v "true"
  | None => false
  end.

Definition isPriceElement (p : path) : bool :=
  match p with
  | [] => false
  | (e, kids) :: up =>
      if classList_contains e "price-hours-badge" ||
         is_some (closest p badge_selector)
      then false
      else
        let className := toLowerCase (className e) in
        if hidden_class e then false
        else if includes className "pricetopay" then false
        else
          let isInSidebar := is_some (closest p sidebar_selector) in
          let id := toLowerCase (id_of e) in
          let text := toLowerCase (textContent (Elem e kids)) in
          if existsb
               (fun pattern =>
                  (includes className pattern || includes id pattern ||
                   includes text pattern) &&
                  (negb (includes className "price") &&
                   negb (includes id "price") &&
                   negb (hasAttribute e "data-price")))
               excludePatterns
          then false
          else if isInSidebar then
            if isTimeValue text then false
            else
              let hasPriceIndicator :=
                includes className "price" || includes id "price" ||
                hasAttribute e "data-price" ||
                is_some (closest p [[[AttrContains "class" "price"]]]) ||
                test has_currency text in
              if negb hasPriceIndicator && isTimeValue text then false
              else true
          else true
  end.

(** [/price|Price|cost|amount|value/i] and [/price|Price/i] *)
Definition price_words : pattern :=
  re_i (words ["price"; "Price"; "cost"; "amount"; "value"]).
Definition price_word : pattern := re_i (words ["price"; "Price"]).

(** [/[\$€£¥,\s]/g] and [/\.(?=\d{3})/g] *)
Definition symbols_and_spaces : pattern :=
  re (Alts [currency; Cls [","]; space]).
Definition thousands_dot : pattern :=
  re (Seq (Cls ["."]) (Ahead (Times 3 digit))).

Definition normalize (priceText : string) : string :=
  let cleaned := replace_all symbols_and_spaces "" (trim priceText) in
  replace_first "," "." (replace_all thousands_dot "" cleaned).

(** ** The normalisation of [parsePrice], described directly

    [strip_symbols] deletes the currency symbols, the commas and the white
    space; [drop_thousands_dots] deletes every "." that three digits
    follow. *)

Definition symbol_tokens : list string :=
  (["$"; "€"; "£"; "¥"] ++ [","] ++ white_space)%list.

Fixpoint strip_symbols_fuel (fuel : nat) (s : string) : string :=
  match fuel with
  | O => s
  | S fuel' =>
      match strip_any symbol_tokens s with
      | Some rest => strip_symbols_fuel fuel' rest
      | None =>
          match s with
          | EmptyString => EmptyString
          | String c s' => String c (strip_symbols_fuel fuel' s')
          end
      end
  end.

Definition strip_symbols (s : string) : string :=
  strip_symbols_fuel (S (String.length s)) s.

Definition is_digit (c : ascii) : bool :=
  existsb (fun d => Ascii.eqb d c)
    ["0"; "1"; "2"; "3"; "4"; "5"; "6"; "7"; "8"; "9"]%char.

Definition three_digits (s : string) : bool :=
  match s with
  | String a (String b (String c _)) => is_digit a && is_digit b && is_digit c
  | _ => false
  end.

Fixpoint drop_thousands_dots (s : string) : string :=
  match s with
  | EmptyString => EmptyString
  | String c s' =>
      if Ascii.eqb "." c && three_digits s'
      then drop_thousands_dots s'
      else String c (drop_thousands_dots s')
  end.

(** The rule in the words of the specification: a "." followed by exactly
    three digits, that is, by three digits and no fourth. *)
Definition exactly_three_digits (s : string) : bool :=
  match s with
  | String a (String b (String c rest)) =>
      is_digit a && is_digit b && is_digit c &&
      match rest with
      | String d _ => negb (is_digit d)
      | EmptyString => true
      end
  | _ => false
  end.

Fixpoint drop_exact_dots (s : string) : string :=
  match s with
  | EmptyString => EmptyString
  | String c s' =>
      if Ascii.eqb "." c && exactly_three_digits s'
      then drop_exact_dots s'
      else String c (drop_exact_dots s')
  end.

(** [parsePrice]: [element] is [None] when the argument is left out. *)
Definition parsePrice (priceText : string) (element : option path)
  : option float :=
  if String.eqb priceText "" then None
  else if isTimeValue priceText then None
  else if match element with
          | Some p => negb (isPriceElement p)
          | None => false
          end then None
  else
    let hasCurrency := test has_currency priceText in
    if negb hasCurrency &&
       match element with
       | Some ((e, _) :: _) =>
           negb (test price_words (className e)) &&
           negb (test price_words (id_of e)) &&
           negb (hasAttribute e "data-price")
       | _ => false
       end
    then None
    else
      let price := parseFloat (normalize priceText) in
      if isNaN price || (price <? 0)%float || (10000000 <? price)%float
      then None
      else if ((price <? 0.01)%float || (100000 <? price)%float) &&
              (negb hasCurrency &&
               match element with
               | Some ((e, _) :: _) =>
                   negb (test price_word (className e)) &&
                   negb (test price_word (id_of e))
               | _ => true
               end)
      then None
      else Some price.

Record PriceCandidate := {
  element : nat;
  price : float;
  originalText : string
}.

(** The [prices] array and the [foundElements] set of [detectPrices]. *)
Definition found_state := (list PriceCandidate * list nat)%type.

Definition found_has (found : list nat) (x : nat) : bool :=
  existsb (Nat.eqb x) found.

Section Scan.

(** [element.innerText] depends on the rendering of the page. *)
Variable innerText : path -> string.

(** The callback of the structural scan. *)
Definition scan_element (st : found_state) (p : path) : found_state :=
  let '(prices, found) := st in
  match p with
  | [] => st
  | (e, kids) :: up =>
      if found_has found (eid e) then st
      else if classList_contains e "price-hours-badge" ||
              is_some (closest p badge_selector) then st
      else if hidden_class e then st
      else if includes (toLowerCase (className e)) "pricetopay" then st
      else if negb (isPriceElement p) then st
      else
        let text :=
          let t := textContent (Elem e kids) in
          if negb (String.eqb t "") then t else innerText p in
        if isTimeValue text then st
        else
          match parsePrice text (Some p) with
          | Some value =>
              if (0 <? value)%float
              then ((prices ++ [{| element := eid e; price := value;
                                   originalText := trim text |}])%list,
                    (found ++ [eid e])%list)
              else st
          | None => st
          end
  end.

Definition scan_selector (doc : node) (st : found_state) (sel : selector)
  : found_state :=
  fold_left scan_element (querySelectorAll doc sel) st.

(** The walk from the parent of a text node towards [document.body]. *)
Fixpoint climb (body : nat) (matched : string) (parent : path)
  (st : found_state) : found_state :=
  let '(prices, found) := st in
  match parent with
  | [] => st
  | (e, kids) :: up =>
      if Nat.eqb (eid e) body then st
      else if found_has found (eid e) || negb (isPriceElement parent)
      then climb body matched up st
      else
        match parsePrice matched (Some parent) with
        | Some value =>
            if (0 <? value)%float
            then ((prices ++ [{| element := eid e; price := value;
                                 originalText := trim matched |}])%list,
                  (found ++ [eid e])%list)
            else climb body matched up st
        | None => climb body matched up st
        end
  end.

Definition scan_text (body : nat) (st : found_state) (t : string * path)
  : found_state :=
  let '(text, parent) := t in
  if isTimeValue text then st
  else
    fold_left (fun st matched => climb body matched parent st)
              (match_all PRICE_PATTERN text) st.

(** [new Map(prices.map(p => [p.element, p]))]: a later entry for the same
    element takes the place of the earlier one. *)
Fixpoint map_set (c : PriceCandidate) (l : list PriceCandidate)
  : list PriceCandidate :=
  match l with
  | [] => [c]
  | d :: l' =>
      if Nat.eqb (element d) (element c) then c :: l' else d :: map_set c l'
  end.

Definition uniquePrices (prices : list PriceCandidate) : list PriceCandidate :=
  fold_left (fun acc c => map_set c acc) prices [].

(** [detectPrices]; creating the tree walker throws when the document has
    no body. *)
Definition detectPrices (doc : node) : completion (list PriceCandidate) :=
  let st1 := fold_left (scan_selector doc) PRICE_SELECTORS ([], []) in
  match body_of doc with
  | Some ((b, kids) :: up) =>
      let st2 :=
        fold_left (scan_text (eid b)) (texts_of up (Elem b kids)) st1 in
      Normal (uniquePrices (fst st2))
  | _ => Throw "TypeError"
  end.

End Scan.

(** The candidate for the element [x]. *)
Definition for_element (x : nat) (c : PriceCandidate) : bool :=
  Nat.eqb (element c) x.

(** The price of a candidate is above zero; every candidate pushed so far
    has such a price. *)
Definition positive_price (c : PriceCandidate) : Prop :=
  (0 <? price c)%float = true.

Definition all_positive (st : found_state) : Prop :=
  Forall positive_price (fst st).

(** [markPriceElements] *)
Fixpoint mark_from (index : nat) (prices : list PriceCandidate) (doc : node)
  : node :=
  match prices with
  | [] => doc
  | priceObj :: rest =>
      let doc1 :=
        update_element (element priceObj)
          (fun e =>
             setAttribute "data-price-index" (string_of_Z (Z.of_nat index))
               (setAttribute "data-price-value" (Number_toString (price priceObj))
                  (setAttribute "data-price-detected" "true" e)))
          doc in
      mark_from (S index) rest doc1
  end.

Definition markPriceElements (prices : list PriceCandidate) (doc : node) : node :=
  mark_from 0 prices doc.

End Detector.

(** * The presentation controller ([content/content-script.js]) *)

Module Controller.

Import Str Regex Dom Detector Converter.

(** What [storeOriginalPrice] keeps of an element. *)
Record snapshot := {
  snap_textContent : string;
  snap_innerHTML : list node;
  snap_backgroundColor : string;
  snap_padding : string;
  snap_borderRadius : string;
  snap_display : string
}.

(** The variables of the content script, with the document they act on,
    the CSS engine of the browser that shows it, and the next identity that
    a created node receives. *)
Record state := {
  document : node;
  css : engine;
  next_id : nat;
  detectedPrices : list PriceCandidate;
  conversions : list ConversionResult;
  isActive : bool;
  injectedBadges : list (nat * nat);
  replacedPrices : list (nat * snapshot);
  displayMode : string;
  showHours : bool
}.

Definition with_document (d : node) (st : state) : state :=
  {| document := d; css := css st; next_id := next_id st;
     detectedPrices := detectedPrices st; conversions := conversions st;
     isActive := isActive st; injectedBadges := injectedBadges st;
     replacedPrices := replacedPrices st; displayMode := displayMode st;
     showHours := showHours st |}.

Definition with_next_id (n : nat) (st : state) : state :=
  {| document := document st; css := css st; next_id := n;
     detectedPrices := detectedPrices st; conversions := conversions st;
     isActive := isActive st; injectedBadges := injectedBadges st;
     replacedPrices := replacedPrices st; displayMode := displayMode st;
     showHours := showHours st |}.

Definition with_detected (l : list PriceCandidate) (c : list ConversionResult)
  (st : state) : state :=
  {| document := document st; css := css st; next_id := next_id st;
     detectedPrices := l; conversions := c;
     isActive := isActive st; injectedBadges := injectedBadges st;
     replacedPrices := replacedPrices st; displayMode := displayMode st;
     showHours := showHours st |}.

Definition with_injectedBadges (m : list (nat * nat)) (st : state) : state :=
  {| document := document st; css := css st; next_id := next_id st;
     detectedPrices := detectedPrices st; conversions := conversions st;
     isActive := isActive st; injectedBadges := m;
     replacedPrices := replacedPrices st; displayMode := displayMode st;
     showHours := showHours st |}.

Definition with_replacedPrices (m : list (nat * snapshot)) (st : state) : state :=
  {| document := document st; css := css st; next_id := next_id st;
     detectedPrices := detectedPrices st; conversions := conversions st;
     isActive := isActive st; injectedBadges := injectedBadges st;
     replacedPrices := m; displayMode := displayMode st;
     showHours := showHours st |}.

Definition with_displayMode (m : string) (st : state) : state :=
  {| document := document st; css := css st; next_id := next_id st;
     detectedPrices := detectedPrices st; conversions := conversions st;
     isActive := isActive st; injectedBadges := injectedBadges st;
     replacedPrices := replacedPrices st; displayMode := m;
     showHours := showHours st |}.

Definition with_showHours (b : bool) (st : state) : state :=
  {| document := document st; css := css st; next_id := next_id st;
     detectedPrices := detectedPrices st; conversions := conversions st;
     isActive := isActive st; injectedBadges := injectedBadges st;
     replacedPrices := replacedPrices st; displayMode := displayMode st;
     showHours := b |}.

(** A [Map] keyed by elements, in insertion order. *)
Fixpoint map_get {V} (k : nat) (m : list (nat * V)) : option V :=
  match m with
  | [] => None
  | (k', v) :: m' => if Nat.eqb k k' then Some v else map_get k m'
  end.

Fixpoint map_put {V} (k : nat) (v : V) (m : list (nat * V)) : list (nat * V) :=
  match m with
  | [] => [(k, v)]
  | (k', v') :: m' =>
      if Nat.eqb k k' then (k, v) :: m' else (k', v') :: map_put k v m'
  end.

(** The stored settings, as [chrome.storage.local] returns them; a failed
    read is an absent key. *)
Record storage := {
  stored_hourlyWage : option float;
  stored_displayMode : option string;
  stored_showHours : option bool
}.

(** [result[STORAGE_KEY] || DEFAULT_WAGE] *)
Definition getHourlyWage (s : storage) : float :=
  match stored_hourlyWage s with
  | Some w => if isNaN w || (w =? 0)%float then 0%float else w
  | None => 0%float
  end.

(** [result.displayMode || "side-by-side"] *)
Definition getDisplayMode (s : storage) : string :=
  match stored_displayMode s with
  | Some m => if String.eqb m "" then "side-by-side" else m
  | None => "side-by-side"
  end.

(** [result.showHours !== false] *)
Definition getShowHours (s : storage) : bool :=
  match stored_showHours s with
  | Some false => false
  | _ => true
  end.

Definition is_badge (e : Element) : bool :=
  classList_contains e "price-hours-badge".

(** [document.body.contains(x)]; reading [document.body] throws when there
    is no body. *)
Definition body_contains (doc : node) (x : nat) : completion bool :=
  match body_of doc with
  | Some b => Normal (contains b x)
  | None => Throw "TypeError"
  end.

Definition font_properties : list string :=
  ["fontSize"; "fontWeight"; "fontFamily"; "fontStyle"; "lineHeight";
   "letterSpacing"; "color"].

Section Presentation.

(** [window.getComputedStyle(element)[property]] and [element.innerText]
    belong to the rendering of the page. *)
Variable getComputedStyle : node -> nat -> string -> string.
Variable innerText : path -> string.

(** Copies the font properties computed for the element [x]. *)
Definition copy_font_styles (css : engine) (doc : node) (x : nat)
  (badge : Element) : Element :=
  fold_left
    (fun b prop => style_set css prop (getComputedStyle doc x prop) b)
    font_properties badge.

(** [createBadge]: the new [span], not yet in the document. *)
Definition createBadge (css : engine) (doc : node) (fresh : nat)
  (hoursFormatted : string) (priceElement : nat) : node :=
  let badge :=
    {| eid := fresh; tag := "span";
       attrs := [("class", "price-hours-badge");
                 ("aria-label", "Requires " ++ hoursFormatted ++ " of work");
                 ("title", "This item costs " ++ hoursFormatted ++
                           " of work at your hourly wage")];
       style := [] |} in
  Elem (copy_font_styles css doc priceElement badge)
       (text_children hoursFormatted).

Definition first_nonempty (a b : string) : string :=
  if String.eqb a "" then b else a.

(** [storeOriginalPrice] *)
Definition storeOriginalPrice (x : nat) (st : state) : state :=
  match map_get x (replacedPrices st) with
  | Some _ => st
  | None =>
      match locate (document st) x with
      | Some ((e, kids) :: _) =>
          let originalData :=
            {| snap_textContent := text_of kids;
               snap_innerHTML := innerHTML kids;
               snap_backgroundColor :=
                 style_get (css st) e "backgroundColor";
               snap_padding := style_get (css st) e "padding";
               snap_borderRadius := style_get (css st) e "borderRadius";
               snap_display :=
                 first_nonempty (style_get (css st) e "display")
                   (getComputedStyle (document st) x "display") |} in
          with_replacedPrices (map_put x originalData (replacedPrices st)) st
      | _ => st
      end
  end.

(** [replacePriceWithHours] *)
Definition replacePriceWithHours (x : nat) (hoursFormatted : string)
  (st : state) : state :=
  let st1 := storeOriginalPrice x st in
  match map_get x (replacedPrices st1) with
  | None => st1
  | Some original =>
      with_document
        (update x
           (fun fr =>
              let e := fst fr in
              let e1 := style_set (css st) "backgroundColor" "#fef3c7" e in
              let e2 := style_set (css st) "padding" "2px 6px" e1 in
              let e3 := style_set (css st) "borderRadius" "4px" e2 in
              let e4 := style_set (css st) "display" "inline-block" e3 in
              let e5 := style_set (css st) "marginLeft" "0" e4 in
              let e6 := setAttribute "data-price-replaced" "true" e5 in
              let e7 :=
                setAttribute "title"
                  ("Original price: " ++ snap_textContent original ++
                   " | Work hours: " ++ hoursFormatted) e6 in
              (e7, text_children hoursFormatted))
           (document st1))
        st1
  end.

(** [restoreOriginalPrice] *)
Definition restoreOriginalPrice (x : nat) (st : state) : state :=
  match map_get x (replacedPrices st) with
  | None => st
  | Some original =>
      let '(children, next) :=
        instantiate_all (next_id st) (snap_innerHTML original) in
      with_next_id next
        (with_document
           (update x
              (fun fr =>
                 let e := fst fr in
                 let e1 := style_set (css st) "backgroundColor"
                             (snap_backgroundColor original) e in
                 let e2 := style_set (css st) "padding"
                             (snap_padding original) e1 in
                 let e3 := style_set (css st) "borderRadius"
                             (snap_borderRadius original) e2 in
                 let e4 := style_set (css st) "display"
                             (snap_display original) e3 in
                 let e5 := removeAttribute "data-price-replaced" e4 in
                 let e6 := removeAttribute "title" e5 in
                 (e6, children))
              (document st))
           st)
  end.

(** The nodes that follow the element [x] among its siblings. *)
Fixpoint following (x : nat) (siblings : list node) : list node :=
  match siblings with
  | [] => []
  | c :: l => if is_element x c then l else following x l
  end.

Definition badge_node (n : node) : bool :=
  match n with
  | Elem e _ => is_badge e
  | Text _ => false
  end.

Definition node_id (n : node) : option nat :=
  match n with
  | Elem e _ => Some (eid e)
  | Text _ => None
  end.

(** ['[class*="price"], [class*="Price"], [id*="price"], .a-price'] *)
Definition price_container : selector :=
  [ [[AttrContains "class" "price"]]; [[AttrContains "class" "Price"]];
    [[AttrContains "id" "price"]]; [[Class "a-price"]] ].

(** [findExistingBadge], for an element that is in the document. *)
Definition findExistingBadge (x : nat) (p : path) (st : state)
  : completion (option nat) :=
  tracked <-
    match map_get x (injectedBadges st) with
    | Some existingBadge =>
        inside <- body_contains (document st) existingBadge ;;
        ret (if inside : bool then Some existingBadge else None)
    | None => ret None
    end ;;
  match tracked with
  | Some b => ret (Some b)
  | None =>
      let siblings :=
        match p with
        | _ :: (_, children) :: _ => following x children
        | _ => []
        end in
      match find badge_node siblings with
      | Some n => ret (node_id n)
      | None =>
          match closest p price_container with
          | Some container =>
              if has_id x container then ret None
              else ret (match querySelector_in container badge_selector with
                        | Some q => path_id q
                        | None => None
                        end)
          | None => ret None
          end
      end
  end.

Definition formatted_at (index : nat) (st : state) : option string :=
  match nth_error (conversions st) index with
  | Some c => if String.eqb (cr_formatted c) "" then None
              else Some (cr_formatted c)
  | None => None
  end.

(** The callback of [injectBadgesSideBySide]. *)
Definition inject_one (st : state) (priceObj : PriceCandidate) (index : nat)
  : completion state :=
  let x := element priceObj in
  match formatted_at index st, locate (document st) x with
  | Some hoursFormatted, Some ((e, kids) :: up) =>
      inside <- body_contains (document st) x ;;
      if negb inside then ret st
      else
        existing <- findExistingBadge x ((e, kids) :: up) st ;;
        match existing with
        | Some badge =>
            if match getAttribute e "data-hours-formatted" with
               | Some currentHours => String.eqb currentHours hoursFormatted
               | None => false
               end
            then ret st
            else
              let doc1 :=
                update badge
                  (fun fr =>
                     (copy_font_styles (css st) (document st) x (fst fr),
                      text_children hoursFormatted))
                  (document st) in
              let doc2 :=
                update_element x
                  (setAttribute "data-hours-formatted" hoursFormatted) doc1 in
              ret (with_document doc2 st)
        | None =>
            if hidden_class e then ret st
            else if includes (toLowerCase (className e)) "pricetopay"
            then ret st
            else
              let badge :=
                createBadge (css st) (document st) (next_id st)
                  hoursFormatted x in
              ret (with_injectedBadges
                     (map_put x (next_id st) (injectedBadges st))
                     (with_next_id (S (next_id st))
                        (with_document
                           (insert_after x badge (document st)) st)))
        end
  | _, _ => ret st
  end.

(** [array.forEach((item, index) => ...)] for a callback that can throw. *)
Fixpoint forEach {A} (f : state -> A -> nat -> completion state)
  (l : list A) (index : nat) (st : state) : completion state :=
  match l with
  | [] => ret st
  | a :: l' => st' <- f st a index ;; forEach f l' (S index) st'
  end.

Definition injectBadgesSideBySide (st : state) : completion state :=
  forEach inject_one (detectedPrices st) 0 st.

(** The callback of [injectBadgesReplace]. *)
Definition replace_one (st : state) (priceObj : PriceCandidate) (index : nat)
  : completion state :=
  let x := element priceObj in
  match formatted_at index st with
  | Some hoursFormatted =>
      inside <- body_contains (document st) x ;;
      if negb inside then ret st
      else
        match locate (document st) x with
        | Some ((e, _) :: _) =>
            if match getAttribute e "data-price-replaced" with
               | Some v => String.eqb v "true"
               | None => false
               end
            then ret st
            else if hidden_class e then ret st
            else if includes (toLowerCase (className e)) "pricetopay"
            then ret st
            else ret (replacePriceWithHours x hoursFormatted st)
        | _ => ret st
        end
  | None => ret st
  end.

Definition injectBadgesReplace (st : state) : completion state :=
  forEach replace_one (detectedPrices st) 0 st.

(** Removing every element that bears the badge class; removing the root
    leaves an empty document. *)
Definition remove_badge_elements (doc : node) : node :=
  match doc with
  | Elem e _ => if is_badge e then Text "" else remove_where is_badge doc
  | Text s => Text s
  end.

Definition restore_one (st : state) (entry : nat * snapshot) : state :=
  match body_contains (document st) (fst entry) with
  | Normal true => restoreOriginalPrice (fst entry) st
  | _ => st
  end.

(** [removeBadges] *)
Definition removeBadges (st : state) : state :=
  let st1 :=
    with_injectedBadges []
      (with_document (remove_badge_elements (document st)) st) in
  let st2 := fold_left restore_one (replacedPrices st1) st1 in
  with_replacedPrices [] st2.

(** [injectBadges] *)
Definition injectBadges (settings : storage) (st : state) : completion state :=
  let st1 := with_showHours (getShowHours settings) st in
  if negb (showHours st1) then ret (removeBadges st1)
  else
    let st2 := removeBadges st1 in
    let st3 := with_displayMode (getDisplayMode settings) st2 in
    if String.eqb (displayMode st3) "replace"
    then injectBadgesReplace st3
    else injectBadgesSideBySide st3.

Definition hours_text (h : option float) : string :=
  match h with
  | Some x => Number_toString x
  | None => "null"
  end.

(** The loop of [processPage] that stores the conversions on the
    elements. *)
Fixpoint store_conversions (prices : list PriceCandidate)
  (results : list ConversionResult) (doc : node) : node :=
  match prices, results with
  | priceObj :: prices', c :: results' =>
      store_conversions prices' results'
        (update_element (element priceObj)
           (fun e =>
              setAttribute "data-hours-formatted" (cr_formatted c)
                (setAttribute "data-hours-value" (hours_text (cr_hours c)) e))
           doc)
  | _, _ => doc
  end.

(** [processPage]: one pass. *)
Definition processPage (settings : storage) (st : state) : completion state :=
  if negb (isActive st) then ret st
  else
    let wage := getHourlyWage settings in
    if (wage <=? 0)%float then ret st
    else
      detected <- detectPrices innerText (document st) ;;
      match detected with
      | [] => ret (with_detected [] (conversions st) st)
      | _ =>
          let doc1 := markPriceElements detected (document st) in
          let results :=
            convertPricesToHours (map price detected) (VNum wage) in
          let doc2 := store_conversions detected results doc1 in
          injectBadges settings
            (with_document doc2 (with_detected detected results st))
      end.

(** The message [setDisplayMode]: the mode is read back from the settings
    by [injectBadges]. *)
Definition setDisplayMode (settings : storage) (st : state) : completion state :=
  injectBadges settings
    (with_displayMode (getDisplayMode settings) st).

End Presentation.

(** The badge elements of a tree, by identity, and their number. *)
Definition badge_ids (doc : node) : list nat :=
  map eid (filter is_badge (elems doc)).

Definition count_badges (doc : node) : nat := List.length (badge_ids doc).

(** The identities of the elements of the document are pairwise distinct
    and below the next identity to be given. *)
Definition well_formed (st : state) : Prop :=
  NoDup (ids (document st)) /\
  forall i, In i (ids (document st)) -> (i < next_id st)%nat.


(** [doc'] has no more elements than [doc], however they are counted by
    identity and badge class. *)
Definition same_or_fewer (doc' doc : node) : Prop :=
  forall q : Element -> bool,
    (forall e e', eid e = eid e' -> is_badge e = is_badge e' -> q e = q e') ->
    (count_where q doc' <= count_where q doc)%nat.

(** Every badge element of the document is a value of [injectedBadges]. *)
Definition tracked (st : state) : Prop :=
  forall b, In b (badge_ids (document st)) ->
            In b (map snd (injectedBadges st)).

(** What holds during [injectBadgesSideBySide], after the candidates [done]
    have been handled: the badges in the document are tracked, every tracked
    element is one of [done] and is tracked once, and every tracked badge was
    created during this pass, that is, from the identity [first] on. *)
Record pass_invariant (first : nat) (done : list nat) (st : state) : Prop := {
  inv_well_formed : well_formed st;
  inv_tracked : tracked st;
  inv_keys_distinct : NoDup (map fst (injectedBadges st));
  inv_keys_done : incl (map fst (injectedBadges st)) done;
  inv_values_fresh :
    forall b, In b (map snd (injectedBadges st)) -> (first <= b)%nat;
  inv_first : (first <= next_id st)%nat;
  inv_not_replaced : replacedPrices st = []
}.

End Controller.

(** * Example pages *)

Module Examples.

Import Dom Detector Controller.

Definition el (x : nat) (name : string) (attributes : list (string * string))
  (children : list node) : node :=
  Elem {| eid := x; tag := name; attrs := attributes; style := [] |} children.

(** An element with no class, and one with the class "price", holding the
    text "99". *)
Definition plain_element : path :=
  [({| eid := 1; tag := "span"; attrs := []; style := [] |}, [Text "99"])].

Definition price_element : path :=
  [({| eid := 1; tag := "span"; attrs := [("class", "price")]; style := [] |},
    [Text "99"])].

(** Two prices side by side: the second is found by the first selector, the
    first by a later one. *)
Definition two_prices : node :=
  el 0 "html" []
    [el 1 "head" [] [];
     el 2 "body" []
       [el 3 "span" [("class", "cost")] [Text "$10"];
        el 4 "span" [("class", "price")] [Text "$20"]]].

(** The candidates that [detectPrices] finds on that page. *)
Definition two_candidates : list PriceCandidate :=
  [ {| element := 4; price := 20; originalText := "$20" |};
    {| element := 3; price := 10; originalText := "$10" |} ].

(** One price. *)
Definition one_price : node :=
  el 0 "html" []
    [el 1 "head" [] [];
     el 2 "body" [] [el 3 "span" [("class", "price")] [Text "$40"]]].

(** Two prices, the first with an inline style: a padding of one pixel on
    every side and a red background. *)
Definition styled_prices : node :=
  el 0 "html" []
    [el 1 "head" [] [];
     el 2 "body" []
       [Elem {| eid := 3; tag := "span"; attrs := [("class", "price")];
                style := [("paddingTop", "1px"); ("paddingRight", "1px");
                          ("paddingBottom", "1px"); ("paddingLeft", "1px");
                          ("backgroundColor", "red")] |}
             [Text "$40"];
        el 4 "span" [("class", "price")] [Text "$20"]]].

Definition styled_candidates : list PriceCandidate :=
  [ {| element := 3; price := 40; originalText := "$40" |};
    {| element := 4; price := 20; originalText := "$20" |} ].

(** A page whose elements are all displayed inline. *)
Definition inline_display (doc : node) (x : nat) (property : string)
  : string :=
  if String.eqb property "display" then "inline" else "".

(** A page rendered without computed styles or rendered text. *)
Definition no_style (doc : node) (x : nat) (property : string) : string := "".
Definition no_innerText (p : path) : string := "".

(** A CSS engine for the examples.  It knows the two shorthands that the
    content script writes, [padding] and [borderRadius], with their one to
    four parts separated by single spaces.  It takes every text as the value
    of a longhand and keeps it as it stands, but for the two texts of the
    content script that a browser writes otherwise: the colour "#fef3c7" and
    the length "0". *)
Fixpoint split_spaces (s : string) : list string :=
  match s with
  | EmptyString => [EmptyString]
  | String c s' =>
      if Ascii.eqb c " " then EmptyString :: split_spaces s'
      else
        match split_spaces s' with
        | part :: parts => String c part :: parts
        | [] => [String c EmptyString]
        end
  end.

Fixpoint no_space (s : string) : bool :=
  match s with
  | EmptyString => true
  | String c s' => negb (Ascii.eqb c " ") && no_space s'
  end.

Definition plain_part (s : string) : bool :=
  negb (String.eqb s "") && no_space s.

Definition padding_longhands : list string :=
  ["paddingTop"; "paddingRight"; "paddingBottom"; "paddingLeft"].

Definition borderRadius_longhands : list string :=
  ["borderTopLeftRadius"; "borderTopRightRadius";
   "borderBottomRightRadius"; "borderBottomLeftRadius"].

Definition lengths : list string :=
  "marginLeft" :: (padding_longhands ++ borderRadius_longhands)%list.

Definition plain_longhands (p : string) : list string :=
  if String.eqb p "padding" then padding_longhands
  else if String.eqb p "borderRadius" then borderRadius_longhands
  else [].

(** The serialised form of a value of the longhand [p]. *)
Definition canonical (p text : string) : string :=
  if String.eqb p "backgroundColor" && String.eqb text "#fef3c7"
  then "rgb(254, 243, 199)"
  else if Str.mem p lengths && String.eqb text "0" then "0px"
  else text.

(** One to four parts stand for four values. *)
Definition four_values (parts : list string) : option (list string) :=
  if forallb plain_part parts then
    match parts with
    | [a] => Some [a; a; a; a]
    | [a; b] => Some [a; b; a; b]
    | [a; b; c] => Some [a; b; c; b]
    | [a; b; c; d] => Some [a; b; c; d]
    | _ => None
    end
  else None.

Definition plain_parse (p text : string)
  : option (list (string * string)) :=
  match plain_longhands p with
  | [] => Some [(p, canonical p text)]
  | ls =>
      match four_values (split_spaces text) with
      | Some vs => Some (map (fun d => (fst d, canonical (fst d) (snd d)))
                             (combine ls vs))
      | None => None
      end
  end.

(** The shortest text for four values. *)
Definition plain_serialize (p : string) (values : list string) : string :=
  match values with
  | [a; b; c; d] =>
      if forallb plain_part values then
        if String.eqb d b then
          if String.eqb c a then
            if String.eqb b a then a else a ++ " " ++ b
          else a ++ " " ++ b ++ " " ++ c
        else a ++ " " ++ b ++ " " ++ c ++ " " ++ d
      else ""
  | _ => ""
  end.

Definition plain_engine : engine :=
  {| longhands := plain_longhands;
     parse := plain_parse;
     serialize := plain_serialize |}.

(** The content script when it starts on a page. *)
Definition start (doc : node) (fresh : nat) : state :=
  {| document := doc; css := plain_engine; next_id := fresh;
     detectedPrices := []; conversions := [];
     isActive := true; injectedBadges := []; replacedPrices := [];
     displayMode := "side-by-side"; showHours := true |}.

(** The content script in replace mode, with the candidates of a page
    and their conversions at a wage, before the prices are replaced. *)
Definition replacing (doc : node) (fresh : nat)
  (prices : list PriceCandidate) (wage : float) : state :=
  {| document := doc; css := plain_engine; next_id := fresh;
     detectedPrices := prices;
     conversions :=
       Converter.convertPricesToHours (map price prices) (Converter.VNum wage);
     isActive := true; injectedBadges := []; replacedPrices := [];
     displayMode := "replace"; showHours := true |}.

Definition settings (wage : float) (mode : string) : storage :=
  {| stored_hourlyWage := Some wage;
     stored_displayMode := Some mode;
     stored_showHours := None |}.

End Examples.

(** * Notions used to state further properties of the converter and of the
      extractor *)

Module Properties.

Import Str Regex Dom Detector Converter Controller.

(** The tiers in order: "green" below "yellow" below "red". *)
Definition tier_rank (tier : string) : nat :=
  if String.eqb tier "green" then 0%nat
  else if String.eqb tier "yellow" then 1%nat
  else 2%nat.

(** The context in which [parsePrice] accepts a price below 0.01 or above
    100000: a currency symbol in the text, or an element whose class or id
    has the word "price". *)
Definition strong_price_context (priceText : string) (element : option path)
  : bool :=
  test has_currency priceText ||
  match element with
  | Some ((e, _) :: _) =>
      test price_word (className e) || test price_word (id_of e)
  | _ => false
  end.

(** Every path of [p] upwards (the element, its parent, ...) is the path of
    an element of the list [all]. *)
Fixpoint chain_in (all : list path) (p : path) : Prop :=
  match p with
  | [] => True
  | _ :: up => In p all /\ chain_in all up
  end.

(** The candidate stands for an element of the document that
    [isPriceElement] accepts. *)
Definition accepted_in (doc : node) (c : PriceCandidate) : Prop :=
  exists p, In p (elements_of [] doc) /\
            path_id p = Some (element c) /\
            isPriceElement p = true.

(** The candidate was parsed from a text at an element of the document:
    [parsePrice] gives its price for them, and its original text is that
    text trimmed. *)
Definition parsed_in (doc : node) (c : PriceCandidate) : Prop :=
  exists text p,
    In p (elements_of [] doc) /\
    path_id p = Some (element c) /\
    parsePrice text (Some p) = Some (price c) /\
    originalText c = trim text.

(** The scan of [detectPrices] before the deduplication: the candidates in
    the order in which they were pushed, with the set [foundElements]. *)
Definition pushed (innerText : path -> string) (doc : node) : found_state :=
  let st1 :=
    fold_left (scan_selector innerText doc) PRICE_SELECTORS ([], []) in
  match body_of doc with
  | Some ((b, kids) :: up) =>
      fold_left (scan_text (eid b)) (texts_of up (Elem b kids)) st1
  | _ => st1
  end.

(** The element [e] after [markPriceElements] marked it for the candidate
    [c] at [index]. *)
Definition mark (index : nat) (c : PriceCandidate) (e : Element) : Element :=
  setAttribute "data-price-index" (string_of_Z (Z.of_nat index))
    (setAttribute "data-price-value" (Number_toString (price c))
       (setAttribute "data-price-detected" "true" e)).

(** A byte that does not begin a currency symbol, and a text made of such
    bytes. *)
Definition no_currency_byte (c : ascii) : bool :=
  forallb
    (fun a => match a with
              | String b _ => negb (Ascii.eqb b c)
              | EmptyString => false
              end)
    ["$"; "€"; "£"; "¥"].

Fixpoint no_currency (s : string) : bool :=
  match s with
  | EmptyString => true
  | String c s' => no_currency_byte c && no_currency s'
  end.

(** The candidates are those of the set [foundElements], in the same
    order, and no element is in it twice. *)
Definition pushed_once (st : found_state) : Prop :=
  map element (fst st) = snd st /\ NoDup (snd st).

(** Somewhere in the tree an element [x] has the element [b] as its next
    sibling. *)
Fixpoint followed_by (x b : nat) (n : node) : bool :=
  match n with
  | Text _ => false
  | Elem _ children =>
      (fix go (l : list node) : bool :=
         match l with
         | [] => false
         | c :: l' =>
             (is_element x c &&
              match l' with
              | d :: _ => is_element b d
              | [] => false
              end) || followed_by x b c || go l'
         end) children
  end.

(** Every tracked badge is the next sibling of its price element. *)
Definition badges_follow (st : state) : Prop :=
  forall x b, In (x, b) (injectedBadges st) ->
              followed_by x b (document st) = true.

(** What holds during [injectBadgesSideBySide] in a pass of [processPage]
    over the candidates [l] with the conversions [results]: without its
    badges the document is [page]; every element that is no badge and
    belongs to a candidate has the formatted hours of that candidate as
    [data-hours-formatted]; no element of a candidate is a badge; and the
    identities of the candidates are below the next identity. *)
Record badge_pass (l : list PriceCandidate) (results : list ConversionResult)
  (page : node) (st : state) : Prop := {
  bp_page : remove_badge_elements (document st) = page;
  bp_conversions : conversions st = results;
  bp_hours :
    forall e j c r,
      In e (elems (document st)) -> is_badge e = false ->
      nth_error l j = Some c -> nth_error results j = Some r ->
      eid e = element c ->
      getAttribute e "data-hours-formatted" = Some (cr_formatted r);
  bp_candidates :
    forall e, In e (elems (document st)) ->
              In (eid e) (map element l) -> is_badge e = false;
  bp_fresh : forall c, In c l -> (element c < next_id st)%nat
}.

(** The state after [injectBadgesSideBySide] inserted a badge with the hours
    [h] after the element [x] and tracked it. *)
Definition with_badge (getComputedStyle : node -> nat -> string -> string)
  (h : string) (x : nat) (st : state) : state :=
  with_injectedBadges
    (map_put x (next_id st) (injectedBadges st))
    (with_next_id (S (next_id st))
       (with_document
          (insert_after x
             (createBadge getComputedStyle (css st) (document st)
                (next_id st) h x)
             (document st)) st)).

(** Every tracked badge is a badge element of the document. *)
Definition badges_present (st : state) : Prop :=
  forall x b, In (x, b) (injectedBadges st) ->
              In b (badge_ids (document st)).

(** At its turn in [injectBadgesSideBySide], the candidate at [index] has
    formatted hours, and its element [x] is in the body, at the path [p]. *)
Definition presentable (index x : nat) (p : path) (st : state) : Prop :=
  formatted_at index st <> None /\
  locate (document st) x = Some p /\
  body_contains (document st) x = Normal true.

(** The element at the head of [p] is not hidden and is no "priceToPay"
    container: the two tests that [injectBadgesSideBySide] makes before it
    inserts a badge. *)
Definition shown (p : path) : Prop :=
  match p with
  | (e, _) :: _ =>
      hidden_class e = false /\
      includes (toLowerCase (className e)) "pricetopay" = false
  | [] => False
  end.

End Properties.

(** * The stored settings ([scripts/storage.js])

    [chrome.storage.local] holds the hourly wage, the display mode, the
    toggle and the tier settings.  The browser can refuse a write; whether
    it accepts one is an argument of the functions that write. *)

Module Storage.

Import Converter Controller.

Record area := {
  settings : storage;
  stored_tierSettings : option TierSettings
}.

Definition put_hourlyWage (w : float) (a : area) : area :=
  {| settings :=
       {| stored_hourlyWage := Some w;
          stored_displayMode := stored_displayMode (settings a);
          stored_showHours := stored_showHours (settings a) |};
     stored_tierSettings := stored_tierSettings a |}.

Definition put_displayMode (m : string) (a : area) : area :=
  {| settings :=
       {| stored_hourlyWage := stored_hourlyWage (settings a);
          stored_displayMode := Some m;
          stored_showHours := stored_showHours (settings a) |};
     stored_tierSettings := stored_tierSettings a |}.

Definition put_showHours (b : bool) (a : area) : area :=
  {| settings :=
       {| stored_hourlyWage := stored_hourlyWage (settings a);
          stored_displayMode := stored_displayMode (settings a);
          stored_showHours := Some b |};
     stored_tierSettings := stored_tierSettings a |}.

Definition put_tierSettings (ts : TierSettings) (a : area) : area :=
  {| settings := settings a; stored_tierSettings := Some ts |}.

(** [await chrome.storage.local.set(items)]: the promise is rejected when
    the browser refuses the write. *)
Definition local_set (writable : bool) (put : area -> area) (a : area)
  : completion area :=
  if writable then Normal (put a) else Throw "Error".

Definition DEFAULT_WAGE : float := 0%float.

(** [getHourlyWage]: [result[STORAGE_KEY] || DEFAULT_WAGE]; a failed read
    is an absent key. *)
Definition getHourlyWage (a : area) : float :=
  Controller.getHourlyWage (settings a).

(** [setHourlyWage]: the answer and the storage afterwards. *)
Definition setHourlyWage (writable : bool) (wage : value) (a : area)
  : bool * area :=
  match wage with
  | VNum w =>
      if isNaN w || (w <? 0)%float then (false, a)
      else
        match local_set writable (put_hourlyWage w) a with
        | Normal a' => (true, a')
        | Throw _ => (false, a)
        end
  | _ => (false, a)
  end.

Definition isWageSet (a : area) : bool := (0 <? getHourlyWage a)%float.

Definition DEFAULT_TIER_SETTINGS : TierSettings :=
  {| tier_type := "money"; green := 0; yellow := 50; red := 100 |}.

Definition getTierSettings (a : area) : TierSettings :=
  match stored_tierSettings a with
  | Some ts => ts
  | None => DEFAULT_TIER_SETTINGS
  end.

(** What [setTierSettings] can be handed: a primitive value, or an object
    with the four properties it reads. *)
Record settings_object := {
  prop_type : value;
  prop_green : value;
  prop_yellow : value;
  prop_red : value
}.

Inductive argument :=
  | Primitive (v : value)
  | Object (o : settings_object).

(** A threshold that passes the validation: a number, not NaN, not
    negative. *)
Definition threshold (v : value) : option float :=
  match v with
  | VNum x => if isNaN x || (x <? 0)%float then None else Some x
  | _ => None
  end.

Definition setTierSettings (writable : bool) (arg : argument) (a : area)
  : bool * area :=
  match arg with
  | Primitive _ => (false, a)
  | Object o =>
      match prop_type o with
      | VStr type_ =>
          if negb (String.eqb type_ "money") && negb (String.eqb type_ "hours")
          then (false, a)
          else
            match threshold (prop_green o), threshold (prop_yellow o),
                  threshold (prop_red o) with
            | Some g, Some y, Some r =>
                let ts := {| tier_type := type_; green := g; yellow := y;
                             red := r |} in
                match local_set writable (put_tierSettings ts) a with
                | Normal a' => (true, a')
                | Throw _ => (false, a)
                end
            | _, _, _ => (false, a)
            end
      | _ => (false, a)
      end
  end.

End Storage.

(** * Messages between the popup, the service worker and the pages *)

Module Messages.

Import Converter.

(** A request object: its [action] and the properties the handlers read. *)
Record request := {
  action : value;
  wage : value;
  mode : value;
  show : value;
  active : value;
  tiers : option TierSettings
}.

Definition with_action (name : string) : request :=
  {| action := VStr name; wage := VUndefined; mode := VUndefined;
     show := VUndefined; active := VUndefined; tiers := None |}.

(** [{ action: "setWage", wage }], [{ action: "setDisplayMode", mode }],
    [{ action: "setShowHours", show }], [{ action: "reprocess" }],
    [{ action: "setTierSettings", settings }] *)
Definition setWage_message (w : float) : request :=
  {| action := VStr "setWage"; wage := VNum w; mode := VUndefined;
     show := VUndefined; active := VUndefined; tiers := None |}.

Definition setDisplayMode_message (m : string) : request :=
  {| action := VStr "setDisplayMode"; wage := VUndefined; mode := VStr m;
     show := VUndefined; active := VUndefined; tiers := None |}.

Definition setShowHours_message (b : bool) : request :=
  {| action := VStr "setShowHours"; wage := VUndefined; mode := VUndefined;
     show := VBool b; active := VUndefined; tiers := None |}.

Definition reprocess_message : request := with_action "reprocess".

Definition setTierSettings_message (ts : TierSettings) : request :=
  {| action := VStr "setTierSettings"; wage := VUndefined; mode := VUndefined;
     show := VUndefined; active := VUndefined; tiers := Some ts |}.

Definition has_action (name : string) (r : request) : bool :=
  match action r with
  | VStr a => String.eqb a name
  | _ => false
  end.

End Messages.

(** * The popup ([popup/popup.js]) *)

Module Popup.

Import Str Converter Controller Storage Messages.

(** [x.toFixed(2)]: the decimal with two fraction digits nearest to [x], the
    larger one on a tie; [Number::toString] for what is not finite or is
    [1e21] or more. *)
Definition hundredths (m : positive) (e : Z) : Z :=
  if 0 <=? e then 100 * Zpos m * 2 ^ e
  else (200 * Zpos m + 2 ^ (- e)) / 2 ^ (1 - e).

Definition fixed2 (n : Z) : string :=
  let digits := string_of_Z n in
  let k := String.length digits in
  let padded := (zeros (3 - k) ++ digits)%string in
  let k' := String.length padded in
  (substring 0 (k' - 2) padded ++ "." ++ substring (k' - 2) 2 padded)%string.

Definition toFixed2 (x : float) : string :=
  match Prim2SF x with
  | S754_finite s m e =>
      if (1e21 <=? abs x)%float then Number_toString x
      else ((if s then "-" else "") ++ fixed2 (hundredths m e))%string
  | S754_zero _ => "0.00"
  | _ => Number_toString x
  end.

(** The elements of the popup that the wage form reads and writes.  The
    element with the class [input-field] need not exist. *)
Record wage_form := {
  wageInput_value : string;
  currentWageValue_textContent : string;
  currentWageDisplay_display : string;
  errorMessage_textContent : string;
  errorMessage_display : string;
  successMessage_display : string;
  inputField_borderColor : option string
}.

(** The elements of the tier form. *)
Record tier_form := {
  tierTypeMoney_checked : bool;
  tierGreenInput_value : string;
  tierYellowInput_value : string;
  tierRedInput_value : string;
  tierGreenInput_borderColor : string;
  tierYellowInput_borderColor : string;
  tierRedInput_borderColor : string;
  tierSuccessMessage_display : string
}.

(** The callbacks handed to [setTimeout]. *)
Inductive timeout :=
  | HideSuccess
  | HideTierSuccess.

(** The popup: its forms, the pending timeouts with their delays, the
    messages handed to [chrome.runtime.sendMessage], and the storage. *)
Record popup := {
  wage_ui : wage_form;
  tier_ui : tier_form;
  timeouts : list (timeout * Z);
  sent : list request;
  local : area
}.

(** What the browser does with a write and with a message. *)
Record browser := {
  writable : bool;
  connected : bool
}.

Definition with_wage_ui (f : wage_form) (p : popup) : popup :=
  {| wage_ui := f; tier_ui := tier_ui p; timeouts := timeouts p;
     sent := sent p; local := local p |}.

Definition with_tier_ui (f : tier_form) (p : popup) : popup :=
  {| wage_ui := wage_ui p; tier_ui := f; timeouts := timeouts p;
     sent := sent p; local := local p |}.

Definition with_local (a : area) (p : popup) : popup :=
  {| wage_ui := wage_ui p; tier_ui := tier_ui p; timeouts := timeouts p;
     sent := sent p; local := a |}.

(** [setTimeout(callback, delay)] *)
Definition setTimeout (callback : timeout) (delay : Z) (p : popup) : popup :=
  {| wage_ui := wage_ui p; tier_ui := tier_ui p;
     timeouts := (timeouts p ++ [(callback, delay)])%list;
     sent := sent p; local := local p |}.

(** [try { chrome.runtime.sendMessage(r) } catch (error) { ... }] *)
Definition sendMessage (b : browser) (r : request) (p : popup) : popup :=
  if connected b
  then {| wage_ui := wage_ui p; tier_ui := tier_ui p; timeouts := timeouts p;
          sent := (sent p ++ [r])%list; local := local p |}
  else p.

(** [setHourlyWage] of the popup: no validation of its own. *)
Definition setHourlyWage (b : browser) (wage : float) (p : popup)
  : bool * popup :=
  match local_set (writable b) (put_hourlyWage wage) (local p) with
  | Normal a => (true, with_local a p)
  | Throw _ => (false, p)
  end.

Definition setDisplayMode (b : browser) (mode : string) (p : popup)
  : bool * popup :=
  match local_set (writable b) (put_displayMode mode) (local p) with
  | Normal a => (true, with_local a p)
  | Throw _ => (false, p)
  end.

Definition setShowHours (b : browser) (show : bool) (p : popup)
  : bool * popup :=
  match local_set (writable b) (put_showHours show) (local p) with
  | Normal a => (true, with_local a p)
  | Throw _ => (false, p)
  end.

Definition setTierSettings (b : browser) (ts : TierSettings) (p : popup)
  : bool * popup :=
  match local_set (writable b) (put_tierSettings ts) (local p) with
  | Normal a => (true, with_local a p)
  | Throw _ => (false, p)
  end.

Definition updateCurrentWageDisplay (wage : float) (p : popup) : popup :=
  let f := wage_ui p in
  if (0 <? wage)%float then
    with_wage_ui
      {| wageInput_value := wageInput_value f;
         currentWageValue_textContent := "$" ++ toFixed2 wage ++ "/ hour";
         currentWageDisplay_display := "flex";
         errorMessage_textContent := errorMessage_textContent f;
         errorMessage_display := errorMessage_display f;
         successMessage_display := successMessage_display f;
         inputField_borderColor := inputField_borderColor f |} p
  else
    with_wage_ui
      {| wageInput_value := wageInput_value f;
         currentWageValue_textContent := currentWageValue_textContent f;
         currentWageDisplay_display := "none";
         errorMessage_textContent := errorMessage_textContent f;
         errorMessage_display := errorMessage_display f;
         successMessage_display := successMessage_display f;
         inputField_borderColor := inputField_borderColor f |} p.

Record validation := {
  valid : bool;
  error : option string
}.

Definition validateWage (value_ : string) : validation :=
  let numValue := parseFloat value_ in
  if isNaN numValue || (numValue <=? 0)%float then
    {| valid := false;
       error := Some "Please enter a valid hourly wage greater than 0" |}
  else if (10000 <? numValue)%float then
    {| valid := false; error := Some "Please enter a reasonable hourly wage" |}
  else {| valid := true; error := None |}.

(** The border of the input field, when there is one. *)
Definition paint (color : string) (border : option string) : option string :=
  match border with
  | Some _ => Some color
  | None => None
  end.

Definition showError (message : option string) (p : popup) : popup :=
  let f := wage_ui p in
  with_wage_ui
    {| wageInput_value := wageInput_value f;
       currentWageValue_textContent := currentWageValue_textContent f;
       currentWageDisplay_display := currentWageDisplay_display f;
       errorMessage_textContent :=
         match message with Some m => m | None => "" end;
       errorMessage_display := "block";
       successMessage_display := successMessage_display f;
       inputField_borderColor := paint "#ea4335" (inputField_borderColor f) |}
    p.

Definition hideError (p : popup) : popup :=
  let f := wage_ui p in
  with_wage_ui
    {| wageInput_value := wageInput_value f;
       currentWageValue_textContent := currentWageValue_textContent f;
       currentWageDisplay_display := currentWageDisplay_display f;
       errorMessage_textContent := errorMessage_textContent f;
       errorMessage_display := "none";
       successMessage_display := successMessage_display f;
       inputField_borderColor := paint "#a7cab6" (inputField_borderColor f) |}
    p.

Definition showSuccess (p : popup) : popup :=
  let f := wage_ui p in
  setTimeout HideSuccess 2000
    (with_wage_ui
       {| wageInput_value := wageInput_value f;
          currentWageValue_textContent := currentWageValue_textContent f;
          currentWageDisplay_display := currentWageDisplay_display f;
          errorMessage_textContent := errorMessage_textContent f;
          errorMessage_display := errorMessage_display f;
          successMessage_display := "block";
          inputField_borderColor := inputField_borderColor f |}
       p).

(** [handleSave] *)
Definition handleSave (b : browser) (p : popup) : popup :=
  let inputValue := trim (wageInput_value (wage_ui p)) in
  let validation := validateWage inputValue in
  if negb (valid validation) then showError (error validation) p
  else
    let p1 := hideError p in
    let wage := parseFloat inputValue in
    let '(success, p2) := setHourlyWage b wage p1 in
    if success : bool then
      sendMessage b (setWage_message wage)
        (showSuccess (updateCurrentWageDisplay wage p2))
    else showError (Some "Failed to save wage. Please try again.") p2.

(** [x || d] for a number [x]. *)
Definition or_else (x d : float) : float :=
  if isNaN x || (x =? 0)%float then d else x.

Definition with_borders (g y r : string) (p : popup) : popup :=
  let f := tier_ui p in
  with_tier_ui
    {| tierTypeMoney_checked := tierTypeMoney_checked f;
       tierGreenInput_value := tierGreenInput_value f;
       tierYellowInput_value := tierYellowInput_value f;
       tierRedInput_value := tierRedInput_value f;
       tierGreenInput_borderColor := g;
       tierYellowInput_borderColor := y;
       tierRedInput_borderColor := r;
       tierSuccessMessage_display := tierSuccessMessage_display f |} p.

Definition show_tier_success (p : popup) : popup :=
  let f := tier_ui p in
  setTimeout HideTierSuccess 2000
    (with_tier_ui
       {| tierTypeMoney_checked := tierTypeMoney_checked f;
          tierGreenInput_value := tierGreenInput_value f;
          tierYellowInput_value := tierYellowInput_value f;
          tierRedInput_value := tierRedInput_value f;
          tierGreenInput_borderColor := tierGreenInput_borderColor f;
          tierYellowInput_borderColor := tierYellowInput_borderColor f;
          tierRedInput_borderColor := tierRedInput_borderColor f;
          tierSuccessMessage_display := "block" |} p).

(** [saveTierSettings] *)
Definition saveTierSettings (b : browser) (p : popup) : popup :=
  let f := tier_ui p in
  let type_ := if tierTypeMoney_checked f then "money" else "hours" in
  let green := or_else (parseFloat (tierGreenInput_value f)) 0 in
  let yellow := or_else (parseFloat (tierYellowInput_value f)) 50 in
  let red := or_else (parseFloat (tierRedInput_value f)) 100 in
  if (yellow <? green)%float then
    with_borders (tierGreenInput_borderColor f) "#ea4335"
      (tierRedInput_borderColor f) p
  else if (red <? yellow)%float then
    with_borders (tierGreenInput_borderColor f)
      (tierYellowInput_borderColor f) "#ea4335" p
  else
    let p1 := with_borders "#a7cab6" "#a7cab6" "#a7cab6" p in
    let settings :=
      {| tier_type := type_; green := green; yellow := yellow; red := red |} in
    let '(success, p2) := setTierSettings b settings p1 in
    if success : bool then
      sendMessage b (setTierSettings_message settings) (show_tier_success p2)
    else p2.

End Popup.

(** * The service worker ([background/service-worker.js]) *)

Module ServiceWorker.

Import Converter Controller Storage Messages.

(** The storage, the open tabs and the active tab of the current window. *)
Record browser := {
  local : area;
  tabs : list nat;
  active_tab : option nat
}.

(** What [sendResponse] is called with: the stored wage, success, a
    failure, the answer of the tab [tab] to the [getPrices] request that
    is forwarded to it, or no prices when there is no active tab. *)
Inductive response :=
  | Wage (wage : float)
  | Success
  | Failure (error : string)
  | Forwarded (tab : nat)
  | NoPrices.

(** A message that tells a tab of a change, sent after [delay]
    milliseconds.  The forwarded [getPrices] request is not one of these:
    it is part of the answer. *)
Record notification := {
  tab : nat;
  message : request;
  delay : Z
}.

Record outcome := {
  after : browser;
  answer : option response;
  notified : list notification
}.

Definition with_local (a : area) (b : browser) : browser :=
  {| local := a; tabs := tabs b; active_tab := active_tab b |}.

(** [chrome.storage.local.set(items, callback)]: the callback runs whether
    the write was accepted or not. *)
Definition local_set (writable : bool) (put : area -> area) (b : browser)
  : browser :=
  if writable then with_local (put (local b)) b else b.

(** [chrome.tabs.query({}, tabs => tabs.forEach(...))] *)
Definition notify_all (r : request) (d : Z) (b : browser) : list notification :=
  map (fun t => {| tab := t; message := r; delay := d |}) (tabs b).

(** [chrome.runtime.onInstalled] *)
Definition onInstalled (writable : bool) (reason : string) (b : browser)
  : browser :=
  if String.eqb reason "install"
  then local_set writable (put_hourlyWage DEFAULT_WAGE) b
  else b.

(** [chrome.runtime.onMessage] *)
Definition onMessage (writable : bool) (r : request) (b : browser) : outcome :=
  if has_action "getWage" r then
    {| after := b; answer := Some (Wage (getHourlyWage (local b)));
       notified := [] |}
  else if has_action "setWage" r then
    match wage r with
    | VNum w =>
        if isNaN w || (w <? 0)%float then
          {| after := b; answer := Some (Failure "Invalid wage value");
             notified := [] |}
        else
          {| after := local_set writable (put_hourlyWage w) b;
             answer := Some Success;
             notified := notify_all reprocess_message 50 b |}
    | _ =>
        {| after := b; answer := Some (Failure "Invalid wage value");
           notified := [] |}
    end
  else if has_action "getPrices" r then
    match active_tab b with
    | Some t => {| after := b; answer := Some (Forwarded t); notified := [] |}
    | None => {| after := b; answer := Some NoPrices; notified := [] |}
    end
  else if has_action "setDisplayMode" r then
    match mode r with
    | VStr m =>
        if negb (String.eqb m "side-by-side") && negb (String.eqb m "replace")
        then {| after := b; answer := Some (Failure "Invalid display mode");
                notified := [] |}
        else
          {| after := local_set writable (put_displayMode m) b;
             answer := Some Success;
             notified := notify_all (setDisplayMode_message m) 0 b |}
    | _ =>
        {| after := b; answer := Some (Failure "Invalid display mode");
           notified := [] |}
    end
  else if has_action "setShowHours" r then
    let show_ := match show r with VBool false => false | _ => true end in
    {| after := local_set writable (put_showHours show_) b;
       answer := Some Success;
       notified := notify_all (setShowHours_message show_) 0 b |}
  else if has_action "reprocessAll" r then
    {| after := b; answer := Some Success;
       notified := notify_all reprocess_message 0 b |}
  else {| after := b; answer := None; notified := [] |}.

End ServiceWorker.

(** * What the stored settings satisfy *)

Module Invariants.

Import Converter Controller Storage Messages.

(** A stored wage is a number that is not negative; a stored display mode
    is one of the two modes. *)
Definition valid_wage (a : area) : Prop :=
  match stored_hourlyWage (settings a) with
  | Some w => (0 <=? w)%float = true
  | None => True
  end.

Definition valid_mode (a : area) : Prop :=
  match stored_displayMode (settings a) with
  | Some m => m = "side-by-side" \/ m = "replace"
  | None => True
  end.

Definition valid_area (a : area) : Prop := valid_wage a /\ valid_mode a.

(** The service worker after a sequence of requests, each with the answer of
    the browser to a write. *)
Definition serve (requests : list (bool * request))
  (b : ServiceWorker.browser) : ServiceWorker.browser :=
  fold_left
    (fun b x => ServiceWorker.after (ServiceWorker.onMessage (fst x) (snd x) b))
    requests b.

End Invariants.

(** * The rest of the content script ([content/content-script.js]) *)

Module ContentScript.

Import Str Regex Dom Detector Converter Controller.

Definition with_isActive (b : bool) (st : state) : state :=
  {| document := document st; css := css st; next_id := next_id st;
     detectedPrices := detectedPrices st; conversions := conversions st;
     isActive := b; injectedBadges := injectedBadges st;
     replacedPrices := replacedPrices st; displayMode := displayMode st;
     showHours := showHours st |}.

(** Whether a value counts as true in a condition. *)
Definition truthy (v : value) : bool :=
  match v with
  | VUndefined | VNull => false
  | VBool b => b
  | VNum x => negb (isNaN x || (x =? 0)%float)
  | VStr s => negb (String.eqb s "")
  end.

(** The attributes that [setActive(false)] removes from an element. *)
Definition clear_element (e : Element) : Element :=
  removeAttribute "data-hours-formatted"
    (removeAttribute "data-hours-value"
       (removeAttribute "data-price-index"
          (removeAttribute "data-price-value"
             (removeAttribute "data-price-detected" e)))).

Definition clear_marks (prices : list PriceCandidate) (doc : node) : node :=
  fold_left
    (fun d priceObj => update_element (element priceObj) clear_element d)
    prices doc.

(** An entry of [getDetectedPrices]: the candidate with its conversion, or
    [null] when there is none at its index. *)
Record detected := {
  priceObj : PriceCandidate;
  conversion : option ConversionResult
}.

Fixpoint with_conversions (index : nat) (prices : list PriceCandidate)
  (results : list ConversionResult) : list detected :=
  match prices with
  | [] => []
  | p :: rest =>
      {| priceObj := p; conversion := nth_error results index |}
        :: with_conversions (S index) rest results
  end.

(** [getDetectedPrices] *)
Definition getDetectedPrices (st : state) : list detected :=
  with_conversions 0 (detectedPrices st) (conversions st).

(** [/[\$€£¥]\s*\d/] *)
Definition currency_digit : pattern :=
  re (Seqs [currency; Star space; digit]).

(** The test of the mutation observer on an added node: an element with a
    descendant whose class has "price", or with a descendant that has the
    attribute [data-price], or whose text has a currency symbol followed by
    a digit. *)
Definition hasPriceIndicator (n : node) : bool :=
  match n with
  | Elem e kids =>
      is_some (querySelector_in [(e, kids)]
                 [[[AttrContains "class" "price"]]]) ||
      is_some (querySelector_in [(e, kids)] [[[HasAttr "data-price"]]]) ||
      test currency_digit (textContent n)
  | Text _ => false
  end.

(** The callback of the observer, on the added nodes of each mutation:
    whether the page is processed again. *)
Definition shouldReprocess (mutations : list (list node)) : bool :=
  existsb (fun addedNodes => existsb hasPriceIndicator addedNodes) mutations.

Section Script.

Variable getComputedStyle : node -> nat -> string -> string.
Variable innerText : path -> string.

(** [setActive]; the state keeps whether the value given to [isActive]
    counts as true, which is all that [processPage] asks of it. *)
Definition setActive (active : value) (settings : storage) (st : state)
  : completion state :=
  let st0 := with_isActive (truthy active) st in
  if truthy active then processPage getComputedStyle innerText settings st0
  else
    let st1 := removeBadges st0 in
    ret (with_detected [] []
           (with_document
              (clear_marks (detectedPrices st1) (document st1)) st1)).

End Script.

(** The lists of candidates and conversions are the same in both states. *)
Definition same_lists (st st' : state) : Prop :=
  detectedPrices st' = detectedPrices st /\ conversions st' = conversions st.

End ContentScript.

(** * Example data for the popup and the service worker *)

Module Scenarios.

Import Converter Controller Storage Messages.

Definition empty_area : area :=
  {| settings := {| stored_hourlyWage := None; stored_displayMode := None;
                    stored_showHours := None |};
     stored_tierSettings := None |}.

(** The popup with the text [text] in the wage field and the three texts in
    the tier fields. *)
Definition popup_with (text g y r : string) : Popup.popup :=
  {| Popup.wage_ui :=
       {| Popup.wageInput_value := text;
          Popup.currentWageValue_textContent := "";
          Popup.currentWageDisplay_display := "none";
          Popup.errorMessage_textContent := "";
          Popup.errorMessage_display := "none";
          Popup.successMessage_display := "none";
          Popup.inputField_borderColor := Some "" |};
     Popup.tier_ui :=
       {| Popup.tierTypeMoney_checked := true;
          Popup.tierGreenInput_value := g;
          Popup.tierYellowInput_value := y;
          Popup.tierRedInput_value := r;
          Popup.tierGreenInput_borderColor := "";
          Popup.tierYellowInput_borderColor := "";
          Popup.tierRedInput_borderColor := "";
          Popup.tierSuccessMessage_display := "none" |};
     Popup.timeouts := [];
     Popup.sent := [];
     Popup.local := empty_area |}.

Definition online : Popup.browser :=
  {| Popup.writable := true; Popup.connected := true |}.

Definition worker : ServiceWorker.browser :=
  {| ServiceWorker.local := empty_area;
     ServiceWorker.tabs := [7%nat; 9%nat];
     ServiceWorker.active_tab := Some 7%nat |}.

End Scenarios.
(** * Proofs *)

(** ** Facts about the order *)

Section FloatOrder.

Local Open Scope Z_scope.

Lemma SFcompare_key_None (x y : spec_float) :
  key x = None \/ key y = None -> SFcompare x y = None.
Proof.
  destruct x as [sx|sx| |sx mx ex], y as [sy|sy| |sy my ey];
    simpl; intros [H|H]; try discriminate; try reflexivity;
    destruct sx; discriminate.
Qed.

Ltac cmp_cases ex ey mx my :=
  destruct (Z.compare_spec ex ey);
  change (Pos.compare_cont Eq mx my) with (Pos.compare mx my);
  try destruct (Pos.compare_spec mx my); simpl;
  split; intros; try discriminate; try lia; try reflexivity.

Lemma SFcompare_key (x y : spec_float) (a b : Z * Z * Z) :
  key x = Some a -> key y = Some b ->
  exists c, SFcompare x y = Some c /\
    (c = Lt <-> lex_lt a b) /\ (c = Eq <-> lex_eq a b) /\ (c = Gt <-> lex_lt b a).
Proof.
  assert (fin : forall c (a1 a2 b1 b2 : Z),
             (c = Lt <-> a1 < b1 \/ (a1 = b1 /\ a2 < b2)) ->
             (c = Eq <-> a1 = b1 /\ a2 = b2) ->
             (c = Gt <-> b1 < a1 \/ (b1 = a1 /\ b2 < a2)) ->
             forall k : Z,
             (c = Lt <-> lex_lt (k, a1, a2) (k, b1, b2)) /\
             (c = Eq <-> lex_eq (k, a1, a2) (k, b1, b2)) /\
             (c = Gt <-> lex_lt (k, b1, b2) (k, a1, a2))).
  { intros c a1 a2 b1 b2 H1 H2 H3 k. unfold lex_lt, lex_eq.
    rewrite H1, H2, H3. repeat split; intros; lia. }
  destruct x as [sx|sx| |sx mx ex], y as [sy|sy| |sy my ey];
    simpl; intros Ha Hb; try discriminate;
    injection Ha as <-; injection Hb as <-;
    try (destruct sx); try (destruct sy); simpl;
    try (eexists; split; [reflexivity|];
         repeat split; intros; try discriminate; try lia; fail).
  - (* both negative *)
    eexists; split; [reflexivity|]. apply fin; cmp_cases ex ey mx my.
  - (* both positive *)
    eexists; split; [reflexivity|]. apply fin; cmp_cases ex ey mx my.
Qed.

Lemma ltb_flt (x y : float) : (x <? y)%float = true <-> flt x y.
Proof.
  rewrite FloatAxioms.ltb_spec. unfold flt, fkey, SFltb.
  destruct (key (Prim2SF x)) as [a|] eqn:Ha.
  2:{ rewrite SFcompare_key_None by auto. split; [discriminate|tauto]. }
  destruct (key (Prim2SF y)) as [b|] eqn:Hb.
  2:{ rewrite SFcompare_key_None by auto. split; [discriminate|tauto]. }
  destruct (SFcompare_key _ _ _ _ Ha Hb) as (c & -> & H1 & H2 & H3).
  rewrite <- H1. destruct c; split; congruence.
Qed.

Lemma eqb_feq (x y : float) : (x =? y)%float = true <-> feq x y.
Proof.
  rewrite FloatAxioms.eqb_spec. unfold feq, fkey, SFeqb.
  destruct (key (Prim2SF x)) as [a|] eqn:Ha.
  2:{ rewrite SFcompare_key_None by auto. split; [discriminate|tauto]. }
  destruct (key (Prim2SF y)) as [b|] eqn:Hb.
  2:{ rewrite SFcompare_key_None by auto. split; [discriminate|tauto]. }
  destruct (SFcompare_key _ _ _ _ Ha Hb) as (c & -> & H1 & H2 & H3).
  rewrite <- H2. destruct c; split; congruence.
Qed.

Lemma leb_fle (x y : float) : (x <=? y)%float = true <-> fle x y.
Proof.
  rewrite FloatAxioms.leb_spec. unfold fle, flt, feq, fkey, SFleb.
  destruct (key (Prim2SF x)) as [a|] eqn:Ha.
  2:{ rewrite SFcompare_key_None by auto. split; [discriminate|tauto]. }
  destruct (key (Prim2SF y)) as [b|] eqn:Hb.
  2:{ rewrite SFcompare_key_None by auto. split; [discriminate|tauto]. }
  destruct (SFcompare_key _ _ _ _ Ha Hb) as (c & -> & H1 & H2 & H3).
  rewrite <- H1, <- H2. destruct c; split; try tauto; try congruence.
  intros [H|H]; discriminate.
Qed.

Lemma is_nan_fkey (x : float) : is_nan x = true <-> fkey x = None.
Proof.
  unfold is_nan. rewrite negb_true_iff.
  destruct (x =? x)%float eqn:E.
  - apply eqb_feq in E. unfold feq in E.
    destruct (fkey x); [split; discriminate|tauto].
  - split; [|reflexivity]. intros _.
    destruct (fkey x) as [[[a1 a2] a3]|] eqn:K; [|reflexivity].
    assert (F : feq x x) by (unfold feq; rewrite K; simpl; lia).
    apply eqb_feq in F. congruence.
Qed.

Lemma is_nan_false_fkey (x : float) :
  is_nan x = false <-> exists a, fkey x = Some a.
Proof.
  destruct (is_nan x) eqn:E.
  - apply is_nan_fkey in E. rewrite E. split; [discriminate|].
    intros [a Ha]; discriminate.
  - split; [intros _|reflexivity].
    destruct (fkey x) as [a|] eqn:K; [eauto|].
    apply is_nan_fkey in K. congruence.
Qed.

Lemma ltb_false_flt (x y : float) : (x <? y)%float = false <-> ~ flt x y.
Proof. rewrite <- ltb_flt. destruct (x <? y)%float; split; congruence. Qed.

Lemma leb_false_fle (x y : float) : (x <=? y)%float = false <-> ~ fle x y.
Proof. rewrite <- leb_fle. destruct (x <=? y)%float; split; congruence. Qed.

Lemma eqb_false_feq (x y : float) : (x =? y)%float = false <-> ~ feq x y.
Proof. rewrite <- eqb_feq. destruct (x =? y)%float; split; congruence. Qed.

End FloatOrder.

Lemma fkey_zero : fkey 0%float = Some (0, 0, 0)%Z.
Proof. reflexivity. Qed.

(** Turns float comparisons into facts about keys and leaves linear
    arithmetic. *)
Ltac float_props :=
  repeat match goal with
  | H : (_ <? _)%float = true |- _ => apply ltb_flt in H
  | H : (_ <? _)%float = false |- _ => apply ltb_false_flt in H
  | H : (_ <=? _)%float = true |- _ => apply leb_fle in H
  | H : (_ <=? _)%float = false |- _ => apply leb_false_fle in H
  | H : (_ =? _)%float = true |- _ => apply eqb_feq in H
  | H : (_ =? _)%float = false |- _ => apply eqb_false_feq in H
  | H : is_nan _ = true |- _ => apply is_nan_fkey in H
  | H : is_nan _ = false |- _ => apply is_nan_false_fkey in H; destruct H as [? H]
  | |- (_ <? _)%float = true => apply ltb_flt
  | |- (_ <? _)%float = false => apply ltb_false_flt
  | |- (_ <=? _)%float = true => apply leb_fle
  | |- (_ <=? _)%float = false => apply leb_false_fle
  | |- (_ =? _)%float = true => apply eqb_feq
  | |- (_ =? _)%float = false => apply eqb_false_feq
  | |- is_nan _ = true => apply is_nan_fkey
  end.

Ltac float_keys :=
  unfold fle, flt, feq in *; rewrite ?fkey_zero in *;
  repeat match goal with
  | H : fkey ?x = _ |- _ => rewrite H in *; clear H
  end;
  repeat match goal with
  | H : context [match fkey ?x with _ => _ end] |- _ =>
      destruct (fkey x) as [[[? ?] ?]|]
  | |- context [match fkey ?x with _ => _ end] =>
      destruct (fkey x) as [[[? ?] ?]|]
  end;
  repeat match goal with
  | x : (Z * Z * Z)%type |- _ => destruct x as [[? ?] ?]
  end;
  unfold lex_lt, lex_eq in *.

Ltac float_order :=
  float_props; float_keys;
  try solve [congruence | tauto | lia | intro; lia].

Section ConverterFacts.

Import Converter.

Lemma not_lt_zero_iff (p : float) :
  is_nan p = false /\ (p <? 0)%float = false <-> (0 <=? p)%float = true.
Proof.
  split.
  - intros [H1 H2]. float_order.
  - intros H. split.
    + destruct (is_nan p) eqn:E; [|reflexivity]. float_order.
    + float_order.
Qed.

Lemma not_le_zero_iff (w : float) :
  is_nan w = false /\ (w <=? 0)%float = false <-> (0 <? w)%float = true.
Proof.
  split.
  - intros [H1 H2]. float_order.
  - intros H. split.
    + destruct (is_nan w) eqn:E; [|reflexivity]. float_order.
    + float_order.
Qed.

(** C1 (as stated, refuted): an infinite price is a non-finite argument, yet
    [calculateHours] answers with a number instead of [null]; so does an
    infinite wage. *)
Lemma calculateHours_infinite_not_null :
  is_finite infinity = false /\
  calculateHours (VNum infinity) (VNum 1) = Some infinity /\
  calculateHours (VNum 1) (VNum infinity) = Some 0%float.
Proof. repeat split. Qed.

(** C1 (amended): [calculateHours price wage] is [price / wage] exactly when
    both arguments are numbers with [price >= 0] and [wage > 0] (which
    excludes NaN but not the infinities), and [null] in every other case: in
    particular for every wage [<= 0] with any price, for a negative price, for
    a NaN argument and for an argument that is not a number. *)
Theorem calculateHours_exactly :
  (forall p w : float,
      (0 <=? p)%float = true -> (0 <? w)%float = true ->
      calculateHours (VNum p) (VNum w) = Some (p / w)%float) /\
  (forall (price wage : value) (h : float),
      calculateHours price wage = Some h ->
      exists p w, price = VNum p /\ wage = VNum w /\
                  (0 <=? p)%float = true /\ (0 <? w)%float = true /\
                  h = (p / w)%float) /\
  (forall (price : value) (w : float),
      (w <=? 0)%float = true -> calculateHours price (VNum w) = None) /\
  (forall (p : float) (wage : value),
      (p <? 0)%float = true -> calculateHours (VNum p) wage = None) /\
  (forall (p : float) (wage : value),
      is_nan p = true -> calculateHours (VNum p) wage = None) /\
  (forall (price : value) (w : float),
      is_nan w = true -> calculateHours price (VNum w) = None) /\
  (forall price wage : value,
      (forall p, price <> VNum p) \/ (forall w, wage <> VNum w) ->
      calculateHours price wage = None).
Proof.
  repeat apply conj.
  - intros p w Hp Hw. unfold calculateHours, isNaN.
    apply not_lt_zero_iff in Hp. apply not_le_zero_iff in Hw.
    destruct Hp as [-> ->], Hw as [-> ->]. reflexivity.
  - intros price wage h H.
    destruct price as [| | |p|]; try discriminate.
    destruct wage as [| | |w|]; try discriminate.
    unfold calculateHours, isNaN in H.
    destruct (is_nan p) eqn:E1; [discriminate|].
    destruct (is_nan w) eqn:E2; [discriminate|].
    destruct (p <? 0)%float eqn:E3; [discriminate|].
    destruct (w <=? 0)%float eqn:E4; [discriminate|].
    simpl in H. injection H as <-.
    exists p, w. repeat apply conj; try reflexivity.
    + apply not_lt_zero_iff; auto.
    + apply not_le_zero_iff; auto.
  - intros price w Hw. destruct price; try reflexivity.
    unfold calculateHours. rewrite Hw, !orb_true_r. reflexivity.
  - intros p wage Hp. destruct wage; try reflexivity.
    unfold calculateHours. rewrite Hp, !orb_true_r. reflexivity.
  - intros p wage Hp. destruct wage; try reflexivity.
    unfold calculateHours, isNaN. rewrite Hp. reflexivity.
  - intros price w Hw. destruct price; try reflexivity.
    unfold calculateHours, isNaN. rewrite Hw, !orb_true_r. reflexivity.
  - intros price wage [H|H].
    + destruct price; try reflexivity. exfalso. eapply H; reflexivity.
    + destruct price, wage; try reflexivity. exfalso. eapply H; reflexivity.
Qed.

Lemma calculateHours_exactly_witness :
  calculateHours (VNum 40) (VNum 20) = Some 2%float.
Proof.
  apply (proj1 calculateHours_exactly 40%float 20%float); reflexivity.
Defined.

(** C2 (as stated, refuted): with [green = 10] the value 0 is below the green
    threshold and is classified "green", not "yellow". *)
Lemma getTierColor_zero_below_green :
  getTierColor (VNum 0)
    (Some {| tier_type := "money"; green := 10; yellow := 50; red := 100 |})
    <> "yellow".
Proof. vm_compute. discriminate. Qed.

(** C2 (amended): [getTierColor] puts a value below [green] in "green", a
    value between [green] and [yellow] (bounds included) in "yellow" unless
    both the value and [green] are zero, which is "green", and, for settings
    with [green <= yellow], a value above [yellow] in "red".  In particular
    0 is "green" for thresholds 0/50/100 and for thresholds 10/50/100, the
    boundary value 10 is "yellow" for thresholds 10/50/100, and 150 is "red"
    for thresholds 0/50/100. *)
Theorem getTierColor_classifies (v : float) (ts : TierSettings) :
  ((v <? green ts)%float = true ->
     getTierColor (VNum v) (Some ts) = "green") /\
  ((green ts =? 0)%float = true -> (v =? 0)%float = true ->
     getTierColor (VNum v) (Some ts) = "green") /\
  ((green ts <=? v)%float = true -> (v <=? yellow ts)%float = true ->
     ((green ts =? 0)%float && (v =? 0)%float = false) ->
     getTierColor (VNum v) (Some ts) = "yellow") /\
  ((green ts <=? yellow ts)%float = true -> (yellow ts <? v)%float = true ->
     getTierColor (VNum v) (Some ts) = "red") /\
  getTierColor (VNum 0)
    (Some {| tier_type := "money"; green := 0; yellow := 50; red := 100 |})
    = "green" /\
  getTierColor (VNum 0)
    (Some {| tier_type := "money"; green := 10; yellow := 50; red := 100 |})
    = "green" /\
  getTierColor (VNum 10)
    (Some {| tier_type := "money"; green := 10; yellow := 50; red := 100 |})
    = "yellow" /\
  getTierColor (VNum 150)
    (Some {| tier_type := "money"; green := 0; yellow := 50; red := 100 |})
    = "red".
Proof.
  assert (nn : forall x y, (x <? y)%float = true -> is_nan x = false).
  { intros x y H. destruct (is_nan x) eqn:E; [|reflexivity]. float_order. }
  assert (nn' : forall x y, (y <=? x)%float = true -> is_nan x = false).
  { intros x y H. destruct (is_nan x) eqn:E; [|reflexivity]. float_order. }
  repeat apply conj.
  - intros H. unfold getTierColor, isNaN. rewrite (nn _ _ H), H.
    destruct (_ && _); reflexivity.
  - intros Hg Hv. unfold getTierColor, isNaN.
    assert (N : is_nan v = false).
    { destruct (is_nan v) eqn:E; [|reflexivity]. float_order. }
    rewrite N, Hg, Hv. reflexivity.
  - intros Hg Hy Hs. unfold getTierColor, isNaN.
    rewrite (nn' _ _ Hg), Hs, Hg, Hy.
    assert (L : (v <? green ts)%float = false) by float_order.
    rewrite L. reflexivity.
  - intros Hgy Hy. unfold getTierColor, isNaN. rewrite (nn' v (yellow ts)).
    2:{ float_order. }
    assert (L : (v <? green ts)%float = false) by float_order.
    assert (S : (green ts =? 0)%float && (v =? 0)%float = false).
    { apply andb_false_iff.
      destruct (green ts =? 0)%float eqn:E1; [right|left; reflexivity].
      float_order. }
    assert (Y : (v <=? yellow ts)%float = false) by float_order.
    rewrite S, L, Y, andb_false_r, Hy. reflexivity.
  - vm_compute. reflexivity.
  - vm_compute. reflexivity.
  - vm_compute. reflexivity.
  - vm_compute. reflexivity.
Qed.

Lemma getTierColor_classifies_witness :
  getTierColor (VNum 5)
    (Some {| tier_type := "hours"; green := 10; yellow := 50; red := 100 |})
    = "green".
Proof.
  apply (proj1 (getTierColor_classifies 5%float
    {| tier_type := "hours"; green := 10; yellow := 50; red := 100 |})).
  reflexivity.
Defined.

(** C10: the colour does not depend on the red threshold: two tier settings
    with the same [green] and [yellow] give every value the same colour. *)
Theorem getTierColor_ignores_red (v : value) (ts1 ts2 : TierSettings) :
  green ts1 = green ts2 -> yellow ts1 = yellow ts2 ->
  getTierColor v (Some ts1) = getTierColor v (Some ts2).
Proof.
  intros Hg Hy. unfold getTierColor. rewrite Hg, Hy. reflexivity.
Qed.

Lemma getTierColor_ignores_red_witness :
  getTierColor (VNum 75)
    (Some {| tier_type := "money"; green := 0; yellow := 50; red := 100 |}) =
  getTierColor (VNum 75)
    (Some {| tier_type := "money"; green := 0; yellow := 50; red := 60 |}).
Proof.
  apply (getTierColor_ignores_red (VNum 75)
           {| tier_type := "money"; green := 0; yellow := 50; red := 100 |}
           {| tier_type := "money"; green := 0; yellow := 50; red := 60 |});
    reflexivity.
Defined.

End ConverterFacts.

(** ** Half-hour rounding on binary64 *)

Section HalfHours.

Import Converter.
Local Open Scope Z_scope.

Lemma digits2_size (m : positive) : digits2_pos m = Pos.size m.
Proof. induction m; simpl; congruence. Qed.

Lemma digits2_bounds (m : positive) :
  2 ^ (Zpos (digits2_pos m) - 1) <= Zpos m < 2 ^ Zpos (digits2_pos m).
Proof.
  rewrite digits2_size.
  pose proof (Pos.size_gt m) as G. pose proof (Pos.size_le m) as L.
  split.
  - apply Pos2Z.pos_le_pos in L. rewrite Pos2Z.inj_pow in L.
    replace (Zpos (Pos.size m)) with (Z.succ (Zpos (Pos.size m) - 1)) in L by lia.
    rewrite Z.pow_succ_r in L by lia. lia.
  - apply Pos2Z.pos_lt_pos in G. rewrite Pos2Z.inj_pow in G. exact G.
Qed.

Lemma digits2_shl (k : nat) (m : positive) :
  Zpos (digits2_pos (shl k m)) = Zpos (digits2_pos m) + Z.of_nat k.
Proof. induction k; simpl shl; [lia|]. simpl digits2_pos. lia. Qed.

Lemma iter_pos_nat {A} (f : A -> A) (p : positive) (x : A) :
  SpecFloat.iter_pos f p x = Nat.iter (Pos.to_nat p) f x.
Proof.
  revert x. induction p; intros x; simpl SpecFloat.iter_pos.
  - rewrite !IHp, Pos2Nat.inj_xI.
    replace (2 * Pos.to_nat p)%nat with (Pos.to_nat p + Pos.to_nat p)%nat by lia.
    rewrite Nat.iter_succ_r, Nat.iter_add. reflexivity.
  - rewrite !IHp, Pos2Nat.inj_xO.
    replace (2 * Pos.to_nat p)%nat with (Pos.to_nat p + Pos.to_nat p)%nat by lia.
    rewrite Nat.iter_add. reflexivity.
  - reflexivity.
Qed.

Lemma shr_shl (k : nat) (m : positive) :
  Nat.iter k shr_1 {| shr_m := Zpos (shl k m); shr_r := false; shr_s := false |}
  = {| shr_m := Zpos m; shr_r := false; shr_s := false |}.
Proof.
  induction k.
  - reflexivity.
  - rewrite Nat.iter_succ_r. simpl shl. simpl shr_1. exact IHk.
Qed.

Lemma mul_pow2_shl (m : positive) :
  (m * 4503599627370496)%positive = shl 52 m.
Proof. rewrite Pos.mul_comm. reflexivity. Qed.

(** Rounding [shl k m * 2^e] to binary64 when [m] fits the format at exponent
    [e + k]. *)
Lemma round_shl (s : bool) (k : nat) (m : positive) (e : Z) :
  canonical_mantissa prec emax m (e + Z.of_nat k) = true ->
  e + Z.of_nat k <= 971 ->
  binary_round_aux prec emax s (Zpos (shl k m)) e loc_Exact
  = S754_finite s m (e + Z.of_nat k).
Proof.
  intros Hc He. unfold canonical_mantissa in Hc. apply Z.eqb_eq in Hc.
  unfold binary_round_aux, shr_fexp.
  cbn [Zdigits2]. rewrite digits2_shl.
  replace (Zpos (digits2_pos m) + Z.of_nat k + e)
    with (Zpos (digits2_pos m) + (e + Z.of_nat k)) by lia.
  rewrite Hc.
  replace (e + Z.of_nat k - e) with (Z.of_nat k) by lia.
  assert (E : shr (shr_record_of_loc (Zpos (shl k m)) loc_Exact) e (Z.of_nat k)
              = ({| shr_m := Zpos m; shr_r := false; shr_s := false |},
                 e + Z.of_nat k)).
  { destruct k as [|k].
    - simpl. f_equal. lia.
    - change (Z.of_nat (S k)) with (Zpos (Pos.of_succ_nat k)).
      unfold shr. rewrite iter_pos_nat, SuccNat2Pos.id_succ.
      cbn [shr_record_of_loc]. rewrite shr_shl. reflexivity. }
  rewrite E. cbn [shr_m loc_of_shr_record round_nearest_even Zdigits2].
  rewrite Hc. rewrite Z.sub_diag. cbn [shr shr_record_of_loc shr_m].
  replace (e + Z.of_nat k <=? emax - prec) with true
    by (symmetry; apply Z.leb_le; unfold prec, emax; lia).
  reflexivity.
Qed.

Lemma shl_xO (k : nat) (m : positive) : shl k (xO m) = xO (shl k m).
Proof. induction k; simpl; congruence. Qed.

Lemma Prim2SF_two : Prim2SF 2 = S754_finite false 4503599627370496 (-51).
Proof. reflexivity. Qed.

Lemma valid_finite (h : float) (s : bool) (m : positive) (e : Z) :
  Prim2SF h = S754_finite s m e ->
  Z.max (Zpos (digits2_pos m) + e - 53) (-1074) = e /\ e <= 971.
Proof.
  intros H. pose proof (Prim2SF_valid h) as V. rewrite H in V.
  unfold SpecFloat.valid_binary, bounded, canonical_mantissa in V.
  apply andb_true_iff in V. destruct V as [V1 V2].
  apply Z.eqb_eq in V1. apply Z.leb_le in V2.
  unfold fexp, SpecFloat.emin, prec, emax in *. split; lia.
Qed.

(** Doubling a finite float below the overflow threshold is exact. *)
Lemma Prim2SF_double (h : float) (s : bool) (m : positive) (e : Z) :
  Prim2SF h = S754_finite s m e -> e < 971 ->
  Prim2SF (h * 2) =
    if Z.eqb (Zpos (digits2_pos m)) 53
    then S754_finite s m (e + 1)
    else S754_finite s (xO m) e.
Proof.
  intros H He. destruct (valid_finite _ _ _ _ H) as [V _].
  rewrite mul_spec. unfold SF64mul. rewrite H, Prim2SF_two.
  cbn [SFmul]. rewrite xorb_false_r, mul_pow2_shl.
  destruct (Z.eqb_spec (Zpos (digits2_pos m)) 53) as [D|D].
  - replace (e + 1) with (e + -51 + Z.of_nat 52) by lia.
    apply round_shl; [|lia].
    unfold canonical_mantissa. apply Z.eqb_eq.
    unfold fexp, SpecFloat.emin, prec, emax. lia.
  - assert (E : e = -1074) by lia. subst e.
    change (shl 52 m) with (xO (shl 51 m)). rewrite <- shl_xO.
    change (S754_finite s (xO m) (-1074))
      with (S754_finite s (xO m) (-1074 + -51 + Z.of_nat 51)).
    apply round_shl; [|simpl; lia].
    unfold canonical_mantissa. apply Z.eqb_eq.
    cbn [digits2_pos]. rewrite Pos2Z.inj_succ.
    unfold fexp, SpecFloat.emin, prec, emax.
    change (-1074 + -51 + Z.of_nat 51) with (-1074). lia.
Qed.

Lemma fkey_consts :
  fkey 0.25 = Some (1, -54, 4503599627370496) /\
  fkey 0.75 = Some (1, -53, 6755399441055744) /\
  fkey 1.25 = Some (1, -52, 5629499534213120).
Proof. repeat split. Qed.

Lemma SFround_small (m : positive) (e : Z) (c : Z) :
  e < 0 ->
  2 ^ (- e) * c <= Zpos m + 2 ^ (- e - 1) < 2 ^ (- e) * (c + 1) ->
  SFround (S754_finite false m e) = binary_normalize prec emax c 0 false.
Proof.
  intros He Hc. unfold SFround.
  replace (0 <=? e) with false by (symmetry; apply Z.leb_gt; lia).
  cbn [cond_Zopp]. f_equal.
  symmetry. apply Z.div_unique with (r := Zpos m + 2 ^ (- e - 1) - 2 ^ (- e) * c).
  - left. lia.
  - lia.
Qed.

Lemma round_double_bucket1 (h : float) :
  (0.25 <=? h)%float = true -> (h <? 0.75)%float = true ->
  Math_round (h * 2) = 1%float.
Proof.
  intros H1 H2. float_props. unfold fle, flt, feq, fkey in *.
  destruct fkey_consts as (K1 & K2 & K3). unfold fkey in K1, K2, K3.
  rewrite K1 in H1. rewrite K2 in H2.
  destruct (Prim2SF h) as [s|s| |s m e] eqn:Hh; simpl in H1, H2.
  all: try tauto; try (destruct s; simpl in *; lia).
  destruct s; simpl in H1, H2; [lia|].
  destruct (valid_finite _ _ _ _ Hh) as [V E].
  pose proof (digits2_bounds m) as B.
  assert (D : Zpos (digits2_pos m) = 53) by lia.
  rewrite D in B. change (2 ^ (53 - 1)) with 4503599627370496 in B.
  change (2 ^ 53) with 9007199254740992 in B.
  unfold Math_round. rewrite (Prim2SF_double _ _ _ _ Hh) by lia.
  rewrite D. cbn [Z.eqb Pos.eqb].
  rewrite (SFround_small m (e + 1) 1).
  - reflexivity.
  - lia.
  - assert (C : e = -54 \/ e = -53) by lia.
    destruct C as [-> | ->]; simpl; lia.
Qed.

Lemma round_double_bucket2 (h : float) :
  (0.75 <=? h)%float = true -> (h <? 1.25)%float = true ->
  Math_round (h * 2) = 2%float.
Proof.
  intros H1 H2. float_props. unfold fle, flt, feq, fkey in *.
  destruct fkey_consts as (K1 & K2 & K3). unfold fkey in K1, K2, K3.
  rewrite K2 in H1. rewrite K3 in H2.
  destruct (Prim2SF h) as [s|s| |s m e] eqn:Hh; simpl in H1, H2.
  all: try tauto; try (destruct s; simpl in *; lia).
  destruct s; simpl in H1, H2; [lia|].
  destruct (valid_finite _ _ _ _ Hh) as [V E].
  pose proof (digits2_bounds m) as B.
  assert (D : Zpos (digits2_pos m) = 53) by lia.
  rewrite D in B. change (2 ^ (53 - 1)) with 4503599627370496 in B.
  change (2 ^ 53) with 9007199254740992 in B.
  unfold Math_round. rewrite (Prim2SF_double _ _ _ _ Hh) by lia.
  rewrite D. cbn [Z.eqb Pos.eqb].
  rewrite (SFround_small m (e + 1) 2).
  - reflexivity.
  - lia.
  - assert (C : e = -53 \/ e = -52) by lia.
    destruct C as [-> | ->]; simpl; lia.
Qed.

Lemma round_double_bucket0 (h : float) :
  (0 <=? h)%float = true -> (h <? 0.25)%float = true ->
  Math_round (h * 2) = 0%float \/ Math_round (h * 2) = (-0)%float.
Proof.
  intros H1 H2. float_props. unfold fle, flt, feq, fkey in *.
  destruct fkey_consts as (K1 & K2 & K3). unfold fkey in K1, K2, K3.
  rewrite K1 in H2. change (key (Prim2SF 0)) with (Some (0, 0, 0)) in H1.
  destruct (Prim2SF h) as [s|s| |s m e] eqn:Hh; simpl in H1, H2.
  all: try tauto; try (destruct s; simpl in *; lia).
  - (* a zero *)
    unfold Math_round. rewrite mul_spec. unfold SF64mul.
    rewrite Hh, Prim2SF_two. destruct s; [right|left]; reflexivity.
  - destruct s; simpl in H1, H2; [lia|]. left.
    destruct (valid_finite _ _ _ _ Hh) as [V E].
    pose proof (digits2_bounds m) as B.
    assert (L : e <= -55).
    { destruct (Z.eq_dec e (-54)) as [->|]; [exfalso|lia].
      assert (D : Zpos (digits2_pos m) = 53) by lia.
      rewrite D in B. change (2 ^ (53 - 1)) with 4503599627370496 in B. lia. }
    assert (P : 2 ^ Zpos (digits2_pos m) <= 2 ^ 53)
      by (apply Z.pow_le_mono_r; lia).
    change (2 ^ 53) with 9007199254740992 in P.
    assert (Q : 2 ^ 54 <= 2 ^ (- e - 1)) by (apply Z.pow_le_mono_r; lia).
    change (2 ^ 54) with 18014398509481984 in Q.
    assert (R : 2 ^ (- e) = 2 * 2 ^ (- e - 1)).
    { replace (- e) with (Z.succ (- e - 1)) at 1 by lia.
      apply Z.pow_succ_r. lia. }
    unfold Math_round. rewrite (Prim2SF_double _ _ _ _ Hh) by lia.
    destruct (Z.eqb_spec (Zpos (digits2_pos m)) 53) as [D|D].
    + assert (e <= -56 \/ e = -55) as [L'|L'] by lia.
      2:{ subst e. rewrite (SFround_small m (-55 + 1) 0); [reflexivity|lia|].
          simpl. lia. }
      assert (Q' : 2 ^ 54 <= 2 ^ (- (e + 1) - 1)) by (apply Z.pow_le_mono_r; lia).
      change (2 ^ 54) with 18014398509481984 in Q'.
      assert (R' : 2 ^ (- (e + 1)) = 2 * 2 ^ (- (e + 1) - 1)).
      { replace (- (e + 1)) with (Z.succ (- (e + 1) - 1)) at 1 by lia.
        apply Z.pow_succ_r. lia. }
      rewrite (SFround_small m (e + 1) 0); [reflexivity|lia|lia].
    + assert (M : Zpos m < 2 ^ 52).
      { eapply Z.lt_le_trans; [apply B|]. apply Z.pow_le_mono_r; lia. }
      change (2 ^ 52) with 4503599627370496 in M.
      rewrite (SFround_small (xO m) e 0); [reflexivity|lia|].
      change (Zpos (xO m)) with (2 * Zpos m). lia.
Qed.

(** Rounding the double of a positive number [m * 2^e] that has a fraction:
    the integer [c] with [c - 1/2 <= 2 * m * 2^e < c + 1/2]. *)
Lemma round_double_general (h : float) (m : positive) (e c : Z) :
  Prim2SF h = S754_finite false m e -> e < -1 ->
  2 ^ (- e - 1) * c <= Zpos m + 2 ^ (- e - 2) < 2 ^ (- e - 1) * (c + 1) ->
  Math_round (h * 2) = SF2Prim (binary_normalize prec emax c 0 false).
Proof.
  intros Hh He Hc.
  unfold Math_round. rewrite (Prim2SF_double _ _ _ _ Hh) by lia.
  destruct (Z.eqb_spec (Zpos (digits2_pos m)) 53) as [D|D].
  - rewrite (SFround_small m (e + 1) c); [reflexivity|lia|].
    replace (- (e + 1)) with (- e - 1) by lia.
    replace (- e - 1 - 1) with (- e - 2) by lia. exact Hc.
  - assert (R : 2 ^ (- e) = 2 * 2 ^ (- e - 1)).
    { replace (- e) with (Z.succ (- e - 1)) at 1 by lia.
      apply Z.pow_succ_r. lia. }
    assert (R' : 2 ^ (- e - 1) = 2 * 2 ^ (- e - 2)).
    { replace (- e - 1) with (Z.succ (- e - 2)) at 1 by lia.
      apply Z.pow_succ_r. lia. }
    rewrite (SFround_small (xO m) e c); [reflexivity|lia|].
    change (Zpos (xO m)) with (2 * Zpos m). lia.
Qed.

Lemma finite_positive_plain (h : float) (m : positive) (e : Z) :
  Prim2SF h = S754_finite false m e ->
  is_nan h = false /\ (h <? 0)%float = false.
Proof.
  intros Hh.
  assert (K : fkey h = Some (1, e, Zpos m)) by (unfold fkey; rewrite Hh; reflexivity).
  split.
  - apply is_nan_false_fkey. eauto.
  - apply ltb_false_flt. unfold flt. rewrite K, fkey_zero. simpl. lia.
Qed.

(** C3: [formatHours] answers "N/A" for [null], NaN and negative hours;
    for every other number it rounds to the nearest half hour by
    [Math.round(hours * 2) / 2] and answers "< 0.5h" when that is below
    0.25 and the rounded number followed by "h" otherwise.  So every
    [hours] in [0, 0.25) gives "< 0.5h", every [hours] in [0.25, 0.75) gives
    "0.5h" and every [hours] in [0.75, 1.25) gives "1h": the boundaries 0.25
    and 0.75 fall into the upper bucket.  And so on upwards: for hours
    [m * 2^e] with a fraction ([e < -1]) the rounded number is half the
    integer [c] with [c - 1/2 <= 2 * hours < c + 1/2]; 1.25 gives "1.5h", 7.3
    "7.5h", 1000 "1000h" and [Infinity] "Infinityh". *)
Theorem formatHours_buckets :
  formatHours None = "N/A" /\
  (forall h, is_nan h = true -> formatHours (Some h) = "N/A") /\
  (forall h, (h <? 0)%float = true -> formatHours (Some h) = "N/A") /\
  (forall h, is_nan h = false -> (h <? 0)%float = false ->
             formatHours (Some h) =
             if (Math_round (h * 2) / 2 <? 0.25)%float then "< 0.5h"
             else Number_toString (Math_round (h * 2) / 2) ++ "h") /\
  (forall h m e c,
      Prim2SF h = S754_finite false m e -> e < -1 ->
      2 ^ (- e - 1) * c <= Zpos m + 2 ^ (- e - 2) < 2 ^ (- e - 1) * (c + 1) ->
      formatHours (Some h) =
      let r := (SF2Prim (binary_normalize prec emax c 0 false) / 2)%float in
      if (r <? 0.25)%float then "< 0.5h" else Number_toString r ++ "h") /\
  (forall h, (0 <=? h)%float = true -> (h <? 0.25)%float = true ->
             formatHours (Some h) = "< 0.5h") /\
  (forall h, (0.25 <=? h)%float = true -> (h <? 0.75)%float = true ->
             formatHours (Some h) = "0.5h") /\
  (forall h, (0.75 <=? h)%float = true -> (h <? 1.25)%float = true ->
             formatHours (Some h) = "1h") /\
  formatHours (Some 1.25%float) = "1.5h" /\
  formatHours (Some 7.3%float) = "7.5h" /\
  formatHours (Some 1000%float) = "1000h" /\
  formatHours (Some infinity) = "Infinityh".
Proof.
  assert (ok : forall h c, (c <=? h)%float = true -> (0 <=? c)%float = true ->
                           isNaN h || (h <? 0)%float = false).
  { intros h c H1 H2. apply orb_false_iff. unfold isNaN. split.
    - destruct (is_nan h) eqn:E; [|reflexivity]. float_order.
    - float_order. }
  repeat apply conj.
  - reflexivity.
  - intros h H. unfold formatHours, isNaN. rewrite H. reflexivity.
  - intros h H. unfold formatHours. rewrite H, orb_true_r. reflexivity.
  - intros h H1 H2. unfold formatHours, isNaN. rewrite H1, H2. cbn [orb].
    cbv zeta.
    destruct (Math_round (h * 2) / 2 <? 0.25)%float; [reflexivity|].
    destruct (js_rem (Math_round (h * 2) / 2) 1 =? 0)%float; reflexivity.
  - intros h m e c Hh He Hc.
    destruct (finite_positive_plain _ _ _ Hh) as [N P].
    unfold formatHours, isNaN. rewrite N, P. cbn [orb]. cbv zeta.
    rewrite (round_double_general _ _ _ _ Hh He Hc).
    match goal with
    | |- context [(?r <? 0.25)%float] => destruct (r <? 0.25)%float
    end; [reflexivity|].
    match goal with
    | |- context [(js_rem ?r 1 =? 0)%float] =>
        destruct (js_rem r 1 =? 0)%float
    end; reflexivity.
  - intros h H1 H2. unfold formatHours.
    rewrite (ok h 0%float H1 eq_refl).
    destruct (round_double_bucket0 h H1 H2) as [-> | ->]; reflexivity.
  - intros h H1 H2. unfold formatHours.
    rewrite (ok h 0.25%float H1 eq_refl).
    rewrite (round_double_bucket1 h H1 H2). vm_compute. reflexivity.
  - intros h H1 H2. unfold formatHours.
    rewrite (ok h 0.75%float H1 eq_refl).
    rewrite (round_double_bucket2 h H1 H2). vm_compute. reflexivity.
  - vm_compute. reflexivity.
  - vm_compute. reflexivity.
  - vm_compute. reflexivity.
  - vm_compute. reflexivity.
Qed.

Lemma formatHours_buckets_witness :
  formatHours (Some 0.25%float) = "0.5h" /\
  formatHours (Some 0.75%float) = "1h" /\
  formatHours (Some 0.125%float) = "< 0.5h" /\
  formatHours (Some 2.75%float) = "3h" /\
  formatHours (Some 7.3%float) = "7.5h".
Proof.
  destruct formatHours_buckets as (_ & _ & _ & R & G & B0 & B1 & B2 & _).
  repeat apply conj.
  - apply B1; reflexivity.
  - apply B2; reflexivity.
  - apply B0; reflexivity.
  - rewrite R by reflexivity. vm_compute. reflexivity.
  - rewrite (G 7.3%float 8219069319951155%positive (-50) 15).
    + vm_compute. reflexivity.
    + vm_compute. reflexivity.
    + lia.
    + vm_compute. split; [discriminate|reflexivity].
Defined.

End HalfHours.

(** ** The site classifier *)

Section SiteClassifierFacts.

Import SiteClassifier.

(** C8: whatever the platform's URL parser does, [isShoppingSite] returns a
    boolean and never throws; when the parser rejects the address the answer
    is [false].  With the parser's results on the three example addresses,
    the Amazon product page is a shopping site, the news article is not, and
    "not a url", which the parser rejects, is not. *)
Theorem isShoppingSite_total (new_URL : string -> completion URL) :
  (forall url, exists b : bool, isShoppingSite new_URL url = Normal b) /\
  (forall url error,
      new_URL url = Throw error -> isShoppingSite new_URL url = Normal false) /\
  (new_URL "https://www.amazon.com/dp/X"
     = Normal {| hostname := "www.amazon.com"; pathname := "/dp/X" |} ->
   isShoppingSite new_URL "https://www.amazon.com/dp/X" = Normal true) /\
  (new_URL "https://news.example.com/article"
     = Normal {| hostname := "news.example.com"; pathname := "/article" |} ->
   isShoppingSite new_URL "https://news.example.com/article" = Normal false) /\
  (new_URL "not a url" = Throw "TypeError" ->
   isShoppingSite new_URL "not a url" = Normal false).
Proof.
  repeat apply conj.
  - intros url. unfold isShoppingSite.
    destruct (new_URL url) as [u|e]; simpl.
    + repeat match goal with
             | |- context [if ?c then _ else _] => destruct c
             end; eexists; reflexivity.
    + eexists; reflexivity.
  - intros url error H. unfold isShoppingSite. rewrite H. reflexivity.
  - intros H. unfold isShoppingSite. rewrite H. reflexivity.
  - intros H. unfold isShoppingSite. rewrite H. reflexivity.
  - intros H. unfold isShoppingSite. rewrite H. reflexivity.
Qed.

Lemma isShoppingSite_total_witness :
  isShoppingSite URL_parse "https://www.amazon.com/dp/X" = Normal true /\
  isShoppingSite URL_parse "https://news.example.com/article" = Normal false /\
  isShoppingSite URL_parse "not a url" = Normal false.
Proof.
  destruct (isShoppingSite_total URL_parse) as (_ & _ & A & B & C).
  repeat apply conj.
  - apply A. reflexivity.
  - apply B. reflexivity.
  - apply C. reflexivity.
Defined.

End SiteClassifierFacts.

(** ** The price extractor *)

Section DetectorFacts.

Import Str Regex Dom Detector.

Variable innerText : path -> string.

(** An invariant of a left fold is preserved when every step preserves
    it. *)
Lemma fold_left_invariant {A B} (P : A -> Prop) (f : A -> B -> A) (l : list B) :
  (forall a b, P a -> P (f a b)) -> forall a, P a -> P (fold_left f l a).
Proof.
  intros step. induction l as [|b l IH]; intros a Ha; simpl; auto.
Qed.

(** *** Deduplication *)

Lemma map_set_keys (c : PriceCandidate) (l : list PriceCandidate) :
  map element (map_set c l) =
    if existsb (Nat.eqb (element c)) (map element l)
    then map element l
    else (map element l ++ [element c])%list.
Proof.
  induction l as [|d l IH]; simpl; [reflexivity|].
  rewrite (Nat.eqb_sym (element c) (element d)).
  destruct (Nat.eqb_spec (element d) (element c)) as [E|E]; simpl.
  - rewrite E. reflexivity.
  - rewrite IH. destruct (existsb _ _); reflexivity.
Qed.

Lemma map_set_NoDup (c : PriceCandidate) (l : list PriceCandidate) :
  NoDup (map element l) -> NoDup (map element (map_set c l)).
Proof.
  intros H. rewrite map_set_keys.
  destruct (existsb (Nat.eqb (element c)) (map element l)) eqn:E; [exact H|].
  apply NoDup_app; [exact H|repeat constructor; intros []|].
  intros x Hx [<-|[]].
  assert (T : existsb (Nat.eqb (element c)) (map element l) = true).
  { apply existsb_exists. exists (element c). split; [exact Hx|].
    apply Nat.eqb_refl. }
  congruence.
Qed.

Lemma uniquePrices_NoDup (prices : list PriceCandidate) :
  NoDup (map element (uniquePrices prices)).
Proof.
  unfold uniquePrices.
  apply (fold_left_invariant (fun acc => NoDup (map element acc))).
  - intros acc c H. apply map_set_NoDup. exact H.
  - constructor.
Qed.

Lemma find_append {A} (f : A -> bool) (l1 l2 : list A) :
  find f (l1 ++ l2)%list =
    match find f l1 with
    | Some a => Some a
    | None => find f l2
    end.
Proof.
  induction l1 as [|a l1 IH]; simpl; [reflexivity|].
  destruct (f a); [reflexivity|exact IH].
Qed.

(** The candidate kept for an element is the last one pushed for it. *)
Lemma map_set_find (x : nat) (c : PriceCandidate) (l : list PriceCandidate) :
  find (for_element x) (map_set c l) =
    if for_element x c then Some c else find (for_element x) l.
Proof.
  unfold for_element.
  induction l as [|d l IH]; simpl.
  - destruct (element c =? x)%nat; reflexivity.
  - destruct (Nat.eqb_spec (element d) (element c)) as [E|E]; simpl.
    + rewrite E. destruct (element c =? x)%nat; reflexivity.
    + rewrite IH.
      destruct (Nat.eqb_spec (element d) x) as [D|D];
        destruct (Nat.eqb_spec (element c) x) as [C|C]; try reflexivity.
      congruence.
Qed.

Lemma uniquePrices_last_wins (x : nat) (prices : list PriceCandidate) :
  find (for_element x) (uniquePrices prices) =
  find (for_element x) (rev prices).
Proof.
  unfold uniquePrices.
  assert (G : forall acc,
             find (for_element x) (fold_left (fun a c => map_set c a) prices acc)
             = match find (for_element x) (rev prices) with
               | Some c => Some c
               | None => find (for_element x) acc
               end).
  { induction prices as [|c l IH]; intros acc; simpl; [reflexivity|].
    rewrite IH, find_append, map_set_find. simpl.
    destruct (find (for_element x) (rev l)); [reflexivity|].
    destruct (for_element x c); reflexivity. }
  rewrite G. simpl. destruct (find _ _); reflexivity.
Qed.

(** C7: the list returned by [detectPrices] has at most one candidate per
    element: the elements of the candidates are pairwise distinct.  It is the
    deduplication of the candidates pushed by the two scans, in which the
    last candidate pushed for an element is the one kept. *)
Theorem detectPrices_one_per_element (doc : node) (l : list PriceCandidate) :
  detectPrices innerText doc = Normal l ->
  NoDup (map element l) /\
  exists pushed,
    l = uniquePrices pushed /\
    forall x, find (for_element x) l = find (for_element x) (rev pushed).
Proof.
  unfold detectPrices. intros H.
  destruct (body_of doc) as [[|[b kids] up]|]; try discriminate.
  injection H as <-. split.
  - apply uniquePrices_NoDup.
  - eexists. split; [reflexivity|].
    intros x. apply uniquePrices_last_wins.
Qed.

(** *** Positive prices *)

Lemma scan_element_positive (st : found_state) (p : path) :
  all_positive st -> all_positive (scan_element innerText st p).
Proof.
  unfold all_positive, scan_element. intros H.
  destruct st as [prices found]. destruct p as [|[e kids] up]; [exact H|].
  repeat match goal with
         | |- context [if ?c then _ else _] => destruct c eqn:?
         | |- context [match parsePrice ?t ?e with _ => _ end] =>
             destruct (parsePrice t e) eqn:?
         end; try exact H.
  all: simpl; apply Forall_app; split; [exact H|].
  all: constructor; [|constructor]; assumption.
Qed.

Lemma climb_positive (body : nat) (matched : string) (parent : path)
  (st : found_state) :
  all_positive st -> all_positive (climb body matched parent st).
Proof.
  unfold all_positive. revert st.
  induction parent as [|[e kids] up IH]; intros [prices found] H; simpl.
  - exact H.
  - repeat match goal with
           | |- context [if ?c then _ else _] => destruct c eqn:?
           | |- context [match parsePrice ?t ?e with _ => _ end] =>
               destruct (parsePrice t e) eqn:?
           end; try exact H; try (apply IH; exact H).
    all: simpl; apply Forall_app; split; [exact H|].
    all: constructor; [|constructor]; assumption.
Qed.

Lemma map_set_positive (c : PriceCandidate) (l : list PriceCandidate) :
  positive_price c -> Forall positive_price l ->
  Forall positive_price (map_set c l).
Proof.
  intros Hc H. induction H as [|d l Hd Hl IH]; simpl.
  - constructor; [exact Hc|constructor].
  - destruct (element d =? element c)%nat; constructor; assumption.
Qed.

Lemma uniquePrices_positive (prices : list PriceCandidate) :
  Forall positive_price prices -> Forall positive_price (uniquePrices prices).
Proof.
  unfold uniquePrices. intros H.
  assert (G : forall acc, Forall positive_price acc ->
              Forall positive_price
                (fold_left (fun a c => map_set c a) prices acc)).
  { induction H as [|c l Hc Hl IH]; intros acc Ha; simpl; [exact Ha|].
    apply IH. apply map_set_positive; assumption. }
  apply G. constructor.
Qed.

(** C9: every candidate returned by [detectPrices] has a price strictly
    above zero, although [parsePrice] itself returns 0 for the text "$0". *)
Theorem detectPrices_positive (doc : node) (l : list PriceCandidate) :
  detectPrices innerText doc = Normal l ->
  Forall (fun c => (0 <? price c)%float = true) l /\
  parsePrice "$0" None = Some 0%float.
Proof.
  unfold detectPrices. intros H. split; [|vm_compute; reflexivity].
  destruct (body_of doc) as [[|[b kids] up]|]; try discriminate.
  injection H as <-.
  apply uniquePrices_positive.
  apply (fold_left_invariant all_positive).
  - intros st [text parent] Hst. unfold scan_text.
    destruct (isTimeValue text); [exact Hst|].
    apply (fold_left_invariant all_positive); [|exact Hst].
    intros st' m Hst'. apply climb_positive. exact Hst'.
  - apply (fold_left_invariant all_positive (scan_selector innerText doc)
             PRICE_SELECTORS).
    + intros st sel Hst. unfold scan_selector.
      apply (fold_left_invariant all_positive); [|exact Hst].
      intros st' p Hst'. apply scan_element_positive. exact Hst'.
    + constructor.
Qed.

End DetectorFacts.

Lemma detectPrices_one_per_element_witness :
  NoDup (map Detector.element Examples.two_candidates) /\
  exists pushed,
    Examples.two_candidates = Detector.uniquePrices pushed /\
    forall x,
      find (Detector.for_element x) Examples.two_candidates
      = find (Detector.for_element x) (rev pushed).
Proof.
  apply (detectPrices_one_per_element Examples.no_innerText Examples.two_prices).
  vm_compute. reflexivity.
Defined.

Lemma detectPrices_positive_witness :
  Forall (fun c => (0 <? Detector.price c)%float = true)
    Examples.two_candidates /\
  Detector.parsePrice "$0" None = Some 0%float.
Proof.
  apply (detectPrices_positive Examples.no_innerText Examples.two_prices).
  vm_compute. reflexivity.
Defined.

(** ** Price parsing *)

Section ParsePriceFacts.

Import Str Regex Dom Detector Examples.

Lemma strip_class_plain (alts : list string) (s : string) :
  strip_class false alts s = strip_any alts s.
Proof. induction alts as [|a alts IH]; simpl; [reflexivity|]. rewrite IH. reflexivity. Qed.

Lemma strip_any_app (l1 l2 : list string) (s : string) :
  strip_any (l1 ++ l2) s =
    match strip_any l1 s with
    | Some rest => Some rest
    | None => strip_any l2 s
    end.
Proof.
  induction l1 as [|a l1 IH]; simpl; [reflexivity|].
  destruct (strip_prefix a s); [reflexivity|exact IH].
Qed.

Lemma match_symbols (s : string) :
  match_here symbols_and_spaces s = strip_any symbol_tokens s.
Proof.
  unfold match_here, symbols_and_spaces, symbol_tokens.
  cbn [body ignore_case re Alts run currency space].
  rewrite !strip_class_plain, !strip_any_app.
  destruct (strip_any _ s); [reflexivity|].
  destruct (strip_any _ s); [reflexivity|].
  destruct (strip_any _ s); reflexivity.
Qed.

Lemma strip_prefix_length (p s rest : string) :
  strip_prefix p s = Some rest ->
  String.length s = (String.length p + String.length rest)%nat.
Proof.
  revert s. induction p as [|a p IH]; intros s H; simpl in *.
  - injection H as <-. reflexivity.
  - destruct s as [|b s]; [discriminate|].
    destruct (Ascii.eqb a b); [|discriminate].
    simpl. f_equal. apply IH. exact H.
Qed.

Lemma strip_any_shorter (alts : list string) (s rest : string) :
  Forall (fun a => a <> "") alts ->
  strip_any alts s = Some rest ->
  (String.length rest < String.length s)%nat.
Proof.
  intros F. induction F as [|a alts Ha F IH]; simpl; [discriminate|].
  destruct (strip_prefix a s) eqn:E.
  - intros H. injection H as <-. apply strip_prefix_length in E.
    destruct a; [congruence|]. simpl in E. lia.
  - exact IH.
Qed.

Lemma symbol_tokens_nonempty : Forall (fun a => a <> "") symbol_tokens.
Proof. vm_compute. repeat constructor; discriminate. Qed.

Lemma replace_symbols_fuel (fuel : nat) (s : string) :
  replace_all_fuel fuel symbols_and_spaces "" s = strip_symbols_fuel fuel s.
Proof.
  revert s. induction fuel as [|fuel IH]; intros s; [reflexivity|].
  cbn [replace_all_fuel strip_symbols_fuel].
  rewrite match_symbols.
  destruct (strip_any symbol_tokens s) as [rest|] eqn:E.
  - pose proof (strip_any_shorter _ _ _ symbol_tokens_nonempty E) as L.
    apply Nat.ltb_lt in L. rewrite L. cbn [append]. apply IH.
  - destruct s; [reflexivity|]. rewrite IH. reflexivity.
Qed.

Lemma strip_digit (s : string) :
  strip_class false ["0"; "1"; "2"; "3"; "4"; "5"; "6"; "7"; "8"; "9"] s =
    match s with
    | String c s' => if is_digit c then Some s' else None
    | EmptyString => None
    end.
Proof.
  destruct s as [|c s]; [reflexivity|].
  unfold is_digit. cbn [strip_class strip_prefix existsb].
  repeat match goal with
         | |- context [Ascii.eqb ?d c] =>
             destruct (Ascii.eqb d c); cbn [orb]; [reflexivity|]
         end.
  reflexivity.
Qed.

Lemma match_thousands_dot (s : string) :
  match_here thousands_dot s =
    match s with
    | String c s' =>
        if Ascii.eqb "." c && three_digits s' then Some s' else None
    | EmptyString => None
    end.
Proof.
  unfold match_here, thousands_dot.
  cbn [body ignore_case re Times run digit].
  replace (strip_class false ["."] s)
    with (match s with
          | String c s' => if Ascii.eqb "." c then Some s' else None
          | EmptyString => None
          end)
    by (destruct s as [|c s]; [reflexivity|]; cbn [strip_class strip_prefix];
        destruct (Ascii.eqb "." c); reflexivity).
  destruct s as [|c s]; [reflexivity|].
  destruct (Ascii.eqb "." c); [|reflexivity]. cbn [andb].
  destruct s as [|a [|b [|d s]]]; cbn [three_digits];
    repeat (rewrite strip_digit; try reflexivity;
            match goal with
            | |- context [is_digit ?x] => destruct (is_digit x)
            end; cbn [andb]; try reflexivity);
    rewrite ?strip_digit; reflexivity.
Qed.

Lemma replace_dots_fuel (fuel : nat) (s : string) :
  (String.length s < fuel)%nat ->
  replace_all_fuel fuel thousands_dot "" s = drop_thousands_dots s.
Proof.
  revert s. induction fuel as [|fuel IH]; intros s L; [lia|].
  cbn [replace_all_fuel]. rewrite match_thousands_dot.
  destruct s as [|c s]; [reflexivity|]. simpl in L.
  cbn [drop_thousands_dots].
  destruct (Ascii.eqb "." c && three_digits s).
  - replace (String.length s <? String.length (String c s))%nat with true
      by (symmetry; apply Nat.ltb_lt; simpl; lia).
    cbn [append]. apply IH. lia.
  - rewrite IH by lia. reflexivity.
Qed.

Lemma normalize_direct (text : string) :
  normalize text =
  replace_first "," "." (drop_thousands_dots (strip_symbols (trim text))).
Proof.
  unfold normalize, replace_all, strip_symbols.
  rewrite replace_symbols_fuel, replace_dots_fuel by lia. reflexivity.
Qed.

(** C4 (as stated, refuted): in "$1.2345" the "." is followed by four digits,
    not by exactly three, yet it is removed: the price is 12345, where the
    stated rule gives 1.2345. *)
Lemma parsePrice_dot_before_four_digits :
  parsePrice "$1.2345" None = Some 12345%float /\
  parseFloat (replace_first "," "."
                (drop_exact_dots (strip_symbols (trim "$1.2345"))))
    = 1.2345%float.
Proof. split; vm_compute; reflexivity. Qed.

(** C4 (amended): a price that [parsePrice] returns is [parseFloat] of the
    text after it was trimmed, stripped of currency symbols, commas and
    white space, and after every "." followed by (at least) three digits was
    removed as a thousands separator.  In particular "$1,234.56" gives
    1234.56 and "$1.2345" gives 12345, "2h 30m" gives null, "99" with an
    element that has no price class gives null, and "99" with an element of
    class "price" gives 99. *)
Theorem parsePrice_normalizes :
  (forall text,
      normalize text =
      replace_first "," "."
        (drop_thousands_dots (strip_symbols (trim text)))) /\
  (forall text element value,
      parsePrice text element = Some value ->
      value = parseFloat (normalize text)) /\
  parsePrice "$1,234.56" None = Some 1234.56%float /\
  parsePrice "$1.2345" None = Some 12345%float /\
  parsePrice "2h 30m" None = None /\
  parsePrice "99" (Some plain_element) = None /\
  parsePrice "99" (Some price_element) = Some 99%float.
Proof.
  repeat apply conj.
  - exact normalize_direct.
  - intros text el value. unfold parsePrice.
    repeat match goal with
           | |- context [if ?c then _ else _] => destruct c
           end; try discriminate.
    all: intros H; injection H as <-; reflexivity.
  - vm_compute. reflexivity.
  - vm_compute. reflexivity.
  - vm_compute. reflexivity.
  - vm_compute. reflexivity.
  - vm_compute. reflexivity.
Qed.

Lemma parsePrice_normalizes_witness :
  1234.56%float = parseFloat (normalize "$1,234.56").
Proof.
  destruct parsePrice_normalizes as (_ & A & _).
  apply (A "$1,234.56" None). vm_compute. reflexivity.
Defined.

End ParsePriceFacts.

(** ** The document and the presentation controller *)

Section ControllerFacts.

Import Str Regex Dom Detector Controller Examples.

(** Induction on trees: the property holds for the children of an element. *)
Lemma node_induction (P : node -> Prop) :
  (forall s, P (Text s)) ->
  (forall e children, Forall P children -> P (Elem e children)) ->
  forall n, P n.
Proof.
  intros HT HE.
  fix IH 1. intros [s|e children].
  - apply HT.
  - apply HE. induction children as [|c l IHl]; constructor.
    + apply IH.
    + exact IHl.
Qed.

Lemma find_flat_map_None {A B} (p : B -> bool) (f : A -> list B) (l : list A) :
  Forall (fun a => find p (f a) = None) l -> find p (flat_map f l) = None.
Proof.
  induction 1 as [|a l Ha Hl IH]; simpl; [reflexivity|].
  rewrite find_append, Ha. exact IH.
Qed.

Section UpdateFacts.

Variables (x : nat) (f : frame -> frame).
Hypothesis f_keeps_id : forall fr, eid (fst (f fr)) = eid (fst fr).

Lemma has_id_head (e : Element) (k : list node) (up : path) :
  has_id x ((e, k) :: up) = Nat.eqb (eid e) x.
Proof. reflexivity. Qed.

(** What is found at [x] does not depend on the ancestors given to the
    traversal. *)
Lemma find_elements_up (n : node) (up up' : path) :
  match find (has_id x) (elements_of up n),
        find (has_id x) (elements_of up' n) with
  | Some (fr :: _), Some (fr' :: _) => fr = fr'
  | None, None => True
  | _, _ => False
  end.
Proof.
  revert up up'. induction n as [s|e children IH] using node_induction;
    intros up up'; simpl; [exact I|].
  destruct (Nat.eqb (eid e) x); [reflexivity|].
  generalize ((e, children) :: up) ((e, children) :: up'). intros q q'.
  induction IH as [|c l Hc Hl IHl]; simpl; [exact I|].
  rewrite !find_append.
  specialize (Hc q q').
  destruct (find (has_id x) (elements_of q c)) as [[|fr r]|],
           (find (has_id x) (elements_of q' c)) as [[|fr' r']|];
    try contradiction; auto.
Qed.

Lemma update_absent (n : node) (up up' : path) :
  find (has_id x) (elements_of up n) = None ->
  find (has_id x) (elements_of up' (update x f n)) = None.
Proof.
  revert up up'. induction n as [s|e children IH] using node_induction;
    intros up up'; simpl; [reflexivity|].
  destruct (Nat.eqb_spec (eid e) x) as [E|E]; [discriminate|].
  simpl. destruct (Nat.eqb_spec (eid e) x) as [E'|_]; [contradiction|].
  generalize ((e, children) :: up)
             ((e, map (update x f) children) :: up'). intros q q'.
  induction IH as [|c l Hc Hl IHl]; simpl; [reflexivity|].
  rewrite !find_append.
  destruct (find (has_id x) (elements_of q c)) eqn:F; [discriminate|].
  intros H. rewrite (Hc q q' F). apply IHl. exact H.
Qed.

(** After an update at [x], the element found at [x] is the result of [f]. *)
Lemma update_found (n : node) (up up' : path) (e : Element) (k : list node)
  (rest : path) :
  find (has_id x) (elements_of up n) = Some ((e, k) :: rest) ->
  exists k' rest',
    find (has_id x) (elements_of up' (update x f n))
    = Some (f (e, k') :: rest').
Proof.
  revert up up' rest. induction n as [s|e0 children IH] using node_induction;
    intros up up' rest; simpl; [discriminate|].
  destruct (Nat.eqb_spec (eid e0) x) as [E|E].
  - intros H. injection H as He Hk Hr. clear IH. subst e0.
    destruct (f (e, map (update x f) children)) as [e' c'] eqn:F.
    simpl. replace (Nat.eqb (eid e') x) with true.
    + exists (map (update x f) children), up'. rewrite F. reflexivity.
    + symmetry. apply Nat.eqb_eq.
      pose proof (f_keeps_id (e, map (update x f) children)) as K.
      rewrite F in K. simpl in K. congruence.
  - simpl. destruct (Nat.eqb_spec (eid e0) x) as [E'|_]; [contradiction|].
    generalize ((e0, children) :: up)
               ((e0, map (update x f) children) :: up'). intros q q'.
    induction IH as [|c l Hc Hl IHl]; simpl; [discriminate|].
    rewrite !find_append.
    destruct (find (has_id x) (elements_of q c)) as [p|] eqn:F.
    + intros H. injection H as ->.
      destruct (Hc q q' rest F) as (k' & rest' & G).
      rewrite G. eauto.
    + intros H. rewrite (update_absent c q q' F). apply IHl. exact H.
Qed.

End UpdateFacts.

(** *** Markup *)

Lemma instantiate_Elem (next : nat) (e : Element) (children : list node) :
  instantiate next (Elem e children) =
    let '(children', next') := instantiate_all (S next) children in
    (Elem {| eid := next; tag := tag e; attrs := attrs e; style := style e |}
          children', next').
Proof. reflexivity. Qed.

Lemma erase_instantiate (n : node) (next : nat) :
  erase (fst (instantiate next n)) = erase n.
Proof.
  revert next. induction n as [s|e children IH] using node_induction;
    intros next; [reflexivity|].
  rewrite instantiate_Elem.
  assert (G : forall m, map erase (fst (instantiate_all m children))
                        = map erase children).
  { induction IH as [|c l Hc Hl IHl]; intros m; simpl; [reflexivity|].
    specialize (Hc m). destruct (instantiate m c) as [c' n1]. simpl in Hc.
    specialize (IHl n1). destruct (instantiate_all n1 l) as [l' n2].
    simpl in *. congruence. }
  specialize (G (S next)).
  destruct (instantiate_all (S next) children) as [children' next'].
  simpl in *. rewrite G. reflexivity.
Qed.

Lemma erase_instantiate_all (l : list node) (next : nat) :
  map erase (fst (instantiate_all next l)) = map erase l.
Proof.
  revert next. induction l as [|c l IH]; intros next; simpl; [reflexivity|].
  pose proof (erase_instantiate c next) as Hc.
  destruct (instantiate next c) as [c' n1]. simpl in Hc.
  specialize (IH n1). destruct (instantiate_all n1 l) as [l' n2].
  simpl in *. congruence.
Qed.

Lemma erase_idempotent (n : node) : erase (erase n) = erase n.
Proof.
  induction n as [s|e children IH] using node_induction; [reflexivity|].
  simpl. f_equal. rewrite map_map.
  induction IH as [|c l Hc Hl IHl]; simpl; congruence.
Qed.

Lemma textContent_erase (n : node) : textContent (erase n) = textContent n.
Proof.
  induction n as [s|e children IH] using node_induction; [reflexivity|].
  simpl. induction IH as [|c l Hc Hl IHl]; simpl; congruence.
Qed.

Lemma text_of_cons (c : node) (l : list node) :
  text_of (c :: l) = textContent c ++ text_of l.
Proof. reflexivity. Qed.

Lemma text_of_erased (l : list node) (k : list node) :
  map erase k = map erase l -> text_of k = text_of l.
Proof.
  revert k. induction l as [|c l IH]; intros [|d k] H; try discriminate.
  - reflexivity.
  - simpl in H. injection H as Hd Hk.
    rewrite !text_of_cons, (IH k Hk).
    rewrite <- (textContent_erase d), <- (textContent_erase c), Hd.
    reflexivity.
Qed.

(** Assigning the [innerHTML] read from some children gives children with
    the same markup and the same text. *)
Lemma innerHTML_roundtrip (kids : list node) (next : nat) :
  innerHTML (fst (instantiate_all next (innerHTML kids))) = innerHTML kids /\
  text_of (fst (instantiate_all next (innerHTML kids))) = text_of kids.
Proof.
  assert (E : map erase (fst (instantiate_all next (innerHTML kids)))
              = map erase kids).
  { unfold innerHTML. rewrite erase_instantiate_all, map_map.
    apply map_ext. apply erase_idempotent. }
  split; [exact E|]. apply text_of_erased. exact E.
Qed.

(** *** Attributes and styles *)

Lemma assoc_set_same (k v : string) (l : list (string * string)) :
  assoc k (assoc_set k v l) = Some v.
Proof.
  induction l as [|[k' v'] l IH]; simpl.
  - rewrite String.eqb_refl. reflexivity.
  - destruct (String.eqb k k') eqn:E; simpl.
    + rewrite String.eqb_refl. reflexivity.
    + rewrite E. exact IH.
Qed.

Lemma assoc_set_other (k k' v : string) (l : list (string * string)) :
  k <> k' -> assoc k (assoc_set k' v l) = assoc k l.
Proof.
  intros N. induction l as [|[k0 v0] l IH]; simpl.
  - apply String.eqb_neq in N. rewrite N. reflexivity.
  - destruct (String.eqb k' k0) eqn:E; simpl.
    + apply String.eqb_eq in E. subst k0.
      apply String.eqb_neq in N. rewrite N. reflexivity.
    + destruct (String.eqb k k0); [reflexivity|exact IH].
Qed.

Lemma assoc_remove_same (k : string) (l : list (string * string)) :
  assoc k (assoc_remove k l) = None.
Proof.
  induction l as [|[k' v'] l IH]; simpl; [reflexivity|].
  destruct (String.eqb k k') eqn:E; simpl; [exact IH|].
  rewrite E. exact IH.
Qed.

Lemma assoc_remove_other (k k' : string) (l : list (string * string)) :
  k <> k' -> assoc k (assoc_remove k' l) = assoc k l.
Proof.
  intros N. induction l as [|[k0 v0] l IH]; simpl; [reflexivity|].
  destruct (String.eqb k' k0) eqn:E; simpl.
  - apply String.eqb_eq in E. subst k0.
    apply String.eqb_neq in N. rewrite N. exact IH.
  - destruct (String.eqb k k0); [reflexivity|exact IH].
Qed.

(** Writing a style property touches the declaration block alone. *)
Lemma style_set_same (css : engine) (p v : string) (e : Element) :
  eid (style_set css p v e) = eid e /\
  tag (style_set css p v e) = tag e /\
  attrs (style_set css p v e) = attrs e.
Proof.
  unfold style_set. destruct (String.eqb v ""); [repeat split|].
  destruct (parse css p v); repeat split.
Qed.

Lemma style_get_removeAttribute (css : engine) (p name : string)
  (e : Element) :
  style_get css (removeAttribute name e) p = style_get css e p.
Proof. reflexivity. Qed.

(** *** Elements attached to the document *)

Lemma existsb_find {A} (p : A -> bool) (l : list A) :
  existsb p l = true -> exists a, find p l = Some a /\ p a = true.
Proof.
  induction l as [|a l IH]; simpl; [discriminate|].
  destruct (p a) eqn:E; [eauto|]. exact IH.
Qed.

Lemma find_has_id (x : nat) (l : list path) (p : path) :
  find (has_id x) l = Some p -> exists e k up, p = (e, k) :: up /\ eid e = x.
Proof.
  intros H. apply find_some in H. destruct H as [_ H].
  destruct p as [|[e k] up]; [discriminate|].
  exists e, k, up. split; [reflexivity|]. apply Nat.eqb_eq. exact H.
Qed.

Lemma find_flat_map_hit {A B} (p : B -> bool) (f : A -> list B) (l : list A)
  (a : A) :
  In a l -> existsb p (f a) = true -> find p (flat_map f l) <> None.
Proof.
  induction l as [|a0 l IH]; simpl; [contradiction|].
  intros [->|Hin] Hex; rewrite find_append.
  - apply existsb_find in Hex. destruct Hex as (b & -> & _). discriminate.
  - destruct (find p (f a0)); [discriminate|]. apply IH; assumption.
Qed.

(** An element contained in the body is found in the document. *)
Lemma contained_located (doc : node) (x : nat) :
  body_contains doc x = Normal true ->
  exists e k up, locate doc x = Some ((e, k) :: up) /\ eid e = x.
Proof.
  unfold body_contains, body_of, locate.
  destruct doc as [s|e children]; [discriminate|].
  destruct (find is_body children) as [[s|b kids]|] eqn:B; try discriminate.
  intros H. injection H as H. unfold contains in H.
  simpl. destruct (Nat.eqb_spec (eid e) x) as [E|E].
  - eauto.
  - apply find_some in B. destruct B as [Bin _].
    pose proof (find_flat_map_hit (has_id x)
                  (elements_of [(e, children)]) children _ Bin H) as N.
    destruct (find (has_id x) (flat_map (elements_of [(e, children)]) children))
      as [p|] eqn:F; [|contradiction].
    destruct (find_has_id _ _ _ F) as (e' & k & up & -> & Hx). eauto.
Qed.

(** *** The maps *)

Lemma map_get_put_same {V} (k : nat) (v : V) (m : list (nat * V)) :
  map_get k (map_put k v m) = Some v.
Proof.
  induction m as [|[k' v'] m IH]; simpl.
  - rewrite Nat.eqb_refl. reflexivity.
  - destruct (Nat.eqb k k') eqn:E; simpl.
    + rewrite Nat.eqb_refl. reflexivity.
    + rewrite E. exact IH.
Qed.

Lemma map_put_new {V} (k : nat) (v : V) (m : list (nat * V)) :
  map_get k m = None -> map_put k v m = (m ++ [(k, v)])%list.
Proof.
  induction m as [|[k' v'] m IH]; simpl; [reflexivity|].
  destruct (Nat.eqb k k'); [discriminate|].
  intros H. rewrite (IH H). reflexivity.
Qed.

Section RevertFacts.

Variable getComputedStyle : node -> nat -> string -> string.

Lemma restore_one_keeps_map (st : state) (entry : nat * snapshot) :
  replacedPrices (restore_one st entry) = replacedPrices st.
Proof.
  unfold restore_one, restoreOriginalPrice.
  destruct (body_contains (document st) (fst entry)) as [[|]|]; try reflexivity.
  destruct (map_get (fst entry) (replacedPrices st)); [|reflexivity].
  destruct (instantiate_all _ _). reflexivity.
Qed.

Lemma restore_all_keeps_map (l : list (nat * snapshot)) (st : state) :
  replacedPrices (fold_left restore_one l st) = replacedPrices st.
Proof.
  revert st. induction l as [|entry l IH]; intros st; simpl; [reflexivity|].
  rewrite IH. apply restore_one_keeps_map.
Qed.

End RevertFacts.

End ControllerFacts.

(** ** Badges in side-by-side mode *)

Section BadgeFacts.

Import Str Regex Dom Detector Controller.
Local Open Scope nat_scope.

Lemma ids_Elem (e : Element) (children : list node) :
  ids (Elem e children) = eid e :: flat_map ids children.
Proof.
  unfold ids. simpl. f_equal.
  induction children as [|c l IH]; simpl; [reflexivity|].
  rewrite map_app, IH. reflexivity.
Qed.

Section Counting.

Variable q : Element -> bool.

Lemma count_in_cons (c : node) (l : list node) :
  count_in q (c :: l) = count_where q c + count_in q l.
Proof. reflexivity. Qed.

Lemma count_where_Elem (e : Element) (children : list node) :
  count_where q (Elem e children) =
  (if q e then 1 else 0) + count_in q children.
Proof.
  unfold count_where. simpl.
  assert (G : List.length (filter q (flat_map elems children)) = count_in q children).
  { induction children as [|c l IH]; simpl; [reflexivity|].
    rewrite filter_app, length_app, IH. reflexivity. }
  destruct (q e); simpl; rewrite G; reflexivity.
Qed.

Lemma count_where_Text (s : string) : count_where q (Text s) = 0.
Proof. reflexivity. Qed.

(** An update that keeps [q] on the element and does not add elements
    satisfying [q] below it. *)
Lemma count_update (x : nat) (f : frame -> frame) (n : node) :
  (forall fr, q (fst (f fr)) = q (fst fr)) ->
  (forall fr, count_in q (snd (f fr)) <= count_in q (snd fr)) ->
  count_where q (update x f n) <= count_where q n.
Proof.
  intros Hq Hc. induction n as [s|e children IH] using node_induction;
    [reflexivity|].
  simpl.
  assert (G : count_in q (map (update x f) children) <= count_in q children).
  { induction IH as [|c l Hc' Hl IHl]; simpl; [reflexivity|].
    rewrite !count_in_cons. lia. }
  destruct (Nat.eqb (eid e) x).
  - specialize (Hq (e, map (update x f) children)).
    specialize (Hc (e, map (update x f) children)).
    destruct (f (e, map (update x f) children)) as [e' c'].
    simpl in Hq, Hc. rewrite !count_where_Elem, Hq. lia.
  - rewrite !count_where_Elem. lia.
Qed.

Lemma count_remove (p : Element -> bool) (n : node) :
  count_where q (remove_where p n) <= count_where q n.
Proof.
  induction n as [s|e children IH] using node_induction; [reflexivity|].
  cbn [remove_where]. rewrite !count_where_Elem.
  apply Nat.add_le_mono_l.
  induction IH as [|c l Hc Hl IHl]; [reflexivity|].
  rewrite count_in_cons.
  destruct c as [s|ce ck].
  - rewrite count_in_cons. rewrite count_where_Text. exact IHl.
  - destruct (p ce).
    + lia.
    + rewrite count_in_cons. lia.
Qed.

(** Nothing that satisfies [p] is left below the root. *)
Lemma count_remove_all (p : Element -> bool) (n : node) :
  (forall e, q e = true -> p e = true) ->
  count_where q (remove_where p n) =
    match n with
    | Elem e _ => if q e then 1 else 0
    | Text _ => 0
    end.
Proof.
  intros Hp. induction n as [s|e children IH] using node_induction;
    [reflexivity|].
  cbn [remove_where]. rewrite count_where_Elem.
  match goal with |- _ + ?c = _ => assert (G : c = 0) end.
  { induction IH as [|c l Hc Hl IHl]; [reflexivity|].
    destruct c as [s|ce ck].
    - rewrite count_in_cons, count_where_Text. exact IHl.
    - destruct (p ce) eqn:P; [exact IHl|].
      rewrite count_in_cons, Hc, IHl.
      destruct (q ce) eqn:Q; [|reflexivity].
      rewrite (Hp _ Q) in P. discriminate. }
  rewrite G. lia.
Qed.

Lemma count_insert (x : nat) (new : node) (n : node) :
  count_where q (insert_after x new n) =
  count_where q n + count_occ Nat.eq_dec (inner_ids n) x * count_where q new.
Proof.
  induction n as [s|e children IH] using node_induction; [reflexivity|].
  cbn [insert_after inner_ids]. rewrite !count_where_Elem.
  rewrite <- Nat.add_assoc. f_equal.
  induction IH as [|c l Hc Hl IHl]; [reflexivity|].
  cbn [flat_map]. rewrite count_occ_app, count_in_cons.
  assert (Hroot : count_occ Nat.eq_dec (ids c) x =
                  (if is_element x c then 1 else 0) +
                  count_occ Nat.eq_dec (inner_ids c) x).
  { destruct c as [s|ce ck]; [reflexivity|].
    rewrite ids_Elem. cbn [inner_ids is_element count_occ].
    destruct (Nat.eq_dec (eid ce) x) as [E|E].
    - apply Nat.eqb_eq in E. rewrite E. reflexivity.
    - apply Nat.eqb_neq in E. rewrite E. reflexivity. }
  rewrite Hroot.
  destruct (is_element x c); rewrite ?count_in_cons, Hc, IHl; lia.
Qed.

End Counting.

(** Identities in terms of counting. *)
Lemma count_occ_ids (a : nat) (n : node) :
  count_occ Nat.eq_dec (ids n) a = count_where (has_eid a) n.
Proof.
  unfold ids, count_where, has_eid.
  induction (elems n) as [|e l IH]; simpl; [reflexivity|].
  destruct (Nat.eq_dec (eid e) a) as [E|E].
  - apply Nat.eqb_eq in E. rewrite E. simpl. congruence.
  - apply Nat.eqb_neq in E. rewrite E. exact IH.
Qed.

Lemma count_occ_badge_ids (a : nat) (n : node) :
  count_occ Nat.eq_dec (badge_ids n) a =
  count_where (fun e => is_badge e && has_eid a e) n.
Proof.
  unfold badge_ids, count_where, has_eid.
  induction (elems n) as [|e l IH]; simpl; [reflexivity|].
  destruct (is_badge e); simpl; [|exact IH].
  destruct (Nat.eq_dec (eid e) a) as [E|E].
  - apply Nat.eqb_eq in E. rewrite E. simpl. congruence.
  - apply Nat.eqb_neq in E. rewrite E. exact IH.
Qed.

Lemma count_inner_le (a : nat) (n : node) :
  count_occ Nat.eq_dec (inner_ids n) a <= count_occ Nat.eq_dec (ids n) a.
Proof.
  destruct n as [s|e children]; [reflexivity|].
  rewrite ids_Elem. cbn [inner_ids count_occ].
  destruct (Nat.eq_dec (eid e) a); lia.
Qed.

Lemma count_where_mono (q q' : Element -> bool) (n : node) :
  (forall e, q e = true -> q' e = true) ->
  count_where q n <= count_where q' n.
Proof.
  intros H. unfold count_where.
  induction (elems n) as [|e l IH]; simpl; [reflexivity|].
  destruct (q e) eqn:Q.
  - rewrite (H _ Q). simpl. lia.
  - destruct (q' e); simpl; lia.
Qed.

Lemma In_count_occ (l : list nat) (a : nat) :
  In a l <-> count_occ Nat.eq_dec l a > 0.
Proof. apply count_occ_In. Qed.

Lemma NoDup_count (l : list nat) :
  NoDup l <-> forall a, count_occ Nat.eq_dec l a <= 1.
Proof. apply NoDup_count_occ. Qed.

(** *** Elements that keep their identity and their class *)

Lemma className_setAttribute (name value : string) (e : Element) :
  name <> "class" -> className (setAttribute name value e) = className e.
Proof.
  intros N. unfold className, attr_or_empty, getAttribute, setAttribute.
  simpl. rewrite assoc_set_other by congruence. reflexivity.
Qed.

Lemma is_badge_setAttribute (name value : string) (e : Element) :
  name <> "class" -> is_badge (setAttribute name value e) = is_badge e.
Proof.
  intros N. unfold is_badge, classList_contains.
  rewrite className_setAttribute by exact N. reflexivity.
Qed.

Section FontStyles.

Variable getComputedStyle : node -> nat -> string -> string.

Lemma copy_font_styles_same (css : engine) (doc : node) (x : nat)
  (e : Element) :
  eid (copy_font_styles getComputedStyle css doc x e) = eid e /\
  attrs (copy_font_styles getComputedStyle css doc x e) = attrs e.
Proof.
  unfold copy_font_styles.
  generalize font_properties. intros l. revert e.
  induction l as [|p l IH]; intros e; simpl; [split; reflexivity|].
  destruct (IH (style_set css p (getComputedStyle doc x p) e)) as [-> ->].
  destruct (style_set_same css p (getComputedStyle doc x p) e)
    as (-> & _ & ->).
  split; reflexivity.
Qed.

Lemma is_badge_copy_font_styles (css : engine) (doc : node) (x : nat)
  (e : Element) :
  is_badge (copy_font_styles getComputedStyle css doc x e) = is_badge e.
Proof.
  unfold is_badge, classList_contains, className, attr_or_empty, getAttribute.
  rewrite (proj2 (copy_font_styles_same css doc x e)). reflexivity.
Qed.

End FontStyles.

Lemma count_in_text_children (q : Element -> bool) (s : string) :
  count_in q (text_children s) = 0.
Proof. unfold text_children. destruct (String.eqb s ""); reflexivity. Qed.

(** *** Well-formed documents *)

Lemma same_or_fewer_refl (doc : node) : same_or_fewer doc doc.
Proof. intros q _. reflexivity. Qed.

Lemma same_or_fewer_trans (a b c : node) :
  same_or_fewer a b -> same_or_fewer b c -> same_or_fewer a c.
Proof.
  intros H1 H2 q Hq. etransitivity; [apply H1|apply H2]; exact Hq.
Qed.

Lemma same_or_fewer_update (x : nat) (f : frame -> frame) (doc : node) :
  (forall fr, eid (fst (f fr)) = eid (fst fr)) ->
  (forall fr, is_badge (fst (f fr)) = is_badge (fst fr)) ->
  (forall q fr, count_in q (snd (f fr)) <= count_in q (snd fr)) ->
  same_or_fewer (update x f doc) doc.
Proof.
  intros Hid Hb Hc q Hq. apply count_update.
  - intros fr. apply Hq; [apply Hid|apply Hb].
  - intros fr. apply Hc.
Qed.

Lemma same_or_fewer_update_element (x : nat) (f : Element -> Element)
  (doc : node) :
  (forall e, eid (f e) = eid e) ->
  (forall e, is_badge (f e) = is_badge e) ->
  same_or_fewer (update_element x f doc) doc.
Proof.
  intros Hid Hb. unfold update_element. apply same_or_fewer_update.
  - intros fr. apply Hid.
  - intros fr. apply Hb.
  - intros q fr. reflexivity.
Qed.

Lemma same_or_fewer_remove (p : Element -> bool) (doc : node) :
  same_or_fewer (remove_where p doc) doc.
Proof. intros q _. apply count_remove. Qed.

Lemma same_or_fewer_ids (doc' doc : node) :
  same_or_fewer doc' doc ->
  (NoDup (ids doc) -> NoDup (ids doc')) /\
  (forall i, In i (ids doc') -> In i (ids doc)) /\
  (forall b, In b (badge_ids doc') -> In b (badge_ids doc)).
Proof.
  intros H.
  assert (Hid : forall a, count_occ Nat.eq_dec (ids doc') a
                          <= count_occ Nat.eq_dec (ids doc) a).
  { intros a. rewrite !count_occ_ids. apply H.
    intros e e' E _. unfold has_eid. rewrite E. reflexivity. }
  assert (Hb : forall a, count_occ Nat.eq_dec (badge_ids doc') a
                         <= count_occ Nat.eq_dec (badge_ids doc) a).
  { intros a. rewrite !count_occ_badge_ids. apply H.
    intros e e' E B. unfold has_eid. rewrite E, B. reflexivity. }
  repeat apply conj.
  - rewrite !NoDup_count. intros N a. specialize (N a). specialize (Hid a). lia.
  - intros i. rewrite !In_count_occ. specialize (Hid i). lia.
  - intros b. rewrite !In_count_occ. specialize (Hb b). lia.
Qed.

Lemma well_formed_fewer (doc' : node) (st : state) :
  same_or_fewer doc' (document st) ->
  well_formed st -> well_formed (with_document doc' st).
Proof.
  intros H [N B]. destruct (same_or_fewer_ids _ _ H) as (HN & HI & _).
  split; simpl.
  - apply HN. exact N.
  - intros i Hi. apply B. apply HI. exact Hi.
Qed.

(** *** Marking the candidates *)

Lemma mark_from_fewer (prices : list PriceCandidate) (index : nat) (doc : node) :
  same_or_fewer (mark_from index prices doc) doc.
Proof.
  revert index doc. induction prices as [|c l IH]; intros index doc; simpl.
  - apply same_or_fewer_refl.
  - eapply same_or_fewer_trans; [apply IH|].
    apply same_or_fewer_update_element.
    + reflexivity.
    + intros e. rewrite !is_badge_setAttribute by discriminate. reflexivity.
Qed.

Lemma store_conversions_fewer (prices : list PriceCandidate)
  (results : list Converter.ConversionResult) (doc : node) :
  same_or_fewer (store_conversions prices results doc) doc.
Proof.
  revert results doc.
  induction prices as [|c l IH]; intros [|r results] doc; simpl;
    try apply same_or_fewer_refl.
  eapply same_or_fewer_trans; [apply IH|].
  apply same_or_fewer_update_element.
  - reflexivity.
  - intros e. rewrite !is_badge_setAttribute by discriminate. reflexivity.
Qed.

(** *** Removing the badges *)

Lemma remove_badge_elements_fewer (doc : node) :
  same_or_fewer (remove_badge_elements doc) doc.
Proof.
  unfold remove_badge_elements. destruct doc as [s|e children].
  - apply same_or_fewer_refl.
  - destruct (is_badge e).
    + intros q _. unfold count_where. simpl. lia.
    + apply same_or_fewer_remove.
Qed.

Lemma remove_badge_elements_none (doc : node) :
  badge_ids (remove_badge_elements doc) = [].
Proof.
  assert (Z : forall a, count_occ Nat.eq_dec
                          (badge_ids (remove_badge_elements doc)) a = 0).
  { intros a. rewrite count_occ_badge_ids. unfold remove_badge_elements.
    destruct doc as [s|e children]; [reflexivity|].
    destruct (is_badge e) eqn:B; [reflexivity|].
    rewrite (count_remove_all _ is_badge).
    - rewrite B. reflexivity.
    - intros e' H. apply andb_true_iff in H. tauto. }
  destruct (badge_ids (remove_badge_elements doc)) as [|b l]; [reflexivity|].
  specialize (Z b). simpl in Z. destruct (Nat.eq_dec b b); [discriminate|].
  contradiction.
Qed.

(** *** One candidate of the side-by-side presentation *)

Lemma map_put_keys_values (x v : nat) (m : list (nat * nat)) :
  ~ In x (map fst m) ->
  map fst (map_put x v m) = (map fst m ++ [x])%list /\
  map snd (map_put x v m) = (map snd m ++ [v])%list.
Proof.
  induction m as [|[k w] m IH]; intros N; [split; reflexivity|].
  cbn [map_put]. cbn [map fst] in N.
  destruct (Nat.eqb_spec x k) as [E|E]; [exfalso; apply N; left; congruence|].
  cbn [map fst snd]. destruct IH as [H1 H2]; [intros I; apply N; right; exact I|].
  rewrite H1, H2. split; reflexivity.
Qed.

Lemma pass_invariant_more (first : nat) (done : list nat) (x : nat)
  (st : state) :
  pass_invariant first done st -> pass_invariant first (done ++ [x]) st.
Proof.
  intros []. constructor; try assumption.
  intros k Hk. apply in_or_app. left. auto.
Qed.

Section SideBySide.

Variable getComputedStyle : node -> nat -> string -> string.

Lemma inject_one_invariant (first : nat) (done : list nat) (st st' : state)
  (priceObj : PriceCandidate) (index : nat) :
  ~ In (element priceObj) done ->
  pass_invariant first done st ->
  inject_one getComputedStyle st priceObj index = Normal st' ->
  pass_invariant first (done ++ [element priceObj]) st' /\
  detectedPrices st' = detectedPrices st /\
  isActive st' = isActive st.
Proof.
  intros Hnew Inv. unfold inject_one.
  set (x := element priceObj) in *.
  assert (Same : pass_invariant first (done ++ [x]) st /\
                 detectedPrices st = detectedPrices st /\
                 isActive st = isActive st).
  { split; [apply pass_invariant_more; exact Inv|split; reflexivity]. }
  destruct (formatted_at index st) as [hoursFormatted|];
    [|intros H; injection H as <-; exact Same].
  destruct (locate (document st) x) as [[|[e kids] up]|];
    try (intros H; injection H as <-; exact Same).
  destruct (body_contains (document st) x) as [[|]|]; cbn [bind negb];
    try discriminate;
    try (intros H; injection H as <-; exact Same).
  destruct (findExistingBadge x ((e, kids) :: up) st) as [[badge|]|];
    cbn [bind]; try discriminate.
  - (* a badge is in reach *)
    destruct (match getAttribute e "data-hours-formatted" with
              | Some currentHours => String.eqb currentHours hoursFormatted
              | None => false
              end);
      [intros H; injection H as <-; exact Same|].
    intros H. injection H as <-.
    destruct Inv as [W T KD KN VF F R].
    match goal with
    | |- context [with_document ?d st] => set (doc2 := d)
    end.
    assert (Fewer : same_or_fewer doc2 (document st)).
    { subst doc2. eapply same_or_fewer_trans.
      - apply same_or_fewer_update_element; [reflexivity|].
        intros e1. apply is_badge_setAttribute. discriminate.
      - apply same_or_fewer_update.
        + intros fr. apply copy_font_styles_same.
        + intros fr. apply is_badge_copy_font_styles.
        + intros q fr. cbn [snd]. rewrite count_in_text_children. lia. }
    split; [|split; reflexivity].
    constructor; cbn [with_document injectedBadges next_id replacedPrices];
      try assumption.
    + apply well_formed_fewer; assumption.
    + intros b Hb. apply T.
      apply (same_or_fewer_ids _ _ Fewer). exact Hb.
    + intros k Hk. apply in_or_app. left. auto.
  - (* no badge: a new one is inserted *)
    destruct (hidden_class e); [intros H; injection H as <-; exact Same|].
    destruct (includes (toLowerCase (className e)) "pricetopay");
      [intros H; injection H as <-; exact Same|].
    intros H. injection H as <-.
    destruct Inv as [[N B] T KD KN VF F R].
    set (n := next_id st) in *.
    set (badge := createBadge getComputedStyle (css st) (document st) n
                    hoursFormatted x).
    assert (Hx : ~ In x (map fst (injectedBadges st))) by (intros I; auto).
    destruct (map_put_keys_values x n _ Hx) as [Keys Values].
    assert (Fresh : count_where (has_eid n) (document st) = 0).
    { rewrite <- count_occ_ids.
      destruct (count_occ Nat.eq_dec (ids (document st)) n) eqn:C;
        [reflexivity|].
      assert (I : In n (ids (document st))) by (apply In_count_occ; lia).
      apply B in I. lia. }
    assert (Once : count_occ Nat.eq_dec (inner_ids (document st)) x <= 1).
    { etransitivity; [apply count_inner_le|].
      apply NoDup_count. exact N. }
    assert (Cb : forall q, count_where q badge
                           = if q (copy_font_styles getComputedStyle (css st)
                                     (document st) x
                                     {| eid := n; tag := "span";
                                        attrs := [("class", "price-hours-badge");
                                                  ("aria-label",
                                                   "Requires " ++ hoursFormatted
                                                   ++ " of work");
                                                  ("title",
                                                   "This item costs "
                                                   ++ hoursFormatted ++
                                                   " of work at your hourly wage")];
                                        style := [] |})
                             then 1 else 0).
    { intros q. subst badge. unfold createBadge.
      rewrite count_where_Elem, count_in_text_children. lia. }
    assert (Cid : forall a, count_where (has_eid a) badge
                            = if Nat.eqb n a then 1 else 0).
    { intros a. rewrite Cb. unfold has_eid.
      rewrite (proj1 (copy_font_styles_same _ _ _ _ _)). reflexivity. }
    split; [|split; reflexivity].
    constructor;
      cbn [with_document with_next_id with_injectedBadges injectedBadges
           next_id replacedPrices document]; try assumption.
    + (* well formed *)
      split; cbn [document next_id with_document with_next_id
                  with_injectedBadges].
      * apply NoDup_count. intros a.
        rewrite count_occ_ids, count_insert, Cid.
        destruct (Nat.eqb_spec n a) as [E|Na].
        -- rewrite <- E, Fresh. lia.
        -- rewrite <- count_occ_ids.
           pose proof (proj1 (NoDup_count _) N a). lia.
      * intros i Hi. apply In_count_occ in Hi.
        rewrite count_occ_ids, count_insert, Cid in Hi.
        destruct (Nat.eqb_spec n i) as [E|Ni]; [lia|].
        assert (I : In i (ids (document st))).
        { apply In_count_occ. rewrite count_occ_ids. lia. }
        apply B in I. lia.
    + (* tracked *)
      intros b Hb. cbn [document with_document with_next_id
                        with_injectedBadges injectedBadges] in *.
      rewrite Values. apply in_or_app.
      apply In_count_occ in Hb.
      rewrite count_occ_badge_ids, count_insert, Cb in Hb.
      destruct (count_where (fun e0 => is_badge e0 && has_eid b e0)
                  (document st)) eqn:C.
      * right. left.
        destruct (is_badge _ && has_eid b _) eqn:Q; [|lia].
        apply andb_true_iff in Q. destruct Q as [_ Q].
        unfold has_eid in Q.
        rewrite (proj1 (copy_font_styles_same _ _ _ _ _)) in Q.
        apply Nat.eqb_eq in Q. exact Q.
      * left. apply T. apply In_count_occ.
        rewrite count_occ_badge_ids. lia.
    + rewrite Keys. apply NoDup_app; [exact KD|repeat constructor; intros []|].
      intros k Hk [<-|[]]. exact (Hx Hk).
    + rewrite Keys. apply incl_app.
      * intros k Hk. apply in_or_app. left. auto.
      * intros k [<-|[]]. apply in_or_app. right. left. reflexivity.
    + rewrite Values. intros b Hb. apply in_app_or in Hb.
      destruct Hb as [Hb|[<-|[]]]; [auto|exact F].
    + lia.
Qed.

Lemma injectBadgesSideBySide_invariant (first : nat)
  (l : list PriceCandidate) (done : list nat) (index : nat) (st st' : state) :
  NoDup (done ++ map element l) ->
  pass_invariant first done st ->
  forEach (inject_one getComputedStyle) l index st = Normal st' ->
  pass_invariant first (done ++ map element l) st' /\
  detectedPrices st' = detectedPrices st /\
  isActive st' = isActive st.
Proof.
  revert done index st.
  induction l as [|c l IH]; intros done index st N Inv; simpl.
  - intros H. injection H as <-. rewrite app_nil_r. auto.
  - destruct (inject_one getComputedStyle st c index) as [st1|] eqn:One;
      cbn [bind]; [|discriminate].
    intros H.
    cbn [map] in N.
    apply inject_one_invariant with (first := first) (done := done) in One;
      [|intros I; apply (NoDup_remove_2 _ _ _ N);
        apply in_or_app; left; exact I|exact Inv].
    destruct One as (Inv1 & D1 & A1).
    replace (done ++ element c :: map element l)%list
      with ((done ++ [element c]) ++ map element l)%list in *
      by (rewrite <- app_assoc; reflexivity).
    destruct (IH _ _ _ N Inv1 H) as (Inv2 & D2 & A2).
    split; [exact Inv2|split; congruence].
Qed.

End SideBySide.

(** *** One pass in side-by-side mode *)

Section Pass.

Variable getComputedStyle : node -> nat -> string -> string.
Variable innerText : path -> string.

Lemma detectPrices_distinct (doc : node) (l : list PriceCandidate) :
  detectPrices innerText doc = Normal l -> NoDup (map element l).
Proof.
  unfold detectPrices.
  destruct (body_of doc) as [[|[b kids] up]|]; try discriminate.
  intros H. injection H as <-. apply uniquePrices_NoDup.
Qed.

Lemma side_by_side_pass (settings : storage) (st st' : state) :
  well_formed st ->
  replacedPrices st = [] ->
  isActive st = true ->
  getShowHours settings = true ->
  String.eqb (getDisplayMode settings) "replace" = false ->
  (getHourlyWage settings <=? 0)%float = false ->
  processPage getComputedStyle innerText settings st = Normal st' ->
  well_formed st' /\ replacedPrices st' = [] /\ isActive st' = true /\
  next_id st <= next_id st' /\
  (detectedPrices st' <> [] ->
   pass_invariant (next_id st) (map element (detectedPrices st')) st').
Proof.
  intros W R A Show Mode Wage. unfold processPage.
  rewrite A, Wage. cbn [negb].
  destruct (detectPrices innerText (document st)) as [detected|] eqn:D;
    cbn [bind]; [|discriminate].
  apply detectPrices_distinct in D.
  destruct detected as [|c detected].
  - intros H. injection H as <-. simpl.
    split; [exact W|]. split; [exact R|]. split; [exact A|].
    split; [lia|]. intros N. contradiction.
  - set (l := c :: detected) in *.
    unfold injectBadges. cbn [showHours with_showHours].
    rewrite Show. cbn [negb].
    cbn [displayMode with_displayMode]. rewrite Mode.
    unfold injectBadgesSideBySide, removeBadges.
    cbn [replacedPrices with_document with_detected with_showHours
         with_injectedBadges with_replacedPrices with_displayMode].
    rewrite R. cbn [fold_left].
    match goal with
    | |- forEach _ _ _ ?s = _ -> _ => set (start := s)
    end.
    assert (Inv : pass_invariant (next_id st) [] start).
    { subst start.
      assert (Fewer : same_or_fewer
                (remove_badge_elements
                   (store_conversions l
                      (Converter.convertPricesToHours (map price l)
                         (Converter.VNum (getHourlyWage settings)))
                      (markPriceElements l (document st))))
                (document st)).
      { eapply same_or_fewer_trans; [apply remove_badge_elements_fewer|].
        eapply same_or_fewer_trans; [apply store_conversions_fewer|].
        apply mark_from_fewer. }
      constructor.
      - apply (well_formed_fewer _ st Fewer) in W.
        destruct W as [W1 W2]. split; [exact W1|exact W2].
      - intros b Hb.
        cbn [document with_document with_detected with_showHours
             with_injectedBadges with_replacedPrices with_displayMode] in Hb.
        rewrite remove_badge_elements_none in Hb. contradiction.
      - constructor.
      - intros k [].
      - intros b [].
      - simpl. lia.
      - reflexivity. }
    intros H. change (detectedPrices start) with l in H.
    apply injectBadgesSideBySide_invariant
      with (first := next_id st) (done := []) in H; [|exact D|exact Inv].
    destruct H as (Inv' & D' & A').
    cbn [app] in Inv'.
    assert (E : detectedPrices st' = l) by (rewrite D'; reflexivity).
    rewrite E.
    split; [exact (inv_well_formed _ _ _ Inv')|].
    split; [exact (inv_not_replaced _ _ _ Inv')|].
    split; [rewrite A'; exact A|].
    split; [exact (inv_first _ _ _ Inv')|].
    intros _. exact Inv'.
Qed.

End Pass.

Lemma badge_ids_ids (doc : node) (b : nat) :
  In b (badge_ids doc) -> In b (ids doc).
Proof.
  unfold badge_ids, ids. rewrite !in_map_iff.
  intros (e & E & I). apply filter_In in I. exists e. tauto.
Qed.

Lemma badge_ids_NoDup (doc : node) : NoDup (ids doc) -> NoDup (badge_ids doc).
Proof.
  unfold badge_ids, ids.
  induction (elems doc) as [|e l IH]; simpl; intros N; [constructor|].
  inversion N as [|? ? N1 N2]; subst.
  destruct (is_badge e); simpl; [|exact (IH N2)].
  constructor; [|exact (IH N2)].
  intros I. apply N1. apply in_map_iff in I. destruct I as (e' & E & I).
  apply filter_In in I. apply in_map_iff. exists e'. tauto.
Qed.

Lemma pass_invariant_count (first : nat) (done : list nat) (st : state) :
  pass_invariant first done st -> count_badges (document st) <= List.length done.
Proof.
  intros Inv. unfold count_badges.
  transitivity (List.length (map snd (injectedBadges st))).
  - apply NoDup_incl_length.
    + apply badge_ids_NoDup. apply (inv_well_formed _ _ _ Inv).
    + exact (inv_tracked _ _ _ Inv).
  - rewrite length_map, <- (length_map fst).
    apply NoDup_incl_length.
    + exact (inv_keys_distinct _ _ _ Inv).
    + exact (inv_keys_done _ _ _ Inv).
Qed.

End BadgeFacts.

(** * Further properties *)

(** ** The converter *)

Section ConverterMore.

Import Converter Properties.

Lemma append_h_not_NA (s : string) : s ++ "h" <> "N/A".
Proof.
  destruct s as [|a [|b [|c [|d s]]]]; simpl; intros H; inversion H.
Qed.

(** X1: [formatHours] answers "N/A" for [null], NaN and negative numbers and
    for nothing else. *)
Theorem formatHours_not_available (hours : option float) :
  formatHours hours = "N/A" <->
  match hours with
  | None => True
  | Some h => isNaN h = true \/ (h <? 0)%float = true
  end.
Proof.
  destruct hours as [h|]; simpl; [|tauto].
  destruct (isNaN h); simpl; [tauto|].
  destruct (h <? 0)%float; simpl; [tauto|].
  split.
  - destruct (_ <? 0.25)%float; [discriminate|].
    destruct (_ =? 0)%float; intros H; apply append_h_not_NA in H;
      contradiction.
  - intros [H|H]; discriminate.
Qed.

(** X2: without a usable wage (not a number, NaN, zero or negative) the batch
    conversion gives every price [null] hours and the text "N/A". *)
Theorem convertPricesToHours_without_wage (prices : list float) (wage : value) :
  (forall w, wage = VNum w -> isNaN w = true \/ (w <=? 0)%float = true) ->
  convertPricesToHours prices wage =
  map (fun p => {| cr_price := p; cr_hours := None; cr_formatted := "N/A" |})
      prices.
Proof.
  intros H. unfold convertPricesToHours. apply map_ext. intros p.
  assert (E : calculateHours (VNum p) wage = None).
  { destruct wage as [| | |w|]; try reflexivity.
    unfold calculateHours.
    destruct (H w eq_refl) as [-> | ->]; rewrite ?orb_true_r; reflexivity. }
  rewrite E. reflexivity.
Qed.

Lemma le_lt_trans_float (a b c : float) :
  (a <=? b)%float = true -> (b <? c)%float = true -> (a <? c)%float = true.
Proof. intros H1 H2. float_order. Qed.

Lemma lt_le_trans_float (a b c : float) :
  (a <? b)%float = true -> (b <=? c)%float = true -> (a <? c)%float = true.
Proof. intros H1 H2. float_order. Qed.

Lemma le_not_lt_float (a b : float) :
  (a <=? b)%float = true -> (b <? a)%float = false.
Proof. intros H. float_order. Qed.

Lemma le_zero_float (a b g : float) :
  (a <=? b)%float = true -> (b =? 0)%float = true -> (g =? 0)%float = true ->
  (a =? 0)%float = true \/ (a <? g)%float = true.
Proof.
  intros H1 H2 H3.
  destruct (a =? 0)%float eqn:E; [left; reflexivity|right].
  float_order.
Qed.

Lemma tier_rank_le_2 (tier : string) : (tier_rank tier <= 2)%nat.
Proof.
  unfold tier_rank.
  destruct (String.eqb tier "green"); [lia|].
  destruct (String.eqb tier "yellow"); lia.
Qed.

(** X3: the tier never goes down when the value goes up: for any thresholds
    and [v1 <= v2], the colour of [v1] is not above the colour of [v2] in the
    order green, yellow, red. *)
Theorem getTierColor_monotone (v1 v2 : float) (ts : TierSettings) :
  (v1 <=? v2)%float = true ->
  (tier_rank (getTierColor (VNum v1) (Some ts)) <=
   tier_rank (getTierColor (VNum v2) (Some ts)))%nat.
Proof.
  intros H. unfold getTierColor, isNaN.
  assert (N1 : is_nan v1 = false).
  { destruct (is_nan v1) eqn:E; [|reflexivity]. float_order. }
  assert (N2 : is_nan v2 = false).
  { destruct (is_nan v2) eqn:E; [|reflexivity]. float_order. }
  rewrite N1, N2. clear N1 N2.
  set (g := green ts). set (y := yellow ts).
  assert (not_red : (y <? v1)%float = false ->
            (tier_rank
               (if (g =? 0)%float && (v1 =? 0)%float then "green"
                else if (v1 <? g)%float then "green"
                else if (g <=? v1)%float && (v1 <=? y)%float then "yellow"
                else if (y <? v1)%float then "red" else "yellow") <= 1)%nat).
  { intros R. rewrite R.
    destruct (_ && _); [unfold tier_rank; simpl; lia|].
    destruct (v1 <? g)%float; [unfold tier_rank; simpl; lia|].
    destruct (_ && _); unfold tier_rank; simpl; lia. }
  destruct ((g =? 0)%float && (v2 =? 0)%float) eqn:S2.
  { apply andb_prop in S2. destruct S2 as [G0 Z2].
    destruct (le_zero_float _ _ _ H Z2 G0) as [Z1|L1].
    - rewrite G0, Z1. simpl. lia.
    - rewrite L1. destruct (_ && _); unfold tier_rank; simpl; lia. }
  destruct (v2 <? g)%float eqn:L2.
  { rewrite (le_lt_trans_float _ _ _ H L2).
    destruct (_ && _); unfold tier_rank; simpl; lia. }
  destruct ((g <=? v2)%float && (v2 <=? y)%float) eqn:Y2.
  { apply andb_prop in Y2. destruct Y2 as [_ Y2].
    apply not_red.
    destruct (y <? v1)%float eqn:R1; [|reflexivity].
    pose proof (lt_le_trans_float _ _ _ R1 H) as R2.
    rewrite (le_not_lt_float _ _ Y2) in R2. discriminate. }
  destruct (y <? v2)%float eqn:R2.
  { apply tier_rank_le_2. }
  apply not_red.
  destruct (y <? v1)%float eqn:R1; [|reflexivity].
  pose proof (lt_le_trans_float _ _ _ R1 H) as R2'. congruence.
Qed.

End ConverterMore.

(** ** The extractor *)

Section DetectorMore.

Import Str Regex Dom Detector Properties.

Lemma not_lt_le_float (a b : float) :
  is_nan a = false -> is_nan b = false ->
  (b <? a)%float = false -> (a <=? b)%float = true.
Proof. intros H1 H2 H3. float_order. Qed.

(** X4: a price returned by [parsePrice] is a number between 0 and
    10,000,000; without a strong price context (no currency symbol in the
    text and no element whose class or id has the word "price") it is
    between 0.01 and 100,000. *)
Theorem parsePrice_in_range (priceText : string) (element : option path)
  (p : float) :
  parsePrice priceText element = Some p ->
  (0 <=? p)%float = true /\ (p <=? 10000000)%float = true /\
  (strong_price_context priceText element = false ->
   (0.01 <=? p)%float = true /\ (p <=? 100000)%float = true).
Proof.
  unfold parsePrice, strong_price_context, isNaN.
  destruct (String.eqb priceText ""); [discriminate|].
  destruct (isTimeValue priceText); [discriminate|].
  destruct (match element with
            | Some p0 => negb (isPriceElement p0)
            | None => false
            end); [discriminate|].
  destruct (negb (test has_currency priceText) && _); [discriminate|].
  set (price := parseFloat (normalize priceText)).
  destruct (is_nan price) eqn:N; [discriminate|].
  destruct (price <? 0)%float eqn:L0; [discriminate|].
  destruct (10000000 <? price)%float eqn:L1; [discriminate|].
  cbn [orb].
  destruct ((price <? 0.01)%float || (100000 <? price)%float) eqn:Small.
  - destruct (test has_currency priceText); cbn [negb andb orb].
    + intros H. injection H as <-.
      split; [apply not_lt_le_float; auto|].
      split; [apply not_lt_le_float; auto|]. discriminate.
    + destruct element as [[|[e kids] up]|].
      * discriminate.
      * destruct (test price_word (className e));
          destruct (test price_word (id_of e)); cbn [negb andb orb];
          try discriminate.
        all: intros H; injection H as <-.
        all: split; [apply not_lt_le_float; auto|].
        all: split; [apply not_lt_le_float; auto|]. all: discriminate.
      * discriminate.
  - cbn [andb]. intros H. injection H as <-.
    apply orb_false_iff in Small. destruct Small as [S1 S2].
    split; [apply not_lt_le_float; auto|].
    split; [apply not_lt_le_float; auto|].
    intros _. split; apply not_lt_le_float; auto.
Qed.

Lemma parsePrice_in_range_witness :
  parsePrice "$1,234.56" None = Some 1234.56%float /\
  (0 <=? 1234.56)%float = true /\ (1234.56 <=? 10000000)%float = true.
Proof.
  assert (H : parsePrice "$1,234.56" None = Some 1234.56%float)
    by (vm_compute; reflexivity).
  split; [exact H|].
  destruct (parsePrice_in_range "$1,234.56" None 1234.56%float H)
    as (H1 & H2 & _).
  split; [exact H1|exact H2].
Defined.

(** *** Every element is pushed once *)

Section Pushed.

Variable innerText : path -> string.

Lemma fold_left_invariant_in {A B} (P : A -> Prop) (f : A -> B -> A)
  (l : list B) :
  (forall a b, In b l -> P a -> P (f a b)) ->
  forall a, P a -> P (fold_left f l a).
Proof.
  induction l as [|b l IH]; intros step a Ha; simpl; [exact Ha|].
  apply IH.
  - intros a' b' I. apply step. right. exact I.
  - apply step; [left; reflexivity|exact Ha].
Qed.

Lemma found_has_false (found : list nat) (x : nat) :
  found_has found x = false -> ~ In x found.
Proof.
  unfold found_has. intros H I.
  assert (T : existsb (Nat.eqb x) found = true).
  { apply existsb_exists. exists x. split; [exact I|apply Nat.eqb_refl]. }
  congruence.
Qed.

Lemma push_once (prices : list PriceCandidate) (found : list nat)
  (c : PriceCandidate) :
  pushed_once (prices, found) -> found_has found (element c) = false ->
  pushed_once ((prices ++ [c])%list, (found ++ [element c])%list).
Proof.
  unfold pushed_once. simpl. intros [E N] F. split.
  - rewrite map_app, E. reflexivity.
  - apply NoDup_app; [exact N|repeat constructor; intros []|].
    intros x Hx [<-|[]]. exact (found_has_false _ _ F Hx).
Qed.

Lemma scan_element_once (st : found_state) (p : path) :
  pushed_once st -> pushed_once (scan_element innerText st p).
Proof.
  unfold scan_element. intros H.
  destruct st as [prices found]. destruct p as [|[e kids] up]; [exact H|].
  destruct (found_has found (eid e)) eqn:F; [exact H|].
  repeat match goal with
         | |- context [if ?c then _ else _] => destruct c eqn:?
         | |- context [match parsePrice ?t ?e with _ => _ end] =>
             destruct (parsePrice t e) eqn:?
         end; try exact H.
  all: apply (push_once prices found
                {| element := eid e; price := _; originalText := _ |} H F).
Qed.

Lemma climb_once (body : nat) (matched : string) (parent : path)
  (st : found_state) :
  pushed_once st -> pushed_once (climb body matched parent st).
Proof.
  revert st.
  induction parent as [|[e kids] up IH]; intros [prices found] H;
    cbn [climb].
  - exact H.
  - destruct (Nat.eqb (eid e) body); [exact H|].
    destruct (found_has found (eid e)) eqn:F; cbn [orb]; [apply IH; exact H|].
    repeat match goal with
           | |- context [if ?c then _ else _] => destruct c eqn:?
           | |- context [match parsePrice ?t ?e with _ => _ end] =>
               destruct (parsePrice t e) eqn:?
           end; try (apply IH; exact H).
    apply (push_once prices found
             {| element := eid e; price := _; originalText := _ |} H F).
Qed.

Lemma pushed_pushed_once (doc : node) : pushed_once (pushed innerText doc).
Proof.
  unfold pushed.
  assert (S1 : pushed_once
                 (fold_left (scan_selector innerText doc) PRICE_SELECTORS
                    ([], []))).
  { apply (fold_left_invariant pushed_once (scan_selector innerText doc)
             PRICE_SELECTORS).
    - intros st sel Hst. unfold scan_selector.
      apply (fold_left_invariant pushed_once); [|exact Hst].
      intros st' p Hst'. apply scan_element_once. exact Hst'.
    - split; constructor. }
  destruct (body_of doc) as [[|[b kids] up]|]; try exact S1.
  apply (fold_left_invariant pushed_once); [|exact S1].
  intros st [text parent] Hst. unfold scan_text.
  destruct (isTimeValue text); [exact Hst|].
  apply (fold_left_invariant pushed_once); [|exact Hst].
  intros st' m Hst'. apply climb_once. exact Hst'.
Qed.

Lemma map_set_new (c : PriceCandidate) (l : list PriceCandidate) :
  ~ In (element c) (map element l) -> map_set c l = (l ++ [c])%list.
Proof.
  induction l as [|d l IH]; simpl; intros N; [reflexivity|].
  destruct (Nat.eqb_spec (element d) (element c)) as [E|E].
  - exfalso. apply N. left. exact E.
  - rewrite IH; [reflexivity|]. intros I. apply N. right. exact I.
Qed.

Lemma uniquePrices_distinct (prices : list PriceCandidate) :
  NoDup (map element prices) -> uniquePrices prices = prices.
Proof.
  unfold uniquePrices.
  assert (G : forall acc,
             NoDup (map element (acc ++ prices)) ->
             fold_left (fun a c => map_set c a) prices acc
             = (acc ++ prices)%list).
  { induction prices as [|c l IH]; intros acc N; simpl.
    - rewrite app_nil_r. reflexivity.
    - rewrite map_set_new.
      + rewrite IH; rewrite <- app_assoc; [reflexivity|exact N].
      + rewrite map_app in N. simpl in N.
        apply NoDup_remove_2 in N. intros I. apply N.
        apply in_or_app. left. exact I. }
  intros N. apply (G [] N).
Qed.

Lemma detectPrices_keeps_pushed_aux (doc : node) (l : list PriceCandidate) :
  detectPrices innerText doc = Normal l ->
  l = fst (pushed innerText doc) /\ NoDup (map element l).
Proof.
  intros H. destruct (pushed_pushed_once doc) as [E N].
  assert (D : NoDup (map element (fst (pushed innerText doc)))).
  { rewrite E. exact N. }
  revert H D. unfold detectPrices, pushed.
  destruct (body_of doc) as [[|[b kids] up]|]; try discriminate.
  intros H D. injection H as <-.
  rewrite uniquePrices_distinct by exact D. split; [reflexivity|exact D].
Qed.

(** X5: [detectPrices] returns the candidates exactly as the two scans
    pushed them, selector hits first: [foundElements] lets every element be
    pushed once only, so the deduplication by [Map] never removes or moves a
    candidate. *)
Theorem detectPrices_keeps_pushed (doc : node) (l : list PriceCandidate) :
  detectPrices innerText doc = Normal l ->
  l = fst (pushed innerText doc) /\
  map element l = snd (pushed innerText doc) /\
  uniquePrices l = l.
Proof.
  intros H. destruct (pushed_pushed_once doc) as [E N].
  assert (D : NoDup (map element (fst (pushed innerText doc)))).
  { rewrite E. exact N. }
  assert (L : l = fst (pushed innerText doc)).
  { revert H D. unfold detectPrices, pushed.
    destruct (body_of doc) as [[|[b kids] up]|]; try discriminate.
    intros H D. injection H as <-. apply uniquePrices_distinct. exact D. }
  subst l. split; [reflexivity|]. split; [exact E|].
  apply uniquePrices_distinct. exact D.
Qed.

(** *** Candidates are elements that [isPriceElement] accepts *)

Lemma elements_of_head (up : path) (n : node) (p : path) :
  In p (elements_of up n) -> exists e kids up', p = (e, kids) :: up'.
Proof.
  revert up p. induction n as [s|e children IH] using node_induction;
    intros up p; simpl; [intros []|].
  intros [<-|I]; [eauto|].
  apply in_flat_map in I. destruct I as (c & Hc & I).
  rewrite Forall_forall in IH. exact (IH c Hc _ _ I).
Qed.

Lemma elements_of_chain (all : list path) (n : node) :
  forall up, chain_in all up -> incl (elements_of up n) all ->
  forall p, In p (elements_of up n) -> chain_in all p.
Proof.
  induction n as [s|e children IH] using node_induction;
    intros up C I p; simpl; [intros []|].
  simpl in I.
  assert (Here : chain_in all ((e, children) :: up)).
  { split; [apply I; left; reflexivity|exact C]. }
  intros [<-|Hp]; [exact Here|].
  apply in_flat_map in Hp. destruct Hp as (c & Hc & Hp).
  rewrite Forall_forall in IH.
  apply (IH c Hc ((e, children) :: up) Here); [|exact Hp].
  intros q Hq. apply I. right. apply in_flat_map. exists c.
    split; assumption.
Qed.

Lemma texts_of_chain (all : list path) (n : node) :
  forall up, chain_in all up -> incl (elements_of up n) all ->
  forall t p, In (t, p) (texts_of up n) -> chain_in all p.
Proof.
  induction n as [s|e children IH] using node_induction;
    intros up C I t p; simpl.
  - intros [E|[]]. injection E as _ <-. exact C.
  - simpl in I.
    assert (Here : chain_in all ((e, children) :: up)).
    { split; [apply I; left; reflexivity|exact C]. }
    intros Hp. apply in_flat_map in Hp. destruct Hp as (c & Hc & Hp).
    rewrite Forall_forall in IH.
    apply (IH c Hc ((e, children) :: up) Here) with (t := t); [|exact Hp].
    intros q Hq. apply I. right. apply in_flat_map. exists c.
    split; assumption.
Qed.

Lemma scan_element_accepted (doc : node) (st : found_state) (p : path) :
  In p (elements_of [] doc) ->
  Forall (accepted_in doc) (fst st) ->
  Forall (accepted_in doc) (fst (scan_element innerText st p)).
Proof.
  unfold scan_element. intros I H.
  destruct st as [prices found]. destruct p as [|[e kids] up]; [exact H|].
  repeat match goal with
         | |- context [if ?c then _ else _] => destruct c eqn:?
         | |- context [match parsePrice ?t ?e with _ => _ end] =>
             destruct (parsePrice t e) eqn:?
         end; try exact H.
  all: simpl; apply Forall_app; split; [exact H|].
  all: constructor; [|constructor].
  all: exists ((e, kids) :: up); simpl.
  all: split; [exact I|]; split; [reflexivity|].
  all: apply negb_false_iff; assumption.
Qed.

Lemma climb_accepted (doc : node) (body : nat) (matched : string)
  (parent : path) (st : found_state) :
  chain_in (elements_of [] doc) parent ->
  Forall (accepted_in doc) (fst st) ->
  Forall (accepted_in doc) (fst (climb body matched parent st)).
Proof.
  revert st.
  induction parent as [|[e kids] up IH]; intros [prices found] C H;
    cbn [climb].
  - exact H.
  - destruct C as [Here C].
    repeat match goal with
           | |- context [if ?c then _ else _] => destruct c eqn:?
           | |- context [match parsePrice ?t ?e with _ => _ end] =>
               destruct (parsePrice t e) eqn:?
           end; try exact H; try (apply IH; assumption).
    simpl; apply Forall_app; split; [exact H|].
    constructor; [|constructor].
    exists ((e, kids) :: up); simpl.
    split; [exact Here|]. split; [reflexivity|].
    match goal with
    | E : _ || negb _ = false |- _ =>
        apply orb_false_iff in E; destruct E as [_ E];
        apply negb_false_iff in E; exact E
    end.
Qed.

Lemma body_of_chain (doc : node) (b : Element) (kids : list node) (up : path) :
  body_of doc = Some ((b, kids) :: up) ->
  chain_in (elements_of [] doc) up /\
  incl (elements_of up (Elem b kids)) (elements_of [] doc).
Proof.
  unfold body_of. destruct doc as [s|e children]; [discriminate|].
  destruct (find is_body children) as [[s|b' kids']|] eqn:F; try discriminate.
  intros H. injection H as <- <- <-.
  apply find_some in F. destruct F as [F _]. split.
  - simpl. split; [left; reflexivity|exact I].
  - intros q Hq. right. apply in_flat_map. exists (Elem b' kids').
    split; assumption.
Qed.

Lemma detectPrices_all_accepted (doc : node) (l : list PriceCandidate) :
  detectPrices innerText doc = Normal l -> Forall (accepted_in doc) l.
Proof.
  intros H.
  destruct (detectPrices_keeps_pushed_aux doc l H) as [-> _].
  unfold pushed.
  assert (S1 : Forall (accepted_in doc)
                 (fst (fold_left (scan_selector innerText doc)
                         PRICE_SELECTORS ([], [])))).
  { apply (fold_left_invariant
             (fun st => Forall (accepted_in doc) (fst st))
             (scan_selector innerText doc) PRICE_SELECTORS).
    - intros st sel Hst. unfold scan_selector.
      apply (fold_left_invariant_in
               (fun st => Forall (accepted_in doc) (fst st)));
        [|exact Hst].
      intros st' p Hp Hst'. apply scan_element_accepted; [|exact Hst'].
      unfold querySelectorAll in Hp. apply filter_In in Hp. tauto.
    - constructor. }
  destruct (body_of doc) as [[|[b kids] up]|] eqn:B; try exact S1.
  destruct (body_of_chain _ _ _ _ B) as [C I].
  apply (fold_left_invariant_in
           (fun st => Forall (accepted_in doc) (fst st))); [|exact S1].
  intros st [text parent] Hp Hst. unfold scan_text.
  destruct (isTimeValue text); [exact Hst|].
  apply (fold_left_invariant
           (fun st => Forall (accepted_in doc) (fst st))); [|exact Hst].
  intros st' m Hst'. apply climb_accepted; [|exact Hst'].
  exact (texts_of_chain _ _ _ C I _ _ Hp).
Qed.

(** X6: every candidate of [detectPrices] stands for an element of the
    document that [isPriceElement] accepts; so it is never a badge of the
    extension or inside one, never a visually hidden element and never a
    priceToPay container. *)
Theorem detectPrices_accepted (doc : node) (l : list PriceCandidate) :
  detectPrices innerText doc = Normal l ->
  Forall (accepted_in doc) l /\
  forall c, In c l ->
    exists e kids up,
      In ((e, kids) :: up) (elements_of [] doc) /\ eid e = element c /\
      classList_contains e "price-hours-badge" = false /\
      closest ((e, kids) :: up) badge_selector = None /\
      hidden_class e = false /\
      includes (toLowerCase (className e)) "pricetopay" = false.
Proof.
  intros H. pose proof (detectPrices_all_accepted doc l H) as A.
  split; [exact A|].
  intros c Hc. rewrite Forall_forall in A.
  destruct (A c Hc) as (p & Ip & Hid & P).
  destruct p as [|[e kids] up]; [discriminate|].
  exists e, kids, up. cbn [path_id] in Hid. injection Hid as Hid.
  split; [exact Ip|]. split; [exact Hid|].
  revert P. unfold isPriceElement.
  destruct (classList_contains e "price-hours-badge"); cbn [orb];
    [discriminate|].
  match goal with
  | |- context [closest ?p ?s] => destruct (closest p s) eqn:Cl
  end; cbn [is_some]; [discriminate|].
  destruct (hidden_class e); [discriminate|].
  destruct (includes (toLowerCase (className e)) "pricetopay");
    [discriminate|].
  intros _. repeat split. exact Cl.
Qed.

End Pushed.

End DetectorMore.

Lemma detectPrices_keeps_pushed_witness :
  Examples.two_candidates
  = fst (Properties.pushed Examples.no_innerText Examples.two_prices) /\
  map Detector.element Examples.two_candidates
  = snd (Properties.pushed Examples.no_innerText Examples.two_prices) /\
  Detector.uniquePrices Examples.two_candidates = Examples.two_candidates.
Proof.
  apply (detectPrices_keeps_pushed Examples.no_innerText Examples.two_prices).
  vm_compute. reflexivity.
Defined.

Lemma detectPrices_accepted_witness :
  Forall (Properties.accepted_in Examples.two_prices) Examples.two_candidates.
Proof.
  apply (detectPrices_accepted Examples.no_innerText Examples.two_prices).
  vm_compute. reflexivity.
Defined.

(** ** The stored settings *)

Section StorageFacts.

Import Converter Controller Storage.

Lemma wage_or_default (w : float) :
  (0 <=? w)%float = true ->
  (if isNaN w || (w =? 0)%float then 0%float else w) =
  (if (w =? 0)%float then 0%float else w) /\
  (0 <? (if (w =? 0)%float then 0 else w))%float = (0 <? w)%float.
Proof.
  intros H. unfold isNaN.
  assert (N : is_nan w = false).
  { destruct (is_nan w) eqn:E; [|reflexivity]. float_order. }
  rewrite N. split; [reflexivity|].
  destruct (w =? 0)%float eqn:E; [|reflexivity].
  change (0 <? 0)%float with false. symmetry. float_order.
Qed.

(** X7: [setHourlyWage] answers [true] only for a number that is not NaN and
    not negative, and then [getHourlyWage] reads that wage back (zero for a
    stored zero) and [isWageSet] tells whether it is above zero; when it
    answers [false] the storage is as before. *)
Theorem setHourlyWage_then_get (writable : bool) (wage : value) (a a' : area)
  (ok : bool) :
  setHourlyWage writable wage a = (ok, a') ->
  if ok then
    exists w, wage = VNum w /\ (0 <=? w)%float = true /\
      a' = put_hourlyWage w a /\
      getHourlyWage a' = (if (w =? 0)%float then 0%float else w) /\
      isWageSet a' = (0 <? w)%float
  else a' = a.
Proof.
  unfold setHourlyWage.
  destruct wage as [| | |w|];
    try (intros H; injection H as <- <-; reflexivity).
  unfold isNaN. destruct (is_nan w) eqn:N; cbn [orb];
    [intros H; injection H as <- <-; reflexivity|].
  destruct (w <? 0)%float eqn:L;
    [intros H; injection H as <- <-; reflexivity|].
  destruct writable; cbn [local_set];
    intros H; injection H as <- <-; [|reflexivity].
  assert (P : (0 <=? w)%float = true) by (apply not_lt_zero_iff; auto).
  exists w. split; [reflexivity|]. split; [exact P|].
  split; [reflexivity|].
  destruct (wage_or_default w P) as [E1 E2].
  unfold isWageSet, getHourlyWage, Controller.getHourlyWage.
  cbn [put_hourlyWage settings stored_hourlyWage].
  rewrite E1. split; [reflexivity|exact E2].
Qed.

Lemma setHourlyWage_then_get_witness :
  setHourlyWage true (VNum 25) {| settings := Examples.settings 0 "replace";
                                  stored_tierSettings := None |}
  = (true, put_hourlyWage 25 {| settings := Examples.settings 0 "replace";
                                stored_tierSettings := None |}) /\
  getHourlyWage
    (put_hourlyWage 25 {| settings := Examples.settings 0 "replace";
                          stored_tierSettings := None |}) = 25%float.
Proof.
  assert (H : setHourlyWage true (VNum 25)
                {| settings := Examples.settings 0 "replace";
                   stored_tierSettings := None |}
              = (true, put_hourlyWage 25
                         {| settings := Examples.settings 0 "replace";
                            stored_tierSettings := None |}))
    by reflexivity.
  split; [exact H|].
  destruct (setHourlyWage_then_get _ _ _ _ _ H) as (w & E & _ & _ & G & _).
  injection E as <-. exact G.
Defined.

Lemma threshold_Some (v : value) (x : float) :
  threshold v = Some x -> v = VNum x /\ (0 <=? x)%float = true.
Proof.
  unfold threshold. destruct v as [| | |y|]; try discriminate.
  unfold isNaN. destruct (is_nan y) eqn:N; cbn [orb]; [discriminate|].
  destruct (y <? 0)%float eqn:L; [discriminate|].
  intros H. injection H as <-. split; [reflexivity|].
  apply not_lt_zero_iff; auto.
Qed.

(** X8: [setTierSettings] answers [true] only for an object whose type is
    "money" or "hours" and whose three thresholds are numbers, not NaN and
    not negative, and then [getTierSettings] reads these settings back; when
    it answers [false] the storage is as before. *)
Theorem setTierSettings_then_get (writable : bool) (arg : argument)
  (a a' : area) (ok : bool) :
  setTierSettings writable arg a = (ok, a') ->
  if ok then
    exists o ts, arg = Object o /\
      prop_type o = VStr (tier_type ts) /\
      (tier_type ts = "money" \/ tier_type ts = "hours") /\
      prop_green o = VNum (green ts) /\ (0 <=? green ts)%float = true /\
      prop_yellow o = VNum (yellow ts) /\ (0 <=? yellow ts)%float = true /\
      prop_red o = VNum (red ts) /\ (0 <=? red ts)%float = true /\
      getTierSettings a' = ts /\ settings a' = settings a
  else a' = a.
Proof.
  unfold setTierSettings.
  destruct arg as [v|o]; [intros H; injection H as <- <-; reflexivity|].
  destruct (prop_type o) as [| | | |type_] eqn:T;
    try (intros H; injection H as <- <-; reflexivity).
  destruct (negb (type_ =? "money")%string && negb (type_ =? "hours")%string)
    eqn:V; [intros H; injection H as <- <-; reflexivity|].
  destruct (threshold (prop_green o)) as [g|] eqn:G;
    [|intros H; injection H as <- <-; reflexivity].
  destruct (threshold (prop_yellow o)) as [y|] eqn:Y;
    [|intros H; injection H as <- <-; reflexivity].
  destruct (threshold (prop_red o)) as [r|] eqn:R;
    [|intros H; injection H as <- <-; reflexivity].
  destruct writable; cbn [local_set];
    intros H; injection H as <- <-; [|reflexivity].
  apply threshold_Some in G, Y, R.
  destruct G as [G1 G2], Y as [Y1 Y2], R as [R1 R2].
  exists o, {| tier_type := type_; green := g; yellow := y; red := r |}.
  cbn [tier_type green yellow red].
  repeat apply conj; try assumption; try reflexivity.
  apply andb_false_iff in V.
  destruct V as [V|V]; apply negb_false_iff, String.eqb_eq in V; auto.
Qed.

Lemma setTierSettings_then_get_witness :
  getTierSettings
    (put_tierSettings
       {| tier_type := "hours"; green := 1; yellow := 8; red := 40 |}
       {| settings := Examples.settings 20 "replace";
          stored_tierSettings := None |})
  = {| tier_type := "hours"; green := 1; yellow := 8; red := 40 |}.
Proof.
  destruct (setTierSettings_then_get true
              (Object {| prop_type := VStr "hours"; prop_green := VNum 1;
                         prop_yellow := VNum 8; prop_red := VNum 40 |})
              {| settings := Examples.settings 20 "replace";
                 stored_tierSettings := None |} _ true eq_refl)
    as (o & ts & E & T & _ & G & _ & Y & _ & R & _ & Get & _).
  injection E as <-. cbn in T, G, Y, R.
  destruct ts as [t g y r]. cbn in *.
  injection T as <-. injection G as <-. injection Y as <-. injection R as <-.
  exact Get.
Defined.

End StorageFacts.

(** ** The popup *)

Section PopupFacts.

Import Str Converter Controller Storage Messages Popup.

Lemma validateWage_valid (value_ : string) :
  valid (validateWage value_) = true ->
  (0 <? parseFloat value_)%float = true /\
  (parseFloat value_ <=? 10000)%float = true.
Proof.
  unfold validateWage, isNaN.
  destruct (is_nan (parseFloat value_)) eqn:N; cbn [orb]; [discriminate|].
  destruct (parseFloat value_ <=? 0)%float eqn:L; [discriminate|].
  destruct (10000 <? parseFloat value_)%float eqn:U; [discriminate|].
  intros _. split.
  - apply not_le_zero_iff; auto.
  - apply not_lt_le_float; auto.
Qed.

Lemma stored_positive_wage (w : float) (a : area) :
  (0 <? w)%float = true -> getHourlyWage (put_hourlyWage w a) = w.
Proof.
  intros H. unfold getHourlyWage, Controller.getHourlyWage, isNaN.
  cbn [put_hourlyWage settings stored_hourlyWage].
  apply not_le_zero_iff in H. destruct H as [N L]. rewrite N. cbn [orb].
  assert (E : (w =? 0)%float = false) by float_order.
  rewrite E. reflexivity.
Qed.

(** What [handleSave] does with the text of the wage field: nothing is
    stored and nothing is sent, or the wage [w] is stored and the message
    for it is sent unless the browser fails to send it. *)
Lemma handleSave_cases (b : browser) (p : popup) :
  let w := parseFloat (trim (wageInput_value (wage_ui p))) in
  (local (handleSave b p) = local p /\ sent (handleSave b p) = sent p) \/
  (valid (validateWage (trim (wageInput_value (wage_ui p)))) = true /\
   local (handleSave b p) = put_hourlyWage w (local p) /\
   (sent (handleSave b p) = sent p \/
    sent (handleSave b p) = (sent p ++ [setWage_message w])%list)).
Proof.
  intros w. unfold handleSave. fold w.
  destruct (valid (validateWage (trim (wageInput_value (wage_ui p))))) eqn:V;
    cbn [negb]; [|left; split; reflexivity].
  unfold setHourlyWage, sendMessage, showSuccess, updateCurrentWageDisplay.
  destruct (writable b); cbn [local_set];
    [|left; split; reflexivity].
  right. split; [reflexivity|].
  destruct (connected b), (0 <? w)%float; cbn; auto.
Qed.

(** X9: [handleSave] stores a wage only if the text of the field parses to a
    number above 0 and at most 10000; it stores exactly that number, which
    [getHourlyWage] then reads back, and sends it to the service worker.  In
    every other case the storage is as before and nothing is sent. *)
Theorem handleSave_stores_valid_wage (b : browser) (p : popup) :
  let w := parseFloat (trim (wageInput_value (wage_ui p))) in
  ((local (handleSave b p) = local p /\ sent (handleSave b p) = sent p) \/
   ((0 <? w)%float = true /\ (w <=? 10000)%float = true /\
    local (handleSave b p) = put_hourlyWage w (local p) /\
    getHourlyWage (local (handleSave b p)) = w /\
    (sent (handleSave b p) = sent p \/
     sent (handleSave b p) = (sent p ++ [setWage_message w])%list))) /\
  ((0 <? w)%float = true -> (w <=? 10000)%float = true ->
   writable b = true ->
   local (handleSave b p) = put_hourlyWage w (local p) /\
   (connected b = true ->
    sent (handleSave b p) = (sent p ++ [setWage_message w])%list)).
Proof.
  intros w. split.
  - destruct (handleSave_cases b p) as [H|(V & L & S)]; [left; exact H|].
    right. apply validateWage_valid in V. destruct V as [V1 V2].
    split; [exact V1|]. split; [exact V2|]. split; [exact L|].
    split; [|exact S]. rewrite L. apply stored_positive_wage. exact V1.
  - intros P U W. unfold handleSave. fold w.
    assert (V : valid (validateWage (trim (wageInput_value (wage_ui p))))
                = true).
    { unfold validateWage. fold w. unfold isNaN.
      apply not_le_zero_iff in P. destruct P as [-> ->]. cbn [orb].
      rewrite (le_not_lt_float _ _ U). reflexivity. }
    rewrite V. cbn [negb].
    unfold setHourlyWage, sendMessage, showSuccess, updateCurrentWageDisplay.
    rewrite W. cbn [local_set]. split.
    + destruct (connected b), (0 <? w)%float; reflexivity.
    + intros ->. destruct (0 <? w)%float; reflexivity.
Qed.

Lemma or_else_number (x d : float) :
  is_nan d = false -> is_nan (or_else x d) = false.
Proof.
  intros D. unfold or_else, isNaN.
  destruct (is_nan x) eqn:N; cbn [orb]; [exact D|].
  destruct (x =? 0)%float; [exact D|exact N].
Qed.

Lemma saveTierSettings_cases (b : browser) (p : popup) :
  let f := tier_ui p in
  let ts :=
    {| tier_type := if tierTypeMoney_checked f then "money" else "hours";
       green := or_else (parseFloat (tierGreenInput_value f)) 0;
       yellow := or_else (parseFloat (tierYellowInput_value f)) 50;
       red := or_else (parseFloat (tierRedInput_value f)) 100 |} in
  (local (saveTierSettings b p) = local p /\
   sent (saveTierSettings b p) = sent p) \/
  ((yellow ts <? green ts)%float = false /\
   (red ts <? yellow ts)%float = false /\
   local (saveTierSettings b p) = put_tierSettings ts (local p) /\
   (sent (saveTierSettings b p) = sent p \/
    sent (saveTierSettings b p)
    = (sent p ++ [setTierSettings_message ts])%list)).
Proof.
  intros f ts. unfold saveTierSettings. fold f.
  change (or_else (parseFloat (tierGreenInput_value f)) 0) with (green ts).
  change (or_else (parseFloat (tierYellowInput_value f)) 50) with (yellow ts).
  change (or_else (parseFloat (tierRedInput_value f)) 100) with (red ts).
  destruct (yellow ts <? green ts)%float eqn:Y; [left; split; reflexivity|].
  destruct (red ts <? yellow ts)%float eqn:R; [left; split; reflexivity|].
  unfold setTierSettings, sendMessage, show_tier_success.
  destruct (writable b); cbn [local_set]; [|left; split; reflexivity].
  right. split; [reflexivity|]. split; [reflexivity|].
  destruct (connected b); split; try reflexivity; [right|left]; reflexivity.
Qed.

(** X10: [saveTierSettings] stores tier settings only with thresholds that
    are numbers in the order [green <= yellow <= red], none of them NaN and
    neither [yellow] nor [red] zero (an empty, unreadable or zero field
    counts as 0, 50 and 100); with thresholds out of order nothing is stored
    and nothing is sent. *)
Theorem saveTierSettings_stores_ordered (b : browser) (p : popup) :
  (local (saveTierSettings b p) = local p /\
   sent (saveTierSettings b p) = sent p) \/
  exists ts,
    green ts = or_else (parseFloat (tierGreenInput_value (tier_ui p))) 0 /\
    yellow ts = or_else (parseFloat (tierYellowInput_value (tier_ui p))) 50 /\
    red ts = or_else (parseFloat (tierRedInput_value (tier_ui p))) 100 /\
    local (saveTierSettings b p) = put_tierSettings ts (local p) /\
    getTierSettings (local (saveTierSettings b p)) = ts /\
    (tier_type ts = "money" \/ tier_type ts = "hours") /\
    (green ts <=? yellow ts)%float = true /\
    (yellow ts <=? red ts)%float = true /\
    (yellow ts =? 0)%float = false /\ (red ts =? 0)%float = false /\
    (sent (saveTierSettings b p) = sent p \/
     sent (saveTierSettings b p)
     = (sent p ++ [setTierSettings_message ts])%list).
Proof.
  destruct (saveTierSettings_cases b p) as [H|(Y & R & L & S)];
    [left; exact H|].
  right.
  match type of L with _ = put_tierSettings ?t _ => exists t end.
  split; [reflexivity|]. split; [reflexivity|]. split; [reflexivity|].
  split; [exact L|]. split; [rewrite L; reflexivity|].
  cbn [tier_type green yellow red] in *.
  set (g := or_else (parseFloat (tierGreenInput_value (tier_ui p))) 0) in *.
  set (y := or_else (parseFloat (tierYellowInput_value (tier_ui p))) 50) in *.
  set (r := or_else (parseFloat (tierRedInput_value (tier_ui p))) 100) in *.
  assert (Ng : is_nan g = false) by (apply or_else_number; reflexivity).
  assert (Ny : is_nan y = false) by (apply or_else_number; reflexivity).
  assert (Nr : is_nan r = false) by (apply or_else_number; reflexivity).
  split; [destruct (tierTypeMoney_checked (tier_ui p)); auto|].
  split; [apply not_lt_le_float; assumption|].
  split; [apply not_lt_le_float; assumption|].
  split; [|split; [|exact S]].
  - subst y. unfold or_else, isNaN.
    destruct (is_nan (parseFloat _)); cbn [orb]; [reflexivity|].
    destruct (parseFloat _ =? 0)%float eqn:E; [reflexivity|exact E].
  - subst r. unfold or_else, isNaN.
    destruct (is_nan (parseFloat _)); cbn [orb]; [reflexivity|].
    destruct (parseFloat _ =? 0)%float eqn:E; [reflexivity|exact E].
Qed.

(** X10 at work: with the fields "5", "" and "0" the thresholds stored are
    5, 50 and 100. *)
Lemma saveTierSettings_defaults :
  local (saveTierSettings Scenarios.online
           (Scenarios.popup_with "" "5" "" "0"))
  = put_tierSettings
      {| tier_type := "money"; green := 5; yellow := 50; red := 100 |}
      Scenarios.empty_area.
Proof. vm_compute. reflexivity. Qed.

End PopupFacts.

(** ** The service worker *)

Section ServiceWorkerFacts.

Import Converter Controller Storage Messages ServiceWorker Invariants.

Lemma onMessage_keeps_valid (writable : bool) (r : request) (b : browser) :
  valid_area (local b) -> valid_area (local (after (onMessage writable r b))).
Proof.
  intros V. unfold onMessage.
  destruct (has_action "getWage" r); [exact V|].
  destruct (has_action "setWage" r).
  { destruct (wage r) as [| | |w|]; try exact V.
    unfold isNaN. destruct (is_nan w) eqn:N; cbn [orb]; [exact V|].
    destruct (w <? 0)%float eqn:L; [exact V|].
    cbn [after]. unfold local_set. destruct writable; [|exact V].
    destruct V as [V1 V2]. split; [|exact V2].
    unfold valid_wage. cbn. apply not_lt_zero_iff; auto. }
  destruct (has_action "getPrices" r).
  { destruct (active_tab b); exact V. }
  destruct (has_action "setDisplayMode" r).
  { destruct (mode r) as [| | | |m]; try exact V.
    destruct (negb (m =? "side-by-side")%string && negb (m =? "replace")%string)
      eqn:M; [exact V|].
    cbn [after]. unfold local_set. destruct writable; [|exact V].
    destruct V as [V1 V2]. split; [exact V1|].
    unfold valid_mode. cbn.
    apply andb_false_iff in M.
    destruct M as [M|M]; apply negb_false_iff, String.eqb_eq in M; auto. }
  destruct (has_action "setShowHours" r).
  { cbn [after]. unfold local_set. destruct writable; exact V. }
  destruct (has_action "reprocessAll" r); exact V.
Qed.

(** X11: the service worker keeps the stored settings valid: whatever
    requests it receives, and whether the browser accepts each write or not,
    a stored wage stays a number that is not negative and a stored display
    mode stays "side-by-side" or "replace"; so the pages read a wage that is
    not negative and one of the two modes. *)
Theorem serve_keeps_valid (requests : list (bool * request)) (b : browser) :
  valid_area (local b) ->
  valid_area (local (serve requests b)) /\
  (0 <=? getHourlyWage (local (serve requests b)))%float = true /\
  (getDisplayMode (settings (local (serve requests b))) = "side-by-side" \/
   getDisplayMode (settings (local (serve requests b))) = "replace").
Proof.
  intros V.
  assert (V' : valid_area (local (serve requests b))).
  { unfold serve.
    apply (fold_left_invariant (fun b => valid_area (local b))); [|exact V].
    intros b' [w r] Hb. apply onMessage_keeps_valid. exact Hb. }
  split; [exact V'|]. destruct V' as [V1 V2].
  unfold valid_wage in V1. unfold valid_mode in V2.
  unfold getHourlyWage, Controller.getHourlyWage, getDisplayMode. split.
  - destruct (stored_hourlyWage _) as [w|]; [|reflexivity].
    destruct (isNaN w || (w =? 0)%float); [reflexivity|exact V1].
  - destruct (stored_displayMode _) as [m|]; [|left; reflexivity].
    destruct V2 as [-> | ->]; cbn; auto.
Qed.

Lemma app_one_inv {A} (l : list A) (x y : A) :
  (l ++ [x] = l ++ [y])%list -> x = y.
Proof. intros H. apply app_inv_head in H. injection H as H. exact H. Qed.

Lemma app_one_not_nil {A} (l : list A) (x : A) : l <> (l ++ [x])%list.
Proof.
  intros H. apply (f_equal (@List.length A)) in H.
  rewrite length_app in H. simpl in H. lia.
Qed.

(** X12: the service worker accepts the wage the popup sends: the message
    that [handleSave] hands to [chrome.runtime.sendMessage] passes the
    validation of the worker, which answers with success, stores the same
    wage and tells every tab to reprocess. *)
Theorem worker_accepts_popup_wage (pb : Popup.browser) (p : Popup.popup)
  (r : request) (writable : bool) (b : browser) :
  Popup.sent (Popup.handleSave pb p) = (Popup.sent p ++ [r])%list ->
  let w := parseFloat (Str.trim (Popup.wageInput_value (Popup.wage_ui p))) in
  r = setWage_message w /\
  answer (onMessage writable r b) = Some Success /\
  after (onMessage writable r b) = local_set writable (put_hourlyWage w) b /\
  notified (onMessage writable r b) = notify_all reprocess_message 50 b.
Proof.
  intros H w.
  destruct (handleSave_cases pb p) as [[_ S]|(V & _ & [S|S])].
  - rewrite S in H. exfalso. exact (app_one_not_nil _ _ H).
  - rewrite S in H. exfalso. exact (app_one_not_nil _ _ H).
  - rewrite S in H. apply app_one_inv in H. subst r. fold w.
    split; [reflexivity|].
    apply validateWage_valid in V. fold w in V. destruct V as [V _].
    apply not_le_zero_iff in V. destruct V as [N L].
    assert (L0 : (w <? 0)%float = false) by float_order.
    unfold onMessage.
    change (has_action "getWage" (setWage_message w)) with false.
    change (has_action "setWage" (setWage_message w)) with true.
    cbn [wage setWage_message]. unfold isNaN. rewrite N, L0. cbn [orb].
    repeat split.
Qed.

End ServiceWorkerFacts.

Lemma serve_keeps_valid_witness :
  (0 <=? Storage.getHourlyWage
           (ServiceWorker.local
              (Invariants.serve
                 [(true, Messages.setWage_message 25);
                  (true, Messages.setWage_message (-3));
                  (false, Messages.setDisplayMode_message "replace");
                  (true, Messages.setDisplayMode_message "sideways")]
                 Scenarios.worker)))%float = true.
Proof.
  apply (serve_keeps_valid
           [(true, Messages.setWage_message 25);
            (true, Messages.setWage_message (-3));
            (false, Messages.setDisplayMode_message "replace");
            (true, Messages.setDisplayMode_message "sideways")]
           Scenarios.worker).
  split; exact I.
Defined.

Lemma worker_accepts_popup_wage_witness :
  ServiceWorker.answer
    (ServiceWorker.onMessage true (Messages.setWage_message 25)
       Scenarios.worker)
  = Some ServiceWorker.Success.
Proof.
  apply (worker_accepts_popup_wage Scenarios.online
           (Scenarios.popup_with " 25 " "" "" "")
           (Messages.setWage_message 25) true Scenarios.worker).
  vm_compute. reflexivity.
Defined.


(** ** The content script *)

Section ContentScriptFacts.

Import Str Regex Dom Detector Converter Controller ContentScript.

Variable getComputedStyle : node -> nat -> string -> string.
Variable innerText : path -> string.

(** *** What a pass keeps of the state *)

Lemma same_lists_refl (st : state) : same_lists st st.
Proof. split; reflexivity. Qed.

Lemma same_lists_trans (a b c : state) :
  same_lists a b -> same_lists b c -> same_lists a c.
Proof. intros [H1 H2] [H3 H4]. split; congruence. Qed.

Lemma forEach_same_lists {A} (f : state -> A -> nat -> completion state)
  (l : list A) :
  (forall st a i st', f st a i = Normal st' -> same_lists st st') ->
  forall i st st', forEach f l i st = Normal st' -> same_lists st st'.
Proof.
  intros step. induction l as [|a l IH]; intros i st st'; simpl.
  - intros H. injection H as <-. apply same_lists_refl.
  - destruct (f st a i) as [st1|] eqn:F; [|discriminate]. simpl.
    intros H. apply (same_lists_trans _ st1).
    + exact (step _ _ _ _ F).
    + exact (IH _ _ _ H).
Qed.

Ltac split_matches :=
  repeat match goal with
         | |- context [match ?c with _ => _ end] => destruct c eqn:?
         end.

Lemma inject_one_same_lists (st : state) (c : PriceCandidate) (i : nat)
  (st' : state) :
  inject_one getComputedStyle st c i = Normal st' -> same_lists st st'.
Proof.
  unfold inject_one, findExistingBadge, body_contains, bind, ret.
  split_matches; intros H; try discriminate; injection H as <-;
    split; reflexivity.
Qed.

Lemma replacePriceWithHours_same_lists (x : nat) (h : string) (st : state) :
  same_lists st (replacePriceWithHours getComputedStyle x h st).
Proof.
  unfold replacePriceWithHours, storeOriginalPrice.
  split_matches; split; reflexivity.
Qed.

Lemma replace_one_same_lists (st : state) (c : PriceCandidate) (i : nat)
  (st' : state) :
  replace_one getComputedStyle st c i = Normal st' -> same_lists st st'.
Proof.
  unfold replace_one, body_contains, bind, ret.
  split_matches; intros H; try discriminate; injection H as <-;
    try apply same_lists_refl; apply replacePriceWithHours_same_lists.
Qed.

Lemma restore_one_same_lists (st : state) (entry : nat * snapshot) :
  same_lists st (restore_one st entry).
Proof.
  unfold restore_one, restoreOriginalPrice.
  split_matches; split; reflexivity.
Qed.

Lemma removeBadges_same_lists (st : state) : same_lists st (removeBadges st).
Proof.
  unfold removeBadges.
  set (st1 := with_injectedBadges [] _).
  assert (G : forall l s, same_lists s (fold_left restore_one l s)).
  { induction l as [|entry l IH]; intros s; simpl; [apply same_lists_refl|].
    apply (same_lists_trans _ (restore_one s entry));
      [apply restore_one_same_lists|apply IH]. }
  destruct (G (replacedPrices st1) st1) as [H1 H2].
  split; cbn [detectedPrices conversions with_replacedPrices];
    [rewrite H1|rewrite H2]; reflexivity.
Qed.

Lemma injectBadges_same_lists (settings : storage) (st st' : state) :
  injectBadges getComputedStyle settings st = Normal st' -> same_lists st st'.
Proof.
  unfold injectBadges.
  set (st1 := with_showHours (getShowHours settings) st).
  assert (S1 : same_lists st st1) by (split; reflexivity).
  pose proof (removeBadges_same_lists st1) as S2.
  destruct (negb (showHours st1)).
  - intros H. injection H as <-. exact (same_lists_trans _ _ _ S1 S2).
  - set (st3 := with_displayMode _ (removeBadges st1)).
    assert (S3 : same_lists st st3).
    { apply (same_lists_trans _ _ _ S1).
      apply (same_lists_trans _ _ _ S2). split; reflexivity. }
    destruct (String.eqb (displayMode st3) "replace").
    + unfold injectBadgesReplace. intros H.
      apply (same_lists_trans _ _ _ S3).
      exact (forEach_same_lists _ _ replace_one_same_lists _ _ _ H).
    + unfold injectBadgesSideBySide. intros H.
      apply (same_lists_trans _ _ _ S3).
      exact (forEach_same_lists _ _ inject_one_same_lists _ _ _ H).
Qed.

(** *** The conversions reported for the candidates *)

Lemma detectPrices_all_positive (doc : node) (l : list PriceCandidate) :
  detectPrices innerText doc = Normal l -> Forall positive_price l.
Proof.
  unfold detectPrices. intros H.
  destruct (body_of doc) as [[|[b kids] up]|]; try discriminate.
  injection H as <-.
  apply uniquePrices_positive.
  apply (fold_left_invariant all_positive).
  - intros st [text parent] Hst. unfold scan_text.
    destruct (isTimeValue text); [exact Hst|].
    apply (fold_left_invariant all_positive); [|exact Hst].
    intros st' m Hst'. apply climb_positive. exact Hst'.
  - apply (fold_left_invariant all_positive (scan_selector innerText doc)
             PRICE_SELECTORS).
    + intros st sel Hst. unfold scan_selector.
      apply (fold_left_invariant all_positive); [|exact Hst].
      intros st' p Hst'. apply scan_element_positive. exact Hst'.
    + constructor.
Qed.

Lemma calculateHours_positive (p w : float) :
  (0 <? p)%float = true -> (0 <? w)%float = true ->
  calculateHours (VNum p) (VNum w) = Some (p / w)%float.
Proof.
  intros Hp Hw. unfold calculateHours, isNaN.
  apply not_le_zero_iff in Hp, Hw. destruct Hp as [Np Lp], Hw as [-> ->].
  rewrite Np. cbn [orb].
  assert (L : (p <? 0)%float = false) by float_order.
  rewrite L. reflexivity.
Qed.

Lemma with_conversions_map (F : PriceCandidate -> ConversionResult)
  (prices : list PriceCandidate) :
  forall pre : list ConversionResult,
    with_conversions (List.length pre) prices (pre ++ map F prices)%list
    = map (fun c => {| priceObj := c; conversion := Some (F c) |}) prices.
Proof.
  induction prices as [|c l IH]; intros pre; simpl; [reflexivity|].
  rewrite nth_error_app2, Nat.sub_diag by lia. simpl. f_equal.
  specialize (IH (pre ++ [F c])%list).
  rewrite length_app, Nat.add_1_r, <- app_assoc in IH. exact IH.
Qed.

(** X13: after a pass of [processPage] with a wage above zero,
    [getDetectedPrices] reports every detected candidate with a conversion
    (never [null]) whose hours are the price of the candidate divided by the
    wage, formatted by [formatHours]. *)
Theorem processPage_reports_hours (settings : storage) (st st' : state) :
  isActive st = true ->
  (0 <? getHourlyWage settings)%float = true ->
  processPage getComputedStyle innerText settings st = Normal st' ->
  getDetectedPrices st' =
  map (fun c =>
         {| priceObj := c;
            conversion :=
              Some {| cr_price := price c;
                      cr_hours := Some (price c / getHourlyWage settings)%float;
                      cr_formatted :=
                        formatHours
                          (Some (price c / getHourlyWage settings)%float) |} |})
      (detectedPrices st').
Proof.
  intros A W. unfold processPage. rewrite A. cbn [negb].
  pose proof W as W'. apply not_le_zero_iff in W'. destruct W' as [_ ->].
  destruct (detectPrices innerText (document st)) as [detected|] eqn:D;
    cbn [bind]; [|discriminate].
  apply detectPrices_all_positive in D.
  destruct detected as [|c detected].
  - intros H. injection H as <-. reflexivity.
  - set (l := c :: detected) in *. intros H.
    apply injectBadges_same_lists in H. destruct H as [H1 H2].
    unfold getDetectedPrices. rewrite H1, H2.
    cbn [detectedPrices conversions with_document with_detected].
    unfold convertPricesToHours. rewrite map_map.
    rewrite <- (with_conversions_map
                  (fun c =>
                     {| cr_price := price c;
                        cr_hours :=
                          Some (price c / getHourlyWage settings)%float;
                        cr_formatted :=
                          formatHours
                            (Some (price c / getHourlyWage settings)%float) |})
                  l []).
    cbn [List.length app]. f_equal.
    apply map_ext_in. intros d Hd.
    rewrite Forall_forall in D. specialize (D d Hd). unfold positive_price in D.
    rewrite (calculateHours_positive _ _ D W). reflexivity.
Qed.

(** *** Deactivation *)

Lemma Normal_inj {A} (a b : A) : Normal a = Normal b -> a = b.
Proof. intros H. injection H as H. exact H. Qed.

(** The element found at [x] in a list of paths. *)
Lemma find_has_id_app (x : nat) (l1 l2 : list path) :
  find (has_id x) (l1 ++ l2)%list =
  match find (has_id x) l1 with
  | Some p => Some p
  | None => find (has_id x) l2
  end.
Proof. apply find_append. Qed.

Lemma find_has_id_head (x : nat) (l : list path) (p : path) :
  find (has_id x) l = Some p -> exists e k up, p = (e, k) :: up /\ eid e = x.
Proof.
  intros H. apply find_some in H. destruct H as [_ H].
  destruct p as [|[e k] up]; [discriminate|].
  exists e, k, up. split; [reflexivity|]. apply Nat.eqb_eq. exact H.
Qed.

Section UpdateElement.

Variables (y : nat) (g : Element -> Element).
Hypothesis g_keeps_id : forall e, eid (g e) = eid e.

Lemma update_element_found (x : nat) (n : node) :
  forall up up',
    match find (has_id x) (elements_of up' (update_element y g n)) with
    | Some ((e', _) :: _) =>
        exists e k rest,
          find (has_id x) (elements_of up n) = Some ((e, k) :: rest) /\
          e' = (if Nat.eqb x y then g e else e)
    | Some [] => False
    | None => find (has_id x) (elements_of up n) = None
    end.
Proof.
  unfold update_element.
  induction n as [s|e children IH] using node_induction; intros up up';
    [reflexivity|].
  cbn [update elements_of].
  destruct (Nat.eqb_spec (eid e) y) as [Ey|Ey].
  - cbn [fst snd elements_of find has_id].
    rewrite g_keeps_id.
    destruct (Nat.eqb_spec (eid e) x) as [Ex|Ex].
    + exists e, children, up. split; [reflexivity|].
      replace (Nat.eqb x y) with true; [reflexivity|].
      symmetry. apply Nat.eqb_eq. congruence.
    + generalize ((g e, map (update y (fun fr => (g (fst fr), snd fr)))
                              children) :: up')
                 ((e, children) :: up).
      intros q' q. clear Ex Ey.
      induction IH as [|c l Hc Hl IHl]; cbn [map flat_map]; [reflexivity|].
      rewrite !find_has_id_app. specialize (Hc q q').
      destruct (find (has_id x) (elements_of q' (update y _ c)))
        as [[|[e' k'] r']|]; [contradiction| |].
      * destruct Hc as (e0 & k0 & rest & F & E). rewrite F. eauto.
      * rewrite Hc. exact IHl.
  - cbn [elements_of find has_id].
    destruct (Nat.eqb_spec (eid e) x) as [Ex|Ex].
    + exists e, children, up. split; [reflexivity|].
      replace (Nat.eqb x y) with false; [reflexivity|].
      symmetry. apply Nat.eqb_neq. congruence.
    + generalize ((e, map (update y (fun fr => (g (fst fr), snd fr)))
                            children) :: up')
                 ((e, children) :: up).
      intros q' q. clear Ex Ey.
      induction IH as [|c l Hc Hl IHl]; cbn [map flat_map]; [reflexivity|].
      rewrite !find_has_id_app. specialize (Hc q q').
      destruct (find (has_id x) (elements_of q' (update y _ c)))
        as [[|[e' k'] r']|]; [contradiction| |].
      * destruct Hc as (e0 & k0 & rest & F & E). rewrite F. eauto.
      * rewrite Hc. exact IHl.
Qed.

(** The element at [x] after an update of the element [y]. *)
Lemma element_at_update_element (x : nat) (doc : node) :
  element_at (update_element y g doc) x =
  if Nat.eqb x y then option_map g (element_at doc x) else element_at doc x.
Proof.
  unfold element_at, locate.
  pose proof (update_element_found x doc [] []) as H.
  destruct (find (has_id x) (elements_of [] (update_element y g doc)))
    as [[|[e' k'] r']|]; [contradiction| |].
  - destruct H as (e & k & rest & -> & ->).
    destruct (Nat.eqb x y); reflexivity.
  - rewrite H. destruct (Nat.eqb x y); reflexivity.
Qed.

End UpdateElement.

Lemma getAttribute_removeAttribute (a b : string) (e : Element) :
  getAttribute (removeAttribute a e) b =
  if String.eqb b a then None else getAttribute e b.
Proof.
  unfold getAttribute, removeAttribute. cbn [attrs].
  destruct (String.eqb_spec b a) as [->|N].
  - apply assoc_remove_same.
  - apply assoc_remove_other. exact N.
Qed.

Lemma clear_element_marks (e : Element) (a : string) :
  In a ["data-price-detected"; "data-price-value"; "data-price-index";
        "data-hours-value"; "data-hours-formatted"] ->
  getAttribute (clear_element e) a = None.
Proof.
  unfold clear_element. rewrite !getAttribute_removeAttribute.
  intros [<-|[<-|[<-|[<-|[<-|[]]]]]]; reflexivity.
Qed.

Lemma clear_element_again (e : Element) (a : string) :
  getAttribute e a = None -> getAttribute (clear_element e) a = None.
Proof.
  intros H. unfold clear_element. rewrite !getAttribute_removeAttribute, H.
  repeat match goal with
         | |- context [if ?c then _ else _] => destruct c
         end; reflexivity.
Qed.

Lemma clear_marks_cleared (l : list PriceCandidate) (x : nat) (a : string) :
  In a ["data-price-detected"; "data-price-value"; "data-price-index";
        "data-hours-value"; "data-hours-formatted"] ->
  forall doc,
    (In x (map element l) \/
     forall e, element_at doc x = Some e -> getAttribute e a = None) ->
    forall e, element_at (clear_marks l doc) x = Some e ->
              getAttribute e a = None.
Proof.
  intros Ha. unfold clear_marks.
  induction l as [|c l IH]; intros doc H; cbn [fold_left map].
  - destruct H as [[]|H]. exact H.
  - apply IH.
    destruct (Nat.eqb_spec x (element c)) as [E|E].
    + right. intros e.
      rewrite element_at_update_element by reflexivity.
      rewrite E, Nat.eqb_refl.
      destruct (element_at doc (element c)) as [e0|]; [|discriminate].
      intros G. injection G as <-. apply clear_element_marks. exact Ha.
    + destruct H as [[H|H]|H]; [congruence|left; exact H|].
      right. intros e.
      rewrite element_at_update_element by reflexivity.
      apply Nat.eqb_neq in E. rewrite E. apply H.
Qed.

Lemma className_removeAttribute (name : string) (e : Element) :
  name <> "class" -> className (removeAttribute name e) = className e.
Proof.
  intros N. unfold className, attr_or_empty.
  rewrite getAttribute_removeAttribute.
  destruct (String.eqb_spec "class" name) as [E|_]; [congruence|reflexivity].
Qed.

Lemma is_badge_clear_element (e : Element) :
  is_badge (clear_element e) = is_badge e.
Proof.
  unfold is_badge, classList_contains, clear_element.
  rewrite !className_removeAttribute by discriminate. reflexivity.
Qed.

Lemma count_badges_count_where (doc : node) :
  count_badges doc = count_where is_badge doc.
Proof. unfold count_badges, badge_ids, count_where. apply length_map. Qed.

Lemma clear_marks_badges (l : list PriceCandidate) (doc : node) :
  (count_badges (clear_marks l doc) <= count_badges doc)%nat.
Proof.
  unfold clear_marks. revert doc.
  induction l as [|c l IH]; intros doc; cbn [fold_left]; [lia|].
  etransitivity; [apply IH|].
  rewrite !count_badges_count_where.
  apply (same_or_fewer_update_element (element c) clear_element doc).
  - reflexivity.
  - apply is_badge_clear_element.
  - intros e e' _ B. exact B.
Qed.

Lemma restore_one_keeps_state (st : state) (entry : nat * snapshot) :
  injectedBadges (restore_one st entry) = injectedBadges st /\
  isActive (restore_one st entry) = isActive st.
Proof.
  unfold restore_one, restoreOriginalPrice.
  split_matches; split; reflexivity.
Qed.

Lemma removeBadges_clears (st : state) :
  injectedBadges (removeBadges st) = [] /\
  replacedPrices (removeBadges st) = [] /\
  isActive (removeBadges st) = isActive st.
Proof.
  unfold removeBadges.
  set (st1 := with_injectedBadges [] _).
  assert (G : forall l s,
             injectedBadges (fold_left restore_one l s) = injectedBadges s /\
             isActive (fold_left restore_one l s) = isActive s).
  { induction l as [|entry l IH]; intros s; simpl; [split; reflexivity|].
    destruct (IH (restore_one s entry)) as [H1 H2].
    destruct (restore_one_keeps_state s entry) as [H3 H4].
    split; congruence. }
  destruct (G (replacedPrices st1) st1) as [H1 H2].
  cbn [injectedBadges replacedPrices isActive with_replacedPrices].
  rewrite H1, H2. repeat split.
Qed.

(** X14: deactivating the extension with [setActive] undoes the
    presentation: the extension is inactive, it has no candidates,
    conversions, tracked badges or replaced prices left and reports no
    prices; every element that was a candidate has lost the five data
    attributes; when no price was replaced, no badge is left in the
    document; and a later [processPage] changes nothing. *)
Theorem setActive_false_cleans (active : value) (settings : storage)
  (st st' : state) :
  truthy active = false ->
  setActive getComputedStyle innerText active settings st = Normal st' ->
  isActive st' = false /\ detectedPrices st' = [] /\ conversions st' = [] /\
  injectedBadges st' = [] /\ replacedPrices st' = [] /\
  getDetectedPrices st' = [] /\
  (forall c e a,
      In c (detectedPrices st) ->
      element_at (document st') (element c) = Some e ->
      In a ["data-price-detected"; "data-price-value"; "data-price-index";
            "data-hours-value"; "data-hours-formatted"] ->
      getAttribute e a = None) /\
  (replacedPrices st = [] -> count_badges (document st') = 0%nat) /\
  processPage getComputedStyle innerText settings st' = Normal st'.
Proof.
  intros T. unfold setActive. rewrite T. cbv beta zeta iota.
  intros H. apply Normal_inj in H. subst st'.
  set (st0 := with_isActive false st).
  destruct (removeBadges_clears st0) as (B1 & B2 & B3).
  destruct (removeBadges_same_lists st0) as [L1 _].
  assert (Z : replacedPrices st = [] ->
              count_badges (document (removeBadges st0)) = 0%nat).
  { intros R. unfold removeBadges.
    cbn [replacedPrices with_document with_injectedBadges].
    change (replacedPrices st0) with (replacedPrices st). rewrite R.
    cbn [fold_left document with_replacedPrices with_document
         with_injectedBadges].
    unfold count_badges. rewrite remove_badge_elements_none. reflexivity. }
  change (detectedPrices st0) with (detectedPrices st) in L1.
  change (isActive st0) with false in B3.
  set (st1 := removeBadges st0) in *. clearbody st1. clear st0.
  cbn [isActive detectedPrices conversions injectedBadges replacedPrices
       with_detected with_document document].
  repeat apply conj; try reflexivity; try assumption.
  - intros c e a Hc He Ha. rewrite L1 in He.
    apply (clear_marks_cleared (detectedPrices st) (element c) a Ha
             (document st1)); [|exact He].
    left. apply in_map. exact Hc.
  - intros R.
    pose proof (clear_marks_badges (detectedPrices st1) (document st1)) as Le.
    specialize (Z R). lia.
  - unfold processPage.
    cbn [isActive with_detected with_document]. rewrite B3. reflexivity.
Qed.

End ContentScriptFacts.

Lemma processPage_reports_hours_witness :
  exists st',
    Controller.processPage Examples.no_style Examples.no_innerText
      (Examples.settings 20 "side-by-side")
      (Examples.start Examples.one_price 4) = Normal st' /\
    ContentScript.getDetectedPrices st' =
    [ {| ContentScript.priceObj :=
           {| Detector.element := 3%nat; Detector.price := 40;
              Detector.originalText := "$40" |};
         ContentScript.conversion :=
           Some {| Converter.cr_price := 40;
                   Converter.cr_hours := Some 2%float;
                   Converter.cr_formatted := "2h" |} |} ].
Proof.
  eexists. split; [vm_compute; reflexivity|].
  rewrite (processPage_reports_hours Examples.no_style Examples.no_innerText
             (Examples.settings 20 "side-by-side")
             (Examples.start Examples.one_price 4) _
             eq_refl eq_refl ltac:(vm_compute; reflexivity)).
  vm_compute. reflexivity.
Defined.

(** ** The mutation observer and the badges *)

Section ObserverFacts.

Import Str Regex Dom Detector Converter Controller ContentScript Properties.

Lemma no_currency_app (a b : string) :
  no_currency (a ++ b) = no_currency a && no_currency b.
Proof.
  induction a as [|c a IH]; simpl; [reflexivity|].
  rewrite IH, andb_assoc. reflexivity.
Qed.

Lemma no_currency_substring (n m : nat) (s : string) :
  no_currency s = true -> no_currency (substring n m s) = true.
Proof.
  revert n m. induction s as [|c s IH]; intros n m H.
  - destruct n, m; reflexivity.
  - simpl in H. apply andb_prop in H. destruct H as [Hc Hs].
    destruct n as [|n]; simpl.
    + destruct m as [|m]; [reflexivity|]. simpl.
      rewrite Hc, (IH 0%nat m Hs). reflexivity.
    + apply IH. exact Hs.
Qed.

Lemma no_currency_zeros (n : nat) : no_currency (zeros n) = true.
Proof. induction n as [|n IH]; [reflexivity|]. simpl. exact IH. Qed.

Lemma no_currency_uint (d : Decimal.uint) :
  no_currency (DecimalString.NilEmpty.string_of_uint d) = true.
Proof. induction d; simpl; try exact IHd; reflexivity. Qed.

Lemma no_currency_string_of_Z (z : Z) : no_currency (string_of_Z z) = true.
Proof.
  unfold string_of_Z, DecimalString.NilZero.string_of_int.
  destruct (Z.to_int z) as [d|d];
    unfold DecimalString.NilZero.string_of_uint.
  - destruct d; try reflexivity; apply no_currency_uint.
  - change (no_currency (String "-" ?s)) with (no_currency s).
    destruct d; try reflexivity; apply no_currency_uint.
Qed.

Lemma no_currency_positive_toString (m : positive) (e : Z) :
  no_currency (positive_toString m e) = true.
Proof.
  unfold positive_toString.
  destruct (shortest m e) as [[s k] n].
  repeat match goal with
         | |- context [if ?c then _ else _] => destruct c
         end;
    rewrite ?no_currency_app, ?no_currency_zeros, ?no_currency_string_of_Z;
    rewrite ?no_currency_substring by apply no_currency_string_of_Z;
    reflexivity.
Qed.

Lemma no_currency_Number_toString (x : float) :
  no_currency (Number_toString x) = true.
Proof.
  unfold Number_toString.
  destruct (Prim2SF x) as [s|s| |s m e]; try reflexivity.
  - destruct s; reflexivity.
  - rewrite no_currency_app, no_currency_positive_toString.
    destruct s; reflexivity.
Qed.

Lemma no_currency_formatHours (hours : option float) :
  no_currency (formatHours hours) = true.
Proof.
  unfold formatHours. destruct hours as [h|]; [|reflexivity].
  repeat match goal with
         | |- context [if ?c then _ else _] => destruct c
         end; try reflexivity;
    rewrite no_currency_app, no_currency_Number_toString; reflexivity.
Qed.

Lemma currency_at_head (s : string) :
  no_currency s = true ->
  strip_class false ["$"; "€"; "£"; "¥"] s = None.
Proof.
  rewrite strip_class_plain.
  destruct s as [|c s]; [reflexivity|].
  simpl no_currency. intros H. apply andb_prop in H. destruct H as [H _].
  unfold no_currency_byte in H. cbn [forallb] in H.
  repeat (apply andb_prop in H; destruct H as [?H H]).
  cbn [strip_any strip_prefix].
  repeat match goal with
         | E : negb (Ascii.eqb ?b c) = true |- _ =>
             apply negb_true_iff in E; rewrite E; clear E
         end.
  reflexivity.
Qed.

Lemma no_currency_no_match (s before : string) :
  no_currency s = true -> search_from currency_digit before s = None.
Proof.
  revert before. induction s as [|c s IH]; intros before H.
  - reflexivity.
  - cbn [search_from].
    assert (M : match_here currency_digit (String c s) = None).
    { unfold match_here, currency_digit.
      cbn [body ignore_case re Seqs run currency].
      rewrite (currency_at_head _ H). reflexivity. }
    rewrite M. apply IH. simpl in H. apply andb_prop in H. tauto.
Qed.

Lemma append_empty (s : string) : s ++ "" = s.
Proof. induction s as [|c s IH]; simpl; [reflexivity|]. rewrite IH. reflexivity. Qed.

Lemma textContent_text_children (e : Element) (s : string) :
  textContent (Elem e (text_children s)) = s.
Proof.
  unfold text_children. destruct (String.eqb_spec s "") as [->|N];
    [reflexivity|].
  simpl. apply append_empty.
Qed.

(** X15: a badge made by [createBadge] for a text of [formatHours] has no
    price indicator for the mutation observer: it has no descendant element
    and its text has no currency symbol.  So mutations that only add such
    badges do not make the observer process the page again. *)
Theorem badge_has_no_price_indicator (getComputedStyle : node -> nat -> string -> string)
  (css : engine) (doc : node) (fresh : nat) (hours : option float)
  (priceElement : nat) (mutations : list (list node)) :
  hasPriceIndicator
    (createBadge getComputedStyle css doc fresh (formatHours hours)
       priceElement)
  = false /\
  (Forall (Forall (fun b => exists css' doc' fresh' hours' x,
                             b = createBadge getComputedStyle css' doc' fresh'
                                   (formatHours hours') x)) mutations ->
   shouldReprocess mutations = false).
Proof.
  assert (One : forall css doc fresh hours priceElement,
            hasPriceIndicator
              (createBadge getComputedStyle css doc fresh (formatHours hours)
                 priceElement) = false).
  { clear. intros css doc fresh hours priceElement.
    unfold createBadge, hasPriceIndicator.
    rewrite textContent_text_children.
    assert (Q : forall e sel,
               querySelector_in [(e, text_children (formatHours hours))] sel
               = None).
    { intros e sel. unfold querySelector_in, text_children.
      destruct (String.eqb (formatHours hours) ""); reflexivity. }
    rewrite !Q. cbn [is_some orb].
    unfold test, search.
    change (anchored currency_digit) with false. cbv iota.
    rewrite no_currency_no_match; [reflexivity|].
    apply no_currency_formatHours. }
  split; [apply One|].
  intros F. unfold shouldReprocess.
  induction F as [|added rest Ha Hr IH]; [reflexivity|].
  cbn [existsb]. rewrite IH, orb_false_r.
  induction Ha as [|b l Hb Hl IHl]; [reflexivity|].
  cbn [existsb]. destruct Hb as (c & d & f & h & x & ->).
  rewrite One. exact IHl.
Qed.

End ObserverFacts.

Lemma badge_has_no_price_indicator_witness :
  ContentScript.shouldReprocess
    [[Controller.createBadge Examples.no_style Examples.plain_engine
        Examples.one_price 4 "2h" 3];
     []]
  = false.
Proof.
  apply (proj2 (badge_has_no_price_indicator Examples.no_style
                  Examples.plain_engine Examples.one_price 4 (Some 2%float) 3
                  [[Controller.createBadge Examples.no_style
                      Examples.plain_engine Examples.one_price 4 "2h" 3];
                   []])).
  constructor; [|constructor; constructor].
  constructor; [|constructor].
  exists Examples.plain_engine, Examples.one_price, 4%nat, (Some 2%float),
         3%nat.
  vm_compute. reflexivity.
Defined.

Lemma setActive_false_cleans_witness :
  exists st1 st',
    Controller.processPage Examples.no_style Examples.no_innerText
      (Examples.settings 20 "side-by-side")
      (Examples.start Examples.one_price 4) = Normal st1 /\
    ContentScript.setActive Examples.no_style Examples.no_innerText
      (Converter.VBool false) (Examples.settings 20 "side-by-side") st1
    = Normal st' /\
    Controller.count_badges (Controller.document st1) = 1%nat /\
    Controller.count_badges (Controller.document st') = 0%nat /\
    Controller.isActive st' = false.
Proof.
  do 2 eexists.
  split; [vm_compute; reflexivity|].
  split; [vm_compute; reflexivity|].
  lazymatch goal with
  | |- Controller.count_badges (Controller.document ?a) = _ /\
       Controller.count_badges (Controller.document ?b) = _ /\ _ =>
      destruct (setActive_false_cleans Examples.no_style
                  Examples.no_innerText (Converter.VBool false)
                  (Examples.settings 20 "side-by-side") a b eq_refl
                  ltac:(vm_compute; reflexivity))
        as (A & _ & _ & _ & _ & _ & _ & B & _)
  end.
  split; [vm_compute; reflexivity|].
  split; [apply B; vm_compute; reflexivity|exact A].
Defined.

(** ** Requests that the service worker turns down *)

Section WorkerRejects.

Import Converter Controller Storage Messages ServiceWorker.

(** X17: only a request answered with success changes the storage or tells
    the tabs of a change: when the service worker answers with a failure,
    with a wage, with the prices of the active tab, or not at all, the
    storage is as before and no tab is told to reprocess or to change its
    presentation. *)
Theorem onMessage_rejects_cleanly (writable : bool) (r : request) (b : browser) :
  answer (onMessage writable r b) <> Some Success ->
  after (onMessage writable r b) = b /\ notified (onMessage writable r b) = [].
Proof.
  unfold onMessage.
  repeat match goal with
         | |- context [if ?c then _ else _] => destruct c
         | |- context [match wage r with _ => _ end] => destruct (wage r)
         | |- context [match mode r with _ => _ end] => destruct (mode r)
         | |- context [match active_tab b with _ => _ end] =>
             destruct (active_tab b)
         end; cbn [answer after notified]; intros H;
    try (split; reflexivity); exfalso; apply H; reflexivity.
Qed.

Lemma onMessage_rejects_cleanly_witness :
  after (onMessage true (setWage_message (-3)) Scenarios.worker)
  = Scenarios.worker.
Proof.
  apply (onMessage_rejects_cleanly true (setWage_message (-3))
           Scenarios.worker).
  vm_compute. discriminate.
Defined.

End WorkerRejects.

(** ** Marking the candidates *)

Section Marking.

Import Str Regex Dom Detector Converter Controller Properties.

Lemma getAttribute_setAttribute (a b v : string) (e : Element) :
  getAttribute (setAttribute a v e) b =
  if String.eqb b a then Some v else getAttribute e b.
Proof.
  unfold getAttribute, setAttribute. cbn [attrs].
  destruct (String.eqb_spec b a) as [->|N].
  - apply assoc_set_same.
  - apply assoc_set_other. exact N.
Qed.

Lemma mark_from_other (l : list PriceCandidate) (x : nat) :
  ~ In x (map element l) ->
  forall index doc,
    element_at (mark_from index l doc) x = element_at doc x.
Proof.
  induction l as [|c l IH]; intros N index doc; cbn [mark_from];
    [reflexivity|].
  rewrite IH by (intros I; apply N; right; exact I).
  rewrite element_at_update_element by reflexivity.
  destruct (Nat.eqb_spec x (element c)) as [E|_]; [|reflexivity].
  exfalso. apply N. left. symmetry. exact E.
Qed.

(** X18: [markPriceElements] marks each candidate on its element and leaves
    the rest alone: for candidates with distinct elements, the element of
    the candidate at [index] gets "true" as [data-price-detected], the text
    of its price as [data-price-value] and [index] as [data-price-index],
    and keeps every other attribute, its tag, its style and its identity;
    an element that is no candidate is as before. *)
Theorem markPriceElements_marks (prices : list PriceCandidate) (doc : node) :
  NoDup (map element prices) ->
  (forall index c e,
      nth_error prices index = Some c ->
      element_at doc (element c) = Some e ->
      exists e',
        element_at (markPriceElements prices doc) (element c) = Some e' /\
        getAttribute e' "data-price-detected" = Some "true" /\
        getAttribute e' "data-price-value" = Some (Number_toString (price c)) /\
        getAttribute e' "data-price-index"
        = Some (string_of_Z (Z.of_nat index)) /\
        (forall a, a <> "data-price-detected" -> a <> "data-price-value" ->
                   a <> "data-price-index" ->
                   getAttribute e' a = getAttribute e a) /\
        eid e' = eid e /\ tag e' = tag e /\ style e' = style e) /\
  (forall x, ~ In x (map element prices) ->
             element_at (markPriceElements prices doc) x = element_at doc x).
Proof.
  intros N. split; [|intros x Hx; apply mark_from_other; exact Hx].
  unfold markPriceElements.
  assert (G : forall l first doc index c e,
             NoDup (map element l) ->
             nth_error l index = Some c ->
             element_at doc (element c) = Some e ->
             element_at (mark_from first l doc) (element c)
             = Some (mark (first + index) c e)).
  { clear. induction l as [|d l IH]; intros first doc index c e N Hn He.
    - destruct index; discriminate.
    - cbn [mark_from]. cbn [map] in N. inversion N as [|? ? N1 N2]; subst.
      destruct index as [|index]; cbn [nth_error] in Hn.
      + injection Hn as ->. rewrite mark_from_other by exact N1.
        rewrite element_at_update_element by reflexivity.
        rewrite Nat.eqb_refl, He, Nat.add_0_r. reflexivity.
      + replace (first + S index)%nat with (S first + index)%nat by lia.
        apply IH; [exact N2|exact Hn|].
        rewrite element_at_update_element by reflexivity.
        destruct (Nat.eqb_spec (element c) (element d)) as [E|_];
          [|exact He].
        exfalso. apply N1. rewrite <- E. apply in_map.
        apply nth_error_In with index. exact Hn. }
  intros index c e Hn He. exists (mark index c e).
  split; [exact (G prices 0%nat doc index c e N Hn He)|].
  unfold mark. rewrite !getAttribute_setAttribute.
  repeat apply conj; try reflexivity.
  intros a A1 A2 A3. rewrite !getAttribute_setAttribute.
  apply String.eqb_neq in A1, A2, A3. rewrite A1, A2, A3. reflexivity.
Qed.

End Marking.

Lemma markPriceElements_marks_witness :
  exists e',
    Dom.element_at
      (Detector.markPriceElements Examples.two_candidates Examples.two_prices)
      3 = Some e' /\
    Dom.getAttribute e' "data-price-index" = Some "1".
Proof.
  edestruct (proj1 (markPriceElements_marks Examples.two_candidates
                      Examples.two_prices
                      (uniquePrices_NoDup
                         [ {| Detector.element := 4%nat; Detector.price := 20;
                              Detector.originalText := "$20" |};
                           {| Detector.element := 3%nat; Detector.price := 10;
                              Detector.originalText := "$10" |} ]))
               1%nat
               {| Detector.element := 3%nat; Detector.price := 10;
                  Detector.originalText := "$10" |})
    as (e' & H1 & _ & _ & H4 & _).
  - reflexivity.
  - vm_compute. reflexivity.
  - exists e'. split; [exact H1|exact H4].
Defined.

(** ** What a side-by-side pass leaves of the page *)

Section OnlyBadges.

Import Str Regex Dom Detector Converter Controller Properties.

Lemma remove_where_again (p : Element -> bool) (n : node) :
  remove_where p (remove_where p n) = remove_where p n.
Proof.
  induction n as [s|e children IH] using node_induction; [reflexivity|].
  cbn [remove_where]. f_equal.
  induction IH as [|c l Hc Hl IHl]; [reflexivity|].
  destruct c as [s|ce ck].
  - f_equal. exact IHl.
  - destruct (p ce) eqn:P; [exact IHl|].
    cbn [remove_where] in *. rewrite P. f_equal; [exact Hc|exact IHl].
Qed.

Lemma remove_badge_elements_again (doc : node) :
  remove_badge_elements (remove_badge_elements doc)
  = remove_badge_elements doc.
Proof.
  unfold remove_badge_elements. destruct doc as [s|e children]; [reflexivity|].
  destruct (is_badge e) eqn:B; [reflexivity|].
  cbn [remove_where]. rewrite B.
  apply (remove_where_again is_badge (Elem e children)).
Qed.

Lemma remove_where_insert (p : Element -> bool) (x : nat) (b : Element)
  (kb : list node) (n : node) :
  p b = true ->
  remove_where p (insert_after x (Elem b kb) n) = remove_where p n.
Proof.
  intros Pb.
  induction n as [s|e children IH] using node_induction; [reflexivity|].
  cbn [insert_after remove_where]. f_equal.
  induction IH as [|c l Hc Hl IHl]; [reflexivity|].
  destruct c as [s|ce ck].
  - cbn [is_element insert_after]. f_equal. exact IHl.
  - cbn [insert_after] in *.
    destruct (is_element x (Elem ce ck)).
    + destruct (p ce); rewrite Pb; [exact IHl|].
      f_equal; [exact Hc|exact IHl].
    + destruct (p ce); [exact IHl|].
      f_equal; [exact Hc|exact IHl].
Qed.

Lemma remove_badge_elements_insert (x : nat) (b : Element) (kb : list node)
  (doc : node) :
  is_badge b = true ->
  remove_badge_elements (insert_after x (Elem b kb) doc)
  = remove_badge_elements doc.
Proof.
  intros B. unfold remove_badge_elements.
  destruct doc as [s|e children]; [reflexivity|].
  cbn [insert_after]. destruct (is_badge e); [reflexivity|].
  apply (remove_where_insert is_badge x b kb (Elem e children) B).
Qed.

Lemma elems_Elem (e : Element) (children : list node) :
  elems (Elem e children) = e :: flat_map elems children.
Proof. reflexivity. Qed.

Lemma elems_remove (p : Element -> bool) (n : node) (e : Element) :
  In e (elems (remove_where p n)) -> In e (elems n).
Proof.
  induction n as [s|e0 children IH] using node_induction; [intros []|].
  cbn [remove_where]. rewrite !elems_Elem.
  intros [H|H]; [left; exact H|right].
  revert H. induction IH as [|c l Hc Hl IHl]; [intros []|].
  destruct c as [s|ce ck].
  - cbn [flat_map elems app]. exact IHl.
  - destruct (p ce).
    + intros H. cbn [flat_map]. apply in_or_app. right. exact (IHl H).
    + cbn [flat_map]. intros H. apply in_app_or in H. apply in_or_app.
      destruct H as [H|H]; [left; exact (Hc H)|right; exact (IHl H)].
Qed.

Lemma elems_insert (x : nat) (new : node) (n : node) (e : Element) :
  In e (elems (insert_after x new n)) -> In e (elems n) \/ In e (elems new).
Proof.
  induction n as [s|e0 children IH] using node_induction; [intros []|].
  cbn [insert_after]. rewrite !elems_Elem.
  intros [H|H]; [left; left; exact H|].
  assert (G : In e (flat_map elems children) \/ In e (elems new));
    [|destruct G; [left; right; assumption|right; assumption]].
  revert H. induction IH as [|c l Hc Hl IHl]; [intros []|].
  destruct (is_element x c); cbn [flat_map]; intros H;
    repeat (apply in_app_or in H; destruct H as [H|H]).
  - destruct (Hc H); [left; apply in_or_app; left; assumption|right; assumption].
  - right. exact H.
  - destruct (IHl H); [left; apply in_or_app; right; assumption|right; assumption].
  - destruct (Hc H); [left; apply in_or_app; left; assumption|right; assumption].
  - destruct (IHl H); [left; apply in_or_app; right; assumption|right; assumption].
Qed.

Lemma elems_update_element (y : nat) (g : Element -> Element) (n : node) :
  elems (update_element y g n)
  = map (fun e => if Nat.eqb (eid e) y then g e else e) (elems n).
Proof.
  unfold update_element.
  induction n as [s|e children IH] using node_induction; [reflexivity|].
  cbn [update].
  assert (G : flat_map elems
                (map (update y (fun fr => (g (fst fr), snd fr))) children)
              = map (fun e => if Nat.eqb (eid e) y then g e else e)
                    (flat_map elems children)).
  { induction IH as [|c l Hc Hl IHl]; [reflexivity|].
    cbn [map flat_map]. rewrite map_app, Hc, IHl. reflexivity. }
  destruct (Nat.eqb (eid e) y) eqn:E; cbn [fst snd]; rewrite !elems_Elem;
    cbn [map]; rewrite E, G; reflexivity.
Qed.

Lemma elements_of_elems (n : node) :
  forall up p, In p (elements_of up n) ->
  exists e k rest, p = (e, k) :: rest /\ In e (elems n).
Proof.
  induction n as [s|e children IH] using node_induction; intros up p;
    [intros []|].
  cbn [elements_of]. rewrite elems_Elem.
  intros [<-|H]; [exists e, children, up; split; [reflexivity|left; reflexivity]|].
  apply in_flat_map in H. destruct H as (c & Hc & H).
  rewrite Forall_forall in IH.
  destruct (IH c Hc _ _ H) as (e' & k & rest & -> & I).
  exists e', k, rest. split; [reflexivity|]. right.
  apply in_flat_map. exists c. split; assumption.
Qed.

Lemma locate_elems (doc : node) (x : nat) (e : Element) (k : list node)
  (up : path) :
  locate doc x = Some ((e, k) :: up) -> In e (elems doc) /\ eid e = x.
Proof.
  unfold locate. intros H. apply find_some in H. destruct H as [I H].
  apply elements_of_elems in I. destruct I as (e' & k' & rest & E & I).
  injection E as <- <- <-. split; [exact I|].
  apply Nat.eqb_eq. exact H.
Qed.

(** *** The hours stored on the elements *)

Lemma store_conversions_untouched (l : list PriceCandidate) :
  forall (rs : list ConversionResult) (doc : node) (e : Element),
    In e (elems (store_conversions l rs doc)) ->
    ~ In (eid e) (map element l) -> In e (elems doc).
Proof.
  induction l as [|c l IH]; intros rs doc e H N; [exact H|].
  destruct rs as [|r rs]; [exact H|].
  cbn [store_conversions] in H.
  apply IH in H; [|intros I; apply N; right; exact I].
  rewrite elems_update_element in H. apply in_map_iff in H.
  destruct H as (e0 & E & I).
  destruct (Nat.eqb_spec (eid e0) (element c)) as [Y|Y].
  - exfalso. apply N. left. subst e. cbn. symmetry. exact Y.
  - subst e. exact I.
Qed.

Lemma store_conversions_hours (l : list PriceCandidate) :
  forall (rs : list ConversionResult) (doc : node) (e : Element) (j : nat)
         (c : PriceCandidate) (r : ConversionResult),
    NoDup (map element l) ->
    In e (elems (store_conversions l rs doc)) ->
    nth_error l j = Some c -> nth_error rs j = Some r ->
    eid e = element c ->
    getAttribute e "data-hours-formatted" = Some (cr_formatted r).
Proof.
  induction l as [|c0 l IH]; intros rs doc e j c r N H Hc Hr He.
  - destruct j; discriminate.
  - destruct rs as [|r0 rs]; [destruct j; discriminate|].
    cbn [store_conversions] in H. cbn [map] in N.
    inversion N as [|? ? N1 N2]; subst.
    destruct j as [|j]; cbn [nth_error] in Hc, Hr.
    + injection Hc as ->. injection Hr as ->.
      apply store_conversions_untouched in H; [|rewrite He; exact N1].
      rewrite elems_update_element in H. apply in_map_iff in H.
      destruct H as (e0 & E & _).
      destruct (Nat.eqb_spec (eid e0) (element c)) as [Y|Y].
      * subst e. rewrite getAttribute_setAttribute. reflexivity.
      * subst e. contradiction.
    + exact (IH rs _ e j c r N2 H Hc Hr He).
Qed.

(** *** One candidate *)

Section Loop.

Variable getComputedStyle : node -> nat -> string -> string.
Variables (l : list PriceCandidate) (results : list ConversionResult)
          (page : node).

Lemma formatted_at_Some (index : nat) (st : state) (h : string) :
  formatted_at index st = Some h ->
  exists r, nth_error (conversions st) index = Some r /\ cr_formatted r = h.
Proof.
  unfold formatted_at.
  destruct (nth_error (conversions st) index) as [r|]; [|discriminate].
  destruct (String.eqb (cr_formatted r) ""); [discriminate|].
  intros H. injection H as <-. eauto.
Qed.

Lemma createBadge_is_badge (css : engine) (doc : node) (fresh : nat)
  (h : string) (x : nat) :
  exists b, createBadge getComputedStyle css doc fresh h x
            = Elem b (text_children h) /\
            is_badge b = true /\ eid b = fresh.
Proof.
  unfold createBadge. eexists. split; [reflexivity|]. split.
  - rewrite is_badge_copy_font_styles. reflexivity.
  - destruct (copy_font_styles_same getComputedStyle css doc x
                {| eid := fresh; tag := "span";
                   attrs := [("class", "price-hours-badge");
                             ("aria-label", "Requires " ++ h ++ " of work");
                             ("title", "This item costs " ++ h ++
                                       " of work at your hourly wage")];
                   style := [] |}) as [E _].
    exact E.
Qed.

Lemma elems_text_children (b : Element) (h : string) :
  elems (Elem b (text_children h)) = [b].
Proof.
  unfold text_children. destruct (String.eqb h ""); reflexivity.
Qed.

Lemma inject_one_badge_pass (st st' : state) (c : PriceCandidate) (i : nat) :
  nth_error l i = Some c ->
  badge_pass l results page st ->
  inject_one getComputedStyle st c i = Normal st' ->
  badge_pass l results page st'.
Proof.
  intros Hc Inv. unfold inject_one.
  destruct (formatted_at i st) as [h|] eqn:F;
    [|intros H; injection H as <-; exact Inv].
  destruct (locate (document st) (element c)) as [[|[e kids] up]|] eqn:L;
    try (intros H; injection H as <-; exact Inv).
  destruct (body_contains (document st) (element c)) as [inside|];
    cbn [bind]; [|discriminate].
  destruct (negb inside); [intros H; injection H as <-; exact Inv|].
  destruct (findExistingBadge (element c) ((e, kids) :: up) st)
    as [[badge|]|]; cbn [bind]; [| |discriminate].
  - (* a badge exists: the hours on the element are those of the pass *)
    destruct (locate_elems _ _ _ _ _ L) as [Ie Ee].
    destruct (formatted_at_Some _ _ _ F) as (r & Hr & Hh).
    rewrite (bp_conversions _ _ _ _ Inv) in Hr.
    assert (A : getAttribute e "data-hours-formatted" = Some h).
    { rewrite <- Hh.
      apply (bp_hours _ _ _ _ Inv e i c r); try assumption.
      apply (bp_candidates _ _ _ _ Inv); [exact Ie|].
      rewrite Ee. apply in_map. apply nth_error_In with i. exact Hc. }
    rewrite A, String.eqb_refl. intros H. injection H as <-. exact Inv.
  - destruct (hidden_class e); [intros H; injection H as <-; exact Inv|].
    destruct (includes (toLowerCase (className e)) "pricetopay");
      [intros H; injection H as <-; exact Inv|].
    intros H. injection H as <-.
    destruct (createBadge_is_badge (css st) (document st) (next_id st) h
                (element c))
      as (b & -> & B & Eb).
    constructor;
      cbn [document conversions next_id with_injectedBadges with_next_id
           with_document].
    + rewrite remove_badge_elements_insert by exact B.
      exact (bp_page _ _ _ _ Inv).
    + exact (bp_conversions _ _ _ _ Inv).
    + intros e' j c' r I NB. apply elems_insert in I.
      destruct I as [I|I]; [exact (bp_hours _ _ _ _ Inv e' j c' r I NB)|].
      rewrite elems_text_children in I. destruct I as [<-|[]]. congruence.
    + intros e' I Hin. apply elems_insert in I.
      destruct I as [I|I]; [exact (bp_candidates _ _ _ _ Inv e' I Hin)|].
      rewrite elems_text_children in I. destruct I as [<-|[]].
      exfalso. rewrite Eb in Hin. apply in_map_iff in Hin.
      destruct Hin as (c' & E' & I').
      pose proof (bp_fresh _ _ _ _ Inv c' I'). lia.
    + intros c' I'. pose proof (bp_fresh _ _ _ _ Inv c' I'). lia.
Qed.

Lemma forEach_badge_pass (rest : list PriceCandidate) :
  forall (i : nat) (st st' : state),
    (forall j c, nth_error rest j = Some c ->
                 nth_error l (i + j) = Some c) ->
    badge_pass l results page st ->
    forEach (inject_one getComputedStyle) rest i st = Normal st' ->
    badge_pass l results page st'.
Proof.
  induction rest as [|c rest IH]; intros i st st' Sub Inv; cbn [forEach].
  - intros H. injection H as <-. exact Inv.
  - destruct (inject_one getComputedStyle st c i) as [st1|] eqn:One;
      cbn [bind]; [|discriminate].
    apply IH.
    + intros j c' Hj. replace (S i + j)%nat with (i + S j)%nat by lia.
      apply Sub. exact Hj.
    + apply (inject_one_badge_pass st st1 c i); [|exact Inv|exact One].
      specialize (Sub 0%nat c eq_refl). rewrite Nat.add_0_r in Sub. exact Sub.
Qed.

End Loop.

(** *** The pass *)

Lemma elems_remove_badges (doc : node) (e : Element) :
  In e (elems (remove_badge_elements doc)) ->
  In e (elems doc) /\ is_badge e = false.
Proof.
  intros H. split.
  - revert H. unfold remove_badge_elements.
    destruct doc as [s|r children]; [intros []|].
    destruct (is_badge r); [intros []|]. apply elems_remove.
  - pose proof (remove_badge_elements_none doc) as Z. unfold badge_ids in Z.
    apply map_eq_nil in Z.
    destruct (is_badge e) eqn:B; [|reflexivity].
    assert (I : In e (filter is_badge (elems (remove_badge_elements doc)))).
    { apply filter_In. split; assumption. }
    rewrite Z in I. destruct I.
Qed.

Lemma accepted_in_ids (doc : node) (c : PriceCandidate) :
  accepted_in doc c -> In (element c) (ids doc).
Proof.
  intros (p & I & Hid & _).
  apply elements_of_elems in I. destruct I as (e & k & rest & -> & I).
  cbn [path_id] in Hid. injection Hid as <-.
  unfold ids. apply in_map. exact I.
Qed.

Section Pass.

Variable getComputedStyle : node -> nat -> string -> string.
Variable innerText : path -> string.

(** X19: a pass of [processPage] in side-by-side mode only adds badges to
    the page: without the badge elements, the document after the pass is the
    document before it with the data attributes of the candidates set (by
    [markPriceElements] and by the loop that stores the conversions) and
    without the badges it had.  So no element of the page is removed, moved
    or given another text by the pass. *)
Theorem side_by_side_adds_only_badges (settings : storage) (st st' : state) :
  well_formed st ->
  replacedPrices st = [] ->
  isActive st = true ->
  getShowHours settings = true ->
  String.eqb (getDisplayMode settings) "replace" = false ->
  (getHourlyWage settings <=? 0)%float = false ->
  processPage getComputedStyle innerText settings st = Normal st' ->
  remove_badge_elements (document st') =
  remove_badge_elements
    (store_conversions (detectedPrices st') (conversions st')
       (markPriceElements (detectedPrices st') (document st))).
Proof.
  intros W R A Show Mode Wage. unfold processPage.
  rewrite A, Wage. cbn [negb].
  destruct (detectPrices innerText (document st)) as [detected|] eqn:D;
    cbn [bind]; [|discriminate].
  pose proof (detectPrices_distinct innerText _ _ D) as N.
  pose proof (detectPrices_all_accepted innerText _ _ D) as Acc.
  destruct detected as [|c detected].
  - intros H. injection H as <-. reflexivity.
  - set (l := c :: detected) in *.
    set (results := convertPricesToHours (map price l)
                      (VNum (getHourlyWage settings))).
    set (doc2 := store_conversions l results
                   (markPriceElements l (document st))).
    intros H.
    destruct (injectBadges_same_lists getComputedStyle settings _ _ H)
      as [E1 E2].
    cbn [detectedPrices conversions with_document with_detected] in E1, E2.
    rewrite E1, E2. fold doc2.
    revert H. unfold injectBadges. cbn [showHours with_showHours].
    rewrite Show. cbn [negb].
    cbn [displayMode with_displayMode]. rewrite Mode.
    unfold injectBadgesSideBySide, removeBadges.
    cbn [replacedPrices with_document with_detected with_showHours
         with_injectedBadges with_replacedPrices with_displayMode].
    rewrite R. cbn [fold_left].
    match goal with
    | |- forEach _ _ _ ?s = _ -> _ => set (start := s)
    end.
    intros H. change (detectedPrices start) with l in H.
    assert (Inv : badge_pass l results (remove_badge_elements doc2) start).
    { constructor.
      - apply remove_badge_elements_again.
      - reflexivity.
      - intros e j c' r I _ Hc Hr He.
        change (document start) with (remove_badge_elements doc2) in I.
        apply elems_remove_badges in I. destruct I as [I _].
        exact (store_conversions_hours l results _ e j c' r N I Hc Hr He).
      - intros e I _.
        change (document start) with (remove_badge_elements doc2) in I.
        apply elems_remove_badges in I. tauto.
      - intros c' I. change (next_id start) with (next_id st).
        rewrite Forall_forall in Acc.
        apply (proj2 W). apply accepted_in_ids. apply Acc. exact I. }
    pose proof (forEach_badge_pass getComputedStyle l results _ l 0%nat
                  start st' (fun j c' Hj => Hj) Inv H) as Inv'.
    exact (bp_page _ _ _ _ Inv').
Qed.

End Pass.

End OnlyBadges.

Lemma side_by_side_adds_only_badges_witness :
  exists st',
    Controller.processPage Examples.no_style Examples.no_innerText
      (Examples.settings 20 "side-by-side")
      (Examples.start Examples.two_prices 5) = Normal st' /\
    Controller.remove_badge_elements (Controller.document st') =
    Controller.remove_badge_elements
      (Controller.store_conversions (Controller.detectedPrices st')
         (Controller.conversions st')
         (Detector.markPriceElements (Controller.detectedPrices st')
            Examples.two_prices)).
Proof.
  eexists. split; [vm_compute; reflexivity|].
  assert (W : Controller.well_formed (Examples.start Examples.two_prices 5)).
  { split.
    - change (NoDup [0; 1; 2; 3; 4]%nat).
      repeat (constructor;
              [simpl; intros H;
               repeat (destruct H as [H|H]; [discriminate H|]); exact H|]).
      constructor.
    - change (forall i, In i [0; 1; 2; 3; 4]%nat -> (i < 5)%nat).
      simpl. intros i H. lia. }
  apply (side_by_side_adds_only_badges Examples.no_style Examples.no_innerText
           (Examples.settings 20 "side-by-side")
           (Examples.start Examples.two_prices 5) _
           W eq_refl eq_refl eq_refl eq_refl eq_refl
           ltac:(vm_compute; reflexivity)).
Defined.

(** ** Where the candidates come from *)

Section Parsed.

Import Str Regex Dom Detector Converter Controller Properties.

Variable innerText : path -> string.

Lemma scan_element_parsed (doc : node) (st : found_state) (p : path) :
  In p (elements_of [] doc) ->
  Forall (parsed_in doc) (fst st) ->
  Forall (parsed_in doc) (fst (scan_element innerText st p)).
Proof.
  unfold scan_element. intros I H.
  destruct st as [prices found]. destruct p as [|[e kids] up]; [exact H|].
  repeat match goal with
         | |- context [if ?c then _ else _] => destruct c eqn:?
         | |- context [match parsePrice ?t ?e with _ => _ end] =>
             destruct (parsePrice t e) eqn:?
         end; try exact H.
  all: simpl; apply Forall_app; split; [exact H|].
  all: constructor; [|constructor].
  all: eexists _, ((e, kids) :: up); cbn [element price originalText path_id].
  all: split; [exact I|]; split; [reflexivity|].
  all: split; [eassumption|reflexivity].
Qed.

Lemma climb_parsed (doc : node) (body : nat) (matched : string)
  (parent : path) (st : found_state) :
  chain_in (elements_of [] doc) parent ->
  Forall (parsed_in doc) (fst st) ->
  Forall (parsed_in doc) (fst (climb body matched parent st)).
Proof.
  revert st.
  induction parent as [|[e kids] up IH]; intros [prices found] C H;
    cbn [climb].
  - exact H.
  - destruct C as [Here C].
    repeat match goal with
           | |- context [if ?c then _ else _] => destruct c eqn:?
           | |- context [match parsePrice ?t ?e with _ => _ end] =>
               destruct (parsePrice t e) eqn:?
           end; try exact H; try (apply IH; assumption).
    simpl; apply Forall_app; split; [exact H|].
    constructor; [|constructor].
    eexists _, ((e, kids) :: up); cbn [element price originalText path_id].
    split; [exact Here|]. split; [reflexivity|].
    split; [eassumption|reflexivity].
Qed.

Lemma detectPrices_all_parsed (doc : node) (l : list PriceCandidate) :
  detectPrices innerText doc = Normal l -> Forall (parsed_in doc) l.
Proof.
  intros H.
  destruct (detectPrices_keeps_pushed_aux innerText doc l H) as [-> _].
  unfold pushed.
  assert (S1 : Forall (parsed_in doc)
                 (fst (fold_left (scan_selector innerText doc)
                         PRICE_SELECTORS ([], [])))).
  { apply (fold_left_invariant
             (fun st => Forall (parsed_in doc) (fst st))
             (scan_selector innerText doc) PRICE_SELECTORS).
    - intros st sel Hst. unfold scan_selector.
      apply (fold_left_invariant_in
               (fun st => Forall (parsed_in doc) (fst st)));
        [|exact Hst].
      intros st' p Hp Hst'. apply scan_element_parsed; [|exact Hst'].
      unfold querySelectorAll in Hp. apply filter_In in Hp. tauto.
    - constructor. }
  destruct (body_of doc) as [[|[b kids] up]|] eqn:B; try exact S1.
  destruct (body_of_chain _ _ _ _ B) as [C I].
  apply (fold_left_invariant_in
           (fun st => Forall (parsed_in doc) (fst st))); [|exact S1].
  intros st [text parent] Hp Hst. unfold scan_text.
  destruct (isTimeValue text); [exact Hst|].
  apply (fold_left_invariant
           (fun st => Forall (parsed_in doc) (fst st))); [|exact Hst].
  intros st' m Hst'. apply climb_parsed; [|exact Hst'].
  exact (texts_of_chain _ _ _ C I _ _ Hp).
Qed.

Lemma parsePrice_not_blank (text : string) (element : option path)
  (v : float) :
  parsePrice text element = Some v -> trim text <> "".
Proof.
  intros H E.
  assert (P : parseFloat (normalize text) = nan).
  { unfold normalize. rewrite E. vm_compute. reflexivity. }
  revert H. unfold parsePrice. rewrite P.
  repeat match goal with
         | |- context [if ?c then _ else _] => destruct c eqn:?
         end; try discriminate.
  all: match goal with
       | X : isNaN nan || _ || _ = false |- _ => vm_compute in X; discriminate X
       end.
Qed.

(** X20: every candidate of [detectPrices] was parsed from a text at an
    element of the document: [parsePrice] gives its price for that text and
    element, its original text is that text trimmed and is not empty, and
    its price is at most 10,000,000. *)
Theorem detectPrices_parsed (doc : node) (l : list PriceCandidate) :
  detectPrices innerText doc = Normal l ->
  Forall (parsed_in doc) l /\
  Forall (fun c => originalText c <> "" /\
                   (price c <=? 10000000)%float = true) l.
Proof.
  intros H. pose proof (detectPrices_all_parsed doc l H) as P.
  split; [exact P|].
  apply Forall_forall. intros c Hc. rewrite Forall_forall in P.
  destruct (P c Hc) as (text & p & _ & _ & Hp & Ho). split.
  - rewrite Ho. exact (parsePrice_not_blank _ _ _ Hp).
  - revert Hp. clear. unfold parsePrice, isNaN.
    repeat match goal with
           | |- context [if ?c then _ else _] => destruct c eqn:?
           end; try discriminate.
    all: intros H; injection H as <-.
    all: match goal with
         | X : is_nan ?x || _ || (10000000 <? ?x)%float = false |- _ =>
             apply orb_false_iff in X; destruct X as [X U];
             apply orb_false_iff in X; destruct X as [N _];
             apply not_lt_le_float; auto
         end.
Qed.

End Parsed.

Lemma detectPrices_parsed_witness :
  Forall (Properties.parsed_in Examples.two_prices) Examples.two_candidates.
Proof.
  apply (detectPrices_parsed Examples.no_innerText Examples.two_prices).
  vm_compute. reflexivity.
Defined.

(** ** Hiding the hours *)

Section Hiding.

Import Str Regex Dom Detector Converter Controller ContentScript.

Variable getComputedStyle : node -> nat -> string -> string.

(** X21: with the toggle off, [injectBadges] only removes: when no price is
    replaced, the document it leaves has no badge element at all, tracked or
    not, no badge is tracked any more, and the detected prices and their
    conversions are kept for the time the toggle is switched on again. *)
Theorem injectBadges_hidden (settings : storage) (st st' : state) :
  getShowHours settings = false ->
  replacedPrices st = [] ->
  injectBadges getComputedStyle settings st = Normal st' ->
  count_badges (document st') = 0%nat /\
  document st' = remove_badge_elements (document st) /\
  injectedBadges st' = [] /\ replacedPrices st' = [] /\
  showHours st' = false /\
  detectedPrices st' = detectedPrices st /\ conversions st' = conversions st.
Proof.
  intros Show R. unfold injectBadges. cbn [showHours with_showHours].
  rewrite Show. cbn [negb]. intros H. apply Normal_inj in H. subst st'.
  unfold removeBadges.
  cbn [replacedPrices with_document with_injectedBadges with_showHours].
  rewrite R. cbn [fold_left].
  cbn [document injectedBadges replacedPrices showHours detectedPrices
       conversions with_replacedPrices with_injectedBadges with_document
       with_showHours].
  repeat apply conj; try reflexivity.
  unfold count_badges. rewrite remove_badge_elements_none. reflexivity.
Qed.

End Hiding.

Lemma injectBadges_hidden_witness :
  exists st1 st',
    Controller.processPage Examples.no_style Examples.no_innerText
      (Examples.settings 20 "side-by-side")
      (Examples.start Examples.one_price 4) = Normal st1 /\
    Controller.injectBadges Examples.no_style
      {| Controller.stored_hourlyWage := Some 20%float;
         Controller.stored_displayMode := None;
         Controller.stored_showHours := Some false |} st1 = Normal st' /\
    Controller.count_badges (Controller.document st1) = 1%nat /\
    Controller.count_badges (Controller.document st') = 0%nat.
Proof.
  do 2 eexists.
  split; [vm_compute; reflexivity|].
  split; [vm_compute; reflexivity|].
  lazymatch goal with
  | |- Controller.count_badges (Controller.document ?a) = _ /\
       Controller.count_badges (Controller.document ?b) = _ =>
      destruct (injectBadges_hidden Examples.no_style
                  {| Controller.stored_hourlyWage := Some 20%float;
                     Controller.stored_displayMode := None;
                     Controller.stored_showHours := Some false |}
                  a b eq_refl eq_refl ltac:(vm_compute; reflexivity))
        as (Z & _)
  end.
  split; [vm_compute; reflexivity|exact Z].
Defined.

Lemma convertPricesToHours_without_wage_witness :
  Converter.convertPricesToHours [10; 20]%float (Converter.VNum 0) =
  [ {| Converter.cr_price := 10; Converter.cr_hours := None;
       Converter.cr_formatted := "N/A" |};
    {| Converter.cr_price := 20; Converter.cr_hours := None;
       Converter.cr_formatted := "N/A" |} ].
Proof.
  apply (convertPricesToHours_without_wage [10; 20]%float (Converter.VNum 0)).
  intros w E. injection E as <-. right. reflexivity.
Defined.

Lemma getTierColor_monotone_witness :
  (Properties.tier_rank
     (Converter.getTierColor (Converter.VNum 30)
        (Some {| Converter.tier_type := "money"; Converter.green := 10;
                 Converter.yellow := 50; Converter.red := 100 |}))
   <= Properties.tier_rank
        (Converter.getTierColor (Converter.VNum 75)
           (Some {| Converter.tier_type := "money"; Converter.green := 10;
                    Converter.yellow := 50; Converter.red := 100 |})))%nat.
Proof.
  apply (getTierColor_monotone 30 75
           {| Converter.tier_type := "money"; Converter.green := 10;
              Converter.yellow := 50; Converter.red := 100 |}).
  reflexivity.
Defined.

(** ** Where the badges are *)

Section BadgePlaces.

Import Str Regex Dom Detector Converter Controller Properties.

Lemma is_element_insert (x y : nat) (new c : node) :
  is_element x (insert_after y new c) = is_element x c.
Proof. destruct c; reflexivity. Qed.

Ltac step_lists := cbn -[followed_by insert_after is_element].

(** An insertion after another element keeps [b] next to [x]. *)
Lemma followed_by_insert_other (x b y : nat) (new n : node) :
  y <> x ->
  followed_by x b n = true ->
  followed_by x b (insert_after y new n) = true.
Proof.
  intros N.
  induction n as [s|e children IH] using node_induction; [discriminate|].
  cbn [insert_after followed_by].
  induction IH as [|c l Hc Hl IHl]; [discriminate|].
  intros H. apply orb_prop in H. destruct H as [H|H].
  - apply orb_prop in H. destruct H as [H|H].
    + (* [c] is [x] and the head of [l] is [b] *)
      apply andb_prop in H. destruct H as [Hx Hb].
      assert (Y : is_element y c = false).
      { destruct c as [s|ce ck]; [discriminate|]. cbn [is_element] in *.
        apply Nat.eqb_eq in Hx. apply Nat.eqb_neq. congruence. }
      rewrite Y. step_lists. rewrite is_element_insert, Hx. cbn [andb].
      destruct l as [|d l']; [discriminate|].
      destruct (is_element y d); step_lists;
        rewrite is_element_insert, Hb; reflexivity.
    + specialize (Hc H).
      destruct (is_element y c); step_lists; rewrite Hc;
        rewrite !orb_true_r; reflexivity.
  - specialize (IHl H).
    destruct (is_element y c); step_lists; rewrite IHl;
      rewrite !orb_true_r; reflexivity.
Qed.

(** The node inserted after [x] is next to [x]. *)
Lemma followed_by_insert (x fresh : nat) (b : Element) (kb : list node)
  (n : node) :
  eid b = fresh ->
  In x (inner_ids n) ->
  followed_by x fresh (insert_after x (Elem b kb) n) = true.
Proof.
  intros Eb.
  induction n as [s|e children IH] using node_induction; [intros []|].
  cbn [insert_after followed_by inner_ids].
  induction IH as [|c l Hc Hl IHl]; [intros []|].
  cbn [flat_map]. intros I. apply in_app_or in I.
  destruct I as [I|I].
  - destruct c as [s|ce ck]; [destruct I|].
    rewrite ids_Elem in I. cbn [is_element].
    destruct (Nat.eqb_spec (eid ce) x) as [E|E].
    + step_lists. cbn [insert_after is_element].
      apply Nat.eqb_eq in E. rewrite E, Eb, Nat.eqb_refl. reflexivity.
    + destruct I as [I|I]; [contradiction|].
      step_lists. rewrite (Hc I). rewrite !orb_true_r. reflexivity.
  - specialize (IHl I).
    destruct (is_element x c); step_lists; rewrite IHl;
      rewrite !orb_true_r; reflexivity.
Qed.

Lemma body_contains_inner (doc : node) (x : nat) :
  body_contains doc x = Normal true -> In x (inner_ids doc).
Proof.
  unfold body_contains, body_of.
  destruct doc as [s|e children]; [discriminate|].
  destruct (find is_body children) as [[s|b kids]|] eqn:F; try discriminate.
  apply find_some in F. destruct F as [I _].
  intros H. apply Normal_inj in H. cbn [contains] in H.
  apply existsb_exists in H. destruct H as (p & Ip & Hp).
  apply elements_of_elems in Ip. destruct Ip as (e' & k & rest & -> & Ie).
  cbn [has_id] in Hp. apply Nat.eqb_eq in Hp.
  cbn [inner_ids]. apply in_flat_map. exists (Elem b kids).
  split; [exact I|]. unfold ids. rewrite <- Hp. apply in_map. exact Ie.
Qed.

Lemma map_put_fresh_In (k v : nat) (m : list (nat * nat)) (x b : nat) :
  ~ In k (map fst m) ->
  In (x, b) (map_put k v m) ->
  (In (x, b) m /\ x <> k) \/ (x = k /\ b = v).
Proof.
  induction m as [|[k' v'] m IH]; cbn [map_put map fst]; intros N.
  - intros [H|[]]. injection H as <- <-. right. split; reflexivity.
  - destruct (Nat.eqb_spec k k') as [E|E];
      [exfalso; apply N; left; congruence|].
    intros [H|H].
    + injection H as <- <-. left. split; [left; reflexivity|congruence].
    + destruct (IH (fun I => N (or_intror I)) H) as [[I Nx]|R].
      * left. split; [right; exact I|exact Nx].
      * right. exact R.
Qed.

Section Places.

Variable getComputedStyle : node -> nat -> string -> string.
Variables (l : list PriceCandidate) (results : list ConversionResult)
          (page : node).

(** During a pass, the callback leaves the state as it is or inserts a
    badge; either way the tracked badges stay next to their elements. *)
Lemma inject_one_follows (st st' : state) (c : PriceCandidate) (i : nat) :
  nth_error l i = Some c ->
  badge_pass l results page st ->
  ~ In (element c) (map fst (injectedBadges st)) ->
  badges_follow st ->
  inject_one getComputedStyle st c i = Normal st' ->
  badges_follow st'.
Proof.
  intros Hc Inv New Follow. unfold inject_one.
  destruct (formatted_at i st) as [h|] eqn:F;
    [|intros H; injection H as <-; exact Follow].
  destruct (locate (document st) (element c)) as [[|[e kids] up]|] eqn:L;
    try (intros H; injection H as <-; exact Follow).
  destruct (body_contains (document st) (element c)) as [[|]|] eqn:Body;
    cbn [bind negb]; [| |discriminate];
    [|intros H; injection H as <-; exact Follow].
  destruct (findExistingBadge (element c) ((e, kids) :: up) st)
    as [[badge|]|]; cbn [bind]; [| |discriminate].
  - destruct (locate_elems _ _ _ _ _ L) as [Ie Ee].
    destruct (formatted_at_Some _ _ _ F) as (r & Hr & Hh).
    rewrite (bp_conversions _ _ _ _ Inv) in Hr.
    assert (A : getAttribute e "data-hours-formatted" = Some h).
    { rewrite <- Hh.
      apply (bp_hours _ _ _ _ Inv e i c r); try assumption.
      apply (bp_candidates _ _ _ _ Inv); [exact Ie|].
      rewrite Ee. apply in_map. apply nth_error_In with i. exact Hc. }
    rewrite A, String.eqb_refl. intros H. injection H as <-. exact Follow.
  - destruct (hidden_class e); [intros H; injection H as <-; exact Follow|].
    destruct (includes (toLowerCase (className e)) "pricetopay");
      [intros H; injection H as <-; exact Follow|].
    intros H. injection H as <-.
    destruct (createBadge_is_badge getComputedStyle (css st) (document st)
                (next_id st)
                h (element c)) as (b & -> & B & Eb).
    intros x y I.
    cbn [document injectedBadges with_injectedBadges with_next_id
         with_document] in *.
    apply map_put_fresh_In in I; [|exact New].
    destruct I as [[I Nx]|[-> ->]].
    + apply followed_by_insert_other; [congruence|]. apply Follow. exact I.
    + apply followed_by_insert; [exact Eb|].
      apply body_contains_inner. exact Body.
Qed.

Lemma forEach_follows (first : nat) (rest : list PriceCandidate) :
  forall (i : nat) (done : list nat) (st st' : state),
    (forall j c, nth_error rest j = Some c ->
                 nth_error l (i + j) = Some c) ->
    NoDup (done ++ map element rest) ->
    pass_invariant first done st ->
    badge_pass l results page st ->
    badges_follow st ->
    forEach (inject_one getComputedStyle) rest i st = Normal st' ->
    badges_follow st'.
Proof.
  induction rest as [|c rest IH]; intros i done st st' Sub N P Inv Follow;
    cbn [forEach].
  - intros H. injection H as <-. exact Follow.
  - destruct (inject_one getComputedStyle st c i) as [st1|] eqn:One;
      cbn [bind]; [|discriminate].
    cbn [map] in N.
    assert (Hc : nth_error l i = Some c).
    { specialize (Sub 0%nat c eq_refl). rewrite Nat.add_0_r in Sub.
      exact Sub. }
    assert (New : ~ In (element c) done).
    { intros I. apply (NoDup_remove_2 _ _ _ N). apply in_or_app. left.
      exact I. }
    destruct (inject_one_invariant getComputedStyle first done st st1 c i
                New P One) as (P1 & _ & _).
    replace (done ++ element c :: map element rest)%list
      with ((done ++ [element c]) ++ map element rest)%list in N
      by (rewrite <- app_assoc; reflexivity).
    apply (IH (S i) (done ++ [element c])%list st1 st').
    + intros j c' Hj. replace (S i + j)%nat with (i + S j)%nat by lia.
      apply Sub. exact Hj.
    + exact N.
    + exact P1.
    + apply (inject_one_badge_pass getComputedStyle l results page st st1 c i);
        assumption.
    + apply (inject_one_follows st st1 c i); try assumption.
      intros I. apply New. apply (inv_keys_done _ _ _ P). exact I.
Qed.

End Places.

Section PlacesPass.

Variable getComputedStyle : node -> nat -> string -> string.
Variable innerText : path -> string.

(** X22: after a pass of [processPage] in side-by-side mode that found
    prices, every badge that [injectedBadges] tracks is in the document as
    the next sibling of the price element it is tracked for: the badge is
    placed directly after its price, and a badge placed later for another
    price does not come between them. *)
Theorem side_by_side_badge_follows (settings : storage) (st st' : state) :
  well_formed st ->
  replacedPrices st = [] ->
  isActive st = true ->
  getShowHours settings = true ->
  String.eqb (getDisplayMode settings) "replace" = false ->
  (getHourlyWage settings <=? 0)%float = false ->
  processPage getComputedStyle innerText settings st = Normal st' ->
  detectedPrices st' <> [] ->
  forall x b, In (x, b) (injectedBadges st') ->
              followed_by x b (document st') = true.
Proof.
  intros W R A Show Mode Wage. unfold processPage.
  rewrite A, Wage. cbn [negb].
  destruct (detectPrices innerText (document st)) as [detected|] eqn:D;
    cbn [bind]; [|discriminate].
  pose proof (detectPrices_distinct innerText _ _ D) as N.
  pose proof (detectPrices_all_accepted innerText _ _ D) as Acc.
  destruct detected as [|c detected].
  - intros H. injection H as <-. intros E. contradiction E. reflexivity.
  - set (l := c :: detected) in *.
    set (results := convertPricesToHours (map price l)
                      (VNum (getHourlyWage settings))).
    set (doc2 := store_conversions l results
                   (markPriceElements l (document st))).
    unfold injectBadges. cbn [showHours with_showHours].
    rewrite Show. cbn [negb].
    cbn [displayMode with_displayMode]. rewrite Mode.
    unfold injectBadgesSideBySide, removeBadges.
    cbn [replacedPrices with_document with_detected with_showHours
         with_injectedBadges with_replacedPrices with_displayMode].
    rewrite R. cbn [fold_left].
    match goal with
    | |- forEach _ _ _ ?s = _ -> _ => set (start := s)
    end.
    intros H _. change (detectedPrices start) with l in H.
    assert (Fewer : same_or_fewer (remove_badge_elements doc2) (document st)).
    { eapply same_or_fewer_trans; [apply remove_badge_elements_fewer|].
      eapply same_or_fewer_trans; [apply store_conversions_fewer|].
      apply mark_from_fewer. }
    assert (P : pass_invariant (next_id st) [] start).
    { constructor.
      - apply (well_formed_fewer _ st Fewer) in W.
        destruct W as [W1 W2]. split; [exact W1|exact W2].
      - intros y Hy.
        change (document start) with (remove_badge_elements doc2) in Hy.
        rewrite remove_badge_elements_none in Hy. contradiction.
      - constructor.
      - intros k [].
      - intros y [].
      - simpl. lia.
      - reflexivity. }
    assert (Inv : badge_pass l results (remove_badge_elements doc2) start).
    { constructor.
      - apply remove_badge_elements_again.
      - reflexivity.
      - intros e j c' r I _ Hc Hr He.
        change (document start) with (remove_badge_elements doc2) in I.
        apply elems_remove_badges in I. destruct I as [I _].
        exact (store_conversions_hours l results _ e j c' r N I Hc Hr He).
      - intros e I _.
        change (document start) with (remove_badge_elements doc2) in I.
        apply elems_remove_badges in I. tauto.
      - intros c' I. change (next_id start) with (next_id st).
        rewrite Forall_forall in Acc.
        apply (proj2 W). apply accepted_in_ids. apply Acc. exact I. }
    apply (forEach_follows getComputedStyle l results _ (next_id st) l 0%nat
             [] start st' (fun j c' Hj => Hj) N P Inv); [|exact H].
    intros x b [].
Qed.

End PlacesPass.

End BadgePlaces.

Lemma side_by_side_badge_follows_witness :
  exists st',
    Controller.processPage Examples.no_style Examples.no_innerText
      (Examples.settings 20 "side-by-side")
      (Examples.start Examples.two_prices 5) = Normal st' /\
    Controller.injectedBadges st' = [(4, 5)]%nat /\
    Properties.followed_by 4 5 (Controller.document st') = true.
Proof.
  eexists. split; [vm_compute; reflexivity|].
  split; [vm_compute; reflexivity|].
  assert (W : Controller.well_formed (Examples.start Examples.two_prices 5)).
  { split.
    - change (NoDup [0; 1; 2; 3; 4]%nat).
      repeat (constructor;
              [simpl; intros H;
               repeat (destruct H as [H|H]; [discriminate H|]); exact H|]).
      constructor.
    - change (forall i, In i [0; 1; 2; 3; 4]%nat -> (i < 5)%nat).
      simpl. intros i H. lia. }
  pose proof (side_by_side_badge_follows Examples.no_style
                Examples.no_innerText
                (Examples.settings 20 "side-by-side")
                (Examples.start Examples.two_prices 5) _
                W eq_refl eq_refl eq_refl eq_refl eq_refl
                ltac:(vm_compute; reflexivity)
                ltac:(vm_compute; discriminate)) as F.
  apply F. vm_compute. auto.
Defined.

(** * Replace mode and its revert *)

(** ** The inline style *)

Section StyleFacts.

Import Str Dom.

Lemma assoc_In (l v : string) (block : list (string * string)) :
  assoc l block = Some v -> In (l, v) block.
Proof.
  induction block as [|[k w] block IH]; simpl; [discriminate|].
  destruct (String.eqb_spec l k) as [->|N].
  - intros H. injection H as ->. left. reflexivity.
  - intros H. right. exact (IH H).
Qed.

Lemma assoc_remove_None (l p : string) (block : list (string * string)) :
  assoc l block = None -> assoc l (assoc_remove p block) = None.
Proof.
  intros H. destruct (String.eqb_spec l p) as [->|N].
  - apply assoc_remove_same.
  - rewrite assoc_remove_other by exact N. exact H.
Qed.

Lemma assoc_fold_remove_None (ps : list string) :
  forall (block : list (string * string)) (l : string),
    assoc l block = None ->
    assoc l (fold_left (fun b p => assoc_remove p b) ps block) = None.
Proof.
  induction ps as [|p ps IH]; intros block l H; simpl; [exact H|].
  apply IH. apply assoc_remove_None. exact H.
Qed.

Lemma assoc_fold_remove_in (ps : list string) :
  forall (block : list (string * string)) (l : string),
    In l ps ->
    assoc l (fold_left (fun b p => assoc_remove p b) ps block) = None.
Proof.
  induction ps as [|p ps IH]; intros block l; simpl; [intros []|].
  intros [->|I].
  - apply assoc_fold_remove_None. apply assoc_remove_same.
  - apply IH. exact I.
Qed.

Lemma assoc_fold_remove_other (ps : list string) :
  forall (block : list (string * string)) (l : string),
    ~ In l ps ->
    assoc l (fold_left (fun b p => assoc_remove p b) ps block)
    = assoc l block.
Proof.
  induction ps as [|p ps IH]; intros block l N; simpl; [reflexivity|].
  rewrite IH by (intros I; apply N; right; exact I).
  apply assoc_remove_other. intros ->. apply N. left. reflexivity.
Qed.

Lemma assoc_fold_set_other (ds : list (string * string)) :
  forall (block : list (string * string)) (l : string),
    ~ In l (map fst ds) ->
    assoc l (fold_left (fun b d => assoc_set (fst d) (snd d) b) ds block)
    = assoc l block.
Proof.
  induction ds as [|d ds IH]; intros block l N; simpl; [reflexivity|].
  rewrite IH by (intros I; apply N; right; exact I).
  apply assoc_set_other. intros ->. apply N. left. reflexivity.
Qed.

Lemma assoc_fold_set_in (ds : list (string * string)) :
  forall (block : list (string * string)) (d : string * string),
    NoDup (map fst ds) -> In d ds ->
    assoc (fst d) (fold_left (fun b d => assoc_set (fst d) (snd d) b) ds block)
    = Some (snd d).
Proof.
  induction ds as [|d0 ds IH]; intros block d N; simpl; [intros []|].
  inversion N as [|? ? N1 N2]; subst.
  intros [->|I].
  - rewrite assoc_fold_set_other by exact N1. apply assoc_set_same.
  - apply IH; assumption.
Qed.

Lemma declared_map (block : list (string * string))
  (ds : list (string * string)) :
  (forall d, In d ds -> assoc (fst d) block = Some (snd d)) ->
  declared block (map fst ds) = Some (map snd ds).
Proof.
  induction ds as [|d ds IH]; intros H; simpl; [reflexivity|].
  rewrite (H d (or_introl eq_refl)).
  rewrite IH by (intros d' I; apply H; right; exact I). reflexivity.
Qed.

Lemma declared_ext (ps : list string) (b1 b2 : list (string * string)) :
  (forall l, In l ps -> assoc l b1 = assoc l b2) ->
  declared b1 ps = declared b2 ps.
Proof.
  induction ps as [|p ps IH]; intros H; simpl; [reflexivity|].
  rewrite (H p (or_introl eq_refl)).
  rewrite IH by (intros l I; apply H; right; exact I). reflexivity.
Qed.

Lemma declared_None (ps : list string) (block : list (string * string))
  (l : string) :
  In l ps -> assoc l block = None -> declared block ps = None.
Proof.
  induction ps as [|p ps IH]; simpl; [intros []|].
  intros [->|I] H.
  - rewrite H. reflexivity.
  - rewrite (IH I H). destruct (assoc p block); reflexivity.
Qed.

Lemma declared_values (ps : list string) :
  forall (block : list (string * string)) (vs : list string),
    declared block ps = Some vs ->
    List.length vs = List.length ps /\
    forall d, In d (combine ps vs) -> In d block.
Proof.
  induction ps as [|p ps IH]; intros block vs; simpl.
  - intros H. injection H as <-. split; [reflexivity|intros d []].
  - destruct (assoc p block) as [v|] eqn:A; [|discriminate].
    destruct (declared block ps) as [vs'|] eqn:D; [|discriminate].
    intros H. injection H as <-.
    destruct (IH block vs' D) as [L I]. split; [simpl; congruence|].
    intros d [<-|Hd]; [apply assoc_In; exact A|exact (I d Hd)].
Qed.

Variable css : engine.
Hypothesis law : lawful css.

Lemma affected_not_nil (p : string) : affected css p <> [].
Proof.
  unfold affected. destruct (longhands css p) eqn:L; discriminate.
Qed.

(** Reading a property looks at the properties it stands for only. *)
Lemma style_get_ext (e1 e2 : Element) (p : string) :
  (forall l, In l (affected css p) -> assoc l (style e1) = assoc l (style e2)) ->
  style_get css e1 p = style_get css e2 p.
Proof.
  unfold style_get, affected. intros H.
  destruct (longhands css p) as [|l ls] eqn:L.
  - rewrite (H p (or_introl eq_refl)). reflexivity.
  - rewrite (declared_ext _ _ _ H). reflexivity.
Qed.

(** Writing a property changes the properties it stands for only. *)
Lemma style_set_other (q v : string) (e : Element) (l : string) :
  ~ In l (affected css q) ->
  assoc l (style (style_set css q v e)) = assoc l (style e).
Proof.
  intros N. unfold style_set.
  destruct (String.eqb v "").
  - cbn [style with_style]. apply assoc_fold_remove_other. exact N.
  - destruct (parse css q v) as [ds|] eqn:P; [|reflexivity].
    cbn [style with_style]. apply assoc_fold_set_other.
    rewrite (parse_affected css law _ _ _ P). exact N.
Qed.

Lemma style_get_set_other (p q v : string) (e : Element) :
  (forall a, In a (affected css p) -> ~ In a (affected css q)) ->
  style_get css (style_set css q v e) p = style_get css e p.
Proof.
  intros H. apply style_get_ext. intros l I.
  apply style_set_other. apply H. exact I.
Qed.

Lemma style_get_set_empty (p : string) (e : Element) :
  style_get css (style_set css p "" e) p = "".
Proof.
  unfold style_set. cbn [String.eqb]. unfold style_get, affected.
  cbn [style with_style].
  destruct (longhands css p) as [|l ls] eqn:L.
  - cbn [fold_left]. rewrite assoc_remove_same. reflexivity.
  - rewrite (declared_None (l :: ls) _ l); [reflexivity|left; reflexivity|].
    apply assoc_fold_remove_in. left. reflexivity.
Qed.

(** The properties read after a value was written. *)
Lemma style_get_set_parsed (p v : string) (ds : list (string * string))
  (e : Element) :
  String.eqb v "" = false ->
  parse css p v = Some ds ->
  style_get css (style_set css p v e) p =
  match longhands css p with
  | [] => match ds with d :: _ => snd d | [] => "" end
  | _ => serialize css p (map snd ds)
  end.
Proof.
  intros V P. unfold style_set. rewrite V, P.
  pose proof (parse_affected css law _ _ _ P) as A.
  assert (N : NoDup (map fst ds)).
  { rewrite A. unfold affected.
    destruct (longhands css p) as [|l ls] eqn:L.
    - repeat constructor. intros [].
    - rewrite <- L. apply (longhands_distinct css law). }
  unfold style_get. cbn [style with_style].
  unfold affected in A.
  destruct (longhands css p) as [|l ls] eqn:L.
  - destruct ds as [|d [|d' ds]]; try discriminate.
    injection A as A. cbn [fold_left]. rewrite A at 1.
    rewrite <- A. rewrite assoc_set_same. reflexivity.
  - rewrite <- A.
    rewrite (declared_map _ ds); [reflexivity|].
    intros d I. apply assoc_fold_set_in; assumption.
Qed.

(** Writing back what was read from a block in serialised form gives the
    same reading. *)
Lemma style_roundtrip (p : string) (e0 e : Element) :
  Forall (serialised css) (style e0) ->
  style_get css (style_set css p (style_get css e0 p) e) p
  = style_get css e0 p.
Proof.
  intros S.
  destruct (String.eqb (style_get css e0 p) "") eqn:V.
  - apply String.eqb_eq in V. rewrite V. apply style_get_set_empty.
  - assert (V' : style_get css e0 p <> "") by (apply String.eqb_neq; exact V).
    rewrite Forall_forall in S.
    assert (E : exists ds,
               parse css p (style_get css e0 p) = Some ds /\
               match longhands css p with
               | [] => match ds with d :: _ => snd d | [] => "" end
               | _ => serialize css p (map snd ds)
               end = style_get css e0 p).
    { unfold style_get in V' |- *.
      destruct (longhands css p) as [|l ls] eqn:L.
      - destruct (assoc p (style e0)) as [v|] eqn:A; [|contradiction].
        destruct (S _ (assoc_In _ _ _ A)) as [_ P]. cbn [fst snd] in P.
        exists [(p, v)]. split; [exact P|reflexivity].
      - destruct (declared (style e0) (l :: ls)) as [vs|] eqn:D;
          [|contradiction].
        destruct (declared_values _ _ _ D) as [Len I].
        destruct (serialize_parse css law p vs) as (ds & P & R).
        + rewrite L. discriminate.
        + rewrite L. apply Forall_forall. intros d Hd. apply S. apply I.
          exact Hd.
        + rewrite L. exact Len.
        + exact V'.
        + exists ds. split; [exact P|exact R]. }
    destruct E as (ds & P & R).
    rewrite (style_get_set_parsed p _ ds e V P). exact R.
Qed.

Lemma Forall_assoc_set (P : string * string -> Prop) (k v : string)
  (block : list (string * string)) :
  P (k, v) -> Forall P block -> Forall P (assoc_set k v block).
Proof.
  intros H. induction 1 as [|[k' v'] block Hd Hb IH]; simpl.
  - repeat constructor. exact H.
  - destruct (String.eqb k k'); constructor; assumption.
Qed.

Lemma Forall_assoc_remove (P : string * string -> Prop) (k : string)
  (block : list (string * string)) :
  Forall P block -> Forall P (assoc_remove k block).
Proof.
  induction 1 as [|[k' v'] block Hd Hb IH]; simpl; [constructor|].
  destruct (String.eqb k k'); [exact IH|constructor; assumption].
Qed.

(** Writing a property keeps the block in serialised form. *)
Lemma style_set_serialised (p v : string) (e : Element) :
  Forall (serialised css) (style e) ->
  Forall (serialised css) (style (style_set css p v e)).
Proof.
  intros S. unfold style_set. destruct (String.eqb v "").
  - cbn [style with_style]. generalize (affected css p). intros ps.
    revert S. generalize (style e). 
    induction ps as [|q ps IH]; intros block S; simpl; [exact S|].
    apply IH. apply Forall_assoc_remove. exact S.
  - destruct (parse css p v) as [ds|] eqn:P; [|exact S].
    cbn [style with_style].
    pose proof (parse_serialised css law _ _ _ P) as D. clear P.
    revert S. generalize (style e).
    induction D as [|d ds Hd Hds IH]; intros block S; simpl; [exact S|].
    apply IH. apply Forall_assoc_set; [|exact S].
    destruct d. exact Hd.
Qed.

End StyleFacts.

(** ** Elements with their children *)

Section FrameFacts.

Import Str Dom Controller.

Lemma elems_frames (n : node) : elems n = map fst (frames n).
Proof.
  induction n as [s|e children IH] using node_induction; [reflexivity|].
  cbn [elems frames map fst]. f_equal.
  induction IH as [|c l Hc Hl IHl]; [reflexivity|].
  cbn [flat_map]. rewrite map_app, Hc, IHl. reflexivity.
Qed.

Lemma frames_elems (n : node) (e : Element) (k : list node) :
  In (e, k) (frames n) -> In e (elems n).
Proof.
  intros H. rewrite elems_frames. apply in_map_iff.
  exists (e, k). split; [reflexivity|exact H].
Qed.

Lemma frames_ids (n : node) (e : Element) (k : list node) :
  In (e, k) (frames n) -> In (eid e) (ids n).
Proof. intros H. unfold ids. apply in_map. exact (frames_elems _ _ _ H). Qed.

Lemma frames_ids_all (l : list node) (e : Element) (k : list node) :
  In (e, k) (flat_map frames l) -> In (eid e) (flat_map ids l).
Proof.
  intros H. apply in_flat_map in H. destruct H as (c & Hc & H).
  apply in_flat_map. exists c. split; [exact Hc|].
  exact (frames_ids _ _ _ H).
Qed.

Lemma elements_of_frames (n : node) :
  forall up p, In p (elements_of up n) ->
  exists fr rest, p = fr :: rest /\ In fr (frames n).
Proof.
  induction n as [s|e children IH] using node_induction; intros up p;
    [intros []|].
  cbn [elements_of frames].
  intros [<-|H]; [exists (e, children), up; split; [reflexivity|left; reflexivity]|].
  apply in_flat_map in H. destruct H as (c & Hc & H).
  rewrite Forall_forall in IH.
  destruct (IH c Hc _ _ H) as (fr & rest & -> & I).
  exists fr, rest. split; [reflexivity|]. right.
  apply in_flat_map. exists c. split; assumption.
Qed.

Lemma locate_frames (doc : node) (x : nat) (e : Element) (k : list node)
  (up : path) :
  locate doc x = Some ((e, k) :: up) -> In (e, k) (frames doc) /\ eid e = x.
Proof.
  unfold locate. intros H. apply find_some in H. destruct H as [I H].
  apply elements_of_frames in I. destruct I as (fr & rest & E & I).
  injection E as <- <-. split; [exact I|].
  apply Nat.eqb_eq. exact H.
Qed.

(** An element is contained where its identity is found. *)
Lemma contains_ids (n : node) (x : nat) :
  forall up, existsb (has_id x) (elements_of up n) = true <-> In x (ids n).
Proof.
  induction n as [s|e children IH] using node_induction; intros up.
  - simpl. split; [discriminate|intros []].
  - cbn [elements_of existsb has_id]. rewrite ids_Elem.
    rewrite orb_true_iff, Nat.eqb_eq.
    generalize ((e, children) :: up). intros q.
    split.
    + intros [H|H]; [left; exact H|right].
      apply existsb_exists in H. destruct H as (p & Hp & Hx).
      apply in_flat_map in Hp. destruct Hp as (c & Hc & Hp).
      rewrite Forall_forall in IH. apply in_flat_map. exists c.
      split; [exact Hc|]. apply (IH c Hc q).
      apply existsb_exists. exists p. split; assumption.
    + intros [H|H]; [left; exact H|right].
      apply in_flat_map in H. destruct H as (c & Hc & H).
      rewrite Forall_forall in IH. apply (IH c Hc q) in H.
      apply existsb_exists in H. destruct H as (p & Hp & Hx).
      apply existsb_exists. exists p. split; [|exact Hx].
      apply in_flat_map. exists c. split; assumption.
Qed.

Lemma body_contains_ids (doc : node) (x : nat) :
  body_contains doc x = Normal true <->
  exists r children b kids,
    doc = Elem r children /\
    find is_body children = Some (Elem b kids) /\
    In x (ids (Elem b kids)).
Proof.
  unfold body_contains, body_of. split.
  - destruct doc as [s|r children]; [discriminate|].
    destruct (find is_body children) as [[s|b kids]|] eqn:B; try discriminate.
    intros H. apply Normal_inj in H.
    change (existsb (has_id x)
              (elements_of [(r, children)] (Elem b kids)) = true) in H.
    apply contains_ids in H. exists r, children, b, kids. auto.
  - intros (r & children & b & kids & -> & B & H). rewrite B.
    f_equal.
    change (existsb (has_id x)
              (elements_of [(r, children)] (Elem b kids)) = true).
    apply contains_ids. exact H.
Qed.

(** Fresh nodes have the identities from the next one on. *)
Lemma instantiate_fresh (n : node) :
  forall next,
    (next <= snd (instantiate next n))%nat /\
    forall i, In i (ids (fst (instantiate next n))) ->
              (next <= i < snd (instantiate next n))%nat.
Proof.
  induction n as [s|e children IH] using node_induction; intros next.
  - simpl. split; [lia|intros i []].
  - rewrite instantiate_Elem.
    assert (G : forall m,
               (m <= snd (instantiate_all m children))%nat /\
               forall i, In i (flat_map ids (fst (instantiate_all m children))) ->
                         (m <= i < snd (instantiate_all m children))%nat).
    { induction IH as [|c l Hc Hl IHl]; intros m; cbn [instantiate_all].
      - simpl. split; [lia|intros i []].
      - specialize (Hc m). destruct (instantiate m c) as [c' n1].
        specialize (IHl n1). destruct (instantiate_all n1 l) as [l' n2].
        cbn [fst snd] in *. destruct Hc as [Hc1 Hc2], IHl as [Hl1 Hl2].
        split; [lia|]. intros i Hi. cbn [flat_map] in Hi.
        apply in_app_or in Hi. destruct Hi as [Hi|Hi].
        + specialize (Hc2 i Hi). lia.
        + specialize (Hl2 i Hi). lia. }
    specialize (G (S next)).
    destruct (instantiate_all (S next) children) as [children' next'].
    cbn [fst snd] in *. destruct G as [G1 G2]. split; [lia|].
    intros i. rewrite ids_Elem. cbn [eid].
    intros [<-|Hi]; [lia|]. specialize (G2 i Hi). lia.
Qed.

Lemma instantiate_all_fresh (l : list node) :
  forall next,
    (next <= snd (instantiate_all next l))%nat /\
    forall i, In i (flat_map ids (fst (instantiate_all next l))) ->
              (next <= i < snd (instantiate_all next l))%nat.
Proof.
  induction l as [|c l IH]; intros next; cbn [instantiate_all].
  - simpl. split; [lia|intros i []].
  - pose proof (instantiate_fresh c next) as Hc.
    destruct (instantiate next c) as [c' n1].
    specialize (IH n1). destruct (instantiate_all n1 l) as [l' n2].
    cbn [fst snd] in *. destruct Hc as [Hc1 Hc2], IH as [Hl1 Hl2].
    split; [lia|]. intros i Hi. cbn [flat_map] in Hi.
    apply in_app_or in Hi. destruct Hi as [Hi|Hi].
    + specialize (Hc2 i Hi). lia.
    + specialize (Hl2 i Hi). lia.
Qed.

Section UpdateFrame.

Variables (y : nat) (g : Element -> Element) (kids' : list node).
Hypothesis g_id : forall e, eid (g e) = eid e.

Local Abbreviation U := (update y (fun fr : frame => (g (fst fr), kids'))).

(** The elements after the element [y] was given other children: those
    that were there, the element [y] itself, and those of the new
    children. *)
Lemma frames_update (n : node) (e : Element) (k : list node) :
  In (e, k) (frames (U n)) ->
  (eid e <> y /\ exists k0, In (e, k0) (frames n) /\ k = map U k0) \/
  (exists e0, In e0 (elems n) /\ eid e0 = y /\ e = g e0 /\ k = kids') \/
  In (e, k) (flat_map frames kids').
Proof.
  induction n as [s|e0 children IH] using node_induction; [intros []|].
  cbn [update fst]. destruct (Nat.eqb_spec (eid e0) y) as [E|E].
  - cbn [frames]. intros [H|H].
    + injection H as <- <-. right. left. exists e0.
      repeat split; [left; reflexivity|exact E].
    + right. right. exact H.
  - cbn [frames]. intros [H|H].
    + injection H as <- <-. left. split; [exact E|].
      exists children. split; [left; reflexivity|reflexivity].
    + apply in_flat_map in H. destruct H as (c' & Hc' & H).
      apply in_map_iff in Hc'. destruct Hc' as (c & <- & Hc).
      rewrite Forall_forall in IH.
      destruct (IH c Hc H) as [[N (k0 & I & ->)]|[(e1 & I & Y & -> & ->)|I]].
      * left. split; [exact N|]. exists k0. split; [|reflexivity].
        right. apply in_flat_map. exists c. split; assumption.
      * right. left. exists e1. repeat split; try assumption.
        right. apply in_flat_map. exists c. split; assumption.
      * right. right. exact I.
Qed.

Lemma ids_update (n : node) (i : nat) :
  In i (ids (U n)) -> In i (ids n) \/ In i (flat_map ids kids').
Proof.
  unfold ids at 1. rewrite elems_frames, map_map. intros H.
  apply in_map_iff in H. destruct H as ([e k] & <- & H). cbn [fst].
  destruct (frames_update _ _ _ H)
    as [[_ (k0 & I & _)]|[(e1 & I & Y & -> & _)|I]].
  - left. exact (frames_ids _ _ _ I).
  - left. rewrite g_id. unfold ids. apply in_map. exact I.
  - right. exact (frames_ids_all _ _ _ I).
Qed.

Hypothesis g_tag : forall e, tag (g e) = tag e.

Lemma find_is_body_update (children : list node) :
  match find is_body children with
  | Some c => exists c', find is_body (map U children) = Some c' /\
                         (c' = U c)
  | None => find is_body (map U children) = None
  end.
Proof.
  induction children as [|c l IH]; [reflexivity|].
  cbn [find map].
  assert (B : is_body (U c) = is_body c \/
              (exists e k, c = Elem e k /\ eid e = y)).
  { destruct c as [s|e k]; [left; reflexivity|].
    cbn [update fst]. destruct (Nat.eqb_spec (eid e) y) as [E|E].
    - left. cbn [is_body]. rewrite g_tag. reflexivity.
    - left. reflexivity. }
  destruct B as [B|(e & k & -> & E)].
  - rewrite B. destruct (is_body c); [eauto|exact IH].
  - cbn [update fst]. rewrite (proj2 (Nat.eqb_eq _ _) E).
    cbn [is_body]. rewrite g_tag.
    destruct (String.eqb (tag e) "body").
    + eexists. split; [reflexivity|].
      cbn [update fst]. rewrite (proj2 (Nat.eqb_eq _ _) E). reflexivity.
    + exact IH.
Qed.

(** What the body contains afterwards, it contained before, unless it is one
    of the new children. *)
Lemma body_contains_update (doc : node) (x : nat) :
  body_contains (U doc) x = Normal true ->
  body_contains doc x = Normal true \/ In x (flat_map ids kids').
Proof.
  intros H. apply body_contains_ids in H.
  destruct H as (r & children & b & kids & E & B & I).
  destruct doc as [s|r0 children0]; [discriminate|].
  cbn [update fst] in E.
  destruct (Nat.eqb_spec (eid r0) y) as [Y|Y].
  - injection E as <- <-. right.
    apply find_some in B. destruct B as [B _].
    apply in_flat_map. exists (Elem b kids). split; assumption.
  - injection E as <- <-.
    pose proof (find_is_body_update children0) as F.
    destruct (find is_body children0) as [c|] eqn:B0.
    + destruct F as (c' & F & ->). rewrite F in B. injection B as B.
      rewrite <- B in I. apply ids_update in I.
      destruct I as [I|I]; [left|right; exact I].
      apply body_contains_ids.
      pose proof (find_some _ _ B0) as [_ Hb].
      destruct c as [s|b0 k0]; [discriminate|].
      exists r0, children0, b0, k0. auto.
    + rewrite F in B. discriminate.
Qed.

End UpdateFrame.

Lemma update_absent_eq (y : nat) (f : frame -> frame) (n : node) :
  ~ In y (ids n) -> update y f n = n.
Proof.
  induction n as [s|e children IH] using node_induction; [reflexivity|].
  rewrite ids_Elem. intros N. cbn [update].
  assert (M : map (update y f) children = children).
  { assert (N' : ~ In y (flat_map ids children))
      by (intros I; apply N; right; exact I).
    clear N. induction IH as [|c l Hc Hl IHl]; [reflexivity|].
    cbn [map flat_map] in *. rewrite Hc, IHl; [reflexivity| |].
    - intros I. apply N'. apply in_or_app. right. exact I.
    - intros I. apply N'. apply in_or_app. left. exact I. }
  rewrite M. destruct (Nat.eqb_spec (eid e) y) as [E|E]; [|reflexivity].
  exfalso. apply N. left. exact E.
Qed.

Lemma map_update_absent (y : nat) (f : frame -> frame) (l : list node) :
  ~ In y (flat_map ids l) -> map (update y f) l = l.
Proof.
  induction l as [|c l IH]; [reflexivity|]. cbn [map flat_map]. intros N.
  rewrite update_absent_eq, IH; [reflexivity| |].
  - intros I. apply N. apply in_or_app. right. exact I.
  - intros I. apply N. apply in_or_app. left. exact I.
Qed.

End FrameFacts.

(** ** Reverting *)

Section RevertSteps.

Import Str Dom Detector Controller.

Local Abbreviation bounded s :=
  (forall i, In i (ids (document s)) -> Nat.lt i (next_id s)).

(** The element that [restoreOriginalPrice] leaves. *)
Local Abbreviation restore_element css o e :=
  (removeAttribute "title"
     (removeAttribute "data-price-replaced"
        (style_set css "display" (snap_display o)
           (style_set css "borderRadius" (snap_borderRadius o)
              (style_set css "padding" (snap_padding o)
                 (style_set css "backgroundColor" (snap_backgroundColor o)
                    e)))))).

Lemma restore_element_same (css : engine) (o : snapshot) (e : Element) :
  eid (restore_element css o e) = eid e /\
  tag (restore_element css o e) = tag e.
Proof.
  cbn [removeAttribute eid tag].
  repeat match goal with
         | |- context [style_set ?c ?p ?v ?e0] =>
             let H := fresh in
             destruct (style_set_same c p v e0) as (-> & -> & H); clear H
         end.
  split; reflexivity.
Qed.

Lemma restoreOriginalPrice_unfold (x : nat) (o : snapshot) (s : state) :
  map_get x (replacedPrices s) = Some o ->
  restoreOriginalPrice x s =
  with_next_id (snd (instantiate_all (next_id s) (snap_innerHTML o)))
    (with_document
       (update x
          (fun fr : frame =>
             (restore_element (css s) o (fst fr),
              fst (instantiate_all (next_id s) (snap_innerHTML o))))
          (document s))
       s).
Proof.
  intros G. unfold restoreOriginalPrice. rewrite G.
  destruct (instantiate_all (next_id s) (snap_innerHTML o)). reflexivity.
Qed.

(** One step of the loop of [removeBadges], seen from the element [x]. *)
Lemma restore_one_step (s : state) (y : nat) (o : snapshot) (x : nat) :
  bounded s ->
  bounded (restore_one s (y, o)) /\
  (next_id s <= next_id (restore_one s (y, o)))%nat /\
  css (restore_one s (y, o)) = css s /\
  ((x < next_id s)%nat ->
   body_contains (document (restore_one s (y, o))) x = Normal true ->
   body_contains (document s) x = Normal true) /\
  ((x < next_id s)%nat -> x <> y ->
   forall e k, In (e, k) (frames (document (restore_one s (y, o)))) ->
               eid e = x ->
               exists k0, In (e, k0) (frames (document s)) /\
                          (~ In y (flat_map ids k0) -> k = k0)).
Proof.
  intros B.
  assert (Same : bounded s /\ (next_id s <= next_id s)%nat /\ css s = css s /\
                 ((x < next_id s)%nat ->
                  body_contains (document s) x = Normal true ->
                  body_contains (document s) x = Normal true) /\
                 ((x < next_id s)%nat -> x <> y ->
                  forall e k, In (e, k) (frames (document s)) -> eid e = x ->
                              exists k0, In (e, k0) (frames (document s)) /\
                                         (~ In y (flat_map ids k0) -> k = k0))).
  { repeat split; auto. intros _ _ e k I _. exists k. auto. }
  unfold restore_one. cbn [fst].
  destruct (body_contains (document s) y) as [[|]|]; try exact Same.
  destruct (map_get y (replacedPrices s)) as [o'|] eqn:G.
  2:{ unfold restoreOriginalPrice. rewrite G. exact Same. }
  clear Same. rewrite (restoreOriginalPrice_unfold y o' s G).
  cbn [document next_id css with_next_id with_document].
  pose proof (instantiate_all_fresh (snap_innerHTML o') (next_id s))
    as [F1 F2].
  set (kids' := fst (instantiate_all (next_id s) (snap_innerHTML o'))) in *.
  set (next' := snd (instantiate_all (next_id s) (snap_innerHTML o'))) in *.
  assert (Gid : forall e, eid (restore_element (css s) o' e) = eid e)
    by (intros e; apply restore_element_same).
  assert (Gtag : forall e, tag (restore_element (css s) o' e) = tag e)
    by (intros e; apply restore_element_same).
  repeat apply conj.
  - intros i I.
    apply (ids_update y (fun e => restore_element (css s) o' e) kids' Gid) in I.
    destruct I as [I|I]; [specialize (B i I); unfold Nat.lt in *; lia|].
    specialize (F2 i I). unfold Nat.lt. lia.
  - exact F1.
  - reflexivity.
  - intros X C.
    apply (body_contains_update y (fun e => restore_element (css s) o' e)
             kids' Gid Gtag) in C.
    destruct C as [C|C]; [exact C|]. specialize (F2 x C). lia.
  - intros X N e k I E.
    apply (frames_update y (fun e => restore_element (css s) o' e) kids')
      in I.
    destruct I as [[_ (k0 & I & ->)]|[(e1 & I & Y & -> & _)|I]].
    + exists k0. split; [exact I|]. intros A. apply map_update_absent.
      exact A.
    + exfalso. rewrite Gid in E. congruence.
    + exfalso. apply frames_ids_all in I. specialize (F2 _ I). lia.
Qed.

(** The step that restores [x]. *)
Lemma restore_own (s : state) (x : nat) (o o' : snapshot) :
  bounded s -> (x < next_id s)%nat ->
  map_get x (replacedPrices s) = Some o ->
  body_contains (document s) x = Normal true ->
  forall e k, In (e, k) (frames (document (restore_one s (x, o')))) ->
              eid e = x ->
              (exists e0, In e0 (elems (document s)) /\
                          e = restore_element (css s) o e0) /\
              k = fst (instantiate_all (next_id s) (snap_innerHTML o)).
Proof.
  intros B X G C e k. unfold restore_one. cbn [fst]. rewrite C.
  rewrite (restoreOriginalPrice_unfold x o s G).
  cbn [document with_next_id with_document].
  pose proof (instantiate_all_fresh (snap_innerHTML o) (next_id s))
    as [F1 F2].
  assert (Gid : forall e, eid (restore_element (css s) o e) = eid e)
    by (intros e1; apply restore_element_same).
  intros I E.
  apply (frames_update x (fun e => restore_element (css s) o e)) in I.
  destruct I as [[N _]|[(e1 & I & Y & -> & ->)|I]].
  - contradiction.
  - split; [|reflexivity]. exists e1. split; [exact I|reflexivity].
  - exfalso. apply frames_ids_all in I. specialize (F2 _ I). lia.
Qed.

(** The loop keeps the identities below the next one. *)
Lemma restore_all_forward (l : list (nat * snapshot)) :
  forall s,
    bounded s ->
    bounded (fold_left restore_one l s) /\
    (next_id s <= next_id (fold_left restore_one l s))%nat /\
    css (fold_left restore_one l s) = css s.
Proof.
  induction l as [|[y o] l IH]; intros s B; cbn [fold_left].
  - repeat split; [exact B|lia].
  - destruct (restore_one_step s y o 0%nat B) as (B1 & N1 & C1 & _).
    destruct (IH _ B1) as (B2 & N2 & C2).
    repeat split; [exact B2|lia|congruence].
Qed.

(** What the loop leaves of [x] when it has no entry for [x]: if [x] is in
    the body afterwards, it was in the body before; and [x] is as it was,
    when none of its children is an element of the loop. *)
Lemma restore_all_back (x : nat) (l : list (nat * snapshot)) :
  forall s,
    bounded s -> (x < next_id s)%nat -> ~ In x (map fst l) ->
    (body_contains (document (fold_left restore_one l s)) x = Normal true ->
     body_contains (document s) x = Normal true) /\
    ((forall e k0, In (e, k0) (frames (document s)) -> eid e = x ->
                   forall y, In y (map fst l) -> ~ In y (flat_map ids k0)) ->
     forall e k, In (e, k) (frames (document (fold_left restore_one l s))) ->
                 eid e = x -> In (e, k) (frames (document s))).
Proof.
  induction l as [|[y o] l IH]; intros s B X N; cbn [fold_left].
  - split; auto.
  - cbn [map fst] in N.
    destruct (restore_one_step s y o x B) as (B1 & N1 & C1 & Back & Fr).
    assert (X1 : (x < next_id (restore_one s (y, o)))%nat) by lia.
    destruct (IH _ B1 X1 (fun I => N (or_intror I))) as [Back' Fr'].
    split.
    + intros C. apply (Back X). apply Back'. exact C.
    + intros H e k I E.
      assert (Nxy : x <> y) by (intros ->; apply N; left; reflexivity).
      assert (H1 : forall e k0,
                 In (e, k0) (frames (document (restore_one s (y, o)))) ->
                 eid e = x ->
                 forall z, In z (map fst l) -> ~ In z (flat_map ids k0)).
      { intros e1 k1 I1 E1 z Hz.
        destruct (Fr X Nxy e1 k1 I1 E1) as (k0 & I0 & K).
        rewrite (K (H e1 k0 I0 E1 y (or_introl eq_refl))).
        apply (H e1 k0 I0 E1 z). right. exact Hz. }
      specialize (Fr' H1 e k I E).
      destruct (Fr X Nxy e k Fr' E) as (k0 & I0 & K).
      rewrite (K (H e k0 I0 E y (or_introl eq_refl))). exact I0.
Qed.

Lemma map_get_middle {V} (x : nat) (v : V) (pre post : list (nat * V)) :
  ~ In x (map fst pre) -> map_get x (pre ++ (x, v) :: post)%list = Some v.
Proof.
  induction pre as [|[k w] pre IH]; intros N; cbn [app map_get].
  - rewrite Nat.eqb_refl. reflexivity.
  - cbn [map fst] in N. destruct (Nat.eqb_spec x k) as [E|E].
    + exfalso. apply N. left. congruence.
    + apply IH. intros I. apply N. right. exact I.
Qed.

(** [removeBadges] restores every element that has a snapshot and is in the
    body afterwards: it is an element of the document with the styles of
    the snapshot written back and the two attributes removed, and its
    children are fresh nodes built from the HTML of the snapshot. *)
Lemma removeBadges_restores (s : state) (x : nat) (o : snapshot) :
  bounded s ->
  (forall y, In y (map fst (replacedPrices s)) -> (y < next_id s)%nat) ->
  NoDup (map fst (replacedPrices s)) ->
  In (x, o) (replacedPrices s) ->
  body_contains (document (removeBadges s)) x = Normal true ->
  exists e k up e0 n,
    locate (document (removeBadges s)) x = Some ((e, k) :: up) /\
    e = restore_element (css s) o e0 /\
    k = fst (instantiate_all n (snap_innerHTML o)).
Proof.
  intros B K D I. unfold removeBadges.
  cbn [replacedPrices with_injectedBadges with_document document
       with_replacedPrices].
  set (s0 := with_injectedBadges []
               (with_document (remove_badge_elements (document s)) s)).
  assert (B0 : bounded s0).
  { intros i Hi. cbn [document with_injectedBadges with_document s0] in Hi.
    unfold ids in Hi. apply in_map_iff in Hi. destruct Hi as (e & <- & He).
    apply elems_remove_badges in He. apply B. unfold ids. apply in_map.
    tauto. }
  destruct (in_split _ _ I) as (pre & post & M).
  rewrite M in D. rewrite map_app in D. cbn [map fst] in D.
  pose proof (NoDup_remove_2 _ _ _ D) as Nx.
  assert (Npre : ~ In x (map fst pre))
    by (intros H; apply Nx; apply in_or_app; left; exact H).
  assert (Npost : ~ In x (map fst post))
    by (intros H; apply Nx; apply in_or_app; right; exact H).
  assert (X : (x < next_id s)%nat).
  { apply K. rewrite M, map_app. apply in_or_app. right. left. reflexivity. }
  rewrite M, fold_left_app. cbn [fold_left].
  set (sa := fold_left restore_one pre s0).
  destruct (restore_all_forward pre s0 B0) as (Ba & Na & Ca).
  fold sa in Ba, Na, Ca.
  change (next_id s0) with (next_id s) in Na.
  change (css s0) with (css s) in Ca.
  assert (Ga : map_get x (replacedPrices sa) = Some o).
  { unfold sa. rewrite restore_all_keeps_map.
    change (replacedPrices s0) with (replacedPrices s). rewrite M.
    apply map_get_middle. exact Npre. }
  destruct (restore_one_step sa x o x Ba) as (Bb & Nb & Cb & _).
  set (sb := restore_one sa (x, o)) in *.
  intros C.
  destruct (restore_all_back x post sb Bb ltac:(lia) Npost) as [Back Fr].
  specialize (Back C).
  destruct (body_contains (document sa) x) as [[|]|] eqn:Ca'.
  - pose proof (restore_own sa x o o Ba ltac:(lia) Ga Ca') as Own.
    fold sb in Own.
    destruct (contained_located _ _ C) as (e & k & up & L & E).
    destruct (locate_frames _ _ _ _ _ L) as [If _].
    assert (H : forall e k0, In (e, k0) (frames (document sb)) -> eid e = x ->
                forall y, In y (map fst post) -> ~ In y (flat_map ids k0)).
    { intros e1 k1 I1 E1 y Hy Hin.
      destruct (Own e1 k1 I1 E1) as [_ ->].
      pose proof (instantiate_all_fresh (snap_innerHTML o) (next_id sa))
        as [_ F2].
      specialize (F2 y Hin).
      assert (y < next_id s)%nat; [|lia].
      apply K. rewrite M, map_app. apply in_or_app. right. right. exact Hy. }
    specialize (Fr H e k If E).
    destruct (Own e k Fr E) as [(e0 & _ & He) Hk].
    exists e, k, up, e0, (next_id sa). rewrite <- Ca.
    repeat split; assumption.
  - exfalso. unfold sb, restore_one in Back. cbn [fst] in Back.
    rewrite Ca' in Back. congruence.
  - exfalso. unfold sb, restore_one in Back. cbn [fst] in Back.
    rewrite Ca' in Back. congruence.
Qed.

End RevertSteps.

(** ** Replacing *)

Section ReplacePass.

Import Str Dom Detector Controller.

Variable getComputedStyle : node -> nat -> string -> string.

Local Abbreviation bounded s :=
  (forall i, In i (ids (document s)) -> Nat.lt i (next_id s)).

(** What the loops of replace mode keep: the identities of the document
    and of the replaced elements are below the next one, no element has two
    snapshots, and the inline styles are in serialised form. *)
Local Abbreviation sound s :=
  (bounded s /\
   (forall y, In y (map fst (replacedPrices s)) -> Nat.lt y (next_id s)) /\
   NoDup (map fst (replacedPrices s)) /\
   serialised_styles (css s) (document s)).

Local Abbreviation restore_element css o e :=
  (removeAttribute "title"
     (removeAttribute "data-price-replaced"
        (style_set css "display" (snap_display o)
           (style_set css "borderRadius" (snap_borderRadius o)
              (style_set css "padding" (snap_padding o)
                 (style_set css "backgroundColor" (snap_backgroundColor o)
                    e)))))).

(** The snapshot that [storeOriginalPrice] takes of an element. *)
Local Abbreviation snapshot_of css d e kids :=
  {| snap_textContent := text_of kids;
     snap_innerHTML := innerHTML kids;
     snap_backgroundColor := style_get css e "backgroundColor";
     snap_padding := style_get css e "padding";
     snap_borderRadius := style_get css e "borderRadius";
     snap_display := first_nonempty (style_get css e "display") d |}.

(** The element that [replacePriceWithHours] leaves. *)
Local Abbreviation replace_element css title e :=
  (setAttribute "title" title
     (setAttribute "data-price-replaced" "true"
        (style_set css "marginLeft" "0"
           (style_set css "display" "inline-block"
              (style_set css "borderRadius" "4px"
                 (style_set css "padding" "2px 6px"
                    (style_set css "backgroundColor" "#fef3c7" e))))))).

Lemma map_get_None {V} (x : nat) (m : list (nat * V)) :
  map_get x m = None <-> ~ In x (map fst m).
Proof.
  induction m as [|[k v] m IH]; cbn [map_get map fst].
  - split; [intros _ []|reflexivity].
  - destruct (Nat.eqb_spec x k) as [E|E].
    + split; [discriminate|]. intros N. exfalso. apply N. left. congruence.
    + rewrite IH. split.
      * intros N [H|H]; [congruence|exact (N H)].
      * intros N H. apply N. right. exact H.
Qed.

Lemma text_children_no_ids (h : string) : flat_map ids (text_children h) = [].
Proof. unfold text_children. destruct (String.eqb h ""); reflexivity. Qed.

Lemma text_children_no_frames (h : string) :
  flat_map frames (text_children h) = [].
Proof. unfold text_children. destruct (String.eqb h ""); reflexivity. Qed.

(** Replacing the text of [x] with hours, given its snapshot. *)
Lemma replace_frame_sound (s : state) (x : nat) (title h : string)
  (m : list (nat * snapshot)) :
  lawful (css s) ->
  bounded s -> serialised_styles (css s) (document s) ->
  let doc' :=
    update x
      (fun fr : frame =>
         (replace_element (css s) title (fst fr), text_children h))
      (document s) in
  (forall i, In i (ids doc') -> Nat.lt i (next_id s)) /\
  serialised_styles (css s) doc'.
Proof.
  intros law B S doc'.
  assert (Gid : forall e, eid (replace_element (css s) title e) = eid e).
  { intros e. cbn [setAttribute eid].
    repeat match goal with
           | |- context [style_set ?c ?p ?v ?e0] =>
               let H := fresh in
               destruct (style_set_same c p v e0) as (-> & H); clear H
           end.
    reflexivity. }
  split.
  - intros i I. subst doc'.
    apply (ids_update x (fun e => replace_element (css s) title e) _ Gid) in I.
    rewrite text_children_no_ids in I. destruct I as [I|[]]. exact (B i I).
  - intros e I. subst doc'. rewrite elems_frames in I.
    apply in_map_iff in I. destruct I as ([e1 k1] & <- & I). cbn [fst].
    apply (frames_update x (fun e => replace_element (css s) title e)) in I.
    rewrite text_children_no_frames in I.
    destruct I as [[_ (k0 & I & _)]|[(e0 & I & _ & -> & _)|[]]].
    + apply S. exact (frames_elems _ _ _ I).
    + cbn [setAttribute style].
      repeat apply (style_set_serialised _ law). apply S. exact I.
Qed.

Lemma replacePriceWithHours_effect (x : nat) (h : string) (s : state) :
  lawful (css s) -> sound s ->
  sound (replacePriceWithHours getComputedStyle x h s) /\
  next_id (replacePriceWithHours getComputedStyle x h s) = next_id s /\
  css (replacePriceWithHours getComputedStyle x h s) = css s /\
  (forall y o, In (y, o) (replacedPrices s) ->
               In (y, o) (replacedPrices
                            (replacePriceWithHours getComputedStyle x h s))) /\
  (forall y o,
      In (y, o) (replacedPrices
                   (replacePriceWithHours getComputedStyle x h s)) ->
      In (y, o) (replacedPrices s) \/
      (y = x /\ map_get x (replacedPrices s) = None /\
       exists e kids up,
         locate (document s) x = Some ((e, kids) :: up) /\
         o = snapshot_of (css s) (getComputedStyle (document s) x "display")
               e kids)).
Proof.
  intros law (B & K & D & S).
  unfold replacePriceWithHours, storeOriginalPrice.
  destruct (map_get x (replacedPrices s)) as [o0|] eqn:G.
  - rewrite G.
    destruct (replace_frame_sound s x
                ("Original price: " ++ snap_textContent o0 ++
                 " | Work hours: " ++ h) h (replacedPrices s) law B S)
      as [B' S'].
    cbn [document next_id css replacedPrices with_document].
    repeat split; auto.
  - destruct (locate (document s) x) as [[|[e kids] up]|] eqn:L.
    + rewrite G. repeat split; auto.
    + cbn [replacedPrices with_replacedPrices]. rewrite map_get_put_same.
      match goal with
      | |- context [map_put x ?o _] => set (original := o)
      end.
      destruct (replace_frame_sound s x
                  ("Original price: " ++ snap_textContent original ++
                   " | Work hours: " ++ h) h (replacedPrices s) law B S)
        as [B' S'].
      cbn [document next_id css replacedPrices with_document
           with_replacedPrices].
      rewrite (map_put_new _ original _ G).
      destruct (locate_elems _ _ _ _ _ L) as [Ie Ee].
      repeat split.
      * exact B'.
      * intros y Hy. rewrite map_app in Hy. apply in_app_or in Hy.
        cbn [map fst] in Hy.
        destruct Hy as [Hy|[<-|[]]]; [exact (K y Hy)|].
        apply B. unfold ids. rewrite <- Ee. apply in_map. exact Ie.
      * rewrite map_app. cbn [map fst]. apply NoDup_app; [exact D| |].
        -- repeat constructor. intros [].
        -- intros y Hy [<-|[]]. apply (proj1 (map_get_None _ _) G). exact Hy.
      * exact S'.
      * intros y o Hy. apply in_or_app. left. exact Hy.
      * intros y o Hy. apply in_app_or in Hy.
        destruct Hy as [Hy|[Hy|[]]]; [left; exact Hy|right].
        injection Hy as <- <-.
        split; [reflexivity|]. split; [reflexivity|].
        exists e, kids, up. split; reflexivity.
    + rewrite G. repeat split; auto.
Qed.

Lemma replace_one_effect (s s' : state) (c : PriceCandidate) (i : nat) :
  replace_one getComputedStyle s c i = Normal s' ->
  s' = s \/ exists h, s' = replacePriceWithHours getComputedStyle (element c) h s.
Proof.
  unfold replace_one.
  destruct (formatted_at i s) as [h|];
    [|intros H; apply Normal_inj in H; left; congruence].
  destruct (body_contains (document s) (element c)) as [inside|];
    cbn [bind]; [|discriminate].
  destruct (negb inside);
    [intros H; apply Normal_inj in H; left; congruence|].
  destruct (locate (document s) (element c)) as [[|[e kids] up]|];
    try (intros H; apply Normal_inj in H; left; congruence).
  repeat match goal with
         | |- context [if ?b then _ else _] => destruct b
         end;
    intros H; apply Normal_inj in H; subst s'; eauto.
Qed.

(** The pass of replace mode: every snapshot was there before or was taken
    of a candidate at its turn, of the element as it was then. *)
Lemma forEach_replace_effect (l : list PriceCandidate) :
  forall (i : nat) (s s' : state),
    lawful (css s) -> sound s ->
    forEach (replace_one getComputedStyle) l i s = Normal s' ->
    sound s' /\ next_id s' = next_id s /\ css s' = css s /\
    forall y o,
      In (y, o) (replacedPrices s') ->
      In (y, o) (replacedPrices s) \/
      exists before c after sx e kids up,
        l = (before ++ c :: after)%list /\ element c = y /\
        forEach (replace_one getComputedStyle) before i s = Normal sx /\
        locate (document sx) y = Some ((e, kids) :: up) /\
        Forall (serialised (css s)) (style e) /\
        o = snapshot_of (css s) (getComputedStyle (document sx) y "display")
              e kids.
Proof.
  induction l as [|c l IH]; intros i s s' law So; cbn [forEach].
  - intros H. apply Normal_inj in H. subst s'.
    repeat split; try apply So. intros y o Hy. left. exact Hy.
  - destruct (replace_one getComputedStyle s c i) as [s1|] eqn:One;
      cbn [bind]; [|discriminate].
    intros H.
    assert (Step : sound s1 /\ next_id s1 = next_id s /\ css s1 = css s /\
                   forall y o,
                     In (y, o) (replacedPrices s1) ->
                     In (y, o) (replacedPrices s) \/
                     (y = element c /\
                      exists e kids up,
                        locate (document s) y = Some ((e, kids) :: up) /\
                        o = snapshot_of (css s)
                              (getComputedStyle (document s) y "display")
                              e kids)).
    { destruct (replace_one_effect _ _ _ _ One) as [->|[h ->]].
      - repeat split; try apply So. intros y o Hy. left. exact Hy.
      - destruct (replacePriceWithHours_effect (element c) h s law So)
          as (So1 & N1 & C1 & _ & P1).
        split; [exact So1|]. split; [exact N1|]. split; [exact C1|].
        intros y o Hy. destruct (P1 y o Hy) as [Hy'|(-> & _ & Q)];
          [left; exact Hy'|right]. split; [reflexivity|exact Q]. }
    destruct Step as (So1 & N1 & C1 & P1).
    assert (law1 : lawful (css s1)) by (rewrite C1; exact law).
    destruct (IH (S i) s1 s' law1 So1 H) as (So' & N' & C' & P').
    split; [exact So'|]. split; [congruence|]. split; [congruence|].
    intros y o Hy. destruct (P' y o Hy) as [Hy1|Q].
    + destruct (P1 y o Hy1) as [Hy0|(-> & e & kids & up & L & ->)];
        [left; exact Hy0|right].
      exists [], c, l, s, e, kids, up.
      repeat split; try reflexivity; try assumption.
      destruct So as (_ & _ & _ & S). apply S.
      exact (proj1 (locate_elems _ _ _ _ _ L)).
    + right. destruct Q as (before & c' & after & sx & e & kids & up &
                            -> & E & F & L & Se & ->).
      exists (c :: before), c', after, sx, e, kids, up.
      rewrite C1 in *. repeat split; try reflexivity; try assumption.
      cbn [forEach]. rewrite One. cbn [bind]. exact F.
Qed.

End ReplacePass.

(** ** The engine of the examples *)

Section PlainEngine.

Import Str Dom Examples.

Lemma split_spaces_plain (a : string) :
  no_space a = true -> split_spaces a = [a].
Proof.
  induction a as [|c a IH]; [reflexivity|]. cbn [no_space split_spaces].
  intros H. apply andb_prop in H. destruct H as [C H].
  apply negb_true_iff in C. rewrite C, (IH H). reflexivity.
Qed.

Lemma split_spaces_part (a rest : string) :
  no_space a = true ->
  split_spaces (a ++ " " ++ rest) = a :: split_spaces rest.
Proof.
  induction a as [|c a IH]; [reflexivity|]. cbn [no_space].
  intros H. apply andb_prop in H. destruct H as [C H].
  apply negb_true_iff in C.
  change (String c a ++ " " ++ rest) with (String c (a ++ " " ++ rest)).
  cbn [split_spaces]. rewrite C, (IH H). reflexivity.
Qed.

Lemma canonical_again (p text : string) :
  canonical p (canonical p text) = canonical p text.
Proof.
  unfold canonical.
  destruct (String.eqb p "backgroundColor") eqn:P.
  - apply String.eqb_eq in P. subst p. cbn [andb].
    destruct (String.eqb text "#fef3c7") eqn:T; [reflexivity|].
    change (mem "backgroundColor" lengths) with false. cbn [andb].
    rewrite T. reflexivity.
  - cbn [andb]. destruct (mem p lengths); cbn [andb]; [|reflexivity].
    destruct (String.eqb text "0") eqn:T; [reflexivity|].
    rewrite T. reflexivity.
Qed.

Lemma plain_longhands_cases (p : string) :
  (p = "padding" /\ plain_longhands p = padding_longhands) \/
  (p = "borderRadius" /\ plain_longhands p = borderRadius_longhands) \/
  plain_longhands p = [].
Proof.
  unfold plain_longhands.
  destruct (String.eqb_spec p "padding") as [->|_]; [left; auto|].
  destruct (String.eqb_spec p "borderRadius") as [->|_]; [right; left; auto|].
  right. right. reflexivity.
Qed.

Lemma longhand_of_longhands (p l : string) :
  In l (plain_longhands p) -> plain_longhands l = [].
Proof.
  destruct (plain_longhands_cases p) as [[_ ->]|[[_ ->]| ->]]; simpl;
    intuition (subst; reflexivity).
Qed.

Lemma four_values_length (parts vs : list string) :
  four_values parts = Some vs ->
  List.length vs = 4%nat /\ Forall (fun v => plain_part v = true) vs.
Proof.
  unfold four_values. destruct (forallb plain_part parts) eqn:F; [|discriminate].
  rewrite forallb_forall in F.
  destruct parts as [|a [|b [|c [|d [|]]]]]; try discriminate;
    intros H; injection H as <-; (split; [reflexivity|]);
    repeat constructor; apply F; simpl; auto.
Qed.

Lemma plain_parse_longhand (l text : string) :
  plain_longhands l = [] -> plain_parse l text = Some [(l, canonical l text)].
Proof. intros H. unfold plain_parse. rewrite H. reflexivity. Qed.

Lemma fst_combine {A B} (ps : list A) :
  forall vs : list B,
    List.length vs = List.length ps -> map fst (combine ps vs) = ps.
Proof.
  induction ps as [|p ps IH]; intros [|v vs]; simpl; try discriminate;
    [reflexivity|].
  intros H. injection H as H. rewrite (IH vs H). reflexivity.
Qed.

Lemma plain_lawful : lawful plain_engine.
Proof.
  constructor; cbn [longhands parse serialize plain_engine].
  - intros p. destruct (plain_longhands_cases p) as [[_ ->]|[[_ ->]| ->]];
      unfold padding_longhands, borderRadius_longhands;
      repeat match goal with
             | |- NoDup (_ :: _) =>
                 constructor; [simpl; intuition discriminate|]
             | |- NoDup [] => constructor
             end.
  - intros p text ds. unfold affected. cbn [longhands plain_engine].
    unfold plain_parse.
    destruct (plain_longhands p) as [|l ls] eqn:L.
    + intros H. injection H as <-. reflexivity.
    + destruct (four_values (split_spaces text)) as [vs|] eqn:V;
        [|discriminate].
      intros H.
      assert (E : ds = map (fun d => (fst d, canonical (fst d) (snd d)))
                         (combine (l :: ls) vs)) by congruence.
      subst ds. clear H.
      destruct (four_values_length _ _ V) as [Len _].
      rewrite map_map.
      change (map fst (combine (l :: ls) vs) = l :: ls).
      assert (Len' : List.length (l :: ls) = 4%nat).
      { rewrite <- L.
        destruct (plain_longhands_cases p) as [[_ ->]|[[_ ->]|E]];
          [reflexivity|reflexivity|congruence]. }
      apply fst_combine. congruence.
  - intros p text ds. unfold serialised. cbn [longhands parse plain_engine].
    unfold plain_parse at 1.
    destruct (plain_longhands p) as [|l ls] eqn:L.
    + intros H. injection H as <-. repeat constructor; cbn [fst snd].
      * exact L.
      * rewrite (plain_parse_longhand _ _ L), canonical_again. reflexivity.
    + destruct (four_values (split_spaces text)) as [vs|]; [|discriminate].
      intros H.
      assert (E : ds = map (fun d => (fst d, canonical (fst d) (snd d)))
                         (combine (l :: ls) vs)) by congruence.
      subst ds. clear H.
      apply Forall_forall. intros d Hd. apply in_map_iff in Hd.
      destruct Hd as ([q v] & <- & Hd). cbn [fst snd].
      assert (Lq : plain_longhands q = []).
      { apply (longhand_of_longhands p). rewrite L.
        exact (in_combine_l _ _ _ _ Hd). }
      split; [exact Lq|].
      rewrite (plain_parse_longhand _ _ Lq), canonical_again. reflexivity.
  - intros p vs Lp S Len V.
    assert (Four : exists a b c d, vs = [a; b; c; d]).
    { destruct (plain_longhands_cases p) as [[_ E]|[[_ E]|E]];
        [| |contradiction]; rewrite E in Len;
        destruct vs as [|a [|b [|c [|d [|]]]]]; try discriminate; eauto. }
    destruct Four as (a & b & c & d & ->).
    unfold plain_serialize in V |- *.
    destruct (forallb plain_part [a; b; c; d]) eqn:F; [|contradiction].
    pose proof F as F'. cbn [forallb] in F'.
    repeat (apply andb_prop in F'; destruct F' as [? F']).
    repeat match goal with
           | H : plain_part _ = true |- _ =>
               unfold plain_part in H; apply andb_prop in H; destruct H
           end.
    assert (Canon : forall l v, In (l, v) (combine (plain_longhands p) [a; b; c; d]) ->
                                canonical l v = v).
    { intros l v I. rewrite Forall_forall in S. destruct (S _ I) as [Ll Pl].
      cbn [fst snd longhands parse plain_engine] in Ll, Pl.
      rewrite (plain_parse_longhand _ _ Ll) in Pl. injection Pl as Pl.
      exact Pl. }
    assert (Back : plain_parse p
                     (if String.eqb d b
                      then if String.eqb c a
                           then if String.eqb b a then a else a ++ " " ++ b
                           else a ++ " " ++ b ++ " " ++ c
                      else a ++ " " ++ b ++ " " ++ c ++ " " ++ d)
                   = Some (combine (plain_longhands p) [a; b; c; d])).
    { unfold plain_parse.
      destruct (plain_longhands p) as [|l ls] eqn:L; [contradiction|].
      assert (V4 : four_values
                     (split_spaces
                        (if String.eqb d b
                         then if String.eqb c a
                              then if String.eqb b a then a
                                   else a ++ " " ++ b
                              else a ++ " " ++ b ++ " " ++ c
                         else a ++ " " ++ b ++ " " ++ c ++ " " ++ d))
                   = Some [a; b; c; d]).
      { destruct (String.eqb_spec d b) as [->|_];
          [destruct (String.eqb_spec c a) as [->|_];
           [destruct (String.eqb_spec b a) as [->|_]|]|];
          repeat (rewrite split_spaces_part by assumption);
          rewrite split_spaces_plain by assumption;
          unfold four_values; cbn [forallb]; unfold plain_part;
          repeat match goal with
                 | H : negb _ = true |- _ => rewrite H; clear H
                 | H : no_space _ = true |- _ => rewrite H; clear H
                 end; reflexivity. }
      rewrite V4. f_equal.
      rewrite <- (map_id (combine (l :: ls) [a; b; c; d])) at 2.
      apply map_ext_in. intros [q v] I. cbn [fst snd].
      rewrite (Canon q v I). reflexivity. }
    eexists. split; [exact Back|].
    assert (M : map snd (combine (plain_longhands p) [a; b; c; d])
                = [a; b; c; d]).
    { destruct (plain_longhands_cases p) as [[_ ->]|[[_ ->]|E]];
        [reflexivity|reflexivity|contradiction]. }
    rewrite M, F. reflexivity.
Qed.

Lemma plain_separate :
  separate plain_engine
    ["backgroundColor"; "padding"; "borderRadius"; "display"].
Proof.
  intros p q a Hp Hq N Ia Ib.
  simpl in Hp, Hq.
  destruct Hp as [<-|[<-|[<-|[<-|[]]]]];
    destruct Hq as [<-|[<-|[<-|[<-|[]]]]]; try contradiction;
    simpl in Ia, Ib;
    repeat match goal with
           | H : _ \/ _ |- _ => destruct H
           | H : False |- _ => destruct H
           end; subst; discriminate.
Qed.

End PlainEngine.

(** ** A pass in replace mode and its revert *)

Section RevertPass.

Import Str Dom Detector Controller.

Variable getComputedStyle : node -> nat -> string -> string.

Local Abbreviation restore_element css o e :=
  (removeAttribute "title"
     (removeAttribute "data-price-replaced"
        (style_set css "display" (snap_display o)
           (style_set css "borderRadius" (snap_borderRadius o)
              (style_set css "padding" (snap_padding o)
                 (style_set css "backgroundColor" (snap_backgroundColor o)
                    e)))))).

Local Abbreviation snapshot_of css d e kids :=
  {| snap_textContent := text_of kids;
     snap_innerHTML := innerHTML kids;
     snap_backgroundColor := style_get css e "backgroundColor";
     snap_padding := style_get css e "padding";
     snap_borderRadius := style_get css e "borderRadius";
     snap_display := first_nonempty (style_get css e "display") d |}.

Local Abbreviation restored_properties :=
  ["backgroundColor"; "padding"; "borderRadius"; "display"].

(** What is read from an element after its snapshot was written back. *)
Lemma restored_reads (css : engine) (e0 e1 : Element) (kids0 : list node)
  (d : string) :
  lawful css -> separate css restored_properties ->
  Forall (serialised css) (style e0) ->
  let e2 := restore_element css (snapshot_of css d e0 kids0) e1 in
  style_get css e2 "backgroundColor" = style_get css e0 "backgroundColor" /\
  style_get css e2 "padding" = style_get css e0 "padding" /\
  style_get css e2 "borderRadius" = style_get css e0 "borderRadius" /\
  (style_get css e0 "display" <> "" ->
   style_get css e2 "display" = style_get css e0 "display") /\
  (style_get css e0 "display" = "" -> serialised css ("display", d) ->
   style_get css e2 "display" = d) /\
  getAttribute e2 "data-price-replaced" = None /\
  getAttribute e2 "title" = None.
Proof.
  intros law sep S e2. subst e2.
  cbn [snap_backgroundColor snap_padding snap_borderRadius snap_display].
  assert (apart : forall p q, In p restored_properties ->
                              In q restored_properties -> p <> q ->
                              forall a, In a (affected css p) ->
                                        ~ In a (affected css q)).
  { intros p q Hp Hq N a. exact (sep p q a Hp Hq N). }
  rewrite !style_get_removeAttribute.
  repeat apply conj.
  - rewrite !(style_get_set_other css law "backgroundColor")
      by (apply apart; simpl; auto; discriminate).
    apply style_roundtrip; assumption.
  - rewrite !(style_get_set_other css law "padding")
      by (apply apart; simpl; auto; discriminate).
    apply style_roundtrip; assumption.
  - rewrite !(style_get_set_other css law "borderRadius")
      by (apply apart; simpl; auto; discriminate).
    apply style_roundtrip; assumption.
  - intros N. unfold first_nonempty.
    rewrite (proj2 (String.eqb_neq _ _) N).
    apply style_roundtrip; assumption.
  - intros E [Ld Pd]. cbn [fst snd] in Ld, Pd.
    unfold first_nonempty. rewrite E. cbn [String.eqb].
    destruct (String.eqb d "") eqn:D.
    + apply String.eqb_eq in D. subst d. apply style_get_set_empty.
    + rewrite (style_get_set_parsed css law "display" d _ _ D Pd).
      rewrite Ld. reflexivity.
  - unfold getAttribute, removeAttribute. cbn [attrs].
    rewrite assoc_remove_other by discriminate. apply assoc_remove_same.
  - unfold getAttribute, removeAttribute. cbn [attrs].
    apply assoc_remove_same.
Qed.

(** C6 (amended): after a pass of replace mode that starts with no
    snapshot, as [injectBadges] starts it, [removeBadges] restores every
    element that the pass replaced and that is in the body afterwards.  The
    element has the text content and the HTML that it had at its turn in the
    pass, just before it was replaced; its inline background colour, padding
    and border radius read as they did then; its inline display reads as it
    did then when it had one, and is the computed display otherwise; the
    replaced flag is removed, and an element that had no tooltip then has
    none; and the map of replaced prices is empty. *)
Theorem replace_then_revert (st st1 : state) :
  lawful (css st) ->
  separate (css st) restored_properties ->
  well_formed st ->
  serialised_styles (css st) (document st) ->
  replacedPrices st = [] ->
  injectBadgesReplace getComputedStyle st = Normal st1 ->
  replacedPrices (removeBadges st1) = [] /\
  forall x,
    In x (map fst (replacedPrices st1)) ->
    body_contains (document (removeBadges st1)) x = Normal true ->
    exists before c after sx e0 kids0 up0 e2 kids2 up2,
      detectedPrices st = (before ++ c :: after)%list /\ element c = x /\
      forEach (replace_one getComputedStyle) before 0 st = Normal sx /\
      locate (document sx) x = Some ((e0, kids0) :: up0) /\
      locate (document (removeBadges st1)) x = Some ((e2, kids2) :: up2) /\
      text_of kids2 = text_of kids0 /\
      innerHTML kids2 = innerHTML kids0 /\
      style_get (css st) e2 "backgroundColor"
      = style_get (css st) e0 "backgroundColor" /\
      style_get (css st) e2 "padding" = style_get (css st) e0 "padding" /\
      style_get (css st) e2 "borderRadius"
      = style_get (css st) e0 "borderRadius" /\
      (style_get (css st) e0 "display" <> "" ->
       style_get (css st) e2 "display" = style_get (css st) e0 "display") /\
      (style_get (css st) e0 "display" = "" ->
       serialised (css st)
         ("display", getComputedStyle (document sx) x "display") ->
       style_get (css st) e2 "display"
       = getComputedStyle (document sx) x "display") /\
      getAttribute e2 "data-price-replaced" = None /\
      (getAttribute e0 "title" = None -> getAttribute e2 "title" = None).
Proof.
  intros law sep W S R Pass. split; [reflexivity|].
  intros x Hx C.
  assert (So : (forall i, In i (ids (document st)) -> Nat.lt i (next_id st)) /\
               (forall y, In y (map fst (replacedPrices st)) ->
                          Nat.lt y (next_id st)) /\
               NoDup (map fst (replacedPrices st)) /\
               serialised_styles (css st) (document st)).
  { rewrite R. repeat split; [exact (proj2 W)|intros y []|constructor|exact S]. }
  destruct (forEach_replace_effect getComputedStyle _ _ _ _ law So Pass)
    as ((B1 & K1 & D1 & S1) & N1 & C1 & P1).
  apply in_map_iff in Hx. destruct Hx as ([x' o] & E & Hx).
  cbn [fst] in E. subst x'.
  destruct (removeBadges_restores st1 x o B1 K1 D1 Hx C)
    as (e2 & kids2 & up2 & e1 & n & L2 & He & Hk).
  destruct (P1 x o Hx) as [Hx0|Q]; [rewrite R in Hx0; destruct Hx0|].
  destruct Q as (before & c & after & sx & e0 & kids0 & up0 &
                 Hl & Hc & Hf & L0 & Se & Ho).
  exists before, c, after, sx, e0, kids0, up0, e2, kids2, up2.
  rewrite Ho in Hk, He. cbn [snap_innerHTML] in Hk. rewrite C1 in He.
  destruct (innerHTML_roundtrip kids0 n) as [H1 H2]. rewrite <- Hk in H1, H2.
  destruct (restored_reads (css st) e0 e1 kids0
              (getComputedStyle (document sx) x "display") law sep Se)
    as (R1 & R2 & R3 & R4 & R5 & R6 & R7).
  rewrite <- He in R1, R2, R3, R4, R5, R6, R7.
  repeat split; try assumption.
  intros _. exact R7.
Qed.

(** X16: an element keeps its first snapshot.  When an element is replaced
    and then it and other elements are replaced again, however often and
    with whatever hours, [removeBadges] still restores it to what it was
    before its first replacement, if it is in the body afterwards: its text
    content and HTML, and its inline background colour, padding and border
    radius as they read then. *)
Theorem replace_again_then_revert (st : state) (x : nat) (h : string)
  (steps : list (nat * string)) (e0 : Element) (kids0 : list node)
  (up0 : path) :
  lawful (css st) ->
  separate (css st) restored_properties ->
  well_formed st ->
  serialised_styles (css st) (document st) ->
  (forall y, In y (map fst (replacedPrices st)) -> (y < next_id st)%nat) ->
  NoDup (map fst (replacedPrices st)) ->
  locate (document st) x = Some ((e0, kids0) :: up0) ->
  map_get x (replacedPrices st) = None ->
  let st1 :=
    fold_left
      (fun s step =>
         replacePriceWithHours getComputedStyle (fst step) (snd step) s)
      steps (replacePriceWithHours getComputedStyle x h st) in
  body_contains (document (removeBadges st1)) x = Normal true ->
  exists e2 kids2 up2,
    locate (document (removeBadges st1)) x = Some ((e2, kids2) :: up2) /\
    text_of kids2 = text_of kids0 /\
    innerHTML kids2 = innerHTML kids0 /\
    style_get (css st) e2 "backgroundColor"
    = style_get (css st) e0 "backgroundColor" /\
    style_get (css st) e2 "padding" = style_get (css st) e0 "padding" /\
    style_get (css st) e2 "borderRadius"
    = style_get (css st) e0 "borderRadius" /\
    getAttribute e2 "data-price-replaced" = None /\
    getAttribute e2 "title" = None.
Proof.
  intros law sep W S K D L G st1 C.
  assert (So : (forall i, In i (ids (document st)) -> Nat.lt i (next_id st)) /\
               (forall y, In y (map fst (replacedPrices st)) ->
                          Nat.lt y (next_id st)) /\
               NoDup (map fst (replacedPrices st)) /\
               serialised_styles (css st) (document st)).
  { repeat split; [exact (proj2 W)|exact K|exact D|exact S]. }
  destruct (replacePriceWithHours_effect getComputedStyle x h st law So)
    as (So0 & _ & C0 & _ & _).
  set (o := snapshot_of (css st) (getComputedStyle (document st) x "display")
              e0 kids0).
  assert (I0 : In (x, o)
                 (replacedPrices
                    (replacePriceWithHours getComputedStyle x h st))).
  { unfold replacePriceWithHours, storeOriginalPrice. rewrite G, L.
    cbn [replacedPrices with_replacedPrices]. rewrite map_get_put_same.
    cbn [replacedPrices with_document with_replacedPrices].
    rewrite (map_put_new _ _ _ G). apply in_or_app. right. left. reflexivity. }
  assert (All : forall l s,
             css s = css st ->
             (forall i, In i (ids (document s)) -> Nat.lt i (next_id s)) /\
             (forall y, In y (map fst (replacedPrices s)) ->
                        Nat.lt y (next_id s)) /\
             NoDup (map fst (replacedPrices s)) /\
             serialised_styles (css s) (document s) ->
             In (x, o) (replacedPrices s) ->
             let s' :=
               fold_left
                 (fun s step =>
                    replacePriceWithHours getComputedStyle (fst step)
                      (snd step) s) l s in
             css s' = css st /\
             ((forall i, In i (ids (document s')) -> Nat.lt i (next_id s')) /\
              (forall y, In y (map fst (replacedPrices s')) ->
                         Nat.lt y (next_id s')) /\
              NoDup (map fst (replacedPrices s')) /\
              serialised_styles (css s') (document s')) /\
             In (x, o) (replacedPrices s')).
  { induction l as [|[y hy] l IH]; intros s Cs Ss Is; cbn [fold_left].
    - auto.
    - assert (laws : lawful (css s)) by (rewrite Cs; exact law).
      destruct (replacePriceWithHours_effect getComputedStyle y hy s laws Ss)
        as (Ss1 & _ & Cs1 & Keep & _).
      cbn [fst snd]. apply IH; [congruence|exact Ss1|].
      apply Keep. exact Is. }
  destruct (All steps _ C0 So0 I0) as (C1 & (B1 & K1 & D1 & _) & I1).
  fold st1 in C1, B1, K1, D1, I1.
  destruct (removeBadges_restores st1 x o B1 K1 D1 I1 C)
    as (e2 & kids2 & up2 & e1 & n & L2 & He & Hk).
  exists e2, kids2, up2.
  subst o. cbn [snap_innerHTML] in Hk. rewrite C1 in He.
  destruct (innerHTML_roundtrip kids0 n) as [H1 H2]. rewrite <- Hk in H1, H2.
  assert (Se : Forall (serialised (css st)) (style e0)).
  { apply S. exact (proj1 (locate_elems _ _ _ _ _ L)). }
  destruct (restored_reads (css st) e0 e1 kids0
              (getComputedStyle (document st) x "display") law sep Se)
    as (R1 & R2 & R3 & _ & _ & R6 & R7).
  rewrite <- He in R1, R2, R3, R6, R7.
  repeat split; assumption.
Qed.

End RevertPass.

(** C6 (as stated, refuted): a price without an inline display, on a page
    that displays it inline, is replaced in replace mode, and the mode is
    switched back.  The element is still in the body, but it now has an
    inline display: [storeOriginalPrice] keeps the computed display when
    there is no inline one, and [restoreOriginalPrice] writes what was kept.
    The element is not what it was before the replacement. *)
Lemma revert_writes_display :
  Dom.style_at Examples.plain_engine Examples.one_price 3 "display" = "" /\
  match
    replaced <- Controller.processPage Examples.inline_display
                  Examples.no_innerText (Examples.settings 20 "replace")
                  (Examples.start Examples.one_price 4) ;;
    Controller.setDisplayMode Examples.inline_display
      (Examples.settings 20 "side-by-side") replaced
  with
  | Normal st =>
      Controller.replacedPrices st = [] /\
      Controller.body_contains (Controller.document st) 3 = Normal true /\
      Dom.style_at Examples.plain_engine (Controller.document st) 3 "display"
      = "inline"
  | Throw _ => False
  end.
Proof. vm_compute. repeat split. Qed.

Lemma styled_prices_ready :
  Controller.well_formed
    (Examples.replacing Examples.styled_prices 5 Examples.styled_candidates 20)
  /\
  Dom.serialised_styles Examples.plain_engine Examples.styled_prices.
Proof.
  split; [split|].
  - change (NoDup [0; 1; 2; 3; 4]%nat).
    repeat (constructor;
            [simpl; intros H;
             repeat (destruct H as [H|H]; [discriminate H|]); exact H|]).
    constructor.
  - change (forall i, In i [0; 1; 2; 3; 4]%nat -> (i < 5)%nat).
    simpl. intros i H. lia.
  - intros e H. simpl in H.
    repeat (destruct H as [H|H]; [subst e; cbn [Dom.style]|]);
      try contradiction;
      repeat (constructor; [split; reflexivity|]); constructor.
Qed.

Lemma replace_then_revert_witness :
  exists st1 e0 kids0 up0 e2 kids2 up2,
    Controller.injectBadgesReplace Examples.no_style
      (Examples.replacing Examples.styled_prices 5 Examples.styled_candidates
         20) = Normal st1 /\
    map fst (Controller.replacedPrices st1) = [3; 4]%nat /\
    Dom.locate Examples.styled_prices 3 = Some ((e0, kids0) :: up0) /\
    Dom.locate (Controller.document (Controller.removeBadges st1)) 3
    = Some ((e2, kids2) :: up2) /\
    Dom.text_of kids2 = Dom.text_of kids0 /\
    Dom.innerHTML kids2 = Dom.innerHTML kids0 /\
    Dom.style_get Examples.plain_engine e2 "padding"
    = Dom.style_get Examples.plain_engine e0 "padding" /\
    Dom.style_get Examples.plain_engine e0 "padding" = "1px".
Proof.
  destruct styled_prices_ready as [W S].
  eexists.
  destruct (replace_then_revert Examples.no_style
              (Examples.replacing Examples.styled_prices 5
                 Examples.styled_candidates 20) _
              plain_lawful plain_separate W S eq_refl
              ltac:(vm_compute; reflexivity)) as [_ H].
  destruct (H 3%nat ltac:(vm_compute; auto) ltac:(vm_compute; reflexivity))
    as (before & c & after & sx & e0 & kids0 & up0 & e2 & kids2 & up2 &
        Hl & Hc & Hf & L0 & L2 & T & M & _ & P & _).
  destruct before as [|c0 before].
  2:{ exfalso. cbn [Controller.detectedPrices Examples.replacing app] in Hl.
      injection Hl as E1 E2. subst c0.
      destruct before as [|c1 before]; injection E2 as E2 E3.
      - subst c. discriminate Hc.
      - destruct before; discriminate E3. }
  cbn [Controller.forEach] in Hf. apply Normal_inj in Hf. subst sx.
  exists e0, kids0, up0, e2, kids2, up2.
  split; [reflexivity|]. split; [vm_compute; reflexivity|].
  split; [exact L0|]. split; [exact L2|]. split; [exact T|].
  split; [exact M|]. split; [exact P|].
  cbn [Controller.document Examples.replacing] in L0.
  vm_compute in L0. injection L0 as <- _ _. vm_compute. reflexivity.
Defined.

Lemma replace_again_then_revert_witness :
  exists e0 kids0 up0 e2 kids2 up2,
    Dom.locate Examples.styled_prices 3 = Some ((e0, kids0) :: up0) /\
    Dom.locate
      (Controller.document
         (Controller.removeBadges
            (Controller.replacePriceWithHours Examples.no_style 3 "5h"
               (Controller.replacePriceWithHours Examples.no_style 4 "1h"
                  (Controller.replacePriceWithHours Examples.no_style 3 "2h"
                     (Examples.start Examples.styled_prices 5)))))) 3
    = Some ((e2, kids2) :: up2) /\
    Dom.text_of kids2 = Dom.text_of kids0 /\
    Dom.style_get Examples.plain_engine e2 "backgroundColor"
    = Dom.style_get Examples.plain_engine e0 "backgroundColor".
Proof.
  destruct styled_prices_ready as [[W1 W2] S].
  do 3 eexists.
  assert (L : Dom.locate Examples.styled_prices 3 = Some _)
    by (vm_compute; reflexivity).
  destruct (replace_again_then_revert Examples.no_style
              (Examples.start Examples.styled_prices 5) 3 "2h"
              [(4%nat, "1h"); (3%nat, "5h")] _ _ _
              plain_lawful plain_separate (conj W1 W2) S
              (fun y (H : In y []) => match H with end)
              (NoDup_nil _) L eq_refl
              ltac:(vm_compute; reflexivity))
    as (e2 & kids2 & up2 & L2 & T & _ & B & _).
  exists e2, kids2, up2.
  split; [exact L|]. split; [exact L2|]. split; [exact T|exact B].
Defined.

(** * Two passes in side-by-side mode *)

Section Turns.

Import Str Regex Dom Detector Converter Controller Properties.

Lemma forEach_split {A} (f : state -> A -> nat -> completion state)
  (l1 l2 : list A) :
  forall i st st',
    forEach f (l1 ++ l2) i st = Normal st' ->
    exists s, forEach f l1 i st = Normal s /\
              forEach f l2 (i + List.length l1) s = Normal st'.
Proof.
  induction l1 as [|a l1 IH]; intros i st st'; cbn [app forEach List.length].
  - intros H. exists st. split; [reflexivity|]. rewrite Nat.add_0_r. exact H.
  - destruct (f st a i) as [s1|]; cbn [bind]; [|discriminate].
    intros H. destruct (IH _ _ _ H) as (s & H1 & H2).
    exists s. split; [exact H1|].
    replace (i + S (List.length l1))%nat with (S i + List.length l1)%nat
      by lia.
    exact H2.
Qed.

Lemma map_put_In (k v : nat) (m : list (nat * nat)) (x b : nat) :
  In (x, b) (map_put k v m) -> In (x, b) m \/ (x = k /\ b = v).
Proof.
  induction m as [|[k' v'] m IH]; cbn [map_put].
  - intros [H|[]]. injection H as <- <-. right. split; reflexivity.
  - destruct (Nat.eqb k k').
    + intros [H|H]; [injection H as <- <-; right; split; reflexivity|].
      left. right. exact H.
    + intros [H|H]; [left; left; exact H|].
      destruct (IH H) as [I|R]; [left; right; exact I|right; exact R].
Qed.

Lemma map_put_keeps (k v : nat) (m : list (nat * nat)) (x b : nat) :
  x <> k -> In (x, b) m -> In (x, b) (map_put k v m).
Proof.
  intros N. induction m as [|[k' v'] m IH]; cbn [map_put]; [intros []|].
  destruct (Nat.eqb_spec k k') as [E|E].
  - intros [H|H]; [injection H as <- <-; congruence|right; exact H].
  - intros [H|H]; [left; exact H|right; exact (IH H)].
Qed.

Lemma map_put_has (k v : nat) (m : list (nat * nat)) :
  In (k, v) (map_put k v m).
Proof.
  induction m as [|[k' v'] m IH]; cbn [map_put]; [left; reflexivity|].
  destruct (Nat.eqb k k'); [left; reflexivity|right; exact IH].
Qed.

Lemma map_get_In (x b : nat) (m : list (nat * nat)) :
  In (x, b) m -> map_get x m <> None.
Proof.
  intros I. rewrite map_get_None. intros N. apply N.
  apply in_map_iff. exists (x, b). split; [reflexivity|exact I].
Qed.

Section Turn.

Variable getComputedStyle : node -> nat -> string -> string.
Variables (l : list PriceCandidate) (results : list ConversionResult)
          (page : node).

(** During a pass every candidate's element carries the hours that the
    pass formatted for it. *)
Lemma hours_stored (st : state) (c : PriceCandidate) (i : nat) (h : string)
  (e : Element) (kids : list node) (up : path) :
  nth_error l i = Some c ->
  badge_pass l results page st ->
  formatted_at i st = Some h ->
  locate (document st) (element c) = Some ((e, kids) :: up) ->
  getAttribute e "data-hours-formatted" = Some h.
Proof.
  intros Hc Inv F L.
  destruct (locate_elems _ _ _ _ _ L) as [Ie Ee].
  destruct (formatted_at_Some _ _ _ F) as (r & Hr & Hh).
  rewrite (bp_conversions _ _ _ _ Inv) in Hr.
  rewrite <- Hh.
  apply (bp_hours _ _ _ _ Inv e i c r); try assumption.
  apply (bp_candidates _ _ _ _ Inv); [exact Ie|].
  rewrite Ee. apply in_map. apply nth_error_In with i. exact Hc.
Qed.

(** The callback leaves the state as it is, or it inserts a badge: for a
    candidate with formatted hours whose element is in the body, is shown
    and finds no badge in reach. *)
Lemma inject_one_turn (st st' : state) (c : PriceCandidate) (i : nat) :
  nth_error l i = Some c ->
  badge_pass l results page st ->
  inject_one getComputedStyle st c i = Normal st' ->
  st' = st \/
  exists h p,
    formatted_at i st = Some h /\
    presentable i (element c) p st /\ shown p /\
    findExistingBadge (element c) p st = Normal None /\
    st' = with_badge getComputedStyle h (element c) st.
Proof.
  intros Hc Inv. unfold inject_one.
  destruct (formatted_at i st) as [h|] eqn:F;
    [|intros H; injection H as <-; left; reflexivity].
  destruct (locate (document st) (element c)) as [[|[e kids] up]|] eqn:L;
    try (intros H; injection H as <-; left; reflexivity).
  destruct (body_contains (document st) (element c)) as [[|]|] eqn:Body;
    cbn [bind negb]; [| |discriminate];
    [|intros H; injection H as <-; left; reflexivity].
  destruct (findExistingBadge (element c) ((e, kids) :: up) st)
    as [[badge|]|] eqn:FB; cbn [bind]; [| |discriminate].
  - rewrite (hours_stored st c i h e kids up Hc Inv F L), String.eqb_refl.
    intros H. injection H as <-. left. reflexivity.
  - destruct (hidden_class e) eqn:Hid;
      [intros H; injection H as <-; left; reflexivity|].
    destruct (includes (toLowerCase (className e)) "pricetopay") eqn:Pay;
      [intros H; injection H as <-; left; reflexivity|].
    intros H. injection H as <-. right.
    exists h, ((e, kids) :: up).
    split; [reflexivity|].
    split; [split; [rewrite F; discriminate|split; assumption]|].
    split; [split; assumption|].
    split; [exact FB|reflexivity].
Qed.

(** A candidate that finds a badge in reach leaves the state as it is. *)
Lemma inject_one_found (st : state) (c : PriceCandidate) (i : nat) (p : path)
  (b : nat) :
  nth_error l i = Some c ->
  badge_pass l results page st ->
  presentable i (element c) p st ->
  findExistingBadge (element c) p st = Normal (Some b) ->
  inject_one getComputedStyle st c i = Normal st.
Proof.
  intros Hc Inv (F & L & Body) FB. unfold inject_one.
  destruct (formatted_at i st) as [h|] eqn:Fh; [|contradiction F; reflexivity].
  rewrite L. destruct p as [|[e kids] up]; [reflexivity|].
  rewrite Body. cbn [bind negb].
  rewrite (hours_stored st c i h e kids up Hc Inv Fh L), String.eqb_refl.
  unfold path, frame in *. rewrite FB. reflexivity.
Qed.

(** A candidate that is shown and finds no badge in reach gets one. *)
Lemma inject_one_inserts (st : state) (c : PriceCandidate) (i : nat)
  (p : path) :
  presentable i (element c) p st -> shown p ->
  findExistingBadge (element c) p st = Normal None ->
  exists h, inject_one getComputedStyle st c i
            = Normal (with_badge getComputedStyle h (element c) st).
Proof.
  intros (F & L & Body) S FB. unfold inject_one.
  destruct (formatted_at i st) as [h|]; [|contradiction F; reflexivity].
  exists h. rewrite L. destruct p as [|[e kids] up]; [destruct S|].
  destruct S as [Hid Pay].
  rewrite Body. cbn [bind negb]. rewrite Hid, Pay.
  unfold path, frame in *. rewrite FB. reflexivity.
Qed.

Lemma with_badge_present (st : state) (h : string) (x : nat) :
  body_contains (document st) x = Normal true ->
  badges_present st ->
  badges_present (with_badge getComputedStyle h x st).
Proof.
  intros Body Q y b I.
  unfold with_badge in *.
  cbn [document injectedBadges with_injectedBadges with_next_id
       with_document] in *.
  apply In_count_occ. rewrite count_occ_badge_ids, count_insert.
  apply map_put_In in I. destruct I as [I|[-> ->]].
  - pose proof (Q y b I) as H. apply In_count_occ in H.
    rewrite count_occ_badge_ids in H. lia.
  - destruct (createBadge_is_badge getComputedStyle (css st) (document st)
                (next_id st) h x) as (bb & -> & B & Eb).
    rewrite count_where_Elem. unfold has_eid at 2.
    rewrite B, Eb, Nat.eqb_refl. cbn [andb].
    pose proof (body_contains_inner _ _ Body) as H.
    apply In_count_occ in H. nia.
Qed.

(** Through the rest of the loop the tracked badges stay badge elements of
    the document, and what is tracked stays tracked. *)
Lemma forEach_turns (first : nat) (rest : list PriceCandidate) :
  forall (i : nat) (done : list nat) (st st' : state),
    (forall j c, nth_error rest j = Some c ->
                 nth_error l (i + j) = Some c) ->
    NoDup (done ++ map element rest) ->
    pass_invariant first done st ->
    badge_pass l results page st ->
    badges_present st ->
    forEach (inject_one getComputedStyle) rest i st = Normal st' ->
    badges_present st' /\
    forall x b, In (x, b) (injectedBadges st) ->
                In (x, b) (injectedBadges st').
Proof.
  induction rest as [|c rest IH]; intros i done st st' Sub N P Inv Q;
    cbn [forEach].
  - intros H. injection H as <-. split; [exact Q|auto].
  - destruct (inject_one getComputedStyle st c i) as [st1|] eqn:One;
      cbn [bind]; [|discriminate].
    cbn [map] in N.
    assert (Hc : nth_error l i = Some c).
    { specialize (Sub 0%nat c eq_refl). rewrite Nat.add_0_r in Sub.
      exact Sub. }
    assert (New : ~ In (element c) done).
    { intros I. apply (NoDup_remove_2 _ _ _ N). apply in_or_app. left.
      exact I. }
    destruct (inject_one_invariant getComputedStyle first done st st1 c i
                New P One) as (P1 & _ & _).
    replace (done ++ element c :: map element rest)%list
      with ((done ++ [element c]) ++ map element rest)%list in N
      by (rewrite <- app_assoc; reflexivity).
    pose proof (inject_one_badge_pass getComputedStyle l results page
                  st st1 c i Hc Inv One) as Inv1.
    assert (Step : badges_present st1 /\
                   forall x b, In (x, b) (injectedBadges st) ->
                               In (x, b) (injectedBadges st1)).
    { destruct (inject_one_turn st st1 c i Hc Inv One)
        as [->|(h & p & _ & (_ & _ & Body) & _ & _ & ->)].
      - split; [exact Q|auto].
      - split; [apply with_badge_present; assumption|].
        intros x b I. unfold with_badge.
        cbn [injectedBadges with_injectedBadges].
        apply map_put_keeps; [|exact I].
        intros ->. apply New. apply (inv_keys_done _ _ _ P).
        apply in_map_iff. exists (element c, b). split; [reflexivity|exact I]. }
    destruct Step as [Q1 K1].
    intros H.
    destruct (IH (S i) (done ++ [element c])%list st1 st') as [Q' K'];
      try assumption.
    + intros j c' Hj. replace (S i + j)%nat with (i + S j)%nat by lia.
      apply Sub. exact Hj.
    + split; [exact Q'|]. intros x b I. apply K'. apply K1. exact I.
Qed.

(** The turn of one candidate in a pass over [l], which is handed a state
    with no tracked badge. *)
Lemma pass_turn (first : nat) (start st2 : state)
  (before after : list PriceCandidate) (c : PriceCandidate) :
  l = (before ++ c :: after)%list ->
  NoDup (map element l) ->
  pass_invariant first [] start ->
  badge_pass l results page start ->
  injectedBadges start = [] ->
  forEach (inject_one getComputedStyle) l 0 start = Normal st2 ->
  exists s,
    forEach (inject_one getComputedStyle) before 0 start = Normal s /\
    forEach (inject_one getComputedStyle) (c :: after) (List.length before) s
    = Normal st2 /\
    (map_get (element c) (injectedBadges st2) <> None <->
     exists p, presentable (List.length before) (element c) p s /\
               shown p /\
               findExistingBadge (element c) p s = Normal None) /\
    (forall p b, presentable (List.length before) (element c) p s ->
                 findExistingBadge (element c) p s = Normal (Some b) ->
                 inject_one getComputedStyle s c (List.length before)
                 = Normal s).
Proof.
  intros El N P Inv Empty H.
  assert (Q : badges_present start) by (intros x b I; rewrite Empty in I; destruct I).
  rewrite El in H. destruct (forEach_split _ _ _ _ _ _ H) as (s & H1 & H2).
  cbn [Nat.add] in H2.
  exists s. split; [exact H1|]. split; [exact H2|].
  assert (Sub1 : forall j c', nth_error before j = Some c' ->
                              nth_error l (0 + j) = Some c').
  { intros j c' Hj. rewrite El. cbn [Nat.add].
    rewrite nth_error_app1; [exact Hj|].
    apply nth_error_Some. congruence. }
  assert (Hc : nth_error l (List.length before) = Some c).
  { rewrite El. rewrite nth_error_app2 by lia.
    rewrite Nat.sub_diag. reflexivity. }
  assert (Sub2 : forall j c', nth_error after j = Some c' ->
                   nth_error l (S (List.length before) + j) = Some c').
  { intros j c' Hj. rewrite El. rewrite nth_error_app2 by lia.
    replace (S (List.length before) + j - List.length before)%nat
      with (S j) by lia.
    exact Hj. }
  rewrite El, map_app in N. cbn [map] in N.
  assert (N1 : NoDup ([] ++ map element before)).
  { cbn [app]. apply NoDup_app_remove_r in N. exact N. }
  destruct (injectBadgesSideBySide_invariant getComputedStyle first before []
              0 start s N1 P H1) as (Ps & _ & _).
  cbn [app] in Ps.
  pose proof (forEach_badge_pass getComputedStyle l results page before 0
                start s Sub1 Inv H1) as Invs.
  destruct (forEach_turns first before 0 [] start s Sub1 N1 P Inv Q H1)
    as [Qs _].
  assert (New : ~ In (element c) (map element before ++ map element after)).
  { exact (NoDup_remove_2 _ _ _ N). }
  pose proof (NoDup_remove_1 _ _ _ N) as N2.
  cbn [forEach] in H2.
  destruct (inject_one getComputedStyle s c (List.length before))
    as [s'|] eqn:One; cbn [bind] in H2; [|discriminate].
  split.
  - destruct (inject_one_turn s s' c _ Hc Invs One)
      as [->|(h & p & F & Pr & Sh & FB & ->)].
    + split.
      * intros G. exfalso. apply G. apply map_get_None.
        destruct (injectBadgesSideBySide_invariant getComputedStyle first
                    after (map element before) _ s st2 N2 Ps H2)
          as (P2 & _ & _).
        intros I. apply New. apply (inv_keys_done _ _ _ P2). exact I.
      * intros (p & Pr & Sh & FB). exfalso.
        destruct (inject_one_inserts s c _ p Pr Sh FB) as (h & E).
        rewrite One in E. apply Normal_inj in E.
        apply (f_equal next_id) in E. unfold with_badge in E.
        cbn [next_id with_injectedBadges with_next_id] in E. lia.
    + split; [intros _; exists p; split; [exact Pr|split; assumption]|].
      intros _.
      assert (Ps' : pass_invariant first (map element before ++ [element c])
                      (with_badge getComputedStyle h (element c) s)).
      { apply (inject_one_invariant getComputedStyle first
                 (map element before) s _ c (List.length before)); auto.
        intros I. apply New. apply in_or_app. left. exact I. }
      assert (N3 : NoDup ((map element before ++ [element c])
                          ++ map element after)).
      { rewrite <- app_assoc. exact N. }
      destruct (forEach_turns first after (S (List.length before))
                  (map element before ++ [element c])%list
                  (with_badge getComputedStyle h (element c) s) st2
                  Sub2 N3 Ps') as [_ K]; try assumption.
      * apply (inject_one_badge_pass getComputedStyle l results page s _ c
                 (List.length before)); assumption.
      * apply with_badge_present; [|exact Qs]. apply Pr.
      * apply (map_get_In _ (next_id s)). apply K.
        unfold with_badge. cbn [injectedBadges with_injectedBadges].
        apply map_put_has.
  - intros p b Pr FB. rewrite <- One.
    exact (inject_one_found s c _ p b Hc Invs Pr FB).
Qed.

(** At the end of such a pass every tracked badge is a badge element of the
    document and the next sibling of its price element. *)
Lemma pass_end (first : nat) (start st2 : state) :
  NoDup (map element l) ->
  pass_invariant first [] start ->
  badge_pass l results page start ->
  injectedBadges start = [] ->
  forEach (inject_one getComputedStyle) l 0 start = Normal st2 ->
  pass_invariant first (map element l) st2 /\
  badges_follow st2 /\ badges_present st2.
Proof.
  intros N P Inv Empty H.
  assert (Q : badges_present start)
    by (intros x b I; rewrite Empty in I; destruct I).
  assert (Fo : badges_follow start)
    by (intros x b I; rewrite Empty in I; destruct I).
  split; [|split].
  - exact (proj1 (injectBadgesSideBySide_invariant getComputedStyle first l
                    [] 0 start st2 N P H)).
  - exact (forEach_follows getComputedStyle l results page first l 0%nat
             [] start st2 (fun j c' Hj => Hj) N P Inv Fo H).
  - exact (proj1 (forEach_turns first l 0 [] start st2
                    (fun j c' Hj => Hj) N P Inv Q H)).
Qed.

End Turn.

Section TwoPasses.

Variable getComputedStyle : node -> nat -> string -> string.
Variable innerText : path -> string.

(** The state that a pass of [processPage] in side-by-side mode hands to
    the loop of [injectBadgesSideBySide]: the badges of earlier passes are
    removed and none is tracked. *)
Lemma side_by_side_start (settings : storage) (st st' : state) :
  well_formed st ->
  replacedPrices st = [] ->
  isActive st = true ->
  getShowHours settings = true ->
  String.eqb (getDisplayMode settings) "replace" = false ->
  (getHourlyWage settings <=? 0)%float = false ->
  processPage getComputedStyle innerText settings st = Normal st' ->
  detectedPrices st' <> [] ->
  exists start results page,
    forEach (inject_one getComputedStyle) (detectedPrices st') 0 start
    = Normal st' /\
    NoDup (map element (detectedPrices st')) /\
    pass_invariant (next_id st) [] start /\
    badge_pass (detectedPrices st') results page start /\
    injectedBadges start = [] /\
    count_badges (document start) = 0%nat.
Proof.
  intros W R A Show Mode Wage. unfold processPage.
  rewrite A, Wage. cbn [negb].
  destruct (detectPrices innerText (document st)) as [detected|] eqn:D;
    cbn [bind]; [|discriminate].
  pose proof (detectPrices_distinct innerText _ _ D) as N.
  pose proof (detectPrices_all_accepted innerText _ _ D) as Acc.
  destruct detected as [|c detected].
  - intros H. injection H as <-. intros E. contradiction E. reflexivity.
  - set (l := c :: detected) in *.
    set (results := convertPricesToHours (map price l)
                      (VNum (getHourlyWage settings))).
    set (doc2 := store_conversions l results
                   (markPriceElements l (document st))).
    unfold injectBadges. cbn [showHours with_showHours].
    rewrite Show. cbn [negb].
    cbn [displayMode with_displayMode]. rewrite Mode.
    unfold injectBadgesSideBySide, removeBadges.
    cbn [replacedPrices with_document with_detected with_showHours
         with_injectedBadges with_replacedPrices with_displayMode].
    rewrite R. cbn [fold_left].
    match goal with
    | |- forEach _ _ _ ?s = _ -> _ => set (start := s)
    end.
    intros H _. change (detectedPrices start) with l in H.
    assert (Fewer : same_or_fewer (remove_badge_elements doc2) (document st)).
    { eapply same_or_fewer_trans; [apply remove_badge_elements_fewer|].
      eapply same_or_fewer_trans; [apply store_conversions_fewer|].
      apply mark_from_fewer. }
    assert (P : pass_invariant (next_id st) [] start).
    { constructor.
      - apply (well_formed_fewer _ st Fewer) in W.
        destruct W as [W1 W2]. split; [exact W1|exact W2].
      - intros y Hy.
        change (document start) with (remove_badge_elements doc2) in Hy.
        rewrite remove_badge_elements_none in Hy. contradiction.
      - constructor.
      - intros k [].
      - intros y [].
      - simpl. lia.
      - reflexivity. }
    assert (Inv : badge_pass l results (remove_badge_elements doc2) start).
    { constructor.
      - apply remove_badge_elements_again.
      - reflexivity.
      - intros e j c' r I _ Hc Hr He.
        change (document start) with (remove_badge_elements doc2) in I.
        apply elems_remove_badges in I. destruct I as [I _].
        exact (store_conversions_hours l results _ e j c' r N I Hc Hr He).
      - intros e I _.
        change (document start) with (remove_badge_elements doc2) in I.
        apply elems_remove_badges in I. tauto.
      - intros c' I. change (next_id start) with (next_id st).
        rewrite Forall_forall in Acc.
        apply (proj2 W). apply accepted_in_ids. apply Acc. exact I. }
    assert (El : detectedPrices st' = l).
    { destruct (injectBadgesSideBySide_invariant getComputedStyle (next_id st)
                  l [] 0 start st' N P H) as (_ & E & _).
      exact E. }
    exists start, results, (remove_badge_elements doc2).
    rewrite El.
    split; [exact H|]. split; [exact N|]. split; [exact P|].
    split; [exact Inv|]. split; [reflexivity|].
    unfold count_badges.
    change (document start) with (remove_badge_elements doc2).
    rewrite remove_badge_elements_none. reflexivity.
Qed.

(** C5 (amended): two runs of the pipeline in side-by-side mode leave
    exactly one badge for every detected price element that, at its turn in
    the second run, has formatted hours, is in the body, is shown and finds
    no badge in reach, and none of its own for any other element; an element
    that finds a badge in reach leaves the document and that badge as they
    are.  After the second run the tracked elements are pairwise distinct
    detected elements; every badge element of the document is a tracked
    badge created by the second run (none of the first run is left), and the
    badges are no more than the detected elements; every tracked badge is in
    the document once, as the next sibling of its price element.  The second
    run hands to its loop a state [start] without badge elements and without
    tracked badges; the candidate [c] has its turn in the state [s] that the
    candidates [before] it leave, and it is tracked at the end exactly when
    in [s] it is presentable, shown and [findExistingBadge] finds nothing. *)
Theorem side_by_side_twice (settings : storage) (st0 st1 st2 : state) :
  well_formed st0 ->
  replacedPrices st0 = [] ->
  isActive st0 = true ->
  getShowHours settings = true ->
  String.eqb (getDisplayMode settings) "replace" = false ->
  (getHourlyWage settings <=? 0)%float = false ->
  processPage getComputedStyle innerText settings st0 = Normal st1 ->
  processPage getComputedStyle innerText settings st1 = Normal st2 ->
  detectedPrices st2 <> [] ->
  NoDup (map fst (injectedBadges st2)) /\
  incl (map fst (injectedBadges st2)) (map element (detectedPrices st2)) /\
  (forall b, In b (badge_ids (document st2)) ->
             In b (map snd (injectedBadges st2)) /\ (next_id st1 <= b)%nat) /\
  (count_badges (document st2) <= List.length (detectedPrices st2))%nat /\
  (forall x b, In (x, b) (injectedBadges st2) ->
               followed_by x b (document st2) = true /\
               count_occ Nat.eq_dec (badge_ids (document st2)) b = 1%nat) /\
  exists start,
    count_badges (document start) = 0%nat /\
    injectedBadges start = [] /\
    forall before c after,
      detectedPrices st2 = (before ++ c :: after)%list ->
      exists s,
        forEach (inject_one getComputedStyle) before 0 start = Normal s /\
        forEach (inject_one getComputedStyle) (c :: after)
          (List.length before) s = Normal st2 /\
        (map_get (element c) (injectedBadges st2) <> None <->
         exists p, presentable (List.length before) (element c) p s /\
                   shown p /\
                   findExistingBadge (element c) p s = Normal None) /\
        (forall p b, presentable (List.length before) (element c) p s ->
                     findExistingBadge (element c) p s = Normal (Some b) ->
                     inject_one getComputedStyle s c (List.length before)
                     = Normal s).
Proof.
  intros W R A Show Mode Wage P1 P2 N.
  destruct (side_by_side_pass getComputedStyle innerText settings st0 st1
              W R A Show Mode Wage P1) as (W1 & R1 & A1 & _ & _).
  destruct (side_by_side_start settings st1 st2 W1 R1 A1 Show Mode Wage P2 N)
    as (start & results & page & H & D & P & Inv & Empty & Zero).
  destruct (pass_end getComputedStyle _ results page (next_id st1) start st2
              D P Inv Empty H) as (Pe & Fo & Q).
  split; [exact (inv_keys_distinct _ _ _ Pe)|].
  split; [exact (inv_keys_done _ _ _ Pe)|].
  split.
  { intros b I. pose proof (inv_tracked _ _ _ Pe b I) as T.
    split; [exact T|]. exact (inv_values_fresh _ _ _ Pe b T). }
  split.
  { rewrite <- (length_map element). exact (pass_invariant_count _ _ _ Pe). }
  split.
  { intros x b I. split; [exact (Fo x b I)|].
    pose proof (Q x b I) as Ib. apply In_count_occ in Ib.
    pose proof (badge_ids_NoDup _ (proj1 (inv_well_formed _ _ _ Pe))) as Nb.
    rewrite NoDup_count in Nb. specialize (Nb b). lia. }
  exists start. split; [exact Zero|]. split; [exact Empty|].
  intros before c after El.
  exact (pass_turn getComputedStyle _ results page (next_id st1) start st2
           before after c El D P Inv Empty H).
Qed.

End TwoPasses.

End Turns.

(** C5 (as stated, refuted): on a page with two adjacent price elements, both
    are detected by the second run, but only one badge is in the document:
    the first element finds the badge of the second among its following
    siblings and takes it over. *)
Lemma side_by_side_twice_shares_badge :
  match
    st1 <- Controller.processPage Examples.no_style Examples.no_innerText
             (Examples.settings 20 "side-by-side")
             (Examples.start Examples.two_prices 5) ;;
    Controller.processPage Examples.no_style Examples.no_innerText
      (Examples.settings 20 "side-by-side") st1
  with
  | Normal st =>
      map Detector.element (Controller.detectedPrices st) = [4; 3]%nat /\
      Controller.count_badges (Controller.document st) = 1%nat /\
      Controller.injectedBadges st = [(4, 6)]%nat
  | Throw _ => False
  end.
Proof. vm_compute. repeat split. Qed.

Lemma side_by_side_twice_witness :
  exists st1 st2,
    Controller.processPage Examples.no_style Examples.no_innerText
      (Examples.settings 20 "side-by-side")
      (Examples.start Examples.two_prices 5) = Normal st1 /\
    Controller.processPage Examples.no_style Examples.no_innerText
      (Examples.settings 20 "side-by-side") st1 = Normal st2 /\
    NoDup (map fst (Controller.injectedBadges st2)) /\
    (Controller.count_badges (Controller.document st2)
     <= List.length (Controller.detectedPrices st2))%nat /\
    Properties.followed_by 4 6 (Controller.document st2) = true /\
    count_occ Nat.eq_dec
      (Controller.badge_ids (Controller.document st2)) 6%nat = 1%nat.
Proof.
  do 2 eexists.
  split; [vm_compute; reflexivity|].
  split; [vm_compute; reflexivity|].
  assert (W : Controller.well_formed (Examples.start Examples.two_prices 5)).
  { split.
    - change (NoDup [0; 1; 2; 3; 4]%nat).
      repeat (constructor;
              [simpl; intros H;
               repeat (destruct H as [H|H]; [discriminate H|]); exact H|]).
      constructor.
    - change (forall i, In i [0; 1; 2; 3; 4]%nat -> (i < 5)%nat).
      simpl. intros i H. lia. }
  destruct (side_by_side_twice Examples.no_style Examples.no_innerText
              (Examples.settings 20 "side-by-side")
              (Examples.start Examples.two_prices 5) _ _
              W eq_refl eq_refl eq_refl eq_refl eq_refl
              ltac:(vm_compute; reflexivity) ltac:(vm_compute; reflexivity)
              ltac:(vm_compute; discriminate))
    as (H1 & _ & _ & H4 & H5 & _).
  split; [exact H1|]. split; [exact H4|].
  apply H5. vm_compute. auto.
Defined.
